(* ===== verification/_CoqProject ===== *)
-Q . S2P
Prelude.v
NetTypes.v
Configuration.v
State.v
Network.v
NetFacts.v
FlowControl.v
SessionLayer.v
Demo.v
Ring.v
Delivery.v
DeliveryFacts.v
MembSets.v
Discard.v
Order.v
TokenLoss.v
Form1.v
Membership.v
Receive.v
ReceiveProps.v
Send.v
SendProps.v
Token.v
TokenBody.v
TokenProps.v
TokenOrder.v
TokenNumber.v
Protocol.v
Machine.v
MachineProps.v
MachineRuns.v
SetsProps.v
Stdutil.v
Message.v
SessState.v
Sessions.v
Acm.v
SessAuth.v
SessAccept.v
Groups.v
GroupsMess.v
GroupsHandle.v
GroupsMemb.v
SessionC.v
SessRead.v
SessFrames.v
HandlerFrames.v
HandlerStops.v
SklFacts.v
GroupsOrder.v
GroupsSpec.v
GroupsDemo.v
GroupsJoin.v
GroupsLeave.v
GroupsStates.v
GroupsBufs.v
GroupsSets.v
AuthProps.v
ReadProps.v
ReadStream.v
SessTable.v
TableRuns.v
SessWrite.v
ConfigState.v
ConfigParse.v
ConfigLoad.v
ConfigDemo.v
ConfigDaemon.v
ConfigProps.v
ConfigReload.v
AccessFiles.v
AccessProps.v
Monitor.v
MonitorProps.v
MonitorNet.v
NetInit.v
NetInitProps.v
Spread.v
StartProps.v
SpreadProps.v
