(* ===== verification/Prelude.v ===== *)
(** * Spread daemon: a verification library

    The repository is the Spread 5.0.1 group communication toolkit: a daemon in C
    (src/daemon) and a small Java client of it (src/src).  The daemons of a
    configuration form a ring around which a token goes; who has it sends, and
    the token carries what is needed to order, repair, deliver and discard
    packets.  Below the ring is the membership algorithm, which builds a new ring
    when daemons come, go, or are cut off; above it the sessions of the local
    clients and the groups they join.  This library models these three layers, how
    the daemon reads its configuration and starts, and the program an operator watches
    and partitions daemons with, as the code has them, and proves what makes each
    correct.

    ** How a definition reads

    A C function is a function of the monad [M St] of this file: it takes the
    state of the daemon and returns a value and the new state, or a failure.  The
    state ([State.St]) is one record of the daemon's file-scope variables;
    what sessions and groups keep is a second record ([SessState.sess_st]) that
    stands in a field of it.  The failures are [Fatal] (an [assert], an [Alarm] of
    kind EXIT or FATAL: the process ends), [Undefined] (C gives no meaning: an
    index outside an array, a null pointer, bytes past the end of a message) and
    [OutOfFuel] (a loop that was cut).  [wp E m Q s] says that [m] run
    from [s] ends in [Q] or fails as [E] allows; [total] allows nothing, [may_exit]
    a [Fatal], [ends] anything but [OutOfFuel], [partial] everything.

    - An [int] is a [Z]; what is assigned to a narrower or an unsigned type is
      wrapped there ([i16], [u32], ...).  A signed overflow is undefined in C and
      is not wrapped, except where a theorem is about it ([G_compare_memb_ids]).
    - A buffer is the list of the bytes written; unwritten ones read as 0.  The
      host is little endian, as config.h has it.
    - Pointers to a shared object are its key: a group is the group of that name, a
      session its index in [Sessions], a packet in the broadcast queue its
      sequence number in [Packets].  Linked lists are lists; a count kept beside a
      list is its length.  Allocation and reference counts are left out.
    - libspread-util (events, memory, alarms) and the operating system are outside
      the repository.  What the daemon asks of them is recorded in [trace]; what
      they answer is a parameter that may depend on the whole trace ([SpuLib],
      [SessLib.returns], [received], [accepted]).  Their documented behaviour, where
      a theorem needs it, is a hypothesis ([StdutilLaws] for the skip lists of
      libstdutil, [client_alive] and [send_bounded] for a connection).
    - Alarms that only print, the status counters nobody reads, and the code under
      [#ifdef] for other systems are left out.

    ** The parts

    - NetTypes: net_types.h, arch.h, spread_params.h - headers, type words,
      byte flips.  Configuration: the queries of configuration.c.  State: the state.
    - Network, NetFacts, Ring: network.c - sending, receiving, the ring of the token.
    - FlowControl, Delivery, DeliveryFacts, Discard, Order, Receive, ReceiveProps,
      Send, SendProps, Token, TokenBody, TokenProps, TokenOrder,
      TokenNumber, Protocol: flow_control.c and protocol.c.
    - MembSets, SetsProps, TokenLoss, Form1, Membership, Machine, MachineProps,
      MachineRuns: membership.c.
    - SessionLayer: the interface between the protocol and what is above it, and
      its laws.  The theorems on the protocol are proved against it; which messages
      they hand up, and in which order, is [delivered] there and [passed_up] in
      DeliveryFacts, for every session layer.
    - Message: message.c.  Stdutil, SklFacts: the skip lists.  SessState: the state
      of session.c and groups.c.
    - Sessions, SessAccept, SessAuth, SessRead, SessionC: session.c.  Acm: acm.c,
      acp-permit.c and the checks of auth-ip.c and auth-pword.c.
    - Groups, GroupsMess, GroupsHandle, GroupsMemb: groups.c; what holds of
      it is in GroupsSpec, GroupsJoin, GroupsLeave, GroupsStates, GroupsBufs, GroupsSets,
      GroupsOrder.
    - SessFrames, HandlerFrames, HandlerStops: that the sessions and
      groups keep the laws of SessionLayer ([Session_c] is an instance), so that the
      theorems on the protocol hold for the daemon as a whole.
    - AuthProps: who may connect.  SessTable, TableRuns: the table of sessions.
      ReadProps, ReadStream, SessWrite: what a client's bytes become and
      what it is sent.  Demo, GroupsDemo: the concrete daemons the witnesses run.
    - ConfigState, ConfigParse: the actions of the grammar of config_parse.y and the
      setters of configuration.c, over the syntax tree of a file; the state is
      [load_st], the arrays of the configuration beside the daemon's [St].  ConfigLoad:
      [Conf_init], [Conf_load_conf_file] and [Conf_reload_initiate].  ConfigDaemon,
      ConfigProps, ConfigReload: what holds of them.  ConfigDemo: files of two
      segments.
    - NetInit, NetInitProps: [Net_init] of network.c, which opens the channels.
      AccessFiles, AccessProps: the files of auth-ip.c and auth-pword.c.  Spread,
      StartProps, SpreadProps: [Sess_init] of session.c, and spread.c: the command line
      and [main] up to the event loop, composed of all the above.
    - Monitor: monitor.c, a program of its own beside the daemon, with the state
      [mon_st], of which configuration.c ([load_st]) is a part.  MonitorProps: its runs.
      MonitorNet: its datagrams, put through the daemon's [Net_recv] and
      [FC_handle_message].

    A function of a C file has the C name; a part of a long function has a name of
    its own, in the order of the code above the function it is a part of.

    ** What the theorems show

    - The token (TokenProps, TokenOrder, TokenNumber, TokenBody, Ring): what a daemon
      takes as received by all was received by all; a token is taken once; a visit
      keeps the packets in order and within the windows; requests name exactly what
      is missing.
    - Order (Order, ReceiveProps): packets are inserted once, delivered in agreed
      order without gaps, not past an undeliverable SAFE packet, and discarded only
      when all have them; the session layer is given exactly the messages of the
      packets that were not delivered yet, in their order.  The state EVS, where a ring
      is recovered, is left out of these theorems.
    - Membership (MachineRuns, SetsProps): in all reachable states the armed timers
      are those of the state, events move along the diagram of the six states, and no
      state is a dead end.
    - Groups: joins, leaves and disconnections change exactly the membership they
      name; the algorithm follows its diagram; the state exchange sends every entry
      once in buffers that fit, and the building of the buffers ends - unless a daemon
      has as many members in a group as the code allows (a finding).
    - Sessions: the table of sessions stays sorted, unique and consistent with its
      hash table and free list; a session is operational only if all required checks
      passed and the policy allows it; a client's bytes, however they come, are put
      together to its messages, header and body, and what a client is sent is the
      messages queued for it, in order.
    - The configuration (ConfigProps, ConfigReload): what a file describes is what
      the daemon has, well formed, with ids, names and addresses distinct; over all
      reloads the daemon stays itself, and the daemons stay together exactly if nothing
      about those that remain has changed.  An id that an earlier load left in the array
      is taken over, and too many daemons or segments are written past the arrays before
      they are refused (findings): the theorems say so.

    - The start (SpreadProps, NetInitProps, AccessProps): [main] reaches its event loop
      with a well-formed configuration that has the daemon in it, the rules the access
      file lists, the protocol as [Prot_init] starts it, and a socket for each interface
      of the clients - or the process ends; a daemon of root has given up its rights.
    - The monitor (MonitorProps, MonitorNet): a partition that is typed is the one the
      daemons are in, the windows sent are those used, only chosen daemons are ended;
      every run stays within the arrays, with the exceptions the theorem names (findings).

    ** Bounds and fuel

    Loops over a list or a counter are structural.  [while_fuel] cuts the others: at
    the number of steps its measure allows, where a theorem shows the loop ends
    ([wp_while]); [name_tries] = 1000 for the drawing of a random name, which ends
    only with probability one; [bufs_fuel] for the GROUPS buffers.  The theorems
    with [total] include that the fuel is enough.

    ** Not modelled

    The lexer of the configuration file and the generated tables of its parser
    (lex.yy.c, y.tab.c), that the file is found, and the parameters that only choose
    what is printed; in the protocol the new configuration of a reload is a parameter;
    the addresses of the machine (ip_enum.c), which are given; the routing masks of the
    fourth protocol version, empty in this one; the functions that only print (log.c,
    the answers to status queries in status.c and [Report_message] in monitor.c,
    Conf_print, G_print); the builds with threads of the monitor; the test tools r.c and
    s.c, the Windows service; the Java client, which shares no code with the daemon and
    only speaks to it through the client library. *)

From stdpp Require Export base gmap list strings.
From Stdlib Require Export ZArith Lia.
From Stdlib Require Import Sorted.

#[global] Open Scope Z_scope.

(** ** Machine integers

    A C integer is a [Z].  Assignment to a narrow or unsigned type is written
    with the conversion below; [int]/[int32] additions and subtractions are
    done in [Z], since a signed overflow has no defined result in C. *)

Definition u16 (x : Z) : Z := x mod 65536.
Definition u32 (x : Z) : Z := x mod 4294967296.
Definition i16 (x : Z) : Z := (x + 32768) mod 65536 - 32768.
Definition i32 (x : Z) : Z := (x + 2147483648) mod 4294967296 - 2147483648.

Definition is_i16 (x : Z) : Prop := -32768 <= x < 32768.
Definition is_i32 (x : Z) : Prop := -2147483648 <= x < 2147483648.
Definition INT32_MAX : Z := 2147483647.

Lemma u16_range x : 0 <= u16 x < 65536.
Proof. apply Z.mod_pos_bound. lia. Qed.
Lemma u32_range x : 0 <= u32 x < 4294967296.
Proof. apply Z.mod_pos_bound. lia. Qed.
Lemma i16_range x : is_i16 (i16 x).
Proof. unfold is_i16, i16. pose proof (Z.mod_pos_bound (x + 32768) 65536). lia. Qed.
Lemma i32_range x : is_i32 (i32 x).
Proof.
  unfold is_i32, i32. pose proof (Z.mod_pos_bound (x + 2147483648) 4294967296). lia.
Qed.
Lemma i16_id x : is_i16 x -> i16 x = x.
Proof. unfold is_i16, i16. intros. rewrite Z.mod_small; lia. Qed.
Lemma i32_id x : is_i32 x -> i32 x = x.
Proof. unfold is_i32, i32. intros. rewrite Z.mod_small; lia. Qed.
Lemma u16_id x : 0 <= x < 65536 -> u16 x = x.
Proof. intros. apply Z.mod_small. lia. Qed.
Lemma i16_u16 x : i16 (u16 x) = i16 x.
Proof. unfold i16, u16. by rewrite Zplus_mod_idemp_l. Qed.
Lemma i32_u32 x : i32 (u32 x) = i32 x.
Proof. unfold i32, u32. by rewrite Zplus_mod_idemp_l. Qed.
Lemma u16_i16 x : u16 (i16 x) = u16 x.
Proof. unfold i16, u16. rewrite Zminus_mod_idemp_l. f_equal. lia. Qed.
Lemma u32_i32 x : u32 (i32 x) = u32 x.
Proof. unfold i32, u32. rewrite Zminus_mod_idemp_l. f_equal. lia. Qed.

(** A C [int] used as a truth value. *)
Definition truth (x : Z) : bool := negb (x =? 0).

(** ** Integer ranges: the values taken by [for (i = a; i <= b; i++)]. *)

Fixpoint zseq (a : Z) (n : nat) : list Z :=
  match n with
  | O => []
  | S n => a :: zseq (a + 1) n
  end.

Definition zrange (a b : Z) : list Z := zseq a (Z.to_nat (b - a + 1)).

Lemma zseq_length a n : length (zseq a n) = n.
Proof. revert a. induction n; intros; simpl; congruence. Qed.

Lemma elem_of_zseq a n x : x ∈ zseq a n <-> a <= x < a + Z.of_nat n.
Proof.
  revert a. induction n as [|n IH]; intros a; cbn [zseq].
  - split; [by intros ?%elem_of_nil | lia].
  - rewrite elem_of_cons, IH. lia.
Qed.

Lemma elem_of_zrange a b x : x ∈ zrange a b <-> a <= x <= b.
Proof. unfold zrange. rewrite elem_of_zseq. lia. Qed.

Lemma zrange_nil a b : b < a -> zrange a b = [].
Proof. intros. unfold zrange. by replace (Z.to_nat (b - a + 1)) with O by lia. Qed.

Lemma zrange_cons a b : a <= b -> zrange a b = a :: zrange (a + 1) b.
Proof.
  intros. unfold zrange.
  replace (Z.to_nat (b - a + 1)) with (S (Z.to_nat (b - (a + 1) + 1))) by lia.
  done.
Qed.

Lemma zseq_app a n m : zseq a (n + m) = zseq a n ++ zseq (a + Z.of_nat n) m.
Proof.
  revert a. induction n as [|n IH]; intros a; cbn [zseq Nat.add app].
  - f_equal. lia.
  - f_equal. rewrite IH. do 2 f_equal. lia.
Qed.

Lemma zrange_split a b c :
  a <= b + 1 -> b <= c -> zrange a c = zrange a b ++ zrange (b + 1) c.
Proof.
  intros. unfold zrange.
  replace (Z.to_nat (c - a + 1))
    with (Z.to_nat (b - a + 1) + Z.to_nat (c - (b + 1) + 1))%nat by lia.
  rewrite zseq_app. do 2 f_equal. lia.
Qed.

Lemma zrange_snoc a b : a <= b + 1 -> zrange a (b + 1) = zrange a b ++ [b + 1].
Proof.
  intros. rewrite (zrange_split a b (b + 1)) by lia.
  f_equal. rewrite zrange_cons, zrange_nil by lia. done.
Qed.

Lemma zseq_NoDup a n : NoDup (zseq a n).
Proof.
  revert a. induction n as [|n IH]; intros a; cbn [zseq]; constructor; [|apply IH].
  rewrite elem_of_zseq. lia.
Qed.

(** Boolean comparisons as propositions, then arithmetic. *)
Ltac bools_to_props :=
  repeat match goal with
  | H : negb _ = true |- _ => apply negb_true_iff in H
  | H : negb _ = false |- _ => apply negb_false_iff in H
  | H : (_ && _) = true |- _ => apply andb_true_iff in H as [? ?]
  | H : (_ || _) = false |- _ => apply orb_false_iff in H as [? ?]
  | H : (_ <? _) = true |- _ => apply Z.ltb_lt in H
  | H : (_ <? _) = false |- _ => apply Z.ltb_ge in H
  | H : (_ <=? _) = true |- _ => apply Z.leb_le in H
  | H : (_ <=? _) = false |- _ => apply Z.leb_gt in H
  | H : (_ =? _) = true |- _ => apply Z.eqb_eq in H
  | H : (_ =? _) = false |- _ => apply Z.eqb_neq in H
  end.
Ltac blia := bools_to_props; first [lia | exfalso; lia].

(** The loops [for (i = a; i <= b; i++)] that count while a test holds. *)
Fixpoint count_while (P : Z -> bool) (l : list Z) (n : Z) : Z :=
  match l with
  | [] => n
  | i :: l => if P i then count_while P l (n + 1) else n
  end.

Lemma count_while_zseq P a n (k : nat) :
  exists j : nat, (j <= k)%nat /\ count_while P (zseq a k) n = n + Z.of_nat j /\
    (forall i, a <= i < a + Z.of_nat j -> P i = true) /\
    ((j < k)%nat -> P (a + Z.of_nat j) = false).
Proof.
  revert a n. induction k as [|k IH]; intros a n; cbn [zseq count_while].
  { exists O. repeat split; lia. }
  destruct (P a) eqn:Ha.
  - destruct (IH (a + 1) (n + 1)) as (j & Hj & Hc & Ht & Hf). exists (S j).
    repeat split; [lia|rewrite Hc; lia| |].
    + intros i Hi. destruct (Z.eq_dec i a) as [->|]; [done|]. apply Ht. lia.
    + intros Hk. replace (a + Z.of_nat (S j)) with (a + 1 + Z.of_nat j) by lia. apply Hf. lia.
  - exists O. repeat split; try lia. by rewrite Z.add_0_r.
Qed.

Lemma count_while_zrange P a b n :
  a <= b + 1 ->
  exists j, 0 <= j <= b + 1 - a /\ count_while P (zrange a b) n = n + j /\
    (forall i, a <= i < a + j -> P i = true) /\ (a + j <= b -> P (a + j) = false).
Proof.
  intros Hab. unfold zrange.
  destruct (count_while_zseq P a n (Z.to_nat (b - a + 1))) as (j & Hj & Hc & Ht & Hf).
  exists (Z.of_nat j). repeat split; [lia|lia|done|done|]. intros. apply Hf. lia.
Qed.

(** ** Sorted lists, and lists without doubles *)

Lemma StronglySorted_snoc {A} (R : relation A) l x :
  StronglySorted R l -> Forall (fun a => R a x) l -> StronglySorted R (l ++ [x]).
Proof.
  induction 1 as [|a l Hs IH Ha]; intros HF; [repeat constructor|].
  apply Forall_cons in HF as [Hx HF]. cbn. constructor; [by apply IH|].
  apply Forall_app. by split; [|constructor].
Qed.

Lemma NoDup_map_unique {A B} (f : A -> B) l i j :
  NoDup (map f l) -> i ∈ l -> j ∈ l -> f i = f j -> i = j.
Proof.
  induction l as [|k l IH]; cbn [map]; [intros _ H; by apply elem_of_nil in H|].
  intros [Hk Hl]%NoDup_cons Hi Hj E. apply elem_of_cons in Hi, Hj.
  assert (Hn : forall m, m ∈ l -> f m <> f k).
  { intros m Hm Em. apply Hk. rewrite <-Em. by apply list_elem_of_fmap_2. }
  destruct Hi as [-> |Hi], Hj as [-> |Hj]; [done| | |by apply IH].
  - by destruct (Hn j Hj).
  - by destruct (Hn i Hi).
Qed.

(** ** Outcomes, and the monad of the daemon's code

    A call returns normally, or fails: [Fatal] is an [Alarmp(SPLOG_FATAL, ..)]
    or [Alarm(EXIT, ..)], after which the process does not go on; [Undefined]
    is an access that C gives no meaning to (an index outside an array, a
    negative [memcpy] length, a null pointer); [OutOfFuel] is a loop of the
    model cut by its fuel. *)

Inductive failure := Fatal | Undefined | OutOfFuel.
#[global] Instance failure_eq_dec : EqDecision failure.
Proof. solve_decision. Defined.

Inductive outcome (S A : Type) :=
| Ok (a : A) (s : S)
| Fail (e : failure).
Arguments Ok {S A} a s.
Arguments Fail {S A} e.

Definition M (S A : Type) : Type := S -> outcome S A.

#[global] Instance M_ret {S} : MRet (M S) := fun A a s => Ok a s.
#[global] Instance M_bind {S} : MBind (M S) := fun A B f m s =>
  match m s with Ok a s' => f a s' | Fail e => Fail e end.
#[global] Instance M_fmap {S} : FMap (M S) := fun A B f m s =>
  match m s with Ok a s' => Ok (f a) s' | Fail e => Fail e end.

Section Ops.
Context {S : Type}.

Definition fail {A} (e : failure) : M S A := fun _ => Fail e.
Definition fatal {A} : M S A := fail Fatal.
Definition undefined {A} : M S A := fail Undefined.
Definition gets {A} (f : S -> A) : M S A := fun s => Ok (f s) s.
Definition modify (f : S -> S) : M S unit := fun s => Ok tt (f s).

(** [if (c) m], and a check that ends the process. *)
Definition when (c : bool) (m : M S unit) : M S unit := if c then m else mret tt.
Definition fatal_if (c : bool) : M S unit := if c then fatal else mret tt.
Definition undef_if (c : bool) : M S unit := if c then undefined else mret tt.
Definition or_fail {A} (e : failure) (o : option A) : M S A :=
  match o with Some a => mret a | None => fail e end.

(** A [for] loop over the values [l] of its index; the body says whether the
    loop goes on ([true]) or is left by a [break] ([false]).  The result
    says whether the loop ran to its end. *)
Fixpoint for_break (l : list Z) (body : Z -> M S bool) : M S bool :=
  match l with
  | [] => mret true
  | i :: l => c ← body i; if c : bool then for_break l body else mret false
  end.

Fixpoint for_each {A} (l : list A) (body : A -> M S unit) : M S unit :=
  match l with
  | [] => mret tt
  | i :: l => body i;; for_each l body
  end.

(** A loop that carries local variables [x]. *)
Fixpoint for_fold {A B} (l : list A) (x : B) (body : A -> B -> M S B) : M S B :=
  match l with
  | [] => mret x
  | i :: l => x' ← body i x; for_fold l x' body
  end.

(** A [while] loop: [body] returns the next local state, or [None] on exit. *)
Fixpoint while_fuel {L R} (fuel : nat) (body : L -> M S (L + R)) (x : L) : M S R :=
  match fuel with
  | O => fail OutOfFuel
  | Datatypes.S n =>
      r ← body x;
      match r with inl x' => while_fuel n body x' | inr r => mret r end
  end.
End Ops.

(** ** Weakest preconditions

    [wp E m Q s]: from [s], [m] either returns with [Q] or fails with a failure
    that [E] allows. *)

Definition wp {S A} (E : failure -> Prop) (m : M S A) (Q : A -> S -> Prop) (s : S) : Prop :=
  match m s with Ok a s' => Q a s' | Fail e => E e end.

(** The three failure conditions used: none; only a [Fatal] exit; any. *)
Definition total (e : failure) : Prop := False.
Definition may_exit (e : failure) : Prop := e = Fatal.
Definition partial (e : failure) : Prop := True.
(** Any failure but running out of fuel: the loops of the code end. *)
Definition ends (e : failure) : Prop := e <> OutOfFuel.
Lemma ends_Fatal : ends Fatal. Proof. done. Qed.
Lemma ends_Undefined : ends Undefined. Proof. done. Qed.
#[export] Hint Resolve ends_Fatal ends_Undefined : core.

Section Wp.
Context {S : Type}.
Implicit Types (E : failure -> Prop) (s : S).

Lemma wp_mono {A} E (m : M S A) (Q Q' : A -> S -> Prop) s :
  wp E m Q s -> (forall a s', Q a s' -> Q' a s') -> wp E m Q' s.
Proof. unfold wp. destruct (m s); eauto. Qed.

(** What is known of the result by computation may be used for it. *)
Lemma wp_conj {A} E (m : M S A) (Q Q' : A -> S -> Prop) s :
  wp E m Q s -> wp partial m Q' s -> wp E m (fun a s' => Q a s' /\ Q' a s') s.
Proof. unfold wp. destruct (m s); eauto. Qed.

(** A property of the whole result, returned or failed. *)
Lemma wp_result {A} (G : outcome S A -> Prop) (m : M S A) s :
  wp (fun e => G (Fail e)) m (fun a s' => G (Ok a s')) s <-> G (m s).
Proof. unfold wp. by destruct (m s). Qed.

Lemma wp_weaken {A} E (m : M S A) (Q : A -> S -> Prop) s :
  wp E m Q s -> wp partial m Q s.
Proof. unfold wp, partial. destruct (m s); done. Qed.

Lemma wp_allow {A} (E E' : failure -> Prop) (m : M S A) (Q : A -> S -> Prop) s :
  (forall e, E e -> E' e) -> wp E m Q s -> wp E' m Q s.
Proof. unfold wp. intros H. destruct (m s); [done|apply H]. Qed.

Lemma wp_total_exit {A} (m : M S A) (Q : A -> S -> Prop) s :
  wp total m Q s -> wp may_exit m Q s.
Proof. unfold wp, total. destruct (m s); [done|intros []]. Qed.

Lemma wp_total_any {A} E (m : M S A) (Q : A -> S -> Prop) s :
  wp total m Q s -> wp E m Q s.
Proof. unfold wp, total. destruct (m s); [done|intros []]. Qed.

Lemma wp_ok {A} E (m : M S A) (Q : A -> S -> Prop) s a s' :
  wp E m Q s -> m s = Ok a s' -> Q a s'.
Proof. unfold wp. intros H Hm. by rewrite Hm in H. Qed.

Lemma wp_returns {A} E (m : M S A) (Q : A -> S -> Prop) s a s' :
  m s = Ok a s' -> Q a s' -> wp E m Q s.
Proof. unfold wp. by intros ->. Qed.

Lemma wp_intro {A} (m : M S A) (Q : A -> S -> Prop) s :
  (forall a s', m s = Ok a s' -> Q a s') -> wp partial m Q s.
Proof. unfold wp, partial. destruct (m s); eauto. Qed.

Lemma wp_total_ex {A} (m : M S A) (Q : A -> S -> Prop) s :
  wp total m Q s -> exists a s', m s = Ok a s' /\ Q a s'.
Proof. unfold wp, total. destruct (m s); [eauto | done]. Qed.

Lemma wp_fails {A} E (m : M S A) s : wp E m (fun _ _ => False) s -> exists e, m s = Fail e /\ E e.
Proof. unfold wp. destruct (m s); [done|eauto]. Qed.

(** Two programs that do the same from [s]. *)
Lemma wp_eq {A} E (m m' : M S A) (Q : A -> S -> Prop) s :
  m s = m' s -> wp E m' Q s -> wp E m Q s.
Proof. unfold wp. by intros ->. Qed.

Lemma wp_ret {A} E (a : A) (Q : A -> S -> Prop) s : Q a s -> wp E (mret a) Q s.
Proof. done. Qed.

Lemma wp_bind {A B} E (m : M S A) (f : A -> M S B) (Q : B -> S -> Prop) s :
  wp E m (fun a s' => wp E (f a) Q s') s -> wp E (mbind f m) Q s.
Proof. unfold wp, mbind, M_bind. by destruct (m s). Qed.

Lemma wp_gets {A} E (f : S -> A) (Q : A -> S -> Prop) s : Q (f s) s -> wp E (gets f) Q s.
Proof. done. Qed.

Lemma wp_modify E (f : S -> S) (Q : unit -> S -> Prop) s : Q tt (f s) -> wp E (modify f) Q s.
Proof. done. Qed.

Lemma wp_fail {A} E e (Q : A -> S -> Prop) s : E e -> wp E (fail e) Q s.
Proof. done. Qed.

Lemma wp_fatal {A} (E : failure -> Prop) (Q : A -> S -> Prop) s :
  E Fatal -> wp E fatal Q s.
Proof. done. Qed.

Lemma wp_when E (c : bool) m (Q : unit -> S -> Prop) s :
  (c = true -> wp E m Q s) -> (c = false -> Q tt s) -> wp E (when c m) Q s.
Proof. unfold when. destruct c; intros; [auto|apply wp_ret; auto]. Qed.

Lemma wp_if {A} E (c : bool) (m1 m2 : M S A) (Q : A -> S -> Prop) s :
  (c = true -> wp E m1 Q s) -> (c = false -> wp E m2 Q s) ->
  wp E (if c then m1 else m2) Q s.
Proof. destruct c; eauto. Qed.

Lemma wp_fatal_if (E : failure -> Prop) (c : bool) (Q : unit -> S -> Prop) s :
  (c = true -> E Fatal) -> (c = false -> Q tt s) -> wp E (fatal_if c) Q s.
Proof. unfold fatal_if. destruct c; intros; [apply wp_fatal|apply wp_ret]; auto. Qed.

Lemma wp_undef_if (E : failure -> Prop) (c : bool) (Q : unit -> S -> Prop) s :
  (c = true -> E Undefined) -> (c = false -> Q tt s) -> wp E (undef_if c) Q s.
Proof. unfold undef_if. destruct c; intros; [apply wp_fail|apply wp_ret]; auto. Qed.

Lemma wp_or_fail {A} (E : failure -> Prop) e (o : option A) (Q : A -> S -> Prop) s :
  (o = None -> E e) -> (forall a, o = Some a -> Q a s) -> wp E (or_fail e o) Q s.
Proof. destruct o; intros; [apply wp_ret; eauto | apply wp_fail; eauto]. Qed.

(** Loops by an invariant that speaks of the next index. *)
Lemma wp_for_break E a b (body : Z -> M S bool) (I : Z -> S -> Prop) (Q : bool -> S -> Prop) s :
  a <= b + 1 -> I a s ->
  (forall i s, a <= i <= b -> I i s ->
     wp E (body i) (fun c s' => if c : bool then I (i + 1) s' else Q false s') s) ->
  (forall s, I (b + 1) s -> Q true s) ->
  wp E (for_break (zrange a b) body) Q s.
Proof.
  intros Hab. remember (Z.to_nat (b + 1 - a)) as n eqn:Hn.
  revert a s Hab Hn. induction n as [|n IH]; intros a s Hab Hn HI Hbody Hend.
  - rewrite zrange_nil by lia. replace (b + 1) with a in Hend by lia. by apply Hend.
  - rewrite zrange_cons by lia. cbn [for_break]. apply wp_bind.
    eapply wp_mono; [apply Hbody; [lia|done]|].
    intros [] s' H; [|by apply wp_ret].
    apply IH; [lia | lia | done | | done].
    intros; apply Hbody; [lia|done].
Qed.

Lemma wp_for_range E a b (body : Z -> M S unit) (I : Z -> S -> Prop) (Q : unit -> S -> Prop) s :
  a <= b + 1 -> I a s ->
  (forall i s, a <= i <= b -> I i s -> wp E (body i) (fun _ s' => I (i + 1) s') s) ->
  (forall s, I (b + 1) s -> Q tt s) ->
  wp E (for_each (zrange a b) body) Q s.
Proof.
  intros Hab. remember (Z.to_nat (b + 1 - a)) as n eqn:Hn.
  revert a s Hab Hn. induction n as [|n IH]; intros a s Hab Hn HI Hbody Hend.
  - rewrite zrange_nil by lia. replace (b + 1) with a in Hend by lia. by apply Hend.
  - rewrite zrange_cons by lia. cbn [for_each]. apply wp_bind.
    eapply wp_mono; [apply Hbody; [lia|done]|].
    intros [] s' H. apply IH; [lia | lia | done | | done].
    intros; apply Hbody; [lia|done].
Qed.

(** Loops over any list, by an invariant that does not depend on the index. *)
Lemma wp_for_each {A} E (l : list A) body (I : S -> Prop) s :
  I s -> (forall i s, i ∈ l -> I s -> wp E (body i) (fun _ => I) s) ->
  wp E (for_each l body) (fun _ => I) s.
Proof.
  intros HI Hb. revert s HI Hb. induction l as [|i l IH]; intros s HI Hb; [by apply wp_ret|].
  cbn [for_each]. apply wp_bind. eapply wp_mono; [apply Hb; [by left|done]|].
  intros [] s' H. apply IH; [done|]. intros; apply Hb; [by right|done].
Qed.

(** With an invariant on the elements done and to do. *)
Lemma wp_for_fold_split {A B} E (l : list A) (x : B) (body : A -> B -> M S B)
    (I : list A -> list A -> B -> S -> Prop) s :
  I [] l x s ->
  (forall pre i post x s, l = pre ++ i :: post -> I pre (i :: post) x s ->
     wp E (body i x) (I (pre ++ [i]) post) s) ->
  wp E (for_fold l x body) (I l []) s.
Proof.
  intros HI Hb. enough (forall post pre x s, l = pre ++ post -> I pre post x s ->
    wp E (for_fold post x body) (I l []) s) as H by exact (H l [] x s eq_refl HI). clear HI x s.
  induction post as [|i post IH]; intros pre x s Hl HI.
  - apply wp_ret. rewrite app_nil_r in Hl. by subst.
  - cbn [for_fold]. apply wp_bind. eapply wp_mono; [by apply Hb|].
    intros x' s' H. apply (IH (pre ++ [i])); [by rewrite <-app_assoc|done].
Qed.

(** With an invariant on the elements done so far. *)
Lemma wp_for_each_prefix {A} E (l : list A) body (I : list A -> S -> Prop) s :
  I [] s -> (forall pre i s, i ∈ l -> I pre s -> wp E (body i) (fun _ => I (pre ++ [i])) s) ->
  wp E (for_each l body) (fun _ => I l) s.
Proof.
  intros HI Hb. enough (forall pre s, I pre s -> wp E (for_each l body) (fun _ => I (pre ++ l)) s)
    as H by exact (H [] s HI). clear HI s.
  induction l as [|i l IH]; intros pre s HI; [apply wp_ret; by rewrite app_nil_r|].
  cbn [for_each]. apply wp_bind. eapply wp_mono; [apply Hb; [by left|exact HI]|].
  intros [] s' H. replace (pre ++ i :: l) with ((pre ++ [i]) ++ l) by by rewrite <-app_assoc.
  apply IH; [|done]. intros; apply Hb; [by right|done].
Qed.

Lemma wp_for_break_inv E (l : list Z) body (I : S -> Prop) s :
  I s -> (forall i s, i ∈ l -> I s -> wp E (body i) (fun _ => I) s) ->
  wp E (for_break l body) (fun _ => I) s.
Proof.
  intros HI Hb. revert s HI Hb. induction l as [|i l IH]; intros s HI Hb; [by apply wp_ret|].
  cbn [for_break]. apply wp_bind. eapply wp_mono; [apply Hb; [by left|done]|].
  intros [] s' H; [|by apply wp_ret].
  apply IH; [done|]. intros; apply Hb; [by right|done].
Qed.

Lemma wp_for_fold E {B} a b (x : B) (body : Z -> B -> M S B) (I : Z -> B -> S -> Prop)
    (Q : B -> S -> Prop) s :
  a <= b + 1 -> I a x s ->
  (forall i x s, a <= i <= b -> I i x s -> wp E (body i x) (I (i + 1)) s) ->
  (forall x s, I (b + 1) x s -> Q x s) ->
  wp E (for_fold (zrange a b) x body) Q s.
Proof.
  intros Hab. remember (Z.to_nat (b + 1 - a)) as n eqn:Hn.
  revert a x s Hab Hn. induction n as [|n IH]; intros a x s Hab Hn HI Hbody Hend.
  - rewrite zrange_nil by lia. replace (b + 1) with a in Hend by lia. by apply Hend.
  - rewrite zrange_cons by lia. cbn [for_fold]. apply wp_bind.
    eapply wp_mono; [apply Hbody; [lia|done]|].
    intros x' s' H. apply IH; [lia | lia | done | | done].
    intros; apply Hbody; [lia|done].
Qed.

(** A [while] loop with a measure below its fuel. *)
Lemma wp_while {L R} E fuel (body : L -> M S (L + R)) (I : L -> S -> Prop)
    (mu : L -> Z) (Q : R -> S -> Prop) x s :
  0 <= mu x < Z.of_nat fuel -> I x s ->
  (forall x s, I x s -> wp E (body x) (fun r s' =>
     match r with inl x' => I x' s' /\ 0 <= mu x' < mu x | inr r => Q r s' end) s) ->
  wp E (while_fuel fuel body x) Q s.
Proof.
  intros Hmu HI Hb. revert x s Hmu HI.
  induction fuel as [|n IH]; intros x s Hmu HI; [lia|].
  cbn [while_fuel]. apply wp_bind. eapply wp_mono; [by apply Hb|].
  intros [x'|r] s' H; [|by apply wp_ret].
  destruct H as [HI' Hmu']. apply IH; [lia|done].
Qed.
End Wp.

#[global] Opaque wp.
#[global] Arguments wp : simpl never.

(** One step of symbolic execution, chosen by the head of the program. *)
Ltac wp_step :=
  lazymatch goal with
  | |- wp _ (mbind _ _) _ _ => apply wp_bind
  | |- wp _ (mret _) _ _ => apply wp_ret
  | |- wp _ (gets _) _ _ => apply wp_gets
  | |- wp _ (modify _) _ _ => apply wp_modify
  | |- wp _ (when _ _) _ _ => apply wp_when; intros
  | |- wp _ (fatal_if _) _ _ => apply wp_fatal_if; intros
  | |- wp _ (undef_if _) _ _ => apply wp_undef_if; intros
  | |- wp _ (or_fail _ _) _ _ => apply wp_or_fail; intros
  | |- wp _ fatal _ _ => apply wp_fatal
  | |- wp _ undefined _ _ => apply wp_fail
  | |- wp _ (fail _) _ _ => apply wp_fail
  | |- wp _ (if _ then _ else _) _ _ => apply wp_if; intros
  end.

(** ** Frames: [m] leaves the part [f] of the state unchanged. *)

Definition frame {S T A} (f : S -> T) (m : M S A) : Prop :=
  forall s a s', m s = Ok a s' -> f s' = f s.

Section Frame.
Context {S T : Type} (f : S -> T).

Lemma frame_ret {A} (a : A) : frame f (mret a).
Proof. by intros ??? [= _ <-]. Qed.
Lemma frame_fail {A} e : frame f (fail (A:=A) e).
Proof. by intros ???. Qed.
Lemma frame_gets {A} (g : S -> A) : frame f (gets g).
Proof. by intros ??? [= _ <-]. Qed.
Lemma frame_modify g : (forall s, f (g s) = f s) -> frame f (modify g).
Proof. by intros H ??? [= _ <-]. Qed.
Lemma frame_bind {A B} (m : M S A) (k : A -> M S B) :
  frame f m -> (forall a, frame f (k a)) -> frame f (mbind k m).
Proof.
  intros Hm Hk s b s'. unfold mbind, M_bind.
  destruct (m s) as [a s1|] eqn:E; [|done].
  intros ?%Hk. apply Hm in E. congruence.
Qed.
Lemma frame_if {A} (c : bool) (m1 m2 : M S A) :
  frame f m1 -> frame f m2 -> frame f (if c then m1 else m2).
Proof. by destruct c. Qed.
Lemma frame_when (c : bool) m : frame f m -> frame f (when c m).
Proof. intros. apply frame_if; [done|apply frame_ret]. Qed.
Lemma frame_fatal_if c : frame f (fatal_if c).
Proof. destruct c; [apply frame_fail|apply frame_ret]. Qed.
Lemma frame_undef_if c : frame f (undef_if c).
Proof. destruct c; [apply frame_fail|apply frame_ret]. Qed.
Lemma frame_or_fail {A} e (o : option A) : frame f (or_fail e o).
Proof. destruct o; [apply frame_ret|apply frame_fail]. Qed.
Lemma frame_for_each {A} (l : list A) b : (forall i, frame f (b i)) -> frame f (for_each l b).
Proof.
  intros Hb. induction l; [apply frame_ret|]. apply frame_bind; [apply Hb|done].
Qed.
Lemma frame_for_break l b : (forall i, frame f (b i)) -> frame f (for_break l b).
Proof.
  intros Hb. induction l; [apply frame_ret|]. apply frame_bind; [apply Hb|].
  intros []; [done|apply frame_ret].
Qed.
Lemma frame_for_fold {A B} (l : list A) (x : B) b :
  (forall i x, frame f (b i x)) -> frame f (for_fold l x b).
Proof.
  intros Hb. revert x. induction l; intros x; [apply frame_ret|].
  apply frame_bind; [apply Hb|done].
Qed.
Lemma frame_while {L R} n (b : L -> M S (L + R)) x :
  (forall x, frame f (b x)) -> frame f (while_fuel n b x).
Proof.
  intros Hb. revert x. induction n; intros x; [apply frame_fail|].
  apply frame_bind; [apply Hb|]. intros [?|?]; [apply IHn|apply frame_ret].
Qed.
Lemma frame_wp {A} (m : M S A) s : frame f m -> wp partial m (fun _ s' => f s' = f s) s.
Proof. intros H. apply wp_intro. intros a s' E. by eapply H. Qed.
Lemma frame_wp_conj {A} E (m : M S A) (Q : A -> S -> Prop) s :
  frame f m -> wp E m (fun a s' => f s' = f s -> Q a s') s -> wp E m Q s.
Proof.
  intros Hf Hw. eapply wp_mono; [apply (wp_conj _ _ _ _ _ Hw (frame_wp m s Hf))|].
  intros a s' [H1 H2]. auto.
Qed.
End Frame.

Lemma frame_compose {S T U A} (f : S -> T) (g : T -> U) (m : M S A) :
  frame f m -> frame (fun s => g (f s)) m.
Proof. intros H s a s' E. by rewrite (H s a s' E). Qed.

Create HintDb frame discriminated.
#[export] Hint Resolve frame_ret frame_fail frame_gets frame_fatal_if frame_undef_if
  frame_or_fail : frame.
#[export] Hint Extern 1 (frame _ fatal) => apply frame_fail : frame.
#[export] Hint Extern 1 (frame _ undefined) => apply frame_fail : frame.

(** Walk through a program, closing its leaves with the [frame] hints. *)
Ltac frame_step :=
  lazymatch goal with
  | |- frame _ (mbind _ _) => apply frame_bind; [|intros]
  | |- frame _ (when _ _) => apply frame_when
  | |- frame _ (for_each _ _) => apply frame_for_each; intros
  | |- frame _ (for_break _ _) => apply frame_for_break; intros
  | |- frame _ (for_fold _ _ _) => apply frame_for_fold; intros
  | |- frame _ (while_fuel _ _ _) => apply frame_while; intros
  | |- frame _ (modify _) => apply frame_modify; intros; reflexivity
  | |- frame _ (if ?c then _ else _) => destruct c
  | |- frame _ (match ?x with _ => _ end) => destruct x
  end.
Ltac solve_frame := repeat first [ solve [eauto 2 with frame nocore] | frame_step ].

(** ** Programs that end: whatever the state, they return or fail, but do not run
    out of fuel. *)

Definition stops {S A} (m : M S A) : Prop := forall s, wp ends m (fun _ _ => True) s.

Section Stops.
Context {S : Type}.

Lemma stops_ret {A} (a : A) : stops (S:=S) (mret a).
Proof. by intros s. Qed.
Lemma stops_gets {A} (g : S -> A) : stops (gets g).
Proof. by intros s. Qed.
Lemma stops_modify (g : S -> S) : stops (modify g).
Proof. by intros s. Qed.
Lemma stops_fatal {A} : stops (S:=S) (A:=A) fatal.
Proof. intros s. by wp_step. Qed.
Lemma stops_undefined {A} : stops (S:=S) (A:=A) undefined.
Proof. intros s. apply wp_fail. done. Qed.
Lemma stops_fatal_if c : stops (S:=S) (fatal_if c).
Proof. intros s. by wp_step. Qed.
Lemma stops_undef_if c : stops (S:=S) (undef_if c).
Proof. intros s. by wp_step. Qed.
Lemma stops_or_fatal {A} (o : option A) : stops (S:=S) (or_fail Fatal o).
Proof. intros s. by wp_step. Qed.
Lemma stops_or_undefined {A} (o : option A) : stops (S:=S) (or_fail Undefined o).
Proof. intros s. by wp_step. Qed.
Lemma stops_bind {A B} (m : M S A) (k : A -> M S B) :
  stops m -> (forall a, stops (k a)) -> stops (mbind k m).
Proof. intros Hm Hk s. wp_step. eapply wp_mono; [apply Hm|]. intros a s' []. apply Hk. Qed.
Lemma stops_when c (m : M S unit) : stops m -> stops (when c m).
Proof. destruct c; [done|intros; apply stops_ret]. Qed.
Lemma stops_for_each {A} (l : list A) (b : A -> M S unit) :
  (forall i, stops (b i)) -> stops (for_each l b).
Proof. intros Hb. induction l; [apply stops_ret|]. by apply stops_bind. Qed.
Lemma stops_for_break l (b : Z -> M S bool) : (forall i, stops (b i)) -> stops (for_break l b).
Proof.
  intros Hb. induction l; [apply stops_ret|]. apply stops_bind; [done|].
  intros []; [done|apply stops_ret].
Qed.
Lemma stops_for_fold {A B} (l : list A) (x : B) (b : A -> B -> M S B) :
  (forall i x, stops (b i x)) -> stops (for_fold l x b).
Proof. intros Hb. revert x. induction l; intros x; [apply stops_ret|]. by apply stops_bind. Qed.

(** What holds when the program returns, of a program that ends. *)
Lemma wp_ends {A} (m : M S A) (Q : A -> S -> Prop) s : stops m -> wp partial m Q s -> wp ends m Q s.
Proof.
  intros Hs HQ. eapply wp_mono; [apply wp_conj; [apply Hs|exact HQ]|]. by intros a s' [_ H].
Qed.
(** With a frame: the program ends, and leaves [f] alone. *)
Lemma wp_stops_frame {T A} (f : S -> T) (m : M S A) (Q : A -> S -> Prop) s :
  stops m -> frame f m -> (forall a s', f s' = f s -> Q a s') -> wp ends m Q s.
Proof.
  intros Hs Hf HQ. eapply frame_wp_conj; [done|]. eapply wp_mono; [apply Hs|]. eauto.
Qed.
End Stops.

Create HintDb stops discriminated.
#[export] Hint Resolve stops_ret stops_gets stops_modify stops_fatal stops_undefined
  stops_fatal_if stops_undef_if stops_or_fatal stops_or_undefined : stops.
Ltac stops_step :=
  lazymatch goal with
  | |- stops (mbind _ _) => apply stops_bind; [|intros]
  | |- stops (when _ _) => apply stops_when
  | |- stops (for_each _ _) => apply stops_for_each; intros
  | |- stops (for_break _ _) => apply stops_for_break; intros
  | |- stops (for_fold _ _ _) => apply stops_for_fold; intros
  | |- stops (if ?c then _ else _) => destruct c
  | |- stops (match ?x with _ => _ end) => destruct x
  end.
Ltac solve_stops := repeat first [ solve [eauto 2 with stops nocore] | stops_step ].

(** ** Code that keeps no state

    Run in any state: it reads and writes its arguments only. *)

Definition pure_code {S A} (m : M unit A) : M S A := fun s =>
  match m tt with Ok a _ => Ok a s | Fail e => Fail e end.

Lemma wp_pure_code {S A} E (m : M unit A) (Q : A -> S -> Prop) s :
  wp E m (fun a _ => Q a s) tt -> wp E (pure_code m) Q s.
Proof. Transparent wp. unfold wp, pure_code. destruct (m tt); eauto. Opaque wp. Qed.

Lemma frame_pure_code {S T A} (f : S -> T) (m : M unit A) : frame f (pure_code m).
Proof. intros s a s'. unfold pure_code. by destruct (m tt) as [a' []|]; intros [= _ <-]. Qed.
#[export] Hint Resolve frame_pure_code : frame.
Lemma stops_pure_code {S A} (m : M unit A) : stops m -> stops (S:=S) (pure_code m).
Proof. intros H s. apply wp_pure_code. eapply wp_mono; [apply H|]. done. Qed.

(** ** Record update: [s <| field := v |>]

    [eta] rebuilds a record from its projections; the setter of a projection
    replaces it there. *)

Class Setter {R T} (proj : R -> T) := set_field : (T -> T) -> R -> R.
#[global] Arguments set_field {R T} proj {_} _ _.

Ltac make_setter eta :=
  lazymatch goal with
  | |- @Setter ?R ?T ?p =>
    let f := fresh "f" in let s := fresh "s" in
    intros f s;
    let t := eval hnf in (eta s) in
    let t := eval pattern (p s) in t in
    lazymatch t with
    | ?g _ => let r := eval cbv beta in (g (f (p s))) in exact r
    end
  end.

Declare Scope record_scope.
#[global] Open Scope record_scope.
Notation "s <| f := v |>" := (set_field f (fun _ => v) s)
  (at level 1, left associativity, v at level 99) : record_scope.
Notation "s <| f ::= g |>" := (set_field f g s)
  (at level 1, left associativity, g at level 99) : record_scope.

(** Read a field of an updated record, whatever the updates. *)
Ltac rec_simpl_in_goal :=
  repeat match goal with
  | |- context [ ?p (set_field ?q ?f ?s) ] =>
      first [ progress change (p (set_field q f s)) with (p s)
            | let t := eval cbv beta in (f (p s)) in
              progress change (p (set_field q f s)) with t ]
  end.
Ltac rec_simpl_in H :=
  repeat match type of H with
  | context [ ?p (set_field ?q ?f ?s) ] =>
      first [ progress change (p (set_field q f s)) with (p s) in H
            | let t := eval cbv beta in (f (p s)) in
              progress change (p (set_field q f s)) with t in H ]
  end.
