(* ===== verification/NetTypes.v ===== *)
(** * Wire types: [net_types.h], [arch.h], [spread_params.h]

    The constants and type-word macros, the packet and token headers, the byte
    flips applied to messages of a daemon of the other endianness, and reads
    and writes of integers in a byte buffer (the casts [*(int32 * )&buf[i]]).
    The host is little endian, as the repository's [config.h] has it. *)

From Stdlib Require Import btauto.Btauto.
From S2P Require Import Prelude.

(** ** Parameters of the protocol ([spread_params.h]) *)

Definition MAX_PROCS_SEGMENT : Z := 128.
Definition MAX_SEGMENTS : Z := 20.
Definition MAX_PROCS_RING : Z := 128.
Definition MAX_ADDRS_SEGMENT : Z := 5.
Definition MAX_REPS : Z := 25.
Definition MAX_FORM_REPS : Z := 20.
Definition MAX_PACKETS_IN_STRUCT : Z := 8192.
Definition PACKET_MASK : Z := 0x1fff.
Definition MAX_SEQ_GAP : Z := 1600.
Definition MAX_EVS_ROUNDS : Z := 500.
Definition WATER_MARK : Z := 500.
Definition MAX_WRAP_SEQUENCE_VALUE : Z := Z.shiftl 1 30.
Definition MAX_SCATTER_ELEMENTS : Z := 100.

(** ** The type word *)

Definition UNRELIABLE_TYPE : Z := 0x1.
Definition RELIABLE_TYPE : Z := 0x2.
Definition FIFO_TYPE : Z := 0x4.
Definition AGREED_TYPE : Z := 0x8.
Definition SAFE_TYPE : Z := 0x10.
Definition REGULAR_TYPE : Z := 0x1f.
Definition BLOCK_REGULAR_DELIVERY : Z := REGULAR_TYPE + 1.
Definition ROUTED_TYPE : Z := 0x20.
Definition HURRY_TYPE : Z := 0x40.
Definition ALIVE_TYPE : Z := 0x100.
Definition JOIN_TYPE : Z := 0x200.
Definition REFER_TYPE : Z := 0x400.
Definition MEMBERSHIP_TYPE : Z := 0x700.
Definition FORM1_TYPE : Z := 0x1000.
Definition FORM2_TYPE : Z := 0x2000.
Definition FORM_TYPE : Z := 0x3000.
Definition ARQ_TYPE : Z := 0xf0000.
Definition RETRANS_TYPE : Z := 0xf00000.
Definition STATUS_TYPE : Z := 0x1000000.
Definition PARTITION_TYPE : Z := 0x2000000.
Definition FC_TYPE : Z := 0x4000000.
Definition RELOAD_TYPE : Z := 0x8000000.
Definition CONTROL_TYPE : Z := 0xf000000.

Definition Is_reliable (t : Z) : bool := truth (Z.land t RELIABLE_TYPE).
Definition Is_fifo (t : Z) : bool := truth (Z.land t FIFO_TYPE).
Definition Is_agreed (t : Z) : bool := truth (Z.land t AGREED_TYPE).
Definition Is_safe (t : Z) : bool := truth (Z.land t SAFE_TYPE).
Definition Regular_bits (t : Z) : Z := Z.land t REGULAR_TYPE.
Definition Is_regular (t : Z) : bool := truth (Regular_bits t).
Definition Is_routed (t : Z) : bool := truth (Z.land t ROUTED_TYPE).
Definition Set_routed (t : Z) : Z := Z.lor t ROUTED_TYPE.
Definition Clear_routed (t : Z) : Z := Z.land t (Z.lnot ROUTED_TYPE).
Definition Is_hurry (t : Z) : bool := truth (Z.land t HURRY_TYPE).
Definition Is_alive (t : Z) : bool := truth (Z.land t ALIVE_TYPE).
Definition Is_join (t : Z) : bool := truth (Z.land t JOIN_TYPE).
Definition Is_refer (t : Z) : bool := truth (Z.land t REFER_TYPE).
Definition Is_membership (t : Z) : bool := truth (Z.land t MEMBERSHIP_TYPE).
Definition Is_form (t : Z) : bool := truth (Z.land t FORM_TYPE).
Definition Is_form1 (t : Z) : bool := truth (Z.land t FORM1_TYPE).
Definition Is_form2 (t : Z) : bool := truth (Z.land t FORM2_TYPE).
Definition Is_status (t : Z) : bool := truth (Z.land t STATUS_TYPE).
Definition Is_partition (t : Z) : bool := truth (Z.land t PARTITION_TYPE).
Definition Is_fc (t : Z) : bool := truth (Z.land t FC_TYPE).
Definition Is_conf_reload (t : Z) : bool := truth (Z.land t RELOAD_TYPE).
Definition Is_control (t : Z) : bool := truth (Z.land t CONTROL_TYPE).

Definition Get_arq (t : Z) : Z := Z.shiftr (Z.land t ARQ_TYPE) 16.
Definition Set_arq (t val : Z) : Z :=
  i32 (Z.lor (Z.land t (Z.lnot ARQ_TYPE)) (Z.land (Z.shiftl val 16) ARQ_TYPE)).
Definition Get_retrans (t : Z) : Z := Z.shiftr (Z.land t RETRANS_TYPE) 20.
Definition Set_retrans (t val : Z) : Z :=
  i32 (Z.lor (Z.land t (Z.lnot RETRANS_TYPE)) (Z.land (Z.shiftl val 20) RETRANS_TYPE)).

(** ** Endianness ([arch.h]) *)

Definition ENDIAN_TYPE : Z := 0x80000080.
Definition ARCH_ENDIAN : Z := 0x80000080.

Definition Set_endian (t : Z) : Z :=
  i32 (Z.lor (Z.land t (Z.lnot ENDIAN_TYPE)) ARCH_ENDIAN).
Definition Same_endian (t : Z) : bool := Z.land t ENDIAN_TYPE =? ARCH_ENDIAN.
Definition Clear_endian (t : Z) : Z := Z.land t (Z.lnot ENDIAN_TYPE).

Definition Flip_int16 (t : Z) : Z :=
  Z.lor (Z.land (Z.shiftr t 8) 0x00ff) (Z.land (Z.shiftl t 8) 0xff00).
Definition Flip_int32 (t : Z) : Z :=
  Z.lor (Z.lor (Z.lor (Z.land (Z.shiftr t 24) 0x000000ff)
                      (Z.land (Z.shiftr t 8) 0x0000ff00))
               (Z.land (Z.shiftl t 8) 0x00ff0000))
        (Z.land (Z.shiftl t 24) 0xff000000).

(** ** Headers *)

Record membership_id := mk_membership_id { m_proc_id : Z; m_time : Z }.
#[export] Instance membership_id_eq_dec : EqDecision membership_id.
Proof. solve_decision. Defined.

Record fragment_header := mk_frag { fragment_index : Z; fragment_len : Z }.

Record packet_header := mk_packet_header {
  p_type : Z; p_transmiter_id : Z; p_proc_id : Z; p_memb_id : membership_id;
  p_seq : Z; p_token_round : Z; p_conf_hash : Z; p_data_len : Z;
  p_first_frag : fragment_header }.

Record token_header := mk_token_header {
  t_type : Z; t_transmiter_id : Z; t_proc_id : Z; t_memb_id : membership_id;
  t_seq : Z; t_aru : Z; t_aru_last_id : Z; t_flow_control : Z; t_rtr_len : Z;
  t_conf_hash : Z }.

Record ring_rtr := mk_ring_rtr {
  r_memb_id : membership_id; r_proc_id : Z; r_seg_index : Z; r_num_seq : Z }.

Definition eta_packet_header (h : packet_header) := mk_packet_header (p_type h)
  (p_transmiter_id h) (p_proc_id h) (p_memb_id h) (p_seq h) (p_token_round h)
  (p_conf_hash h) (p_data_len h) (p_first_frag h).
#[export] Instance set_p_type : Setter p_type := ltac:(make_setter eta_packet_header).
#[export] Instance set_p_transmiter : Setter p_transmiter_id := ltac:(make_setter eta_packet_header).
#[export] Instance set_p_proc_id : Setter p_proc_id := ltac:(make_setter eta_packet_header).
#[export] Instance set_p_memb_id : Setter p_memb_id := ltac:(make_setter eta_packet_header).
#[export] Instance set_p_seq : Setter p_seq := ltac:(make_setter eta_packet_header).
#[export] Instance set_p_token_round : Setter p_token_round := ltac:(make_setter eta_packet_header).
#[export] Instance set_p_conf_hash : Setter p_conf_hash := ltac:(make_setter eta_packet_header).
#[export] Instance set_p_data_len : Setter p_data_len := ltac:(make_setter eta_packet_header).
#[export] Instance set_p_first_frag : Setter p_first_frag := ltac:(make_setter eta_packet_header).

Definition eta_token_header (h : token_header) := mk_token_header (t_type h)
  (t_transmiter_id h) (t_proc_id h) (t_memb_id h) (t_seq h) (t_aru h)
  (t_aru_last_id h) (t_flow_control h) (t_rtr_len h) (t_conf_hash h).
#[export] Instance set_t_type : Setter t_type := ltac:(make_setter eta_token_header).
#[export] Instance set_t_transmiter : Setter t_transmiter_id := ltac:(make_setter eta_token_header).
#[export] Instance set_t_proc_id : Setter t_proc_id := ltac:(make_setter eta_token_header).
#[export] Instance set_t_memb_id : Setter t_memb_id := ltac:(make_setter eta_token_header).
#[export] Instance set_t_seq : Setter t_seq := ltac:(make_setter eta_token_header).
#[export] Instance set_t_aru : Setter t_aru := ltac:(make_setter eta_token_header).
#[export] Instance set_t_aru_last_id : Setter t_aru_last_id := ltac:(make_setter eta_token_header).
#[export] Instance set_t_flow_control : Setter t_flow_control := ltac:(make_setter eta_token_header).
#[export] Instance set_t_rtr_len : Setter t_rtr_len := ltac:(make_setter eta_token_header).
#[export] Instance set_t_conf_hash : Setter t_conf_hash := ltac:(make_setter eta_token_header).

(** Sizes of the C structs (no padding between their fields). *)
Definition sizeof_packet_header : Z := 40.
Definition sizeof_token_header : Z := 40.
Definition sizeof_ring_rtr : Z := 16.
Definition sizeof_fragment_header : Z := 4.
Definition sizeof_token_body : Z := 65535 - 20 - 8 - sizeof_token_header.

(** ** Integers in byte buffers

    A buffer is the list of its bytes from offset 0; bytes that were never
    written read as 0. *)

Definition get_i16 (b : list Z) (off : Z) : Z :=
  i16 (little_endian_to_Z 8 (resize 2 0 (drop (Z.to_nat off) b))).
Definition get_i32 (b : list Z) (off : Z) : Z :=
  i32 (little_endian_to_Z 8 (resize 4 0 (drop (Z.to_nat off) b))).
Definition bytes16 (x : Z) : list Z := Z_to_little_endian 2 8 x.
Definition bytes32 (x : Z) : list Z := Z_to_little_endian 4 8 x.
Definition buf_put (b : list Z) (off : Z) (xs : list Z) : list Z :=
  resize (Z.to_nat off) 0 b ++ xs ++ drop (Z.to_nat off + length xs) b.
Definition put_i16 (b : list Z) (off x : Z) : list Z := buf_put b off (bytes16 x).
Definition put_i32 (b : list Z) (off x : Z) : list Z := buf_put b off (bytes32 x).
(** [memcpy(dst, &b[off], n)] *)
Definition buf_get (b : list Z) (off n : Z) : list Z :=
  resize (Z.to_nat n) 0 (drop (Z.to_nat off) b).

Definition get_frag (b : list Z) (off : Z) : fragment_header :=
  mk_frag (get_i16 b off) (get_i16 b (off + 2)).
Definition put_frag (b : list Z) (off : Z) (f : fragment_header) : list Z :=
  put_i16 (put_i16 b off (fragment_index f)) (off + 2) (fragment_len f).

Definition get_ring_rtr (b : list Z) (off : Z) : ring_rtr :=
  mk_ring_rtr (mk_membership_id (get_i32 b off) (get_i32 b (off + 4)))
    (get_i32 b (off + 8)) (get_i16 b (off + 12)) (get_i16 b (off + 14)).
Definition ring_rtr_bytes (r : ring_rtr) : list Z :=
  bytes32 (m_proc_id (r_memb_id r)) ++ bytes32 (m_time (r_memb_id r)) ++
  bytes32 (r_proc_id r) ++ bytes16 (r_seg_index r) ++ bytes16 (r_num_seq r).

(** The [switch (n % 4)] whose cases fall through: the bytes from [n] up to
    the next multiple of 4. *)
Definition padding_of (n : Z) : Z :=
  let r := Z.rem n 4 in
  if r =? 1 then 3 else if r =? 2 then 2 else if r =? 3 then 1 else 0.

(** ** Flipping the headers (network.c and protocol.c) *)

Definition Flip_frag (f : fragment_header) : fragment_header :=
  mk_frag (i16 (Flip_int16 (fragment_index f))) (i16 (Flip_int16 (fragment_len f))).

Definition flip_memb_id (m : membership_id) : membership_id :=
  mk_membership_id (i32 (Flip_int32 (m_proc_id m))) (i32 (Flip_int32 (m_time m))).

Definition Flip_pack (h : packet_header) : packet_header :=
  mk_packet_header (i32 (Flip_int32 (p_type h))) (i32 (Flip_int32 (p_transmiter_id h)))
    (i32 (Flip_int32 (p_proc_id h))) (flip_memb_id (p_memb_id h))
    (i32 (Flip_int32 (p_seq h))) (i32 (Flip_int32 (p_token_round h)))
    (i32 (Flip_int32 (p_conf_hash h))) (u16 (Flip_int16 (p_data_len h)))
    (p_first_frag h).

Definition Flip_token (h : token_header) : token_header :=
  mk_token_header (i32 (Flip_int32 (t_type h))) (i32 (Flip_int32 (t_transmiter_id h)))
    (i32 (Flip_int32 (t_proc_id h))) (flip_memb_id (t_memb_id h))
    (i32 (Flip_int32 (t_seq h))) (i32 (Flip_int32 (t_aru h)))
    (i32 (Flip_int32 (t_aru_last_id h))) (i16 (Flip_int16 (t_flow_control h)))
    (u16 (Flip_int16 (t_rtr_len h))) (i32 (Flip_int32 (t_conf_hash h))).
(** ** Lemmas *)

Lemma land_byte x k : 0 <= k ->
  Z.land x (Z.shiftl 255 k) = Z.shiftl ((Z.shiftr x k) mod 256) k.
Proof.
  intros. change 256 with (2 ^ 8). rewrite <-Z.land_ones by lia.
  change (Z.ones 8) with 255. rewrite Z.shiftl_land. apply Z.bits_inj'. intros n Hn.
  rewrite !Z.land_spec. rewrite !Z.shiftl_spec by done.
  destruct (Z.ltb_spec (n - k) 0) as [Hlt|Hge].
  - rewrite (Z.testbit_neg_r 255) by lia. by rewrite !andb_false_r.
  - rewrite Z.shiftr_spec by lia. do 2 f_equal. lia.
Qed.

Lemma lor_shiftl_add a b k : 0 <= k -> 0 <= a < 2 ^ k ->
  Z.lor a (Z.shiftl b k) = a + b * 2 ^ k.
Proof.
  intros Hk Ha. rewrite <-Z.shiftl_mul_pow2 by done. symmetry. apply Z.add_nocarry_lor.
  apply Z.bits_inj'. intros n Hn. rewrite Z.land_spec, Z.shiftl_spec, Z.bits_0 by done.
  destruct (Z.ltb_spec n k) as [Hlt|Hge].
  - rewrite (Z.testbit_neg_r b) by lia. apply andb_false_r.
  - destruct (decide (a = 0)) as [->|]; [by rewrite Z.bits_0|].
    rewrite (Z.bits_above_log2 a); [done|lia|].
    apply Z.log2_lt_pow2; [lia|]. apply Z.lt_le_trans with (2 ^ k); [lia|].
    apply Z.pow_le_mono_r; lia.
Qed.

Definition byte_at (x i : Z) : Z := (x / 2 ^ (8 * i)) mod 256.

Lemma byte_at_range x i : 0 <= byte_at x i < 256.
Proof. apply Z.mod_pos_bound. lia. Qed.

Lemma shiftr_land_byte x a b : 0 <= a -> 0 <= b ->
  Z.land (Z.shiftr x a) (Z.shiftl 255 b) = Z.shiftl (((x / 2 ^ (a + b))) mod 256) b.
Proof.
  intros. rewrite land_byte, Z.shiftr_shiftr by lia. by rewrite Z.shiftr_div_pow2 by lia.
Qed.

Lemma shiftl_land_byte x a b : 0 <= a <= b ->
  Z.land (Z.shiftl x a) (Z.shiftl 255 b) = Z.shiftl (((x / 2 ^ (b - a))) mod 256) b.
Proof.
  intros. rewrite land_byte by lia. do 2 f_equal.
  rewrite Z.shiftr_div_pow2, Z.shiftl_mul_pow2 by lia.
  replace b with ((b - a) + a) at 1 by lia. rewrite Z.pow_add_r by lia.
  apply Z.div_mul_cancel_r; lia.
Qed.

Lemma Flip_int16_bytes x : Flip_int16 x = byte_at x 1 + 256 * byte_at x 0.
Proof.
  unfold Flip_int16.
  change 0xff with (Z.shiftl 255 0). change 0xff00 with (Z.shiftl 255 8).
  rewrite shiftr_land_byte, shiftl_land_byte, Z.shiftl_0_r by lia.
  rewrite lor_shiftl_add by (try lia; apply Z.mod_pos_bound; lia).
  unfold byte_at. change (2 ^ 8) with 256. change (8 * 1) with (8 + 0). change (8 * 0) with (8 - 8). lia.
Qed.

Lemma Flip_int32_bytes x : Flip_int32 x =
  byte_at x 3 + 256 * byte_at x 2 + 65536 * byte_at x 1 + 16777216 * byte_at x 0.
Proof.
  unfold Flip_int32.
  change 0xff with (Z.shiftl 255 0). change 0xff00 with (Z.shiftl 255 8).
  change 0xff0000 with (Z.shiftl 255 16). change 0xff000000 with (Z.shiftl 255 24).
  rewrite !shiftr_land_byte, !shiftl_land_byte, Z.shiftl_0_r by lia.
  change (24 + 0) with (8 * 3). change (8 + 8) with (8 * 2). change (16 - 8) with (8 * 1).
  change (24 - 24) with (8 * 0). 
  fold (byte_at x 3) (byte_at x 2) (byte_at x 1) (byte_at x 0).
  pose proof (byte_at_range x 0). pose proof (byte_at_range x 1).
  pose proof (byte_at_range x 2). pose proof (byte_at_range x 3).
  rewrite (lor_shiftl_add (byte_at x 3)) by lia.
  rewrite (lor_shiftl_add (byte_at x 3 + _)) by lia.
  rewrite lor_shiftl_add by lia. lia.
Qed.

(** The bytes of a number written from its bytes. *)
Lemma byte_at_join b0 y : 0 <= b0 < 256 -> byte_at (b0 + 256 * y) 0 = b0.
Proof. intros. unfold byte_at. rewrite Z.div_1_r. Z.div_mod_to_equations; lia. Qed.
Lemma byte_at_step b0 y i : 0 <= b0 < 256 -> 0 <= i -> byte_at (b0 + 256 * y) (i + 1) = byte_at y i.
Proof.
  intros. unfold byte_at. f_equal. replace (8 * (i + 1)) with (8 + 8 * i) by lia.
  rewrite Z.pow_add_r by lia. rewrite <-Z.div_div by lia. f_equal.
  change (2 ^ 8) with 256. rewrite Z.mul_comm, Z.div_add, Z.div_small by lia. lia.
Qed.
Lemma bytes_join32 x :
  byte_at x 0 + 256 * (byte_at x 1 + 256 * (byte_at x 2 + 256 * byte_at x 3)) = u32 x.
Proof.
  unfold byte_at, u32. change (8 * 0) with 0. change (8 * 1) with 8. change (8 * 2) with 16.
  change (8 * 3) with 24. change (2 ^ 0) with 1. change (2 ^ 8) with 256.
  change (2 ^ 16) with (256 * 256). change (2 ^ 24) with (256 * (256 * 256)).
  rewrite <-!Z.div_div by lia. rewrite Z.div_1_r. Z.div_mod_to_equations. lia.
Qed.
Lemma bytes_join16 x : byte_at x 0 + 256 * byte_at x 1 = u16 x.
Proof.
  unfold byte_at, u16. change (8 * 0) with 0. change (8 * 1) with 8.
  change (2 ^ 0) with 1. change (2 ^ 8) with 256. rewrite Z.div_1_r.
  Z.div_mod_to_equations. lia.
Qed.

Lemma byte_at_u32 x i : 0 <= i < 4 -> byte_at (u32 x) i = byte_at x i.
Proof.
  intros. rewrite <-bytes_join32.
  pose proof (byte_at_range x 0). pose proof (byte_at_range x 1).
  pose proof (byte_at_range x 2). pose proof (byte_at_range x 3).
  assert (i = 0 \/ i = 0 + 1 \/ i = 0 + 1 + 1 \/ i = 0 + 1 + 1 + 1) as [->|[->|[->| ->]]] by lia.
  - by rewrite byte_at_join.
  - by rewrite byte_at_step, byte_at_join by lia.
  - by rewrite !byte_at_step, byte_at_join by lia.
  - rewrite !byte_at_step by lia. rewrite <-(Z.add_0_r (byte_at x 3)) at 1.
    replace (byte_at x 3 + 0) with (byte_at x 3 + 256 * 0) by lia. by rewrite byte_at_join.
Qed.

Lemma byte_at_i32 x i : 0 <= i < 4 -> byte_at (i32 x) i = byte_at x i.
Proof. intros. rewrite <-byte_at_u32, u32_i32, byte_at_u32 by lia. done. Qed.

Lemma Flip_int32_byte x i : 0 <= i < 4 -> byte_at (i32 (Flip_int32 x)) i = byte_at x (3 - i).
Proof.
  intros. rewrite byte_at_i32, Flip_int32_bytes by lia.
  pose proof (byte_at_range x 0). pose proof (byte_at_range x 1).
  pose proof (byte_at_range x 2). pose proof (byte_at_range x 3).
  match goal with |- byte_at ?n _ = _ => replace n with (byte_at x 3 + 256 * (byte_at x 2 +
    256 * (byte_at x 1 + 256 * (byte_at x 0 + 256 * 0)))) by lia end.
  assert (i = 0 \/ i = 0 + 1 \/ i = 0 + 1 + 1 \/ i = 0 + 1 + 1 + 1) as [->|[->|[->| ->]]] by lia;
    rewrite ?byte_at_step, ?byte_at_join by lia; done.
Qed.

Lemma Flip_int32_involutive x : is_i32 x -> i32 (Flip_int32 (i32 (Flip_int32 x))) = x.
Proof.
  intros Hx. rewrite Flip_int32_bytes, !Flip_int32_byte by lia.
  change (3 - 3) with 0. change (3 - 2) with 1. change (3 - 1) with 2. change (3 - 0) with 3.
  match goal with |- i32 ?n = _ => replace n with (u32 x) end.
  - by rewrite i32_u32, i32_id.
  - rewrite <-bytes_join32. lia.
Qed.

Lemma byte_at_u16 x i : 0 <= i < 2 -> byte_at (u16 x) i = byte_at x i.
Proof.
  intros. rewrite <-bytes_join16.
  pose proof (byte_at_range x 0). pose proof (byte_at_range x 1).
  assert (i = 0 \/ i = 0 + 1) as [->| ->] by lia.
  - by rewrite byte_at_join.
  - rewrite byte_at_step by lia. replace (byte_at x 1) with (byte_at x 1 + 256 * 0) at 1 by lia.
    by rewrite byte_at_join.
Qed.

Lemma byte_at_i16 x i : 0 <= i < 2 -> byte_at (i16 x) i = byte_at x i.
Proof. intros. rewrite <-byte_at_u16, u16_i16, byte_at_u16 by lia. done. Qed.

Lemma Flip_int16_byte x i : 0 <= i < 2 -> byte_at (Flip_int16 x) i = byte_at x (1 - i).
Proof.
  intros. rewrite Flip_int16_bytes.
  pose proof (byte_at_range x 0). pose proof (byte_at_range x 1).
  match goal with |- byte_at ?n _ = _ => replace n with
    (byte_at x 1 + 256 * (byte_at x 0 + 256 * 0)) by lia end.
  assert (i = 0 \/ i = 0 + 1) as [->| ->] by lia;
    rewrite ?byte_at_step, ?byte_at_join by lia; done.
Qed.

Lemma Flip_int16_involutive x : is_i16 x -> i16 (Flip_int16 (i16 (Flip_int16 x))) = x.
Proof.
  intros Hx. rewrite Flip_int16_bytes, !byte_at_i16, !Flip_int16_byte by lia.
  change (1 - 1) with 0. change (1 - 0) with 1.
  replace (byte_at x 0 + 256 * byte_at x 1) with (u16 x) by by rewrite <-bytes_join16.
  by rewrite i16_u16, i16_id.
Qed.

Lemma Flip_int16_u16_involutive x :
  0 <= x < 65536 -> u16 (Flip_int16 (u16 (Flip_int16 x))) = x.
Proof.
  intros Hx. rewrite Flip_int16_bytes, !byte_at_u16, !Flip_int16_byte by lia.
  change (1 - 1) with 0. change (1 - 0) with 1.
  replace (byte_at x 0 + 256 * byte_at x 1) with (u16 x) by by rewrite <-bytes_join16.
  unfold u16. rewrite Z.mod_mod by lia. by apply u16_id.
Qed.

(** *** Bit fields of the type word *)

Definition mask_of (k w : Z) : Z := Z.shiftl (Z.ones w) k.

Lemma testbit_mask k w n : 0 <= k -> 0 <= w -> 0 <= n ->
  Z.testbit (mask_of k w) n = ((k <=? n) && (n <? k + w)).
Proof.
  intros. unfold mask_of. rewrite Z.shiftl_spec by done.
  destruct (Z.leb_spec k n).
  - rewrite Z.testbit_ones by lia. destruct (Z.leb_spec 0 (n - k)); [|lia].
    destruct (Z.ltb_spec (n - k) w), (Z.ltb_spec n (k + w)); try lia; done.
  - by rewrite Z.testbit_neg_r by lia.
Qed.

Lemma testbit_i32 x n : 0 <= n < 32 -> Z.testbit (i32 x) n = Z.testbit x n.
Proof.
  intros. rewrite <-(Z.mod_pow2_bits_low (i32 x) 32), <-(Z.mod_pow2_bits_low x 32) by lia.
  change (2 ^ 32) with 4294967296. f_equal. apply u32_i32.
Qed.

Definition get_field (k w t : Z) : Z := Z.shiftr (Z.land t (mask_of k w)) k.
Definition set_field_bits (k w t v : Z) : Z :=
  i32 (Z.lor (Z.land t (Z.lnot (mask_of k w))) (Z.land (Z.shiftl v k) (mask_of k w))).

Lemma testbit_get_field k w t n : 0 <= k -> 0 <= w -> 0 <= n ->
  Z.testbit (get_field k w t) n = (n <? w) && Z.testbit t (n + k).
Proof.
  intros. unfold get_field. rewrite Z.shiftr_spec, Z.land_spec, testbit_mask by lia.
  destruct (Z.leb_spec k (n + k)); [|lia].
  destruct (Z.ltb_spec (n + k) (k + w)), (Z.ltb_spec n w); try lia; btauto.
Qed.

Lemma testbit_set_field k w t v n : 0 <= k -> 0 <= w -> 0 <= n < 32 ->
  Z.testbit (set_field_bits k w t v) n =
    if (k <=? n) && (n <? k + w) then Z.testbit v (n - k) else Z.testbit t n.
Proof.
  intros. unfold set_field_bits.
  rewrite testbit_i32, Z.lor_spec, !Z.land_spec, Z.lnot_spec, testbit_mask, Z.shiftl_spec by lia.
  destruct ((k <=? n) && (n <? k + w)); cbn; btauto.
Qed.

Lemma get_set_field k w t v : 0 <= k -> 0 <= w -> k + w <= 32 ->
  get_field k w (set_field_bits k w t v) = v mod 2 ^ w.
Proof.
  intros. apply Z.bits_inj'. intros n Hn. rewrite testbit_get_field by lia.
  destruct (Z.ltb_spec n w).
  - rewrite testbit_set_field by lia. rewrite Z.mod_pow2_bits_low by lia.
    destruct (Z.leb_spec k (n + k)), (Z.ltb_spec (n + k) (k + w)); try lia. cbn. f_equal. lia.
  - by rewrite Z.mod_pow2_bits_high by lia.
Qed.

Lemma get_set_field_ne k w k' w' t v : 0 <= k -> 0 <= w -> 0 <= k' -> 0 <= w' ->
  k' + w' <= 32 -> k + w <= k' \/ k' + w' <= k ->
  get_field k' w' (set_field_bits k w t v) = get_field k' w' t.
Proof.
  intros. apply Z.bits_inj'. intros n Hn. rewrite !testbit_get_field by lia.
  destruct (Z.ltb_spec n w'); [|done]. rewrite testbit_set_field by lia. cbn.
  destruct (Z.leb_spec k (n + k')), (Z.ltb_spec (n + k') (k + w)); cbn; try lia; done.
Qed.

Lemma Get_arq_field t : Get_arq t = get_field 16 4 t. Proof. done. Qed.
Lemma Get_retrans_field t : Get_retrans t = get_field 20 4 t. Proof. done. Qed.
Lemma Set_arq_field t v : Set_arq t v = set_field_bits 16 4 t v. Proof. done. Qed.
Lemma Set_retrans_field t v : Set_retrans t v = set_field_bits 20 4 t v. Proof. done. Qed.

Lemma Get_arq_Set_arq t v : Get_arq (Set_arq t v) = v mod 16.
Proof. rewrite Set_arq_field, Get_arq_field. by apply get_set_field. Qed.
Lemma Get_retrans_Set_retrans t v : Get_retrans (Set_retrans t v) = v mod 16.
Proof. rewrite Set_retrans_field, Get_retrans_field. by apply get_set_field. Qed.
Lemma Get_arq_Set_retrans t v : Get_arq (Set_retrans t v) = Get_arq t.
Proof. rewrite Set_retrans_field, !Get_arq_field. apply get_set_field_ne; lia. Qed.
Lemma Get_retrans_Set_arq t v : Get_retrans (Set_arq t v) = Get_retrans t.
Proof. rewrite Set_arq_field, !Get_retrans_field. apply get_set_field_ne; lia. Qed.

Lemma get_field_range k w t : 0 <= k -> 0 <= w -> 0 <= get_field k w t < 2 ^ w.
Proof.
  intros. assert (get_field k w t = (get_field k w t) mod 2 ^ w) as ->.
  - apply Z.bits_inj'. intros n Hn. rewrite testbit_get_field by lia.
    destruct (Z.ltb_spec n w).
    + rewrite Z.mod_pow2_bits_low, testbit_get_field by lia.
      by destruct (Z.ltb_spec n w); [|lia].
    + by rewrite Z.mod_pow2_bits_high by lia.
  - apply Z.mod_pos_bound. by apply Z.pow_pos_nonneg.
Qed.
Lemma Get_arq_range t : 0 <= Get_arq t < 16.
Proof. rewrite Get_arq_field. by apply (get_field_range 16 4). Qed.
Lemma Get_retrans_range t : 0 <= Get_retrans t < 16.
Proof. rewrite Get_retrans_field. by apply (get_field_range 20 4). Qed.

Lemma testbit_ENDIAN n : 0 <= n < 32 -> Z.testbit ENDIAN_TYPE n = (n =? 7) || (n =? 31).
Proof.
  intros. assert (Hl : forall m, m ∈ zrange 0 31 ->
    Z.testbit ENDIAN_TYPE m = (m =? 7) || (m =? 31)).
  - apply list.Forall_forall. by repeat constructor.
  - apply Hl, elem_of_zrange. lia.
Qed.

Lemma Set_endian_bit t n : 0 <= n < 32 -> n <> 7 -> n <> 31 ->
  Z.testbit (Set_endian t) n = Z.testbit t n.
Proof.
  intros. unfold Set_endian, ARCH_ENDIAN. fold ENDIAN_TYPE.
  rewrite testbit_i32, Z.lor_spec, Z.land_spec, Z.lnot_spec, testbit_ENDIAN by lia.
  destruct (Z.eqb_spec n 7), (Z.eqb_spec n 31); try lia. cbn. btauto.
Qed.

Lemma get_field_Set_endian k w t : 8 <= k -> 0 <= w -> k + w <= 31 ->
  get_field k w (Set_endian t) = get_field k w t.
Proof.
  intros. apply Z.bits_inj'. intros n Hn. rewrite !testbit_get_field by lia.
  destruct (Z.ltb_spec n w); [|done]. cbn. apply Set_endian_bit; lia.
Qed.
Lemma Get_arq_Set_endian t : Get_arq (Set_endian t) = Get_arq t.
Proof. rewrite !Get_arq_field. by apply get_field_Set_endian. Qed.
Lemma Get_retrans_Set_endian t : Get_retrans (Set_endian t) = Get_retrans t.
Proof. rewrite !Get_retrans_field. by apply get_field_Set_endian. Qed.

Lemma Same_endian_Set_endian t : Same_endian (Set_endian t) = true.
Proof.
  unfold Same_endian. apply Z.eqb_eq. apply Z.bits_inj'. intros n Hn.
  rewrite Z.land_spec. destruct (Z.ltb_spec n 32).
  - unfold Set_endian, ARCH_ENDIAN. fold ENDIAN_TYPE.
    rewrite testbit_i32, Z.lor_spec, Z.land_spec, Z.lnot_spec, testbit_ENDIAN by lia.
    destruct ((n =? 7) || (n =? 31)); cbn; btauto.
  - unfold ARCH_ENDIAN, ENDIAN_TYPE. rewrite (Z.bits_above_log2 0x80000080) by (cbn; lia).
    apply andb_false_r.
Qed.

(** *** Reading what was written *)

Lemma length_bytes16 x : length (bytes16 x) = 2%nat.
Proof. pose proof (length_Z_to_little_endian 2 8 x). unfold bytes16. lia. Qed.
Lemma length_bytes32 x : length (bytes32 x) = 4%nat.
Proof. pose proof (length_Z_to_little_endian 4 8 x). unfold bytes32. lia. Qed.

Lemma get_i32_app pre x post off :
  Z.to_nat off = length pre -> get_i32 (pre ++ bytes32 x ++ post) off = i32 x.
Proof.
  intros Hl. unfold get_i32. rewrite Hl, drop_app_length.
  rewrite resize_app by by rewrite length_bytes32.
  unfold bytes32. rewrite little_endian_to_Z_to_little_endian by lia. apply i32_u32.
Qed.

Lemma get_i16_app pre x post off :
  Z.to_nat off = length pre -> get_i16 (pre ++ bytes16 x ++ post) off = i16 x.
Proof.
  intros Hl. unfold get_i16. rewrite Hl, drop_app_length.
  rewrite resize_app by by rewrite length_bytes16.
  unfold bytes16. rewrite little_endian_to_Z_to_little_endian by lia. apply i16_u16.
Qed.

Definition frag_bytes (f : fragment_header) : list Z :=
  bytes16 (fragment_index f) ++ bytes16 (fragment_len f).
Definition is_frag (f : fragment_header) : Prop :=
  is_i16 (fragment_index f) /\ is_i16 (fragment_len f).

Lemma length_frag_bytes f : length (frag_bytes f) = 4%nat.
Proof. unfold frag_bytes. by rewrite length_app, !length_bytes16. Qed.

Lemma get_frag_app pre f post off :
  0 <= off -> Z.to_nat off = length pre -> is_frag f ->
  get_frag (pre ++ frag_bytes f ++ post) off = f.
Proof.
  intros Ho Hl [H1 H2]. unfold get_frag, frag_bytes. rewrite <-app_assoc.
  rewrite get_i16_app by done. rewrite (app_assoc pre).
  rewrite get_i16_app by (rewrite length_app, length_bytes16; lia).
  destruct f; cbn in *. by rewrite !i16_id.
Qed.

Definition is_ring_rtr (r : ring_rtr) : Prop :=
  is_i32 (m_proc_id (r_memb_id r)) /\ is_i32 (m_time (r_memb_id r)) /\
  is_i32 (r_proc_id r) /\ is_i16 (r_seg_index r) /\ is_i16 (r_num_seq r).

Lemma length_ring_rtr_bytes r : length (ring_rtr_bytes r) = 16%nat.
Proof. unfold ring_rtr_bytes. by rewrite !length_app, !length_bytes32, !length_bytes16. Qed.

Lemma get_ring_rtr_app pre r post off :
  0 <= off -> Z.to_nat off = length pre -> is_ring_rtr r ->
  get_ring_rtr (pre ++ ring_rtr_bytes r ++ post) off = r.
Proof.
  intros Ho Hl (H1 & H2 & H3 & H4 & H5). unfold get_ring_rtr, ring_rtr_bytes.
  rewrite <-!app_assoc.
  rewrite get_i32_app by done.
  rewrite (app_assoc pre (bytes32 _)).
  rewrite get_i32_app by (rewrite length_app, length_bytes32; lia).
  rewrite (app_assoc _ (bytes32 (m_time _))).
  rewrite get_i32_app by (rewrite !length_app, !length_bytes32; lia).
  rewrite (app_assoc _ (bytes32 (r_proc_id _))).
  rewrite get_i16_app by (rewrite !length_app, !length_bytes32; lia).
  rewrite (app_assoc _ (bytes16 (r_seg_index _))).
  rewrite get_i16_app by (rewrite !length_app, !length_bytes32, !length_bytes16; lia).
  destruct r as [[] ? ? ?]; cbn in *. by rewrite !i32_id, !i16_id.
Qed.

Lemma buf_put_end b xs off : Z.to_nat off = length b -> buf_put b off xs = b ++ xs.
Proof.
  intros Hl. unfold buf_put. rewrite Hl, resize_all.
  rewrite drop_ge by lia. by rewrite app_nil_r.
Qed.

Lemma buf_get_app pre xs post off n :
  Z.to_nat off = length pre -> Z.to_nat n = length xs ->
  buf_get (pre ++ xs ++ post) off n = xs.
Proof. intros Hl Hn. unfold buf_get. rewrite Hl, Hn, drop_app_length. by apply resize_app. Qed.

Lemma padding_of_spec n : 0 <= n -> 0 <= padding_of n < 4 /\ (n + padding_of n) mod 4 = 0.
Proof.
  intros Hn. unfold padding_of. rewrite Z.rem_mod_nonneg by lia.
  destruct (Z.eqb_spec (n mod 4) 1), (Z.eqb_spec (n mod 4) 2), (Z.eqb_spec (n mod 4) 3);
    Z.div_mod_to_equations; lia.
Qed.

Lemma padding_of_range n : 0 <= padding_of n < 4.
Proof. unfold padding_of. repeat case_match; lia. Qed.

Lemma Flip_frag_involutive f : is_frag f -> Flip_frag (Flip_frag f) = f.
Proof.
  intros [H1 H2]. destruct f. unfold Flip_frag. cbn in *. by rewrite !Flip_int16_involutive.
Qed.

(** Every field of a header is in the range of its C type. *)
Definition is_membership_id (m : membership_id) : Prop :=
  is_i32 (m_proc_id m) /\ is_i32 (m_time m).
Definition is_packet_header (h : packet_header) : Prop :=
  is_i32 (p_type h) /\ is_i32 (p_transmiter_id h) /\ is_i32 (p_proc_id h) /\
  is_membership_id (p_memb_id h) /\ is_i32 (p_seq h) /\ is_i32 (p_token_round h) /\
  is_i32 (p_conf_hash h) /\ 0 <= p_data_len h < 65536 /\ is_frag (p_first_frag h).
Definition is_token_header (h : token_header) : Prop :=
  is_i32 (t_type h) /\ is_i32 (t_transmiter_id h) /\ is_i32 (t_proc_id h) /\
  is_membership_id (t_memb_id h) /\ is_i32 (t_seq h) /\ is_i32 (t_aru h) /\
  is_i32 (t_aru_last_id h) /\ is_i16 (t_flow_control h) /\ 0 <= t_rtr_len h < 65536 /\
  is_i32 (t_conf_hash h).

Lemma flip_memb_id_involutive m : is_membership_id m -> flip_memb_id (flip_memb_id m) = m.
Proof. intros [??]. destruct m. unfold flip_memb_id. cbn in *. by rewrite !Flip_int32_involutive. Qed.

(** * Properties of the wire types

    The byte flips undo each other, and the fields of the type word are
    independent. *)

(** A header that a daemon of the other endianness sends is read back as it was
    written: flipping the bytes of every field twice gives the header again. *)
Theorem Flip_pack_involutive (h : packet_header) :
  is_packet_header h -> Flip_pack (Flip_pack h) = h.
Proof.
  intros (Ht & Htr & Hp & Hm & Hs & Hr & Hc & Hd & Hf). destruct h; cbn in *.
  unfold Flip_pack. cbn. rewrite !Flip_int32_involutive by done.
  rewrite flip_memb_id_involutive by done. by rewrite Flip_int16_u16_involutive.
Qed.

Example Flip_pack_involutive_witness :
  Flip_pack (Flip_pack (mk_packet_header 8 17 (-5) (mk_membership_id 17 (-1)) 4242 3 99 1400
    (mk_frag (-2) 700))) =
  mk_packet_header 8 17 (-5) (mk_membership_id 17 (-1)) 4242 3 99 1400 (mk_frag (-2) 700).
Proof. apply Flip_pack_involutive. repeat split; vm_compute; done. Defined.

Theorem Flip_token_involutive (h : token_header) :
  is_token_header h -> Flip_token (Flip_token h) = h.
Proof.
  intros (Ht & Htr & Hp & Hm & Hs & Ha & Hl & Hf & Hr & Hc). destruct h; cbn in *.
  unfold Flip_token. cbn. rewrite !Flip_int32_involutive by done.
  rewrite flip_memb_id_involutive by done.
  by rewrite Flip_int16_u16_involutive, Flip_int16_involutive.
Qed.

(** What the leader and the others do to the token's number and its repetition
    count does not touch the other bits of the type, and reads back; the flag of
    the host's endianness leaves both alone. *)
Theorem token_type_fields (t a r : Z) :
  0 <= a < 16 -> 0 <= r < 16 ->
  let t' := Set_retrans (Set_arq t a) r in
  Get_arq t' = a /\ Get_retrans t' = r /\
  Get_arq (Set_endian t') = a /\ Get_retrans (Set_endian t') = r /\
  (forall n, 0 <= n < 32 -> (n < 16 \/ 24 <= n) -> Z.testbit t' n = Z.testbit t n).
Proof.
  intros Ha Hr t'.
  assert (Ga : Get_arq t' = a).
  { unfold t'. rewrite Get_arq_Set_retrans, Get_arq_Set_arq. by apply Z.mod_small. }
  assert (Gr : Get_retrans t' = r).
  { unfold t'. rewrite Get_retrans_Set_retrans. by apply Z.mod_small. }
  rewrite Get_arq_Set_endian, Get_retrans_Set_endian. repeat split; [done..|].
  - intros n Hn Hout. unfold t'. rewrite Set_retrans_field, Set_arq_field.
    rewrite !testbit_set_field by lia.
    repeat match goal with |- context [?a <=? ?b] => destruct (Z.leb_spec a b) end;
    repeat match goal with |- context [?a <? ?b] => destruct (Z.ltb_spec a b) end;
      try lia; done.
Qed.

Example token_type_fields_witness :
  let t' := Set_retrans (Set_arq (-2147483520) 15) 2 in Get_arq (Set_endian t') = 15.
Proof. intros t'. apply (token_type_fields (-2147483520) 15 2); lia. Defined.
