(* ===== verification/Configuration.v ===== *)
(** * The configuration: [configuration.h] and the queries of [configuration.c]

    A configuration is the list of its daemons in declaration order and their
    division into segments; a membership is a configuration whose segments hold
    the daemons present.  A segment's array of [proc *] is the list of the procs
    pointed to ([num_procs] is its length), and [segments] is cut at
    [num_segments].  A daemon id is its 32-bit pattern read as an [int32]: the
    code only compares ids for equality.  Queries that end the process on an
    empty configuration are partial: [None] is the [SPLOG_FATAL] exit. *)

From S2P Require Import Prelude NetTypes.

(** What the daemon takes from libspread-util and stdutil, which are not in the
    repository: network addresses, the datagram size, a string hash. *)
Class SpuLib := {
  spu_addr : Type;
  spu_addr_zero : spu_addr;
  spu_addr_ip_get_port : spu_addr -> Z;
  spu_addr_ip_set_port : spu_addr -> Z -> spu_addr;
  (** 0 when equal; the flag says whether ports count *)
  spu_addr_ip_cmp : spu_addr -> spu_addr -> bool -> Z;
  MAX_PACKET_SIZE : Z;
  stdhcode_oaat : string -> Z -> Z
}.

Section Data.
Context {L : SpuLib}.

Record spread_if := mk_spread_if { iftype : Z; ifaddr : spu_addr }.

Record proc := mk_proc {
  name : string; proc_addr : spu_addr; id : Z; ifc : list spread_if;
  seg_index : Z; index_in_seg : Z }.

Record segment := mk_segment { seg_addrs : list spu_addr; procs : list proc }.

Record configuration := mk_configuration {
  hash_code : Z; allprocs : list proc; segments : list segment }.

Definition no_proc : proc := mk_proc "" spu_addr_zero 0 [] 0 0.
Definition no_segment : segment := mk_segment [] [].
Definition no_configuration : configuration := mk_configuration 0 [] [].

Definition eta_segment (s : segment) := mk_segment (seg_addrs s) (procs s).
#[export] Instance set_procs : Setter procs := ltac:(make_setter eta_segment).
Definition eta_configuration (c : configuration) :=
  mk_configuration (hash_code c) (allprocs c) (segments c).
#[export] Instance set_segments : Setter segments := ltac:(make_setter eta_configuration).

Definition num_procs (s : segment) : Z := Z.of_nat (length (procs s)).

(** [config->segments[i]]; an index at or past [num_segments] is an empty
    segment. *)
Definition segment_at (config : configuration) (i : Z) : segment :=
  if i <? 0 then no_segment else default no_segment (segments config !! Z.to_nat i).

(** The index of the first element with a property, and the element. *)
Fixpoint find_index {A} (P : A -> bool) (l : list A) : option (Z * A) :=
  match l with
  | [] => None
  | x :: l => if P x then Some (0, x) else
      match find_index P l with Some (i, y) => Some (i + 1, y) | None => None end
  end.

Definition index_or_minus1 {A} (o : option (Z * A)) : Z :=
  match o with Some (i, _) => i | None => -1 end.

(** [Conf_proc_by_id_in_conf] and [Conf_proc_ref_by_id_in_conf]: [None] is the
    return value -1, in which case [*p] is not written. *)
Definition Conf_proc_by_id_in_conf (config : configuration) (pid : Z) : option (Z * proc) :=
  find_index (fun p => id p =? pid) (allprocs config).

Definition Conf_proc_by_name_in_conf (config : configuration) (nm : string)
  : option (Z * proc) :=
  find_index (fun p => String.eqb (name p) nm) (allprocs config).

Definition Conf_id_in_seg (seg : segment) (pid : Z) : Z :=
  index_or_minus1 (find_index (fun p => id p =? pid) (procs seg)).

Definition Conf_id_in_conf (config : configuration) (pid : Z) : Z :=
  index_or_minus1 (find_index (fun sg => 0 <=? Conf_id_in_seg sg pid) (segments config)).

Definition Conf_num_procs (config : configuration) : Z :=
  foldr (fun sg n => num_procs sg + n) 0 (segments config).

Definition Conf_num_segments (config : configuration) : Z :=
  Z.of_nat (length (segments config)).

Definition Conf_num_procs_in_seg (config : configuration) (i : Z) : Z :=
  num_procs (segment_at config i).

(** The first daemon of the first segment that has one. *)
Fixpoint first_proc (l : list segment) : option proc :=
  match l with
  | [] => None
  | sg :: l => match procs sg with p :: _ => Some p | [] => first_proc l end
  end.

(** The last daemon of the last segment that has one: the loop goes down. *)
Fixpoint last_proc_down (rl : list segment) : option proc :=
  match rl with
  | [] => None
  | sg :: rl => match last (procs sg) with Some p => Some p | None => last_proc_down rl end
  end.

Definition Conf_leader (config : configuration) : option Z :=
  id <$> first_proc (segments config).

Definition Conf_last (config : configuration) : option Z :=
  id <$> last_proc_down (rev (segments config)).

Definition Conf_seg_leader (config : configuration) (i : Z) : option Z :=
  id <$> head (procs (segment_at config i)).

Definition Conf_seg_last (config : configuration) (i : Z) : option Z :=
  id <$> last (procs (segment_at config i)).

(** [My] is the daemon's own entry. *)
Definition Conf_previous (My : proc) (config : configuration) : option Z :=
  let idx := Conf_id_in_seg (segment_at config (seg_index My)) (id My) in
  if 0 <? idx then
    id <$> (procs (segment_at config (seg_index My)) !! Z.to_nat (idx - 1))
  else
    let k := Z.to_nat (seg_index My) in
    match last_proc_down (rev (take k (segments config))) with
    | Some p => Some (id p)
    | None => id <$> last_proc_down (rev (drop k (segments config)))
    end.

(** [Conf_append_id_to_seg]: the new segment, or [None] for the return value
    -1.  The daemon is looked up in the running configuration [Config]. *)
Definition Conf_append_id_to_seg (Config : configuration) (seg : segment) (pid : Z)
  : option segment :=
  match Conf_proc_by_id_in_conf Config pid with
  | Some (_, p) => Some (seg <| procs ::= fun l => l ++ [p] |>)
  | None => None
  end.

(** A copy with its own procs: the segments of the copy point to the procs of
    the copy that have the ids of those in [src]; the [assert] is the [None]. *)
Definition Conf_config_copy (src : configuration) : option configuration :=
  let relink sg :=
    sg' ← mapM (fun p => snd <$> Conf_proc_by_id_in_conf src (id p)) (procs sg);
    Some (mk_segment (seg_addrs sg) sg') in
  segs ← mapM relink (segments src);
  Some (mk_configuration (hash_code src) (allprocs src) segs).

(** The automatic id of a daemon, from its name; [None] is the [SPLOG_FATAL].
    [strlen] stops at the first NUL; a [string] here has none. *)
Definition Conf_str_to_id (str : string) : option Z :=
  let tlen := Z.of_nat (String.length str) + 1 in
  let ret := u32 (stdhcode_oaat str tlen) in
  let ret :=
    if (ret =? 0) || (ret =? 4294967295) then
      let ret := u32 (Z.shiftl (u32 tlen) 16) in
      if ret =? 0 then u32 (Z.shiftl 1 16) else ret
    else ret in
  if (ret =? 0) || (ret =? 4294967295) then None else Some ret.
End Data.

#[export] Existing Instances set_procs set_segments.

(** ** The order of the daemons

    [ring_of] is the order in which the token visits the members: segment by
    segment, and in a segment in the order of its array. *)

Section Ring.
Context {L : SpuLib}.

Definition procs_of (l : list segment) : list proc := concat (map procs l).
Definition ring_of (config : configuration) : list Z := map id (procs_of (segments config)).

Lemma Conf_num_procs_length config : Conf_num_procs config = Z.of_nat (length (procs_of (segments config))).
Proof.
  unfold Conf_num_procs, procs_of, num_procs. induction (segments config) as [|sg l IH]; [done|].
  cbn. rewrite length_app, IH. lia.
Qed.
Lemma procs_of_app l l' : procs_of (l ++ l') = procs_of l ++ procs_of l'.
Proof. unfold procs_of. by rewrite map_app, concat_app. Qed.

Lemma first_proc_spec l : first_proc l = head (procs_of l).
Proof. induction l as [|[a [|p ps]] l IH]; cbn in *; done. Qed.

Lemma last_proc_spec l : last_proc_down (rev l) = last (procs_of l).
Proof.
  rewrite <-(rev_involutive l) at 2. generalize (rev l). clear l. intros rl.
  induction rl as [|sg rl IH]; [done|]. cbn [rev last_proc_down].
  rewrite procs_of_app. unfold procs_of at 2. cbn [map concat].
  rewrite app_nil_r, last_app, IH. done.
Qed.

Lemma find_index_Some {A} P (l : list A) i x :
  find_index P l = Some (i, x) ->
  0 <= i < Z.of_nat (length l) /\ l !! Z.to_nat i = Some x /\ P x = true /\
  Forall (fun y => P y = false) (take (Z.to_nat i) l).
Proof.
  revert i x. induction l as [|y l IH]; intros i x; cbn; [done|].
  destruct (P y) eqn:Hy.
  - intros [= <- <-]. cbn. split; [lia|done].
  - destruct (find_index P l) as [[i' x']|]; [|done]. intros [= <- <-].
    destruct (IH i' x' eq_refl) as (Hi & Hl & HP & HF). split; [lia|].
    replace (Z.to_nat (i' + 1)) with (S (Z.to_nat i')) by lia. cbn.
    by repeat split; try constructor.
Qed.

Lemma find_index_None {A} P (l : list A) :
  find_index P l = None <-> Forall (fun y => P y = false) l.
Proof.
  induction l as [|y l IH]; cbn; [by split; constructor|].
  rewrite Forall_cons. destruct (P y) eqn:Hy; [by split; [|intros []]|].
  rewrite <-IH. destruct (find_index P l) as [[]|]; split; try done. by intros [].
Qed.

Lemma find_index_app_r {A} P (l l' : list A) :
  Forall (fun y => P y = false) l ->
  find_index P (l ++ l') =
    match find_index P l' with
    | Some (i, x) => Some (i + Z.of_nat (length l), x) | None => None end.
Proof.
  induction 1 as [|y l Hy Hl IH]; cbn -[Z.of_nat].
  - destruct (find_index P l') as [[i x]|]; [|done]. do 2 f_equal. lia.
  - rewrite Hy, IH. destruct (find_index P l') as [[i x]|]; [|done]. do 2 f_equal. lia.
Qed.

Lemma Conf_id_in_seg_pos sg pre p post :
  procs sg = pre ++ p :: post -> id p ∉ map id pre ->
  Conf_id_in_seg sg (id p) = Z.of_nat (length pre).
Proof.
  intros Hsg Hni. unfold Conf_id_in_seg. rewrite Hsg, find_index_app_r; cbn.
  - by rewrite Z.eqb_refl.
  - apply list.Forall_forall. intros q Hq. apply Z.eqb_neq. intros Heq. apply Hni.
    rewrite <-Heq. apply list_elem_of_In, in_map, list_elem_of_In, Hq.
Qed.

Lemma Conf_id_in_seg_neg sg pid :
  Conf_id_in_seg sg pid < 0 <-> pid ∉ map id (procs sg).
Proof.
  unfold Conf_id_in_seg.
  destruct (find_index _ (procs sg)) as [[i x]|] eqn:E; cbn.
  - apply find_index_Some in E as (Hi & Hl & HP & _). split; [lia|].
    intros []. apply Z.eqb_eq in HP. subst. apply list_elem_of_In, in_map, list_elem_of_In.
    by eapply list_elem_of_lookup_2.
  - apply find_index_None in E. split; [|lia]. intros _ Hin.
    apply list_elem_of_In, in_map_iff in Hin as (y & <- & Hy%list_elem_of_In).
    rewrite list.Forall_forall in E. apply E, Z.eqb_neq in Hy. done.
Qed.

Lemma Conf_id_in_conf_spec config pid :
  Conf_id_in_conf config pid = -1 <-> pid ∉ ring_of config.
Proof.
  unfold Conf_id_in_conf, ring_of, procs_of.
  destruct (find_index _ (segments config)) as [[i sg]|] eqn:E; cbn.
  - apply find_index_Some in E as (Hi & Hl & HP & _). split; [lia|].
    intros []. apply Z.leb_le in HP.
    assert (Hin : pid ∈ map id (procs sg)).
    { destruct (decide (pid ∈ map id (procs sg))) as [|Hn]; [done|].
      apply Conf_id_in_seg_neg in Hn. lia. }
    rewrite concat_map, map_map. apply list_elem_of_In, in_concat.
    exists (map id (procs sg)). split; [|by apply list_elem_of_In].
    apply (in_map (fun s => map id (procs s))), list_elem_of_In.
    by eapply list_elem_of_lookup_2.
  - apply find_index_None in E. split; [|done]. intros _.
    rewrite concat_map, map_map, list_elem_of_In, in_concat.
    intros (x & Hx & Hp). apply in_map_iff in Hx as (sg & <- & Hsg%list_elem_of_In).
    rewrite list.Forall_forall in E. apply E, Z.leb_gt, Conf_id_in_seg_neg in Hsg.
    by apply Hsg, list_elem_of_In.
Qed.

Lemma Conf_leader_ring config : Conf_leader config = head (ring_of config).
Proof.
  unfold Conf_leader, ring_of. rewrite first_proc_spec. by destruct (procs_of _).
Qed.

Lemma last_map {A B} (f : A -> B) l : last (map f l) = f <$> last l.
Proof. apply fmap_last. Qed.

Lemma Conf_last_ring config : Conf_last config = last (ring_of config).
Proof. unfold Conf_last, ring_of. by rewrite last_proc_spec, last_map. Qed.

(** [My] stands at its own place in [config]: segment [seg_index My], after the
    daemons [pre] of its segment and before [post]. *)
Record placed (My : proc) (config : configuration) (before : list segment)
    (pre post : list proc) (after : list segment) (addrs : list spu_addr) : Prop := {
  placed_segments : segments config = before ++ mk_segment addrs (pre ++ My :: post) :: after;
  placed_index : seg_index My = Z.of_nat (length before);
  placed_nodup : NoDup (ring_of config) }.

Section Placed.
Context (My : proc) (config : configuration) (before : list segment).
Context (pre post : list proc) (after : list segment) (addrs : list spu_addr).
Hypothesis HP : placed My config before pre post after addrs.

Lemma placed_segment_at :
  segment_at config (seg_index My) = mk_segment addrs (pre ++ My :: post).
Proof.
  destruct HP as [Hs Hi _]. unfold segment_at. rewrite Hs, Hi.
  destruct (Z.ltb_spec (Z.of_nat (length before)) 0); [lia|].
  by rewrite Nat2Z.id, list_lookup_middle.
Qed.

Lemma placed_ring : ring_of config =
  (map id (procs_of before) ++ map id pre) ++ id My ::
  (map id post ++ map id (procs_of after)).
Proof.
  destruct HP as [Hs _ _]. unfold ring_of.
  change (procs_of (?s :: ?l)) with (procs s ++ procs_of l).
  rewrite Hs, procs_of_app. unfold procs_of at 2. cbn. fold (procs_of after).
  rewrite !map_app. cbn. rewrite <-!app_assoc. done.
Qed.

Lemma placed_not_in_pre : id My ∉ map id pre.
Proof.
  pose proof (placed_nodup _ _ _ _ _ _ _ HP) as Hnd. rewrite placed_ring in Hnd.
  apply NoDup_app in Hnd as (_ & Hd & _). intros Hin.
  apply (Hd (id My)); [apply elem_of_app; by right|by left].
Qed.

Lemma placed_id_in_seg :
  Conf_id_in_seg (segment_at config (seg_index My)) (id My) = Z.of_nat (length pre).
Proof.
  rewrite placed_segment_at. eapply Conf_id_in_seg_pos; [done|]. apply placed_not_in_pre.
Qed.

(** The predecessor in the ring is the member before, and the last member
    of all when there is none. *)
Lemma Conf_previous_ring :
  Conf_previous My config =
    match last (map id (procs_of before) ++ map id pre) with
    | Some p => Some p
    | None => last (ring_of config)
    end.
Proof.
  destruct HP as [Hs Hi _]. unfold Conf_previous. rewrite placed_id_in_seg.
  rewrite placed_segment_at. cbn [procs].
  destruct (decide (pre = [])) as [Hpre|Hpre].
  - rewrite Hpre. cbn [length map Z.of_nat]. rewrite app_nil_r.
    change (0 <? 0) with false. cbn iota.
    rewrite Hi, Nat2Z.id, Hs, take_app_length, drop_app_length.
    rewrite !last_proc_spec, last_map.
    destruct (last (procs_of before)) as [p|] eqn:E; [done|].
    apply last_None in E. rewrite <-last_map. f_equal. unfold ring_of.
    rewrite Hs, procs_of_app, E, Hpre. done.
  - destruct (exists_last Hpre) as (pre' & q & Hq). rewrite Hq.
    rewrite length_app. cbn [length].
    destruct (Z.ltb_spec 0 (Z.of_nat (length pre' + 1))); [|lia].
    replace (Z.to_nat (Z.of_nat (length pre' + 1) - 1)) with (length pre') by lia.
    rewrite <-app_assoc. cbn. rewrite list_lookup_middle by done.
    rewrite map_app, app_assoc. cbn [map]. by rewrite last_snoc.
Qed.
End Placed.
End Ring.
