(* ===== verification/State.v ===== *)
(** * The state of a daemon

    One record holds the daemon's file-scope variables, under the names the C
    files give them ([conf_] and [gs_] mark those of configuration.c and of
    [GlobalStatus] whose names clash).  The copies [My] and [Cn] that several
    files keep of the daemon's entry and of the configuration are one field
    each: they are refreshed together.

    What the daemon asks of libspread-util, in order, is the [trace]: timers and
    file descriptors of the event system, datagrams, the clock.  The value a
    call returns is given by [ext_ret], a function of the trace. *)

From S2P Require Import Prelude NetTypes Configuration.

Record sp_time := mk_sp_time { sec : Z; usec : Z }.
Definition Zero_timeout : sp_time := mk_sp_time 0 0.

(** The states of the membership algorithm ([membership.h]), and their codes. *)
Inductive memb_state := OP | SEG | REPRESENTED | GATHER | FORM | EVS.
#[export] Instance memb_state_eq_dec : EqDecision memb_state.
Proof. solve_decision. Defined.
Definition memb_state_code (m : memb_state) : Z :=
  match m with OP => 1 | SEG => 2 | REPRESENTED => 3 | GATHER => 4 | FORM => 5 | EVS => 6 end.
Definition st_eqb (a b : memb_state) : bool := bool_decide (a = b).

(** Functions queued in the event system ([Scast_alive_event] with its code,
    [Sess_badger_TO] with its mailbox). *)
Inductive event :=
| Memb_token_loss_event | Memb_lookup_new_members_event | Shift_to_seg_event
| Gather_or_represented_event | Form_or_fail_event | Scast_alive_event (code : Z)
| Send_join_event | Prot_token_hurry_event | Deliver_all_reliable_packets_event
| Deliver_agreed_packets_event | Prot_initiate_conf_reload_event | Clear_partition_cb
| Sess_badger_TO (mbox : Z) | Sess_accept_continue2.

(** The checks a connection goes through ([session_auth_info]): the methods, and
    what the completed ones said. *)
Record session_auth_info := mk_session_auth_info {
  sa_mbox : Z;
  required_auth_methods : list Z;
  required_auth_results : list bool
}.

(** Priorities and handlers of an attached file descriptor. *)
Inductive priority := LOW_PRIORITY | MEDIUM_PRIORITY | HIGH_PRIORITY.
Inductive fd_handler :=
| Prot_handle_bcast_fd | Prot_handle_token_fd | Sess_badger_FD
| Sess_accept_fd (is_unix : bool) | Sess_accept_continue_fd | Sess_recv_client_auth_fd
| auth_client_conn_read_fd (sess_auth_p : session_auth_info) | Sess_read_fd.
Inductive sockopt := SO_SNDBUF | SO_RCVBUF | TCP_NODELAY | SO_KEEPALIVE | SO_REUSEADDR.
Inductive fd_type := READ_FD | WRITE_FD | EXCEPT_FD.

(** A datagram: its header and the bytes after it. *)
Inductive datagram :=
| Packet (h : packet_header) (body : list Z)
| Token (h : token_header) (body : list Z).

(** The flags of a channel: SEND_CHANNEL, RECV_CHANNEL, REUSE_ADDR. *)
Record channel_flags := mk_channel_flags {
  SEND_CHANNEL : bool; RECV_CHANNEL : bool; REUSE_ADDR : bool }.

(** What the daemon asks for when it starts and ends: channels and sockets, and the
    rights of the process.  [getgrnam] and [getpwnam] give a number, and a negative
    value for the null pointer. *)
Inductive start_call (addr : Type) :=
| DL_init_channel_gen (flags : channel_flags) (a : addr)
| DL_join_multicast_gen (c : Z) (group ifc : addr)
| DL_close_channel (c : Z)
| socket (family : Z)
| bind_inet (fd : Z) (a : addr)
| bind_unix (fd port : Z)
| listen (fd backlog : Z)
| unlink_unix (port : Z)
| chmod_unix (port : Z)
| E_init
| set_rand (seed : Z)
| geteuid
| stat_socket_dir
| getgrnam (group : string)
| getpwnam (user : string)
| chdir (dir : string)
| chroot (dir : string)
| setgroups (gid : Z)
| setgid (gid : Z)
| setuid (uid : Z)
| Log_init.
Arguments DL_init_channel_gen {addr}. Arguments DL_join_multicast_gen {addr}.
Arguments DL_close_channel {addr}. Arguments socket {addr}. Arguments bind_inet {addr}.
Arguments bind_unix {addr}. Arguments listen {addr}. Arguments unlink_unix {addr}. Arguments chmod_unix {addr}.
Arguments E_init {addr}. Arguments set_rand {addr}. Arguments geteuid {addr}.
Arguments stat_socket_dir {addr}. Arguments getgrnam {addr}. Arguments getpwnam {addr}.
Arguments chdir {addr}. Arguments chroot {addr}. Arguments setgroups {addr}.
Arguments setgid {addr}. Arguments setuid {addr}. Arguments Log_init {addr}.

Inductive call_ (addr : Type) :=
| E_queue (e : event) (t : sp_time)
| E_dequeue (e : event)
| E_attach_fd (fd : Z) (h : fd_handler) (p : priority)
| E_detach_fd_priority (fd : Z) (p : priority)
| E_detach_fd (fd : Z) (t : fd_type)
| E_set_active_threshold (p : priority)
| E_get_time
| DL_sendto_gen (d : datagram) (a : addr)
| Stat_handle_message (h : packet_header)
| Log_membership
| Log_sess_disconnect (mbox num_mess : Z)
| ioctl_FIONBIO (fd : Z) (non_blocking : bool)
| send (fd : Z) (bytes : list Z)
| close (fd : Z)
| accept (fd : Z) (is_unix : bool)
| setsockopt (fd : Z) (o : sockopt) (on : Z)
| getsockopt (fd : Z) (o : sockopt)
| recv (fd n : Z)
| sock_errno
| get_rand
| Log_sess_connect (mbox : Z) (name : list Z)
| at_start (c : start_call addr).
Arguments E_queue {addr}. Arguments E_dequeue {addr}. Arguments E_attach_fd {addr}.
Arguments E_detach_fd_priority {addr}. Arguments E_get_time {addr}.
Arguments DL_sendto_gen {addr}. Arguments Stat_handle_message {addr}.
Arguments Log_membership {addr}. Arguments E_detach_fd {addr}.
Arguments E_set_active_threshold {addr}. Arguments Log_sess_disconnect {addr}.
Arguments ioctl_FIONBIO {addr}. Arguments send {addr}. Arguments close {addr}.
Arguments accept {addr}. Arguments setsockopt {addr}. Arguments getsockopt {addr}.
Arguments recv {addr}. Arguments sock_errno {addr}. Arguments get_rand {addr}.
Arguments Log_sess_connect {addr}. Arguments at_start {addr}.

(** Scatters: elements of a length and a buffer ([num_elements] of them). *)
Record element := mk_element { e_len : Z; e_buf : list Z }.
Abbreviation scatter := (list element) (only parsing).

Record packet_info := mk_packet_info {
  head : packet_header; body : list Z; exist : Z; proc_index : Z }.
Definition no_header : packet_header :=
  mk_packet_header 0 0 0 (mk_membership_id 0 0) 0 0 0 0 (mk_frag 0 0).
Definition no_packet : packet_info := mk_packet_info no_header [] 0 0.
#[export] Instance packet_info_inhabited : Inhabited packet_info := populate no_packet.
Definition eta_packet_info (p : packet_info) :=
  mk_packet_info (head p) (body p) (exist p) (proc_index p).
#[export] Instance set_head : Setter head := ltac:(make_setter eta_packet_info).
#[export] Instance set_body : Setter body := ltac:(make_setter eta_packet_info).
#[export] Instance set_exist : Setter exist := ltac:(make_setter eta_packet_info).
#[export] Instance set_proc_index : Setter proc_index := ltac:(make_setter eta_packet_info).

(** Messages waiting to be sent, and the fragment of the first to send next.
    [num_mess] is the length of the list. *)
Record down_link := mk_down_link { d_type : Z; d_mess : scatter }.
Record down_queue := mk_down_queue { cur_element : Z; links : list down_link }.
Definition num_mess (d : down_queue) : Z := Z.of_nat (length (links d)).
Inductive down_queue_name := NORMAL_DOWNQUEUE | GROUPS_DOWNQUEUE.

(** Membership sets ([membership.c]); the arrays keep their declared length. *)
Record members_info := mk_members_info {
  num_members : Z; num_pending : Z; members : list Z }.
Record rep_info := mk_rep_info { rep_proc_id : Z; rep_type : Z; rep_seg_index : Z }.
Record reps_info := mk_reps_info { num_reps : Z; rep_index : Z; reps : list rep_info }.
#[export] Instance rep_info_eq_dec : EqDecision rep_info.
Proof. solve_decision. Defined.
#[export] Instance rep_info_inhabited : Inhabited rep_info := populate (mk_rep_info 0 0 0).

Definition eta_members_info (m : members_info) :=
  mk_members_info (num_members m) (num_pending m) (members m).
#[export] Instance set_num_members : Setter num_members := ltac:(make_setter eta_members_info).
#[export] Instance set_num_pending : Setter num_pending := ltac:(make_setter eta_members_info).
#[export] Instance set_members : Setter members := ltac:(make_setter eta_members_info).
Definition eta_rep_info (r : rep_info) := mk_rep_info (rep_proc_id r) (rep_type r) (rep_seg_index r).
#[export] Instance set_rep_proc_id : Setter rep_proc_id := ltac:(make_setter eta_rep_info).
#[export] Instance set_rep_type : Setter rep_type := ltac:(make_setter eta_rep_info).
#[export] Instance set_rep_seg_index : Setter rep_seg_index := ltac:(make_setter eta_rep_info).
Definition eta_reps_info (r : reps_info) := mk_reps_info (num_reps r) (rep_index r) (reps r).
#[export] Instance set_num_reps : Setter num_reps := ltac:(make_setter eta_reps_info).
#[export] Instance set_rep_index : Setter rep_index := ltac:(make_setter eta_reps_info).
#[export] Instance set_reps : Setter reps := ltac:(make_setter eta_reps_info).

(** Array accesses; [None] is an index outside the array. *)
Definition arr_get {A} (l : list A) (i : Z) : option A :=
  if i <? 0 then None else l !! Z.to_nat i.
Definition arr_set {A} (l : list A) (i : Z) (x : A) : option (list A) :=
  if (i <? 0) || (Z.of_nat (length l) <=? i) then None else Some (<[Z.to_nat i := x]> l).

(** The world outside the daemon's files. *)
Class Ext {L : SpuLib} := {
  ext_ret : list (call_ spu_addr) -> Z;
  sess_state : Type
}.

Section State.
Context {L : SpuLib} {X : Ext}.

Definition call : Type := call_ spu_addr.

Record St := mk_St {
  (* configuration.c *)
  Config : configuration;
  My : proc;
  EnableDangerousMonitor : bool;
  conf_Window : Z;
  conf_PersonalWindow : Z;
  conf_AcceleratedRingFlag : bool;
  conf_AcceleratedRing : bool;
  conf_AcceleratedWindow : Z;
  TimeoutMask : Z;
  conf_Timeouts : list Z;
  WideAreaNetworkFlag : bool;
  WideAreaNetwork : bool;
  Conf_Reload_Singleton_State : bool;
  (* network.c *)
  Bcast_channel : list Z;
  Token_channel : list Z;
  Bcast_needed : Z;
  Bcast_addrs : list spu_addr;
  Send_addrs : list spu_addr;
  Token_addr : spu_addr;
  Net_membership : configuration;
  Segment_leader : bool;
  Partition : list Z;
  Partition_my_index : Z;
  (* flow_control.c *)
  Window : Z;
  Personal_window : Z;
  Accelerated_window : Z;
  Accelerated_ring : bool;
  (* prot_body.h *)
  Up_queue : gmap Z scatter;
  Packets : gmap Z packet_info;
  Aru : Z;
  My_aru : Z;
  Highest_seq : Z;
  Highest_fifo_seq : Z;
  Last_discarded : Z;
  Last_delivered : Z;
  Last_seq : Z;
  Token_rounds : Z;
  Received_token_rounds : Z;
  Last_token : token_header;
  Transitional : bool;
  Trans_membership : configuration;
  Commit_membership : configuration;
  Reg_membership : configuration;
  Last_num_retrans : Z;
  Last_num_sent : Z;
  Token_timeout : sp_time;
  Hurry_timeout : sp_time;
  Alive_timeout : sp_time;
  Join_timeout : sp_time;
  Rep_timeout : sp_time;
  Seg_timeout : sp_time;
  Gather_timeout : sp_time;
  Form_timeout : sp_time;
  Lookup_timeout : sp_time;
  Wide_network : bool;
  (* protocol.c *)
  My_index : Z;
  Prev_proc_id : Z;
  Token_has_priority : bool;
  Token_counter : Z;
  Send_pack_queue : list Z;
  Hurry_head : packet_header;
  Prot_Need_Conf_Reload : bool;
  Normal_down_queue : down_queue;
  Groups_down_queue : down_queue;
  Down_queue_ptr : option down_queue_name;
  Prot_delivery_threshold : Z;
  (* membership.c *)
  Memb_Just_Installed : bool;
  Membership : configuration;
  Membership_id : membership_id;
  Future_membership : configuration;
  Future_membership_id : membership_id;
  Form1_memb_id : membership_id;
  Trans_memb_id : membership_id;
  F_trans_memb_time : Z;
  Last_time_used : Z;
  State : memb_state;
  Token_alive : bool;
  My_seg_rep : Z;
  Foreign_found : bool;
  F_members : members_info;
  F_reps : reps_info;
  Potential_reps : reps_info;
  Commit_set : members_info;
  Future_commit_set : members_info;
  Send_pack_head : packet_header;
  (* GlobalStatus (status.h) *)
  gs_gstate : Z;
  gs_state : Z;
  gs_packet_sent : Z;
  gs_packet_recv : Z;
  gs_packet_delivered : Z;
  gs_retrans : Z;
  gs_u_retrans : Z;
  gs_s_retrans : Z;
  gs_b_retrans : Z;
  gs_aru : Z;
  gs_my_aru : Z;
  gs_highest_seq : Z;
  gs_token_hurry : Z;
  gs_token_rounds : Z;
  gs_my_id : Z;
  gs_leader_id : Z;
  gs_membership_changes : Z;
  gs_num_procs : Z;
  gs_num_segments : Z;
  gs_window : Z;
  gs_personal_window : Z;
  gs_accelerated_ring : Z;
  gs_accelerated_window : Z;
  (* the session layer and the world *)
  Sess : sess_state;
  trace : list call
}.

Definition eta_St (s : St) := mk_St
  (Config s) (My s) (EnableDangerousMonitor s) (conf_Window s)
  (conf_PersonalWindow s) (conf_AcceleratedRingFlag s) (conf_AcceleratedRing s)
  (conf_AcceleratedWindow s) (TimeoutMask s) (conf_Timeouts s)
  (WideAreaNetworkFlag s) (WideAreaNetwork s) (Conf_Reload_Singleton_State s)
  (Bcast_channel s) (Token_channel s) (Bcast_needed s) (Bcast_addrs s) (Send_addrs
  s) (Token_addr s) (Net_membership s) (Segment_leader s) (Partition s)
  (Partition_my_index s) (Window s) (Personal_window s) (Accelerated_window s)
  (Accelerated_ring s) (Up_queue s) (Packets s) (Aru s) (My_aru s) (Highest_seq s)
  (Highest_fifo_seq s) (Last_discarded s) (Last_delivered s) (Last_seq s)
  (Token_rounds s) (Received_token_rounds s) (Last_token s) (Transitional s)
  (Trans_membership s) (Commit_membership s) (Reg_membership s) (Last_num_retrans
  s) (Last_num_sent s) (Token_timeout s) (Hurry_timeout s) (Alive_timeout s)
  (Join_timeout s) (Rep_timeout s) (Seg_timeout s) (Gather_timeout s)
  (Form_timeout s) (Lookup_timeout s) (Wide_network s) (My_index s) (Prev_proc_id
  s) (Token_has_priority s) (Token_counter s) (Send_pack_queue s) (Hurry_head s)
  (Prot_Need_Conf_Reload s) (Normal_down_queue s) (Groups_down_queue s)
  (Down_queue_ptr s) (Prot_delivery_threshold s) (Memb_Just_Installed s)
  (Membership s) (Membership_id s) (Future_membership s) (Future_membership_id s)
  (Form1_memb_id s) (Trans_memb_id s) (F_trans_memb_time s) (Last_time_used s)
  (State s) (Token_alive s) (My_seg_rep s) (Foreign_found s) (F_members s) (F_reps
  s) (Potential_reps s) (Commit_set s) (Future_commit_set s) (Send_pack_head s)
  (gs_gstate s) (gs_state s) (gs_packet_sent s) (gs_packet_recv s)
  (gs_packet_delivered s) (gs_retrans s) (gs_u_retrans s) (gs_s_retrans s)
  (gs_b_retrans s) (gs_aru s) (gs_my_aru s) (gs_highest_seq s) (gs_token_hurry s)
  (gs_token_rounds s) (gs_my_id s) (gs_leader_id s) (gs_membership_changes s)
  (gs_num_procs s) (gs_num_segments s) (gs_window s) (gs_personal_window s)
  (gs_accelerated_ring s) (gs_accelerated_window s) (Sess s) (trace s).

#[export] Instance set_Config : Setter Config := ltac:(make_setter eta_St).
#[export] Instance set_My : Setter My := ltac:(make_setter eta_St).
#[export] Instance set_EnableDangerousMonitor : Setter EnableDangerousMonitor := ltac:(make_setter eta_St).
#[export] Instance set_conf_Window : Setter conf_Window := ltac:(make_setter eta_St).
#[export] Instance set_conf_PersonalWindow : Setter conf_PersonalWindow := ltac:(make_setter eta_St).
#[export] Instance set_conf_AcceleratedRingFlag : Setter conf_AcceleratedRingFlag := ltac:(make_setter eta_St).
#[export] Instance set_conf_AcceleratedRing : Setter conf_AcceleratedRing := ltac:(make_setter eta_St).
#[export] Instance set_conf_AcceleratedWindow : Setter conf_AcceleratedWindow := ltac:(make_setter eta_St).
#[export] Instance set_TimeoutMask : Setter TimeoutMask := ltac:(make_setter eta_St).
#[export] Instance set_conf_Timeouts : Setter conf_Timeouts := ltac:(make_setter eta_St).
#[export] Instance set_WideAreaNetworkFlag : Setter WideAreaNetworkFlag := ltac:(make_setter eta_St).
#[export] Instance set_WideAreaNetwork : Setter WideAreaNetwork := ltac:(make_setter eta_St).
#[export] Instance set_Conf_Reload_Singleton_State : Setter Conf_Reload_Singleton_State := ltac:(make_setter eta_St).
#[export] Instance set_Bcast_channel : Setter Bcast_channel := ltac:(make_setter eta_St).
#[export] Instance set_Token_channel : Setter Token_channel := ltac:(make_setter eta_St).
#[export] Instance set_Bcast_needed : Setter Bcast_needed := ltac:(make_setter eta_St).
#[export] Instance set_Bcast_addrs : Setter Bcast_addrs := ltac:(make_setter eta_St).
#[export] Instance set_Send_addrs : Setter Send_addrs := ltac:(make_setter eta_St).
#[export] Instance set_Token_addr : Setter Token_addr := ltac:(make_setter eta_St).
#[export] Instance set_Net_membership : Setter Net_membership := ltac:(make_setter eta_St).
#[export] Instance set_Segment_leader : Setter Segment_leader := ltac:(make_setter eta_St).
#[export] Instance set_Partition : Setter Partition := ltac:(make_setter eta_St).
#[export] Instance set_Partition_my_index : Setter Partition_my_index := ltac:(make_setter eta_St).
#[export] Instance set_Window : Setter Window := ltac:(make_setter eta_St).
#[export] Instance set_Personal_window : Setter Personal_window := ltac:(make_setter eta_St).
#[export] Instance set_Accelerated_window : Setter Accelerated_window := ltac:(make_setter eta_St).
#[export] Instance set_Accelerated_ring : Setter Accelerated_ring := ltac:(make_setter eta_St).
#[export] Instance set_Up_queue : Setter Up_queue := ltac:(make_setter eta_St).
#[export] Instance set_Packets : Setter Packets := ltac:(make_setter eta_St).
#[export] Instance set_Aru : Setter Aru := ltac:(make_setter eta_St).
#[export] Instance set_My_aru : Setter My_aru := ltac:(make_setter eta_St).
#[export] Instance set_Highest_seq : Setter Highest_seq := ltac:(make_setter eta_St).
#[export] Instance set_Highest_fifo_seq : Setter Highest_fifo_seq := ltac:(make_setter eta_St).
#[export] Instance set_Last_discarded : Setter Last_discarded := ltac:(make_setter eta_St).
#[export] Instance set_Last_delivered : Setter Last_delivered := ltac:(make_setter eta_St).
#[export] Instance set_Last_seq : Setter Last_seq := ltac:(make_setter eta_St).
#[export] Instance set_Token_rounds : Setter Token_rounds := ltac:(make_setter eta_St).
#[export] Instance set_Received_token_rounds : Setter Received_token_rounds := ltac:(make_setter eta_St).
#[export] Instance set_Last_token : Setter Last_token := ltac:(make_setter eta_St).
#[export] Instance set_Transitional : Setter Transitional := ltac:(make_setter eta_St).
#[export] Instance set_Trans_membership : Setter Trans_membership := ltac:(make_setter eta_St).
#[export] Instance set_Commit_membership : Setter Commit_membership := ltac:(make_setter eta_St).
#[export] Instance set_Reg_membership : Setter Reg_membership := ltac:(make_setter eta_St).
#[export] Instance set_Last_num_retrans : Setter Last_num_retrans := ltac:(make_setter eta_St).
#[export] Instance set_Last_num_sent : Setter Last_num_sent := ltac:(make_setter eta_St).
#[export] Instance set_Token_timeout : Setter Token_timeout := ltac:(make_setter eta_St).
#[export] Instance set_Hurry_timeout : Setter Hurry_timeout := ltac:(make_setter eta_St).
#[export] Instance set_Alive_timeout : Setter Alive_timeout := ltac:(make_setter eta_St).
#[export] Instance set_Join_timeout : Setter Join_timeout := ltac:(make_setter eta_St).
#[export] Instance set_Rep_timeout : Setter Rep_timeout := ltac:(make_setter eta_St).
#[export] Instance set_Seg_timeout : Setter Seg_timeout := ltac:(make_setter eta_St).
#[export] Instance set_Gather_timeout : Setter Gather_timeout := ltac:(make_setter eta_St).
#[export] Instance set_Form_timeout : Setter Form_timeout := ltac:(make_setter eta_St).
#[export] Instance set_Lookup_timeout : Setter Lookup_timeout := ltac:(make_setter eta_St).
#[export] Instance set_Wide_network : Setter Wide_network := ltac:(make_setter eta_St).
#[export] Instance set_My_index : Setter My_index := ltac:(make_setter eta_St).
#[export] Instance set_Prev_proc_id : Setter Prev_proc_id := ltac:(make_setter eta_St).
#[export] Instance set_Token_has_priority : Setter Token_has_priority := ltac:(make_setter eta_St).
#[export] Instance set_Token_counter : Setter Token_counter := ltac:(make_setter eta_St).
#[export] Instance set_Send_pack_queue : Setter Send_pack_queue := ltac:(make_setter eta_St).
#[export] Instance set_Hurry_head : Setter Hurry_head := ltac:(make_setter eta_St).
#[export] Instance set_Prot_Need_Conf_Reload : Setter Prot_Need_Conf_Reload := ltac:(make_setter eta_St).
#[export] Instance set_Normal_down_queue : Setter Normal_down_queue := ltac:(make_setter eta_St).
#[export] Instance set_Groups_down_queue : Setter Groups_down_queue := ltac:(make_setter eta_St).
#[export] Instance set_Down_queue_ptr : Setter Down_queue_ptr := ltac:(make_setter eta_St).
#[export] Instance set_Prot_delivery_threshold : Setter Prot_delivery_threshold := ltac:(make_setter eta_St).
#[export] Instance set_Memb_Just_Installed : Setter Memb_Just_Installed := ltac:(make_setter eta_St).
#[export] Instance set_Membership : Setter Membership := ltac:(make_setter eta_St).
#[export] Instance set_Membership_id : Setter Membership_id := ltac:(make_setter eta_St).
#[export] Instance set_Future_membership : Setter Future_membership := ltac:(make_setter eta_St).
#[export] Instance set_Future_membership_id : Setter Future_membership_id := ltac:(make_setter eta_St).
#[export] Instance set_Form1_memb_id : Setter Form1_memb_id := ltac:(make_setter eta_St).
#[export] Instance set_Trans_memb_id : Setter Trans_memb_id := ltac:(make_setter eta_St).
#[export] Instance set_F_trans_memb_time : Setter F_trans_memb_time := ltac:(make_setter eta_St).
#[export] Instance set_Last_time_used : Setter Last_time_used := ltac:(make_setter eta_St).
#[export] Instance set_State : Setter State := ltac:(make_setter eta_St).
#[export] Instance set_Token_alive : Setter Token_alive := ltac:(make_setter eta_St).
#[export] Instance set_My_seg_rep : Setter My_seg_rep := ltac:(make_setter eta_St).
#[export] Instance set_Foreign_found : Setter Foreign_found := ltac:(make_setter eta_St).
#[export] Instance set_F_members : Setter F_members := ltac:(make_setter eta_St).
#[export] Instance set_F_reps : Setter F_reps := ltac:(make_setter eta_St).
#[export] Instance set_Potential_reps : Setter Potential_reps := ltac:(make_setter eta_St).
#[export] Instance set_Commit_set : Setter Commit_set := ltac:(make_setter eta_St).
#[export] Instance set_Future_commit_set : Setter Future_commit_set := ltac:(make_setter eta_St).
#[export] Instance set_Send_pack_head : Setter Send_pack_head := ltac:(make_setter eta_St).
#[export] Instance set_gs_gstate : Setter gs_gstate := ltac:(make_setter eta_St).
#[export] Instance set_gs_state : Setter gs_state := ltac:(make_setter eta_St).
#[export] Instance set_gs_packet_sent : Setter gs_packet_sent := ltac:(make_setter eta_St).
#[export] Instance set_gs_packet_recv : Setter gs_packet_recv := ltac:(make_setter eta_St).
#[export] Instance set_gs_packet_delivered : Setter gs_packet_delivered := ltac:(make_setter eta_St).
#[export] Instance set_gs_retrans : Setter gs_retrans := ltac:(make_setter eta_St).
#[export] Instance set_gs_u_retrans : Setter gs_u_retrans := ltac:(make_setter eta_St).
#[export] Instance set_gs_s_retrans : Setter gs_s_retrans := ltac:(make_setter eta_St).
#[export] Instance set_gs_b_retrans : Setter gs_b_retrans := ltac:(make_setter eta_St).
#[export] Instance set_gs_aru : Setter gs_aru := ltac:(make_setter eta_St).
#[export] Instance set_gs_my_aru : Setter gs_my_aru := ltac:(make_setter eta_St).
#[export] Instance set_gs_highest_seq : Setter gs_highest_seq := ltac:(make_setter eta_St).
#[export] Instance set_gs_token_hurry : Setter gs_token_hurry := ltac:(make_setter eta_St).
#[export] Instance set_gs_token_rounds : Setter gs_token_rounds := ltac:(make_setter eta_St).
#[export] Instance set_gs_my_id : Setter gs_my_id := ltac:(make_setter eta_St).
#[export] Instance set_gs_leader_id : Setter gs_leader_id := ltac:(make_setter eta_St).
#[export] Instance set_gs_membership_changes : Setter gs_membership_changes := ltac:(make_setter eta_St).
#[export] Instance set_gs_num_procs : Setter gs_num_procs := ltac:(make_setter eta_St).
#[export] Instance set_gs_num_segments : Setter gs_num_segments := ltac:(make_setter eta_St).
#[export] Instance set_gs_window : Setter gs_window := ltac:(make_setter eta_St).
#[export] Instance set_gs_personal_window : Setter gs_personal_window := ltac:(make_setter eta_St).
#[export] Instance set_gs_accelerated_ring : Setter gs_accelerated_ring := ltac:(make_setter eta_St).
#[export] Instance set_gs_accelerated_window : Setter gs_accelerated_window := ltac:(make_setter eta_St).
#[export] Instance set_Sess : Setter Sess := ltac:(make_setter eta_St).
#[export] Instance set_trace : Setter trace := ltac:(make_setter eta_St).

(** A call to the outside, and its return value. *)
Definition ext_call (c : call) : M St Z := fun s =>
  let tr := trace s ++ [c] in Ok (ext_ret tr) (s <| trace := tr |>).
Definition ext_do (c : call) : M St unit := ext_call c;; mret tt.

Definition e_queue (e : event) (t : St -> sp_time) : M St unit :=
  d ← gets t; ext_do (E_queue e d).
Definition e_dequeue (e : event) : M St unit := ext_do (E_dequeue e).

(** Calls to the outside only extend the trace. *)
Lemma wp_ext_call E c (Q : Z -> St -> Prop) s :
  (forall tr, Q (ext_ret tr) (s <| trace := tr |>)) -> wp E (ext_call c) Q s.
Proof. intros HQ. Transparent wp. unfold wp, ext_call. apply HQ. Opaque wp. Qed.
Lemma wp_ext_do E c (Q : unit -> St -> Prop) s :
  (forall tr, Q tt (s <| trace := tr |>)) -> wp E (ext_do c) Q s.
Proof. intros HQ. unfold ext_do. wp_step. apply wp_ext_call. intros tr. by wp_step. Qed.
Lemma wp_e_queue E e t (Q : unit -> St -> Prop) s :
  (forall tr, Q tt (s <| trace := tr |>)) -> wp E (e_queue e t) Q s.
Proof. intros HQ. unfold e_queue. do 2 wp_step. by apply wp_ext_do. Qed.
Lemma wp_e_dequeue E e (Q : unit -> St -> Prop) s :
  (forall tr, Q tt (s <| trace := tr |>)) -> wp E (e_dequeue e) Q s.
Proof. apply wp_ext_do. Qed.
Lemma stops_ext_call c : stops (ext_call c).
Proof. intros s. by apply wp_ext_call. Qed.
Lemma stops_ext_do c : stops (ext_do c).
Proof. intros s. by apply wp_ext_do. Qed.
Lemma stops_e_queue e t : stops (e_queue e t).
Proof. intros s. by apply wp_e_queue. Qed.
Lemma stops_e_dequeue e : stops (e_dequeue e).
Proof. intros s. by apply wp_e_dequeue. Qed.
Lemma frame_ext_call {T} (f : St -> T) c :
  (forall s tr, f (s <| trace := tr |>) = f s) -> frame f (ext_call c).
Proof. intros H s a s' [= _ <-]. apply H. Qed.
Lemma frame_ext_do {T} (f : St -> T) c :
  (forall s tr, f (s <| trace := tr |>) = f s) -> frame f (ext_do c).
Proof.
  intros H. apply frame_bind; [by apply frame_ext_call|]. intros. apply frame_ret.
Qed.
Lemma frame_e_queue {T} (f : St -> T) e t :
  (forall s tr, f (s <| trace := tr |>) = f s) -> frame f (e_queue e t).
Proof.
  intros H. apply frame_bind; [apply frame_gets|]. intros. by apply frame_ext_do.
Qed.

(** [Packets[entry]] for an entry number. *)
Definition packet_at (s : St) (entry : Z) : packet_info := Packets s !!! entry.
Definition entry_of (seq : Z) : Z := Z.land seq PACKET_MASK.
(** The packet with a sequence number, and whether it is held. *)
Definition packet_of (s : St) (seq : Z) : packet_info := packet_at s (entry_of seq).
Definition held (s : St) (seq : Z) : bool := negb (exist (packet_of s seq) =? 0).
Definition set_packet (entry : Z) (p : packet_info) : M St unit :=
  modify (fun s => s <| Packets ::= insert entry p |>).
Definition update_packet (entry : Z) (f : packet_info -> packet_info) : M St unit :=
  modify (fun s => s <| Packets := <[entry := f (packet_at s entry)]> (Packets s) |>).

(** [Down_queue_ptr]: reading or writing through it while it is null is undefined. *)
Definition get_down_queue : M St down_queue :=
  n ← gets Down_queue_ptr;
  match n with
  | Some NORMAL_DOWNQUEUE => gets Normal_down_queue
  | Some GROUPS_DOWNQUEUE => gets Groups_down_queue
  | None => undefined
  end.
Definition set_down_queue (d : down_queue) : M St unit :=
  n ← gets Down_queue_ptr;
  match n with
  | Some NORMAL_DOWNQUEUE => modify (fun s => s <| Normal_down_queue := d |>)
  | Some GROUPS_DOWNQUEUE => modify (fun s => s <| Groups_down_queue := d |>)
  | None => undefined
  end.
End State.

#[export] Existing Instances set_Config set_My set_EnableDangerousMonitor set_conf_Window set_conf_PersonalWindow
  set_conf_AcceleratedRingFlag set_conf_AcceleratedRing set_conf_AcceleratedWindow
  set_TimeoutMask set_conf_Timeouts set_WideAreaNetworkFlag set_WideAreaNetwork
  set_Conf_Reload_Singleton_State set_Bcast_channel set_Token_channel
  set_Bcast_needed set_Bcast_addrs set_Send_addrs set_Token_addr set_Net_membership
  set_Segment_leader set_Partition set_Partition_my_index set_Window
  set_Personal_window set_Accelerated_window set_Accelerated_ring set_Up_queue
  set_Packets set_Aru set_My_aru set_Highest_seq set_Highest_fifo_seq
  set_Last_discarded set_Last_delivered set_Last_seq set_Token_rounds
  set_Received_token_rounds set_Last_token set_Transitional set_Trans_membership
  set_Commit_membership set_Reg_membership set_Last_num_retrans set_Last_num_sent
  set_Token_timeout set_Hurry_timeout set_Alive_timeout set_Join_timeout
  set_Rep_timeout set_Seg_timeout set_Gather_timeout set_Form_timeout
  set_Lookup_timeout set_Wide_network set_My_index set_Prev_proc_id
  set_Token_has_priority set_Token_counter set_Send_pack_queue set_Hurry_head
  set_Prot_Need_Conf_Reload set_Normal_down_queue set_Groups_down_queue
  set_Down_queue_ptr set_Prot_delivery_threshold set_Memb_Just_Installed
  set_Membership set_Membership_id set_Future_membership set_Future_membership_id
  set_Form1_memb_id set_Trans_memb_id set_F_trans_memb_time set_Last_time_used
  set_State set_Token_alive set_My_seg_rep set_Foreign_found set_F_members
  set_F_reps set_Potential_reps set_Commit_set set_Future_commit_set
  set_Send_pack_head set_gs_gstate set_gs_state set_gs_packet_sent
  set_gs_packet_recv set_gs_packet_delivered set_gs_retrans set_gs_u_retrans
  set_gs_s_retrans set_gs_b_retrans set_gs_aru set_gs_my_aru set_gs_highest_seq
  set_gs_token_hurry set_gs_token_rounds set_gs_my_id set_gs_leader_id
  set_gs_membership_changes set_gs_num_procs set_gs_num_segments set_gs_window
  set_gs_personal_window set_gs_accelerated_ring set_gs_accelerated_window set_Sess
  set_trace.

#[global] Arguments set_field : simpl never.

#[export] Hint Resolve stops_ext_call stops_ext_do stops_e_queue stops_e_dequeue : stops.
#[export] Hint Extern 1 (frame _ (ext_call _)) => apply frame_ext_call; reflexivity : frame.
#[export] Hint Extern 1 (frame _ (ext_do _)) => apply frame_ext_do; reflexivity : frame.
#[export] Hint Extern 1 (frame _ (e_queue _ _)) => apply frame_e_queue; reflexivity : frame.
#[export] Hint Extern 1 (frame _ (e_dequeue _)) => apply frame_ext_do; reflexivity : frame.
