(* ===== verification/Network.v ===== *)
(** * Network: [network.c]

    What a packet or a token becomes on the wire and where it is sent, the
    checks a received datagram passes, and the monitor's partitions.  Sending a
    packet writes the header it is given, so a send returns the header as it
    left it.  [Net_init] is in NetInit.v. *)

From S2P Require Import Prelude NetTypes Configuration State.

Section Network.
Context {L : SpuLib} {X : Ext}.

Definition sizeof_packet_body : Z := MAX_PACKET_SIZE - sizeof_packet_header.

Definition sum_len (els : list (list Z)) : Z := Z.of_nat (length (concat els)).

(** [send_bcast]: the least of the values [DL_sendto_gen] returned. *)
Fixpoint send_bcast_rest (d : datagram) (addrs : list spu_addr) (ret : Z) : M St Z :=
  match addrs with
  | [] => mret ret
  | a :: addrs =>
      tmp ← ext_call (DL_sendto_gen d a);
      send_bcast_rest d addrs (if negb (tmp =? ret) && (tmp <? ret) then tmp else ret)
  end.

Definition send_bcast (d : datagram) : M St Z :=
  addrs ← gets Bcast_addrs;
  fatal_if ((Z.of_nat (length addrs) <? 1) || (MAX_ADDRS_SEGMENT <? Z.of_nat (length addrs)));;
  match addrs with
  | [] => fatal
  | a :: addrs => ret ← ext_call (DL_sendto_gen d a); send_bcast_rest d addrs ret
  end.

(** The header fields every send of a packet writes. *)
Definition stamp_packet (s : St) (h : packet_header) : packet_header :=
  h <| p_type ::= Set_endian |> <| p_conf_hash := hash_code (Config s) |>
    <| p_transmiter_id := id (My s) |>.
Definition stamp_token (s : St) (h : token_header) : token_header :=
  h <| t_type ::= Set_endian |> <| t_conf_hash := hash_code (Config s) |>
    <| t_transmiter_id := id (My s) |>.

Definition Net_bcast (h : packet_header) (els : list (list Z)) : M St (Z * packet_header) :=
  h ← gets (fun s => stamp_packet s (h <| p_type ::= Set_routed |>));
  addrs ← gets Send_addrs;
  ret ← (fix go addrs ret := match addrs with
         | [] => mret ret
         | a :: addrs => r ← ext_call (DL_sendto_gen (Packet h (concat els)) a); go addrs r
         end) addrs 0;
  let h := h <| p_type ::= Clear_routed |> in
  needed ← gets Bcast_needed;
  if truth needed then
    ret ← send_bcast (Packet h (concat els)); mret (ret, h)
  else if (length addrs =? 0)%nat then mret (1, h)
  else mret (ret, h).

Definition Net_scast (sgi : Z) (h : packet_header) (els : list (list Z))
  : M St (Z * packet_header) :=
  h ← gets (fun s => stamp_packet s h);
  my ← gets My;
  if sgi =? seg_index my then
    needed ← gets Bcast_needed;
    if truth needed then
      ret ← send_bcast (Packet h (concat els)); mret (ret, h)
    else mret (1, h)
  else
    memb ← gets Net_membership;
    match procs (segment_at memb sgi) with
    | p :: _ =>
        let h := h <| p_type ::= Set_routed |> in
        ret ← ext_call (DL_sendto_gen (Packet h (concat els)) (proc_addr p));
        mret (ret, h <| p_type ::= Clear_routed |>)
    | [] => mret (1, h)
    end.

Definition Net_ucast (pid : Z) (h : packet_header) (els : list (list Z))
  : M St (Z * packet_header) :=
  h ← gets (fun s => stamp_packet s h);
  cn ← gets Config;
  match Conf_proc_by_id_in_conf cn pid with
  | None => mret (-1, h)
  | Some (_, p) =>
      ret ← ext_call (DL_sendto_gen (Packet h (concat els)) (proc_addr p));
      mret (ret, h)
  end.

(** The size checks before a token is sent. *)
Definition check_token_len (h : token_header) (els : list (list Z)) : M St unit :=
  let send_len := sizeof_token_header + sum_len els in
  fatal_if (negb (send_len =? sizeof_token_header + t_rtr_len h));;
  fatal_if (sizeof_token_header + sizeof_token_body <? send_len).

Definition Net_send_token (h : token_header) (els : list (list Z))
  : M St (Z * token_header) :=
  check_token_len h els;;
  h ← gets (fun s => stamp_token s h);
  a ← gets Token_addr;
  ret ← ext_call (DL_sendto_gen (Token h (concat els)) a);
  mret (ret, h).

Definition next_port (a : spu_addr) : spu_addr :=
  spu_addr_ip_set_port a (spu_addr_ip_get_port a + 1).

Definition Net_ucast_token (pid : Z) (h : token_header) (els : list (list Z))
  : M St (Z * token_header) :=
  check_token_len h els;;
  h ← gets (fun s => stamp_token s h);
  cn ← gets Config;
  match Conf_proc_by_id_in_conf cn pid with
  | None => mret (-1, h)
  | Some (_, p) =>
      ret ← ext_call (DL_sendto_gen (Token h (concat els)) (next_port (proc_addr p)));
      mret (ret, h)
  end.

(** ** Membership: whom a broadcast is routed to, and the next on the ring *)

(** The loop over the segments of the configuration: the first daemon of each
    other segment that has one, and how many come before my segment. *)
Fixpoint send_addrs_from (memb : configuration) (my_seg : Z) (l : list Z)
    (addrs : list spu_addr) (my_next : Z) : list spu_addr * Z :=
  match l with
  | [] => (addrs, my_next)
  | i :: l =>
      if i =? my_seg then send_addrs_from memb my_seg l addrs (Z.of_nat (length addrs))
      else match procs (segment_at memb i) with
           | p :: _ => send_addrs_from memb my_seg l (addrs ++ [proc_addr p]) my_next
           | [] => send_addrs_from memb my_seg l addrs my_next
           end
  end.

Definition Net_set_membership (memb : configuration) : M St unit :=
  modify (fun s => s <| Net_membership := memb |>);;
  my ← gets My;
  let my_seg := segment_at memb (seg_index my) in
  let my_index_in_seg := Conf_id_in_seg my_seg (id my) in
  fatal_if (my_index_in_seg <? 0);;
  modify (fun s => s <| Segment_leader := my_index_in_seg =? 0 |>);;
  cn ← gets Config;
  let '(addrs, my_next_index) :=
    send_addrs_from memb (seg_index my) (zrange 0 (Conf_num_segments cn - 1)) [] (-1) in
  modify (fun s => s <| Send_addrs := addrs |>);;
  fatal_if (my_next_index =? -1);;
  a ← or_fail Undefined
    (if my_index_in_seg <? num_procs my_seg - 1
     then proc_addr <$> arr_get (procs my_seg) (my_index_in_seg + 1)
     else if (length addrs =? 0)%nat then proc_addr <$> arr_get (procs my_seg) 0
     else if Z.of_nat (length addrs) =? my_next_index then arr_get addrs 0
     else arr_get addrs my_next_index);
  modify (fun s => s <| Token_addr := next_port a |>).

(** ** Partitions imposed by the monitor *)

(** Writing [n] entries of the array [Partition[MAX_PROCS_RING]]. *)
Definition write_partition (new : list Z) : M St unit :=
  undef_if (MAX_PROCS_RING <? Z.of_nat (length new));;
  modify (fun s => s <| Partition ::= fun old => new ++ drop (length new) old |>).

Definition Net_set_partition (new_partition : list Z) : M St unit :=
  busy ← gets Conf_Reload_Singleton_State;
  if busy : bool then mret tt else
  cn ← gets Config;
  undef_if (Z.of_nat (length new_partition) <? Conf_num_procs cn);;
  write_partition (take (Z.to_nat (Conf_num_procs cn)) new_partition).

Definition Net_clear_partition : M St unit :=
  cn ← gets Config;
  write_partition (replicate (Z.to_nat (Conf_num_procs cn)) 0).

Definition In_my_component (pid : Z) : M St bool :=
  cn ← gets Config;
  match Conf_proc_by_id_in_conf cn pid with
  | None => mret false
  | Some (i, _) =>
      part ← gets Partition;
      mine ← gets Partition_my_index;
      a ← or_fail Undefined (arr_get part mine);
      b ← or_fail Undefined (arr_get part i);
      mret (a =? b)
  end.

Definition Net_signal_conf_reload : M St unit :=
  old_bcast_needed ← gets Bcast_needed;
  cn ← gets Config;
  my ← gets My;
  modify (fun s => s <| Partition_my_index :=
    index_or_minus1 (Conf_proc_by_id_in_conf cn (id my)) |>);;
  Net_clear_partition;;
  let seg := segment_at cn (seg_index my) in
  fatal_if (10 <? Z.of_nat (length (ifc my)));;
  fatal_if (MAX_ADDRS_SEGMENT <? Z.of_nat (length (seg_addrs seg)));;
  modify (fun s => s <| Bcast_addrs := seg_addrs seg |>);;
  let needed := if 1 <? num_procs seg then 1 else 0 in
  modify (fun s => s <| Bcast_needed := needed |>);;
  fatal_if (negb (old_bcast_needed =? -1) && truth needed && negb (truth old_bcast_needed)).

(** ** Receiving *)

(** The monitor's partition message; other control messages are handed up. *)
Definition Net_handle_monitor (h : packet_header) (body : list Z) : M St (Z * list Z) :=
  let recvd_bytes := sizeof_packet_header + p_data_len h in
  if negb (Is_partition (p_type h)) then mret (recvd_bytes, body) else
  dangerous ← gets EnableDangerousMonitor;
  if negb dangerous then mret (0, body) else
  cn ← gets Config;
  let n := Conf_num_procs cn in
  if (recvd_bytes <? sizeof_packet_header + n * 2) || (sizeof_packet_body <? n * 2)
  then mret (0, body) else
  let read i := get_i16 body (2 * i) in
  let body' := if Same_endian (p_type h) then body else
    foldl (fun b i => put_i16 b (2 * i) (i16 (Flip_int16 (read i)))) body (zrange 0 (n - 1)) in
  let cur_partition := map (fun i => get_i16 body' (2 * i)) (zrange 0 (n - 1)) in
  Net_set_partition cur_partition;;
  ext_do (E_queue Clear_partition_cb (mk_sp_time 60 0));;
  part ← gets Partition;
  mine ← gets Partition_my_index;
  v ← or_fail Undefined (arr_get part mine);
  fatal_if (v =? -1);;
  mret (0, body').

(** What [DL_recvfrom_gen] delivers into a two-element scatter. *)
Record recvd (H : Type) := mk_recvd {
  rc_fd : Z; rc_bytes : Z; rc_src : spu_addr; rc_head : H; rc_body : list Z }.
#[global] Arguments rc_fd {H} _. #[global] Arguments rc_bytes {H} _.
#[global] Arguments rc_src {H} _. #[global] Arguments rc_head {H} _.
#[global] Arguments rc_body {H} _. #[global] Arguments mk_recvd {H} _ _ _ _ _.

(** A datagram routed to this segment leader is broadcast in the segment, in
    the endianness it came in. *)
Definition Net_route (h : packet_header) (body : list Z) (received_bytes : Z)
  : M St packet_header :=
  my ← gets My;
  let h := h <| p_type ::= Clear_routed |> <| p_transmiter_id := id my |> in
  let out := if Same_endian (p_type h) then h else Flip_pack h in
  send_bcast (Packet out (take (Z.to_nat (received_bytes - sizeof_packet_header)) body));;
  mret (if Same_endian (p_type out) then out else Flip_pack out).

(** Result: the value returned, and the header and body as left in the scatter. *)
Definition Net_recv (r : recvd packet_header) : M St (Z * packet_header * list Z) :=
  let h := rc_head r in
  let drop_it h := mret (0, h, rc_body r) in
  chans ← gets Bcast_channel;
  fatal_if (negb (bool_decide (rc_fd r ∈ chans)));;
  if rc_bytes r <? 0 then mret (rc_bytes r, h, rc_body r) else
  if rc_bytes r <? sizeof_packet_header then drop_it h else
  let h := if Same_endian (p_type h) then h else Flip_pack h in
  if negb (rc_bytes r =? sizeof_packet_header + p_data_len h) then drop_it h else
  cn ← gets Config;
  if negb (p_conf_hash h =? hash_code cn) then drop_it h else
  match Conf_proc_by_id_in_conf cn (p_transmiter_id h) with
  | None => drop_it h
  | Some (_, pp) =>
    if truth (spu_addr_ip_cmp (rc_src r) (proc_addr pp) false) then drop_it h else
    if Is_control (p_type h) then
      '(ret, body) ← Net_handle_monitor h (rc_body r);
      mret (ret, h, body)
    else
    my ← gets My;
    if p_transmiter_id h =? id my then drop_it h else
    same ← In_my_component (p_transmiter_id h);
    if negb same then drop_it h else
    needed ← gets Bcast_needed;
    h ← (if Is_routed (p_type h) && truth needed
         then Net_route h (rc_body r) (rc_bytes r) else mret h);
    mret (rc_bytes r, h <| p_type ::= Clear_routed |>, rc_body r)
  end.

Definition Net_recv_token (r : recvd token_header) : M St (Z * token_header) :=
  let h := rc_head r in
  chans ← gets Token_channel;
  fatal_if (negb (bool_decide (rc_fd r ∈ chans)));;
  if rc_bytes r <? 0 then mret (rc_bytes r, h) else
  if rc_bytes r <? sizeof_token_header then mret (0, h) else
  let h := if Same_endian (t_type h) then h else Flip_token h in
  cn ← gets Config;
  if negb (t_conf_hash h =? hash_code cn) then mret (0, h) else
  match Conf_proc_by_id_in_conf cn (t_transmiter_id h) with
  | None => mret (0, h)
  | Some (_, pp) =>
    if truth (spu_addr_ip_cmp (rc_src r) (proc_addr pp) false) then mret (0, h) else
    same ← In_my_component (t_transmiter_id h);
    mret (if same : bool then rc_bytes r else 0, h)
  end.
End Network.
