(* ===== verification/NetFacts.v ===== *)
(** * What a send changes

    Sending records calls in the trace and writes a few fields of the header it
    is given; nothing else. *)

From S2P Require Import Prelude NetTypes Configuration State Network.

(** The fields of a header that no send writes. *)
Record sent_as (h h' : packet_header) : Prop := {
  sa_proc_id : p_proc_id h' = p_proc_id h;
  sa_memb_id : p_memb_id h' = p_memb_id h;
  sa_seq : p_seq h' = p_seq h;
  sa_round : p_token_round h' = p_token_round h;
  sa_data_len : p_data_len h' = p_data_len h;
  sa_frag : p_first_frag h' = p_first_frag h }.

Section NetFacts.
Context {L : SpuLib} {X : Ext}.

Lemma sent_as_trans h1 h2 h3 : sent_as h1 h2 -> sent_as h2 h3 -> sent_as h1 h3.
Proof. intros [] []. split; congruence. Qed.
Lemma sent_as_stamp s h t : sent_as h (stamp_packet s (h <| p_type := t |>)).
Proof. by split. Qed.

(** A state with more calls made. *)
Lemma trace_trace (s : St) tr tr' : s <| trace := tr |> <| trace := tr' |> = s <| trace := tr' |>.
Proof. done. Qed.
Lemma trace_same (s : St) : s <| trace := trace s |> = s.
Proof. by destruct s. Qed.

Section Wp.
Context (E : failure -> Prop).
Hypothesis HE : E Fatal.

Lemma wp_send_bcast_rest d addrs ret (Q : Z -> St -> Prop) s :
  (forall r tr, Q r (s <| trace := tr |>)) -> wp E (send_bcast_rest d addrs ret) Q s.
Proof.
  revert ret s. induction addrs as [|a addrs IH]; intros ret s HQ; cbn [send_bcast_rest].
  - wp_step. rewrite <-(trace_same s). apply HQ.
  - wp_step. apply wp_ext_call. intros tr. apply IH. intros. apply HQ.
Qed.

Lemma wp_send_bcast d (Q : Z -> St -> Prop) s :
  (forall r tr, Q r (s <| trace := tr |>)) -> wp E (send_bcast d) Q s.
Proof.
  intros HQ. unfold send_bcast. do 3 wp_step. wp_step; [done|]. destruct (Bcast_addrs s); [by wp_step|].
  wp_step. apply wp_ext_call. intros tr. apply wp_send_bcast_rest. intros. apply HQ.
Qed.

Lemma wp_Net_bcast h els (Q : Z * packet_header -> St -> Prop) s :
  (forall r h' tr, sent_as h h' -> Q (r, h') (s <| trace := tr |>)) -> wp E (Net_bcast h els) Q s.
Proof.
  intros HQ. unfold Net_bcast. do 4 wp_step.
  set (h1 := stamp_packet s _). match goal with |- context [?f (Send_addrs s) 0] => set (go := f) end.
  assert (Hh : forall t, sent_as h (h1 <| p_type ::= t |>)) by by split.
  assert (Hgo : forall addrs ret (P : Z -> St -> Prop) s',
    (forall r tr, P r (s' <| trace := tr |>)) -> wp E (go addrs ret) P s').
  { induction addrs as [|a addrs IH]; intros ret P s' HP.
    - apply wp_ret. rewrite <-(trace_same s'). apply HP.
    - apply wp_bind, wp_ext_call. intros tr. apply IH. intros. apply HP. }
  wp_step. apply Hgo. intros r tr. do 2 wp_step. wp_step.
  - wp_step. apply wp_send_bcast. intros r' tr'. wp_step. by apply HQ.
  - wp_step; wp_step; by apply HQ.
Qed.

Lemma wp_Net_scast sgi h els (Q : Z * packet_header -> St -> Prop) s :
  (forall r h' tr, sent_as h h' -> Q (r, h') (s <| trace := tr |>)) ->
  wp E (Net_scast sgi h els) Q s.
Proof.
  intros HQ. unfold Net_scast. do 4 wp_step.
  assert (Hh : sent_as h (stamp_packet s h)) by by split.
  assert (Hsame : forall r, Q (r, stamp_packet s h) s).
  { intros r. rewrite <-(trace_same s) at 2. by apply HQ. }
  wp_step.
  - do 2 wp_step. wp_step; [|by wp_step]. wp_step. apply wp_send_bcast. intros. wp_step. by apply HQ.
  - do 2 wp_step. destruct (procs _) as [|p ps]; [by wp_step|].
    wp_step. apply wp_ext_call. intros tr. wp_step. apply HQ. by split.
Qed.

Lemma wp_Net_ucast pid h els (Q : Z * packet_header -> St -> Prop) s :
  (forall r h' tr, sent_as h h' -> Q (r, h') (s <| trace := tr |>)) ->
  wp E (Net_ucast pid h els) Q s.
Proof.
  intros HQ. unfold Net_ucast. do 4 wp_step.
  assert (Hh : sent_as h (stamp_packet s h)) by by split.
  destruct (Conf_proc_by_id_in_conf _ _) as [[i p]|].
  - wp_step. apply wp_ext_call. intros tr. wp_step. by apply HQ.
  - wp_step. rewrite <-(trace_same s) at 2. by apply HQ.
Qed.
End Wp.
End NetFacts.
