(* ===== verification/FlowControl.v ===== *)
(** * Flow control: [flow_control.c] *)

From S2P Require Import Prelude NetTypes Configuration State.

Section FlowControl.
Context {L : SpuLib} {X : Ext}.

Definition FC_init : M St unit :=
  modify (fun s => s
    <| Window := i16 (conf_Window s) |>
    <| Personal_window := i16 (conf_PersonalWindow s) |>
    <| Accelerated_ring := conf_AcceleratedRing s |>
    <| Accelerated_window := i16 (conf_AcceleratedWindow s) |>);;
  modify (fun s => s
    <| gs_window := Window s |>
    <| gs_personal_window := Personal_window s |>
    <| gs_accelerated_ring := if Accelerated_ring s then 1 else 0 |>
    <| gs_accelerated_window := Accelerated_window s |>).

Definition FC_new_configuration : M St unit :=
  modify (fun s => s <| Last_num_retrans := 0 |> <| Last_num_sent := 0 |>).

(** The number of new packets the daemon may send in this visit of the token;
    [num_retrans] is not used. *)
Definition FC_allowed (flow_control num_retrans : Z) (s : St) : Z :=
  if st_eqb (State s) EVS then 0 else
  if Aru s + MAX_SEQ_GAP <? Highest_seq s then 0 else
  let allowed := Window s + Personal_window s - flow_control in
  let allowed := if allowed <? 0 then 0 else allowed in
  let allowed := if Window s <? allowed then Window s else allowed in
  let allowed := if Personal_window s <? allowed then Personal_window s else allowed in
  allowed.

Definition FC_handle_message (h : packet_header) (body : list Z) : M St unit :=
  dangerous ← gets EnableDangerousMonitor;
  if negb dangerous then mret tt else
  cn ← gets Config;
  if Conf_id_in_conf cn (p_proc_id h) <? 0 then mret tt else
  my ← gets My;
  let my_index := index_or_minus1 (Conf_proc_by_id_in_conf cn (id my)) in
  undef_if (my_index <? 0);;
  let read i j :=
    let v := get_i16 body (4 * i + 2 * j) in
    if Same_endian (p_type h) then v else i16 (Flip_int16 v) in
  let temp_window := read (Conf_num_procs cn) 0 in
  let temp_personal_window := read my_index 0 in
  let temp_accelerated_window := read my_index 1 in
  when (negb (temp_window =? -1)) (modify (fun s => s <| Window := temp_window |>));;
  when (negb (temp_personal_window =? -1))
    (modify (fun s => s <| Personal_window := temp_personal_window |>));;
  when (negb (temp_accelerated_window =? -1))
    (modify (fun s => s <| Accelerated_window := temp_accelerated_window |>));;
  modify (fun s => s
    <| gs_window := Window s |>
    <| gs_personal_window := Personal_window s |>
    <| gs_accelerated_window := Accelerated_window s |>).

Definition FC_signal_conf_reload : M St unit := FC_init.

(** What may be sent is never negative, never more than either window, and
    nothing while the gap to [Aru] is too large. *)
Lemma FC_allowed_range fc nr s :
  0 <= Window s -> 0 <= Personal_window s ->
  0 <= FC_allowed fc nr s <= Z.min (Window s) (Personal_window s).
Proof. intros. unfold FC_allowed. repeat case_match; lia. Qed.

(** What is sent keeps the ring's total within [Window + Personal_window]. *)
Lemma FC_allowed_total fc nr s :
  0 <= Window s -> 0 <= Personal_window s -> fc <= Window s + Personal_window s ->
  fc + FC_allowed fc nr s <= Window s + Personal_window s.
Proof. intros. unfold FC_allowed. repeat case_match; lia. Qed.

Lemma FC_allowed_gap fc nr s :
  0 <= Window s -> 0 <= Personal_window s -> 0 < FC_allowed fc nr s ->
  State s <> EVS /\ Highest_seq s <= Aru s + MAX_SEQ_GAP.
Proof.
  intros Hw Hp. unfold FC_allowed, st_eqb.
  destruct (bool_decide (State s = EVS)) eqn:HE; [lia|].
  apply bool_decide_eq_false in HE.
  destruct (Z.ltb_spec (Aru s + MAX_SEQ_GAP) (Highest_seq s)); [lia|]. intros _.
  split; [done|lia].
Qed.

Lemma FC_allowed_gap_after fc nr s :
  0 <= Window s -> 0 <= Personal_window s -> Aru s <= Highest_seq s ->
  Highest_seq s <= Aru s + MAX_SEQ_GAP + Z.min (Window s) (Personal_window s) ->
  Highest_seq s + FC_allowed fc nr s <=
    Aru s + MAX_SEQ_GAP + Z.min (Window s) (Personal_window s).
Proof.
  intros. pose proof (FC_allowed_range fc nr s).
  destruct (Z.eq_dec (FC_allowed fc nr s) 0) as [->|]; [lia|].
  destruct (FC_allowed_gap fc nr s); lia.
Qed.
End FlowControl.
