(* ===== verification/SessionLayer.v ===== *)
(** * The session layer as the protocol sees it

    [protocol.c] and [membership.c] call up into session.c, which calls
    groups.c, which may call back down ([Prot_new_message],
    [Prot_set_down_queue], [Prot_set_delivery_threshold]).  [SessionLayer] is
    the set of these calls; [SessionLaws] is what the protocol relies on: an
    upcall leaves alone the packets, the sequence numbers, the membership and
    the configuration, and those made while packets are delivered and sent end;
    unblocking the users sends no message. *)

From S2P Require Import Prelude NetTypes Configuration State.

(** Holding the users back while too many of their messages wait. *)
Class UserLevels {L : SpuLib} {X : Ext} := {
  Sess_block_users_level : M St unit;
  Sess_unblock_users_level : M St unit
}.

Class SessionLayer {L : SpuLib} {X : Ext} := {
  #[global] user_levels :: UserLevels;
  Sess_deliver_message : scatter -> M St unit;
  Sess_deliver_trans_memb : configuration -> membership_id -> M St unit;
  Sess_deliver_reg_memb : configuration -> membership_id -> M St unit;
  Sess_signal_conf_reload : M St unit;
  Sess_badger : Z -> M St unit;
  Sess_accept_continue : M St unit
}.

Section Lower.
Context {L : SpuLib} {X : Ext}.

(** What an upcall never writes. *)
Definition seqs (s : St) := (Aru s, My_aru s, Highest_seq s, Highest_fifo_seq s,
  Last_discarded s, Last_delivered s, Last_seq s).
Definition stores (s : St) := (Packets s, Up_queue s, Send_pack_queue s, My_index s).
Definition membs (s : St) := (State s, Token_alive s, Membership s, Membership_id s,
  Future_membership s, Future_membership_id s, Commit_set s, Future_commit_set s,
  Trans_membership s, Commit_membership s, Reg_membership s, F_trans_memb_time s).
Definition confs (s : St) := (Config s, My s, Window s, Personal_window s,
  Accelerated_ring s, Accelerated_window s, Token_rounds s, Conf_Reload_Singleton_State s).
Definition memb_lists (s : St) := (F_members s, F_reps s, Potential_reps s, My_seg_rep s,
  Last_time_used s, Form1_memb_id s, Foreign_found s, Memb_Just_Installed s).
Definition lower (s : St) := (seqs s, stores s, membs s, confs s, memb_lists s).
Definition downs (s : St) := (Normal_down_queue s, Groups_down_queue s, Down_queue_ptr s).
End Lower.

(** An upcall ends, and leaves the protocol alone. *)
Definition upcall {L : SpuLib} {X : Ext} {A} (m : M St A) : Prop :=
  forall s, wp ends m (fun _ s' => lower s' = lower s) s.

Class SessionLaws {L : SpuLib} {X : Ext} (SL : SessionLayer) : Prop := {
  law_deliver_message m : upcall (Sess_deliver_message m);
  law_deliver_trans c i : frame lower (Sess_deliver_trans_memb c i);
  law_deliver_reg c i : frame lower (Sess_deliver_reg_memb c i);
  law_block : frame lower Sess_block_users_level;
  law_unblock : upcall Sess_unblock_users_level;
  law_unblock_downs s :
    wp partial Sess_unblock_users_level (fun _ s' => downs s' = downs s) s
}.

Section Fields.
Context {L : SpuLib} {X : Ext} {A : Type}.
Implicit Types m : M St A.

Lemma wp_upcall (E : failure -> Prop) m (Q : A -> St -> Prop) s :
  upcall m -> E Fatal -> E Undefined -> (forall a s', lower s' = lower s -> Q a s') -> wp E m Q s.
Proof.
  intros H HF HU HQ. specialize (H s). Transparent wp. unfold wp, ends in *.
  destruct (m s) as [a s'|[]]; [auto|done..]. Opaque wp.
Qed.
Lemma upcall_frame m : upcall m -> frame lower m.
Proof. intros H s a s' E. apply (wp_ok _ _ _ _ _ _ (H s) E). Qed.

(** The parts of [lower], one by one. *)
Lemma lower_seqs s s' : lower s' = lower s -> seqs s' = seqs s.
Proof. intros H. exact (f_equal (fun t => t.1.1.1.1) H). Qed.
Lemma lower_stores s s' : lower s' = lower s -> stores s' = stores s.
Proof. intros H. exact (f_equal (fun t => t.1.1.1.2) H). Qed.
Lemma lower_membs s s' : lower s' = lower s -> membs s' = membs s.
Proof. intros H. exact (f_equal (fun t => t.1.1.2) H). Qed.
Lemma lower_confs s s' : lower s' = lower s -> confs s' = confs s.
Proof. intros H. exact (f_equal (fun t => t.1.2) H). Qed.
Lemma lower_memb_lists s s' : lower s' = lower s -> memb_lists s' = memb_lists s.
Proof. intros H. exact (f_equal (fun t => t.2) H). Qed.
End Fields.

(** ** What was delivered *)

Section Trace.
Context {L : SpuLib} {X : Ext} {SL : SessionLayer}.

(** On the way from [s] to [s'] exactly the messages of the list were given to
    the session layer, in that order: all else left the state of the sessions
    alone. *)
Inductive delivered : list scatter -> St -> St -> Prop :=
| dv_own s s' : Sess s' = Sess s -> delivered [] s s'
| dv_upcall m s s' : Sess_deliver_message m s = Ok tt s' -> delivered [m] s s'
| dv_app l1 l2 s1 s2 s3 : delivered l1 s1 s2 -> delivered l2 s2 s3 ->
    delivered (l1 ++ l2) s1 s3.

Lemma delivered_from s0 l s s' : Sess s = Sess s0 -> delivered l s s' -> delivered l s0 s'.
Proof. intros H. by apply (dv_app [] l), dv_own. Qed.
Lemma delivered_to l s s' s1 : Sess s1 = Sess s' -> delivered l s s' -> delivered l s s1.
Proof. intros H Hd. rewrite <-(app_nil_r l). by eapply dv_app, dv_own. Qed.
End Trace.

(** ** A session layer that records what it is given

    The state of this layer is the list of what was delivered, newest last; it
    is the layer the witnesses run with. *)

Inductive delivery {L : SpuLib} :=
| Delivered (mess : scatter)
| Delivered_trans (ids : list Z) (memb : membership_id)
| Delivered_reg (ids : list Z) (memb : membership_id).

Section Recorder.
Context {L : SpuLib} {X : Ext}.
Context (to_list : sess_state -> list delivery) (of_list : list delivery -> sess_state).

Definition record_delivery (d : delivery) : M St unit :=
  modify (fun s => s <| Sess ::= fun x => of_list (to_list x ++ [d]) |>).

Definition Recorder : SessionLayer := {|
  Sess_deliver_message m := record_delivery (Delivered m);
  Sess_deliver_trans_memb c i := record_delivery (Delivered_trans (ring_of c) i);
  Sess_deliver_reg_memb c i := record_delivery (Delivered_reg (ring_of c) i);
  user_levels := {| Sess_block_users_level := mret tt; Sess_unblock_users_level := mret tt |};
  Sess_signal_conf_reload := mret tt;
  Sess_badger _ := mret tt;
  Sess_accept_continue := mret tt |}.

Lemma Recorder_laws : SessionLaws Recorder.
Proof.
  split; intros; try (intros s); cbn; unfold record_delivery; try (by repeat wp_step);
    by intros [] s' [= <-].
Qed.

(** Here [delivered] is what the list has got more. *)
Lemma Recorder_delivered (Hinv : forall l, to_list (of_list l) = l) ms s s' :
  delivered (SL := Recorder) ms s s' ->
  to_list (Sess s') = to_list (Sess s) ++ map Delivered ms.
Proof.
  induction 1 as [s s' H|m s s' H|l1 l2 s1 s2 s3 _ IH1 _ IH2]; cbn [map].
  - by rewrite app_nil_r, H.
  - injection H as <-. apply Hinv.
  - by rewrite map_app, (assoc_L (++)), IH2, IH1.
Qed.
End Recorder.
