(* ===== verification/Demo.v ===== *)
(** * A concrete daemon

    Instances of the parameters, and a configuration of three daemons in two
    segments: the inputs the theorems are tried on.  An address is a number, the
    port in its low 16 bits; every call returns 0, and the session layer records
    what it is given. *)

From S2P Require Import Prelude NetTypes Configuration State Network SessionLayer.

Definition demo_hash (s : string) (len : Z) : Z :=
  foldl (fun h c => u32 (h * 31 + Z.of_nat (Ascii.nat_of_ascii c))) len (String.list_ascii_of_string s).

#[export] Instance demo_lib : SpuLib := {|
  spu_addr := Z; spu_addr_zero := 0;
  spu_addr_ip_get_port a := a mod 65536;
  spu_addr_ip_set_port a p := a / 65536 * 65536 + p mod 65536;
  spu_addr_ip_cmp a b port := if (a / 65536 =? b / 65536) && (negb port || (a =? b)) then 0 else 1;
  MAX_PACKET_SIZE := 1472;
  stdhcode_oaat := demo_hash |}.

#[export] Instance demo_ext : Ext := {| ext_ret _ := 0; sess_state := list delivery |}.

#[export] Instance demo_session : SessionLayer := Recorder (fun x => x) (fun x => x).
#[export] Instance demo_laws : SessionLaws demo_session.
Proof. apply Recorder_laws. Qed.

Definition demo_addr (n : Z) : Z := n * 65536 + 4803.
Definition demo_a : proc := mk_proc "a" (demo_addr 1) 1 [] 0 0.
Definition demo_b : proc := mk_proc "b" (demo_addr 2) 2 [] 0 1.
Definition demo_c : proc := mk_proc "c" (demo_addr 3) 3 [] 1 0.
Definition demo_conf : configuration :=
  mk_configuration 77 [demo_a; demo_b; demo_c]
    [mk_segment [demo_addr 100] [demo_a; demo_b]; mk_segment [demo_addr 101] [demo_c]].

Definition demo_token : token_header :=
  mk_token_header 0 0 0 (mk_membership_id 0 0) 0 0 0 0 0 0.
Definition demo_members : members_info := mk_members_info 0 0 (replicate 128 0).
Definition demo_reps : reps_info := mk_reps_info 0 0 (replicate 25 (mk_rep_info 0 0 0)).

(** A daemon of a configuration, in its regular membership, above any session layer. *)
Definition demo_with {X : Ext} (x : sess_state) (cn : configuration) (my : proc) : St := {|
  Config := cn; My := my; EnableDangerousMonitor := false; conf_Window := 60;
  conf_PersonalWindow := 20; conf_AcceleratedRingFlag := false; conf_AcceleratedRing := false;
  conf_AcceleratedWindow := 10; TimeoutMask := 0; conf_Timeouts := (replicate 9 1000);
  WideAreaNetworkFlag := false; WideAreaNetwork := false; Conf_Reload_Singleton_State := false;
  Bcast_channel := [5]; Token_channel := [6]; Bcast_needed := (-1); Bcast_addrs := [];
  Send_addrs := []; Token_addr := 0; Net_membership := cn; Segment_leader := false; Partition :=
  (replicate 128 0); Partition_my_index := 0; Window := 60; Personal_window := 20;
  Accelerated_window := 10; Accelerated_ring := false; Up_queue := ∅; Packets := ∅; Aru := 0;
  My_aru := 0; Highest_seq := 0; Highest_fifo_seq := 0; Last_discarded := 0; Last_delivered :=
  0; Last_seq := 0; Token_rounds := 0; Received_token_rounds := 0; Last_token := demo_token;
  Transitional := false; Trans_membership := cn; Commit_membership := cn; Reg_membership := cn;
  Last_num_retrans := 0; Last_num_sent := 0; Token_timeout := Zero_timeout; Hurry_timeout :=
  Zero_timeout; Alive_timeout := Zero_timeout; Join_timeout := Zero_timeout; Rep_timeout :=
  Zero_timeout; Seg_timeout := Zero_timeout; Gather_timeout := Zero_timeout; Form_timeout :=
  Zero_timeout; Lookup_timeout := Zero_timeout; Wide_network := false; My_index := 0;
  Prev_proc_id := 0; Token_has_priority := false; Token_counter := 0; Send_pack_queue := [];
  Hurry_head := no_header; Prot_Need_Conf_Reload := false; Normal_down_queue := (mk_down_queue 0
  []); Groups_down_queue := (mk_down_queue 0 []); Down_queue_ptr := (Some NORMAL_DOWNQUEUE);
  Prot_delivery_threshold := UNRELIABLE_TYPE; Memb_Just_Installed := false; Membership := cn;
  Membership_id := (mk_membership_id 1 1); Future_membership := cn; Future_membership_id :=
  (mk_membership_id 1 1); Trans_memb_id := (mk_membership_id 0 0); F_trans_memb_time := 0;
  Last_time_used := 0; Form1_memb_id := mk_membership_id 0 0;
  State := OP; Token_alive := true; My_seg_rep := (-1); Foreign_found :=
  false; F_members := demo_members; F_reps := demo_reps; Potential_reps := demo_reps; Commit_set
  := demo_members; Future_commit_set := demo_members; Send_pack_head := no_header; gs_gstate :=
  0; gs_state := 0; gs_packet_sent := 0; gs_packet_recv := 0; gs_packet_delivered := 0;
  gs_retrans := 0; gs_u_retrans := 0; gs_s_retrans := 0; gs_b_retrans := 0; gs_aru := 0;
  gs_my_aru := 0; gs_highest_seq := 0; gs_token_hurry := 0; gs_token_rounds := 0; gs_my_id := 0;
  gs_leader_id := 0; gs_membership_changes := 0; gs_num_procs := 0; gs_num_segments := 0;
  gs_window := 0; gs_personal_window := 0; gs_accelerated_ring := 0; gs_accelerated_window := 0;
  Sess := x; trace := [] |}.
Definition demo_state : configuration -> proc -> St := demo_with [].

(** A packet of one whole message of four bytes, sent by [demo_b]. *)
Definition demo_packet (type seq : Z) : packet_info :=
  mk_packet_info (mk_packet_header type 2 2 (mk_membership_id 1 1) seq 1 77 4 (mk_frag (-1) 4))
    [seq; 0; 0; 7] 1 1.

(** Packets 1 to 3 and 5 are here, 4 is missing; all members have the first two. *)
Definition demo_held : St := (demo_state demo_conf demo_a)
  <| Packets := list_to_map [(1, demo_packet AGREED_TYPE 1); (2, demo_packet SAFE_TYPE 2);
       (3, demo_packet AGREED_TYPE 3); (5, demo_packet AGREED_TYPE 5)] |>
  <| My_aru := 3 |> <| Highest_seq := 5 |> <| Aru := 2 |>.

(** A run, and the bytes of the messages it delivered. *)
Definition ran {X : Ext} {A B} (m : M St A) (s : St) (f : A -> St -> B) : option B :=
  match m s with Ok a s' => Some (f a s') | Fail _ => None end.
Definition delivered_bytes (s : St) : list (list (list Z)) :=
  map (fun d => match d with Delivered m => map e_buf m | _ => [] end) (Sess s).
