(* ===== verification/Ring.v ===== *)
(** * The ring: whom the token goes to, and whom it is expected from

    [Net_set_membership] computes the address of the next daemon of the ring
    and the daemons a broadcast is routed to; [Conf_previous] is the daemon the
    token must come from.  The two agree. *)

From S2P Require Import Prelude NetTypes Configuration State Network SessionLayer Demo.

Section Ring.
Context {L : SpuLib} {X : Ext}.

(** The first daemons of the segments that have one. *)
Definition heads (l : list segment) : list proc := omap (fun sg => hd_error (procs sg)) l.

Lemma heads_app l l' : heads (l ++ l') = heads l ++ heads l'.
Proof. apply omap_app. Qed.

Lemma head_heads l : hd_error (heads l) = hd_error (procs_of l).
Proof. induction l as [|[a [|p ps]] l IH]; cbn in *; done. Qed.

Lemma heads_nil l : heads l = [] -> procs_of l = [].
Proof. induction l as [|[a [|p ps]] l IH]; cbn in *; done. Qed.

(** Segment [k] of a configuration by its list. *)
Lemma segment_at_lookup c k sg :
  segments c !! k = Some sg -> segment_at c (Z.of_nat k) = sg.
Proof.
  intros Hk. unfold segment_at. destruct (Z.ltb_spec (Z.of_nat k) 0); [lia|].
  by rewrite Nat2Z.id, Hk.
Qed.

(** The loop over segments that are not mine. *)
Lemma send_addrs_others c my l k addrs nx :
  (forall j sg, l !! j = Some sg -> segments c !! (k + j)%nat = Some sg) ->
  (my < Z.of_nat k \/ Z.of_nat (k + length l) <= my) ->
  send_addrs_from c my (zseq (Z.of_nat k) (length l)) addrs nx =
    (addrs ++ map proc_addr (heads l), nx).
Proof.
  revert k addrs. induction l as [|sg l IH]; intros k addrs Hl Hmy; cbn.
  - by rewrite app_nil_r.
  - cbn in Hmy. destruct (Z.eqb_spec (Z.of_nat k) my); [lia|].
    rewrite (segment_at_lookup c k sg) by (rewrite <-(Nat.add_0_r k); by apply Hl).
    replace (Z.of_nat k + 1) with (Z.of_nat (S k)) by lia.
    assert (Hl' : forall j sg, l !! j = Some sg -> segments c !! (S k + j)%nat = Some sg).
    { intros j x Hj. replace (S k + j)%nat with (k + S j)%nat by lia. by apply Hl. }
    destruct (procs sg) as [|p ps]; cbn; rewrite IH by (done || lia); [done|].
    by rewrite <-app_assoc.
Qed.

Lemma send_addrs_all c my before sg after :
  segments c = before ++ sg :: after -> my = Z.of_nat (length before) ->
  send_addrs_from c my (zrange 0 (Conf_num_segments c - 1)) [] (-1) =
    (map proc_addr (heads before ++ heads after), Z.of_nat (length (heads before))).
Proof.
  intros Hs Hmy. unfold Conf_num_segments, zrange. rewrite Hs, length_app. cbn [length].
  replace (Z.to_nat (Z.of_nat (length before + S (length after)) - 1 - 0 + 1))
    with (length before + (1 + length after))%nat by lia.
  rewrite !zseq_app. cbn [zseq app].
  assert (Happ : forall l1 l2 addrs nx, send_addrs_from c my (l1 ++ l2) addrs nx =
    let '(a, n) := send_addrs_from c my l1 addrs nx in send_addrs_from c my l2 a n).
  { induction l1 as [|i l1 IH]; intros; cbn; [done|].
    destruct (i =? my); [apply IH|]. destruct (procs (segment_at c i)); apply IH. }
  rewrite Happ. change 0 with (Z.of_nat 0) at 1.
  rewrite send_addrs_others.
  - cbn [send_addrs_from app]. destruct (Z.eqb_spec (0 + Z.of_nat (length before)) my); [|lia].
    replace (0 + Z.of_nat (length before) + Z.of_nat 1) with (Z.of_nat (S (length before))) by lia.
    rewrite send_addrs_others.
    + by rewrite map_app, length_map.
    + intros j x Hj. rewrite Hs, lookup_app_r by lia.
      replace (S (length before) + j - length before)%nat with (S j) by lia. done.
    + lia.
  - intros j x Hj. rewrite Hs. by apply lookup_app_l_Some.
  - lia.
Qed.

(** A membership: no daemon twice, each in the segment its entry names. *)
Record wf_memb (c : configuration) : Prop := {
  wf_nodup : NoDup (ring_of c);
  wf_place : forall k sg p, segments c !! k = Some sg -> p ∈ procs sg ->
    seg_index p = Z.of_nat k }.

Lemma wf_placed c before addrs pre p post after :
  wf_memb c -> segments c = before ++ mk_segment addrs (pre ++ p :: post) :: after ->
  placed p c before pre post after addrs.
Proof.
  intros [Hnd Hpl] Hs. split; [done| |done].
  eapply Hpl; [rewrite Hs; by apply list_lookup_middle|]. cbn. set_solver.
Qed.

(** Every member has its place. *)
Lemma member_split c p : p ∈ procs_of (segments c) ->
  exists before addrs pre post after,
    segments c = before ++ mk_segment addrs (pre ++ p :: post) :: after.
Proof.
  unfold procs_of. rewrite list_elem_of_In, in_concat. intros (x & Hx & Hp).
  apply in_map_iff in Hx as (sg & <- & Hsg). apply in_split in Hsg as (b & a & ->).
  apply in_split in Hp as (pre & post & Hp). destruct sg as [ad ps]. cbn in Hp. subst ps.
  by exists b, ad, pre, post, a.
Qed.

(** What comes after [My] on the ring, and round to itself. *)
Section Successor.
Context (My_ : proc) (c : configuration) (before after : list segment).
Context (pre post : list proc) (addrs : list spu_addr).
Hypothesis HP : placed My_ c before pre post after addrs.

Definition rest_of_ring : list proc :=
  post ++ procs_of after ++ procs_of before ++ pre ++ [My_].

Definition my_seg : segment := mk_segment addrs (pre ++ My_ :: post).

(** The address chosen by the last lines of [Net_set_membership]. *)
Lemma next_address :
  (if Z.of_nat (length pre) <? num_procs my_seg - 1
   then proc_addr <$> arr_get (procs my_seg) (Z.of_nat (length pre) + 1)
   else if (length (map proc_addr (heads before ++ heads after)) =? 0)%nat
   then proc_addr <$> arr_get (procs my_seg) 0
   else if Z.of_nat (length (map proc_addr (heads before ++ heads after))) =?
           Z.of_nat (length (heads before))
   then arr_get (map proc_addr (heads before ++ heads after)) 0
   else arr_get (map proc_addr (heads before ++ heads after)) (Z.of_nat (length (heads before))))
  = proc_addr <$> hd_error rest_of_ring.
Proof.
  unfold rest_of_ring, my_seg, num_procs, arr_get. cbn [procs].
  rewrite !length_app, length_map. cbn [length].
  destruct post as [|q post']; cbn [length].
  - destruct (Z.ltb_spec (Z.of_nat (length pre))
      (Z.of_nat (length pre + 1) - 1)); [lia|]. cbn [app].
    destruct (Z.ltb_spec 0 0); [lia|].
    destruct (Z.ltb_spec (Z.of_nat (length (heads before))) 0); [lia|].
    rewrite Nat2Z.id, length_app.
    destruct (heads after) as [|a l] eqn:Ha; cbn [length].
    + rewrite (heads_nil after Ha), app_nil_r. cbn [app].
      destruct (heads before) as [|b l'] eqn:Hb; cbn [length Nat.add].
      * rewrite (heads_nil before Hb). cbn. by destruct pre.
      * rewrite Nat.add_0_r. rewrite Z.eqb_refl. cbn.
        pose proof (head_heads before) as Hh. rewrite Hb in Hh. cbn in Hh.
        destruct (procs_of before); [done|]. cbn in *. by injection Hh as ->.
    + destruct (Nat.eqb_spec (length (heads before) + S (length l)) 0); [lia|].
      destruct (Z.eqb_spec (Z.of_nat (length (heads before) + S (length l)))
        (Z.of_nat (length (heads before)))); [lia|].
      rewrite map_app, lookup_app_r by (by rewrite length_map).
      rewrite length_map, Nat.sub_diag. cbn.
      pose proof (head_heads after) as Hh. rewrite Ha in Hh. cbn in Hh.
      destruct (procs_of after); [done|]. cbn in *. by injection Hh as ->.
  - destruct (Z.ltb_spec (Z.of_nat (length pre))
      (Z.of_nat (length pre + S (S (length post'))) - 1)); [|lia].
    destruct (Z.ltb_spec (Z.of_nat (length pre) + 1) 0); [lia|].
    rewrite lookup_app_r by lia.
    replace (Z.to_nat (Z.of_nat (length pre) + 1) - length pre)%nat with 1%nat by lia.
    done.
Qed.

Lemma set_membership_result s :
  id (My s) = id My_ -> seg_index (My s) = seg_index My_ -> Conf_num_segments (Config s) = Conf_num_segments c ->
  wp total (Net_set_membership c) (fun _ s' => exists q,
    hd_error rest_of_ring = Some q /\
    Token_addr s' = next_port (proc_addr q) /\
    Send_addrs s' = map proc_addr (heads before ++ heads after) /\
    Segment_leader s' = (length pre =? 0)%nat /\ Net_membership s' = c) s.
Proof.
  intros HMy Hseg Hn. unfold Net_set_membership. pose proof HP as [Hs Hi _].
  do 4 wp_step. rec_simpl_in_goal. rewrite HMy, Hseg.
  rewrite (placed_id_in_seg My_ c before pre post after addrs) by done.
  wp_step. wp_step; [blia|].
  do 4 wp_step. rec_simpl_in_goal. rewrite Hn.
  rewrite (send_addrs_all c (seg_index My_) before _ after Hs Hi).
  do 2 wp_step. wp_step. wp_step; [blia|].
  rewrite (placed_segment_at My_ c before pre post after addrs) by done.
  fold my_seg. rewrite next_address. wp_step.
  assert (Hq : exists q, hd_error rest_of_ring = Some q).
  { unfold rest_of_ring. destruct post, (procs_of after), (procs_of before), pre; cbn; eauto. }
  destruct Hq as [q Hq]. rewrite Hq. cbn. do 2 wp_step. rec_simpl_in_goal.
  exists q. repeat split; try done.
  destruct (Nat.eqb_spec (length pre) 0), (Z.eqb_spec (Z.of_nat (length pre)) 0); lia || done.
Qed.
End Successor.

(** Segments without members before a daemon do not matter. *)
Lemma first_member l q : hd_error (procs_of l) = Some q ->
  exists l1 addrs rest l2,
    l = l1 ++ mk_segment addrs (q :: rest) :: l2 /\ procs_of l1 = [].
Proof.
  induction l as [|[a [|p ps]] l IH]; cbn; [done| |].
  - intros (l1 & ad & r & l2 & -> & H1)%IH. by exists (mk_segment a [] :: l1), ad, r, l2.
  - intros [= ->]. by exists [], a, ps, l.
Qed.

(** The daemon after [My] expects the token from [My]. *)
Lemma successor_previous c before addrs pre p post after q :
  wf_memb c -> segments c = before ++ mk_segment addrs (pre ++ p :: post) :: after ->
  hd_error (rest_of_ring p before after pre post) = Some q ->
  Conf_previous q c = Some (id p).
Proof.
  intros Hwf Hs Hq. unfold rest_of_ring in Hq.
  assert (Hprev : forall b ad pr po af, segments c = b ++ mk_segment ad (pr ++ q :: po) :: af ->
    last (map id (procs_of b) ++ map id pr) = Some (id p) -> Conf_previous q c = Some (id p)).
  { intros b ad pr po af Hc Hl.
    rewrite (Conf_previous_ring q c b pr po af ad) by (by apply wf_placed). by rewrite Hl. }
  destruct post as [|p1 post]; cbn in Hq.
  2: { injection Hq as ->. eapply (Hprev before addrs (pre ++ [p]) post after).
       - rewrite Hs. by rewrite <-app_assoc.
       - rewrite map_app, app_assoc. apply last_snoc. }
  destruct (procs_of after) as [|p1 r] eqn:Ha; cbn in Hq.
  2: { injection Hq as ->.
       destruct (first_member after q) as (l1 & ad & rest & l2 & Hl & H1); [by rewrite Ha|].
       eapply (Hprev (before ++ mk_segment addrs (pre ++ [p]) :: l1) ad [] rest l2).
       - rewrite Hs, Hl. by rewrite <-app_assoc.
       - rewrite procs_of_app, app_nil_r, map_app. unfold procs_of at 2. cbn.
         fold (procs_of l1). rewrite H1, app_nil_r, map_app, app_assoc. apply last_snoc. }
  assert (Hring : last (ring_of c) = Some (id p)).
  { unfold ring_of. rewrite Hs, procs_of_app. unfold procs_of at 2. cbn.
    fold (procs_of after). rewrite Ha, app_nil_r, !map_app, app_assoc. apply last_snoc. }
  assert (Hfirst : exists b ad po af, segments c = b ++ mk_segment ad ([] ++ q :: po) :: af /\
    procs_of b = []).
  { assert (hd_error (procs_of (segments c)) = Some q) as (l1 & ad & rest & l2 & Hl & H1)
      %first_member; [|by exists l1, ad, rest, l2].
    rewrite Hs, procs_of_app. destruct (procs_of before); [|done].
    unfold procs_of. cbn in *. by destruct pre. }
  destruct Hfirst as (b & ad & po & af & Hc & Hb).
  rewrite (Conf_previous_ring q c b [] po af ad) by (by apply wf_placed).
  by rewrite Hb.
Qed.

(** C34. When a membership is installed, the token is addressed to a member that
    in turn expects the token from this daemon, and broadcasts are routed to
    the first member of every other segment that has one. *)
Theorem token_ring_agrees (memb : configuration) (s : St) :
  wf_memb memb -> My s ∈ procs_of (segments memb) ->
  Conf_num_segments (Config s) = Conf_num_segments memb ->
  exists s' q, Net_set_membership memb s = Ok tt s' /\
    q ∈ procs_of (segments memb) /\
    Token_addr s' = next_port (proc_addr q) /\
    Conf_previous q memb = Some (id (My s)) /\
    Send_addrs s' = map proc_addr (heads (take (Z.to_nat (seg_index (My s))) (segments memb)) ++
                     heads (drop (S (Z.to_nat (seg_index (My s)))) (segments memb))).
Proof.
  intros Hwf Hin Hn. destruct (member_split _ _ Hin) as (b & ad & pr & po & af & Hs).
  pose proof (wf_placed memb b ad pr (My s) po af Hwf Hs) as HP.
  destruct (wp_total_ex _ _ _ (set_membership_result _ _ _ _ _ _ _ HP s eq_refl eq_refl Hn))
    as ([] & s' & Hok & q & Hq & Ht & Ha & _ & _).
  exists s', q. split; [done|]. split_and!; [|done|by eapply successor_previous|].
  - unfold rest_of_ring in Hq. unfold procs_of. rewrite Hs, map_app, concat_app. cbn.
    fold (procs_of b) (procs_of af).
    assert (Hel : q ∈ po ++ procs_of af ++ procs_of b ++ pr ++ [My s]).
    { destruct (po ++ _); [done|]. injection Hq as ->. by left. }
    rewrite !elem_of_app, !elem_of_cons in *. rewrite elem_of_nil in Hel. tauto.
  - destruct HP as [_ Hi _]. rewrite Ha, Hi, Nat2Z.id, Hs. f_equal. f_equal.
    + by rewrite take_app_length.
    + f_equal. rewrite <-Nat.add_1_r, <-drop_drop, drop_app_length. done.
Qed.
End Ring.

Lemma demo_conf_wf : wf_memb demo_conf.
Proof.
  split; [by apply (bool_decide_unpack _); vm_compute|].
  intros [|[|k]] sg p [= <-] Hp; cbn in Hp;
    repeat (apply elem_of_cons in Hp as [->|Hp]; [done|]); by apply elem_of_nil in Hp.
Qed.

Example token_ring_agrees_witness : exists s' q,
  Net_set_membership demo_conf (demo_state demo_conf demo_b) = Ok tt s' /\
  q ∈ procs_of (segments demo_conf) /\ Token_addr s' = next_port (proc_addr q) /\
  Conf_previous q demo_conf = Some 2 /\ Send_addrs s' = [demo_addr 3].
Proof.
  apply (token_ring_agrees demo_conf (demo_state demo_conf demo_b)).
  - apply demo_conf_wf.
  - right. left.
  - reflexivity.
Defined.
