(* ===== verification/Delivery.v ===== *)
(** * Delivery: the lower half of [protocol.c]

    Unpacking a packet and handing its messages up ([Deliver_packet]), the two
    regular deliveries ([Deliver_reliable_packets], [Deliver_agreed_packets]),
    the delivery threshold, and the held token. *)

From S2P Require Import Prelude NetTypes Configuration State Network SessionLayer.

(** ** Queries of the membership module *)

Section Queries.
Context {L : SpuLib} {X : Ext}.

Definition Memb_active_ptr (s : St) : configuration :=
  if st_eqb (State s) EVS then Future_membership s else Membership s.
Definition Memb_active_id (s : St) : membership_id :=
  if st_eqb (State s) EVS then Future_membership_id s else Membership_id s.
Definition Memb_id (s : St) : membership_id := Membership_id s.
Definition Memb_trans_id (s : St) : membership_id := Trans_memb_id s.
Definition Memb_is_equal (m1 m2 : membership_id) : bool :=
  (m_proc_id m1 =? m_proc_id m2) && (m_time m1 =? m_time m2).

(** The queries that end the process on an empty configuration. *)
Definition leader_of (f : St -> configuration) : M St Z :=
  c ← gets f; or_fail Fatal (Conf_leader c).
Definition I_lead : M St bool :=
  l ← leader_of Memb_active_ptr; my ← gets My; mret (l =? id my).

Lemma Memb_is_equal_eq m1 m2 : Memb_is_equal m1 m2 = true <-> m1 = m2.
Proof.
  unfold Memb_is_equal. destruct m1, m2; cbn. rewrite andb_true_iff, !Z.eqb_eq.
  split; [by intros [-> ->]|by intros [= -> ->]].
Qed.
End Queries.

(** ** Unpacking *)

Section Unpack.
Context {L : SpuLib} {X : Ext}.

(** The fragments after the first: each a whole message. *)
Definition unpack_step (body : list Z) (data_len : Z) (x : Z * list scatter)
  : M St ((Z * list scatter) + list scatter) :=
  let '(processed_bytes, mess_queue) := x in
  if data_len <=? processed_bytes then mret (inr mess_queue) else
  let processed_bytes := processed_bytes + padding_of processed_bytes in
  undef_if ((processed_bytes <? 0) ||
            (sizeof_packet_body <? processed_bytes + sizeof_fragment_header));;
  let frag := get_frag body processed_bytes in
  let processed_bytes := processed_bytes + sizeof_fragment_header in
  if data_len <? processed_bytes + fragment_len frag then mret (inr mess_queue) else
  undef_if ((fragment_len frag <? 0) ||
            (sizeof_packet_body <? processed_bytes + fragment_len frag));;
  let mess := [mk_element (fragment_len frag) (buf_get body processed_bytes (fragment_len frag))] in
  mret (inl (processed_bytes + fragment_len frag, mess_queue ++ [mess])).

Definition unpack_rest (body : list Z) (h : packet_header) : M St (list scatter) :=
  while_fuel (S (Z.to_nat (p_data_len h))) (unpack_step body (p_data_len h))
    (fragment_len (p_first_frag h), []).
End Unpack.

Section Deliver.
Context {L : SpuLib} {X : Ext} {SL : SessionLayer}.

(** The queue of the packet: one per sender, and one for reliable messages of
    a single fragment. *)
Definition up_index (h : packet_header) (proc_index : Z) : Z :=
  if Is_reliable (p_type h) && (fragment_index (p_first_frag h) =? -1)
  then MAX_PROCS_RING else proc_index.

Definition Deliver_packet (pack_entry : Z) (to_copy : bool) : M St unit :=
  pk ← gets (fun s => packet_at s pack_entry);
  let h := head pk in
  mess_queue ← unpack_rest (body pk) h;
  let i := up_index h (proc_index pk) in
  undef_if ((i <? 0) || (MAX_PROCS_RING <? i));;
  mess ← gets (fun s => default [] (Up_queue s !! i));
  let index := Z.abs (fragment_index (p_first_frag h)) in
  fatal_if (negb (Z.of_nat (length mess) + 1 =? index));;
  undef_if (MAX_SCATTER_ELEMENTS <? index);;
  let mess := mess ++ [mk_element (fragment_len (p_first_frag h)) (body pk)] in
  modify (fun s => s <| Up_queue ::= insert i mess |>);;
  when to_copy (update_packet pack_entry (fun p =>
    p <| body := buf_get (body pk) 0 (p_data_len h) |>));;
  update_packet pack_entry (fun p => p <| exist := 2 |>);;
  modify (fun s => s <| gs_packet_delivered ::= Z.succ |>);;
  when (fragment_index (p_first_frag h) <? 0)
    (modify (fun s => s <| Up_queue ::= delete i |>);; Sess_deliver_message mess);;
  for_each mess_queue Sess_deliver_message.

Definition Deliver_reliable_packets (start_seq num_packets : Z) : M St unit :=
  st ← gets State;
  if st_eqb st EVS then mret tt else
  thr ← gets Prot_delivery_threshold;
  if RELIABLE_TYPE <? thr then mret tt else
  let end_seq := start_seq + num_packets - 1 in
  ld ← gets Last_delivered;
  let start_seq := if start_seq <=? ld then ld + 1 else start_seq in
  for_each (zrange start_seq end_seq) (fun i =>
    pk ← gets (fun s => packet_at s (entry_of i));
    when ((exist pk =? 1) && Is_reliable (p_type (head pk)) &&
          (fragment_index (p_first_frag (head pk)) =? -1))
      (Deliver_packet (entry_of i) true)).

Definition Deliver_all_reliable_packets : M St unit :=
  hs ← gets Highest_seq; Deliver_reliable_packets 1 hs.

(** One turn of the loop; [false] is the [return] at a SAFE packet. *)
Definition deliver_agreed_step (i : Z) : M St bool :=
  pk ← gets (fun s => packet_at s (entry_of i));
  if exist pk =? 1 then
    if negb (Is_safe (p_type (head pk))) then
      Deliver_packet (entry_of i) true;;
      modify (fun s => s <| Last_delivered ::= Z.succ |>);;
      mret true
    else mret false
  else if exist pk =? 2 then
    fatal_if (AGREED_TYPE <=? Regular_bits (p_type (head pk)));;
    modify (fun s => s <| Last_delivered ::= Z.succ |>);;
    mret true
  else fatal.

Definition Deliver_agreed_packets : M St unit :=
  my_aru ← gets My_aru;
  ld ← gets Last_delivered;
  if my_aru <=? ld then mret tt else
  st ← gets State;
  if st_eqb st EVS then mret tt else
  thr ← gets Prot_delivery_threshold;
  if AGREED_TYPE <? thr then mret tt else
  for_break (zrange (ld + 1) my_aru) deliver_agreed_step;;
  mret tt.
End Deliver.

(** ** The delivery threshold *)

Section Threshold.
Context {L : SpuLib} {X : Ext}.

Definition legal_threshold (t : Z) : bool :=
  bool_decide (t ∈ [UNRELIABLE_TYPE; RELIABLE_TYPE; FIFO_TYPE; AGREED_TYPE; SAFE_TYPE;
                    BLOCK_REGULAR_DELIVERY]).

Definition Prot_set_delivery_threshold (new_thresh : Z) : M St unit :=
  old_thresh ← gets Prot_delivery_threshold;
  fatal_if (negb (legal_threshold new_thresh));;
  modify (fun s => s <| Prot_delivery_threshold := new_thresh |>);;
  if new_thresh <? old_thresh then
    when ((new_thresh =? UNRELIABLE_TYPE) || (new_thresh =? RELIABLE_TYPE))
      (ext_do (E_queue Deliver_all_reliable_packets_event Zero_timeout));;
    when ((new_thresh =? UNRELIABLE_TYPE) || (new_thresh =? RELIABLE_TYPE) ||
          (new_thresh =? FIFO_TYPE) || (new_thresh =? AGREED_TYPE))
      (ext_do (E_queue Deliver_agreed_packets_event Zero_timeout))
  else if old_thresh <? new_thresh then
    when ((new_thresh =? BLOCK_REGULAR_DELIVERY) || (new_thresh =? SAFE_TYPE))
      (e_dequeue Deliver_agreed_packets_event);;
    when ((new_thresh =? BLOCK_REGULAR_DELIVERY) || (new_thresh =? SAFE_TYPE) ||
          (new_thresh =? AGREED_TYPE) || (new_thresh =? FIFO_TYPE))
      (e_dequeue Deliver_all_reliable_packets_event)
  else mret tt.
End Threshold.

(** ** Holding and hurrying the token *)

Section Hold.
Context {L : SpuLib} {X : Ext}.

Definition Is_token_hold (s : St) : bool :=
  (st_eqb (State s) OP || (st_eqb (State s) GATHER && Token_alive s)) &&
  (Get_retrans (t_type (Last_token s)) <=? 1) &&
  (Aru s =? Highest_seq s) && (1 <? Token_counter s).

Definition To_hold_token (s : St) : bool :=
  (st_eqb (State s) OP || (st_eqb (State s) GATHER && Token_alive s)) &&
  (Get_retrans (t_type (Last_token s)) <=? 1) &&
  (Aru s =? Highest_seq s) && (1 <? Token_counter s).

(** [Net_send_token(&retrans_token)], whose only element is [*Last_token]. *)
Definition resend_last_token : M St unit :=
  h ← gets Last_token;
  '(_, h) ← Net_send_token h [];
  modify (fun s => s <| Last_token := h |>).

Definition Prot_token_hurry : M St unit :=
  modify (fun s => s <| Last_token ::= fun t => t <| t_rtr_len := 0 |> |>);;
  lead ← I_lead;
  when lead
    (modify (fun s => s <| Last_token ::= fun t =>
       t <| t_type := Set_retrans (t_type t) (Get_retrans (t_type t) + 1) |> |>);;
     e_queue Prot_token_hurry_event Hurry_timeout;;
     modify (fun s => s <| gs_token_hurry ::= Z.succ |>));;
  resend_last_token;;
  wide ← gets Wide_network;
  when wide
    (my ← gets My;
     c ← gets Memb_active_ptr;
     l ← or_fail Fatal (Conf_seg_last c (seg_index my));
     when (l =? id my) resend_last_token);;
  t ← gets Last_token;
  when (1 <? Get_retrans (t_type t)) (resend_last_token;; resend_last_token).

Definition Handle_hurry (h : packet_header) : M St unit :=
  lead ← I_lead;
  hold ← gets Is_token_hold;
  when (lead && hold)
    (c ← gets Memb_active_ptr;
     when (negb (Conf_id_in_conf c (p_proc_id h) =? -1))
       (modify (fun s => s <| Token_counter := 0 |>);;
        Prot_token_hurry)).

Definition Prot_set_prev_proc (memb : configuration) : M St unit :=
  my ← gets My;
  p ← or_fail Fatal (Conf_previous my memb);
  modify (fun s => s <| Prev_proc_id := p |>).
End Hold.
