(* ===== verification/DeliveryFacts.v ===== *)
(** * What a delivery changes

    Delivering packets marks them, empties and fills the queues of partly
    received messages, and touches nothing else of the protocol; the loops that
    unpack a packet end. *)

From S2P Require Import Prelude NetTypes Configuration State Network SessionLayer Delivery.

(** ** Entries *)

Lemma entry_of_mod seq : entry_of seq = seq mod 8192.
Proof. unfold entry_of, PACKET_MASK. change 0x1fff with (Z.ones 13). by rewrite Z.land_ones. Qed.

Lemma entry_of_range seq : 0 <= entry_of seq < 8192.
Proof. rewrite entry_of_mod. by apply Z.mod_pos_bound. Qed.

(** Within a window of the array's size, sequence numbers have their own entries. *)
Lemma entry_of_inj i j : entry_of i = entry_of j -> Z.abs (i - j) < 8192 -> i = j.
Proof. rewrite !entry_of_mod. intros. Z.div_mod_to_equations. lia. Qed.

Lemma entry_of_entry i : entry_of (entry_of i) = entry_of i.
Proof. rewrite !entry_of_mod. by rewrite Z.mod_mod. Qed.

Section Facts.
Context {L : SpuLib} {X : Ext}.

Lemma packet_at_insert s e p e' :
  packet_at (s <| Packets ::= insert e p |>) e' = if decide (e = e') then p else packet_at s e'.
Proof.
  unfold packet_at. rec_simpl_in_goal. destruct (decide (e = e')) as [->|Hne].
  - by rewrite lookup_total_insert_eq.
  - by rewrite lookup_total_insert_ne.
Qed.

Lemma packet_at_update s e p e' :
  packet_at (s <| Packets := <[e := p]> (Packets s) |>) e' =
    if decide (e = e') then p else packet_at s e'.
Proof. apply packet_at_insert. Qed.

(** ** What stays *)

(** The protocol's state but the packets, the queues of messages and
    [Last_delivered]. *)
Definition steady (s : St) :=
  (Aru s, My_aru s, Highest_seq s, Highest_fifo_seq s, Last_discarded s, Last_seq s,
   Send_pack_queue s, My_index s, membs s, confs s, memb_lists s).

Lemma lower_steady s s' : lower s' = lower s ->
  steady s' = steady s /\ Last_delivered s' = Last_delivered s /\
  Packets s' = Packets s /\ Up_queue s' = Up_queue s.
Proof.
  intros H. pose proof (lower_seqs _ _ H) as Hs. pose proof (lower_stores _ _ H) as Ht.
  pose proof (lower_membs _ _ H) as Hm. pose proof (lower_confs _ _ H) as Hc.
  pose proof (lower_memb_lists _ _ H) as Hl. unfold seqs, stores in Hs, Ht.
  injection Hs; injection Ht; intros. unfold steady. split_and!; congruence.
Qed.

(** The entries of [D] may have gone from received to delivered. *)
Record marks (D : Z -> Prop) (s s' : St) : Prop := {
  marks_steady : steady s' = steady s;
  marks_last : Last_delivered s' = Last_delivered s;
  marks_head e : head (packet_at s' e) = head (packet_at s e);
  marks_proc e : proc_index (packet_at s' e) = proc_index (packet_at s e);
  marks_exist e : exist (packet_at s' e) = exist (packet_at s e) \/
    (D e /\ exist (packet_at s e) = 1 /\ exist (packet_at s' e) = 2) }.

Lemma marks_refl D s : marks D s s.
Proof. split; auto. Qed.

Lemma marks_trans D s1 s2 s3 : marks D s1 s2 -> marks D s2 s3 -> marks D s1 s3.
Proof.
  intros [A1 B1 H1 P1 E1] [A2 B2 H2 P2 E2]. split; [congruence|congruence|..].
  - intros e. by rewrite H2, H1.
  - intros e. by rewrite P2, P1.
  - intros e. destruct (E1 e) as [E|(?&?&?)], (E2 e) as [E'|(?&?&?)].
    + left. congruence.
    + right. rewrite <-E. done.
    + right. rewrite E'. done.
    + exfalso. congruence.
Qed.

Lemma marks_weaken (D D' : Z -> Prop) s s' :
  (forall e, D e -> D' e) -> marks D s s' -> marks D' s s'.
Proof.
  intros HD [A B H P E]. split; try done. intros e. destruct (E e) as [|(?&?&?)]; auto.
Qed.

Lemma marks_lower D s s' : lower s' = lower s -> marks D s s'.
Proof.
  intros (Hs & Hl & Hp & _)%lower_steady. split; [done|done| | |]; intros e;
    unfold packet_at; rewrite Hp; auto.
Qed.

(** ** The loop that unpacks a packet *)

(** The messages of the body after [pos]: each behind its header, at a multiple
    of four, until [len] bytes are read or the next message would pass them. *)
Inductive fragments (b : list Z) (len : Z) : Z -> list scatter -> Prop :=
| no_more pos : len <= pos -> fragments b len pos []
| cut_short pos start frag :
    pos < len -> start = pos + padding_of pos + sizeof_fragment_header ->
    frag = get_frag b (pos + padding_of pos) -> len < start + fragment_len frag ->
    fragments b len pos []
| one_more pos start frag q :
    pos < len -> start = pos + padding_of pos + sizeof_fragment_header ->
    frag = get_frag b (pos + padding_of pos) -> start + fragment_len frag <= len ->
    fragments b len (start + fragment_len frag) q ->
    fragments b len pos
      ([mk_element (fragment_len frag) (buf_get b start (fragment_len frag))] :: q).

Lemma unpack_rest_fragments (E : failure -> Prop) b h (s : St) (Q : list scatter -> St -> Prop) :
  E Undefined ->
  (forall q, fragments b (p_data_len h) (fragment_len (p_first_frag h)) q -> Q q s) ->
  wp E (unpack_rest b h) Q s.
Proof.
  intros HE HQ. unfold unpack_rest.
  destruct (Z.leb_spec (p_data_len h) (fragment_len (p_first_frag h))) as [Hle|Hlt].
  { cbn [while_fuel]. wp_step. unfold unpack_step at 1. rewrite (proj2 (Z.leb_le _ _) Hle).
    repeat wp_step. apply HQ. by constructor. }
  destruct (Z.ltb_spec (fragment_len (p_first_frag h)) 0) as [Hneg|Hpos].
  { cbn [while_fuel]. wp_step. unfold unpack_step at 1.
    destruct (Z.leb_spec (p_data_len h) (fragment_len (p_first_frag h))); [lia|].
    wp_step. wp_step; [done|]. exfalso. bools_to_props.
    assert (padding_of (fragment_len (p_first_frag h)) = 0); [|lia].
    unfold padding_of. pose proof (Z.rem_nonpos (fragment_len (p_first_frag h)) 4).
    destruct (Z.eqb_spec (Z.rem (fragment_len (p_first_frag h)) 4) 1); [lia|].
    destruct (Z.eqb_spec (Z.rem (fragment_len (p_first_frag h)) 4) 2); [lia|].
    destruct (Z.eqb_spec (Z.rem (fragment_len (p_first_frag h)) 4) 3); lia. }
  set (frags := fragments b (p_data_len h)) in *.
  apply wp_while with (I := fun x s' => 0 <= x.1 /\ s' = s /\
      forall q, frags x.1 q -> frags (fragment_len (p_first_frag h)) (x.2 ++ q))
    (mu := fun x => Z.max 0 (p_data_len h - x.1)); cbn [fst snd]; [lia|done|].
  intros [pb acc] s' (Hpb & -> & Hacc). cbn [fst snd] in *. unfold unpack_step.
  destruct (Z.leb_spec (p_data_len h) pb).
  { wp_step. apply HQ. rewrite <-(app_nil_r acc). apply Hacc. by constructor. }
  wp_step. wp_step; [done|]. pose proof (padding_of_range pb).
  wp_step.
  { wp_step. apply HQ. rewrite <-(app_nil_r acc). apply Hacc. bools_to_props.
    eapply cut_short; [done|reflexivity|reflexivity|done]. }
  wp_step. wp_step; [done|]. wp_step. cbn [fst snd]. bools_to_props.
  unfold sizeof_fragment_header in *.
  split; [split; [lia|split; [done|]]|lia]. intros q Hq. rewrite <-(assoc_L (++)). apply Hacc.
  by eapply one_more.
Qed.

Lemma unpack_rest_ends E b h (s : St) (Q : list scatter -> St -> Prop) :
  E Undefined -> (forall q, Q q s) -> wp E (unpack_rest b h) Q s.
Proof. intros HE HQ. by apply unpack_rest_fragments. Qed.

Context {SL : SessionLayer} {HSL : SessionLaws SL}.

(** ** One packet *)

Lemma Deliver_packet_marks (E : failure -> Prop) entry copy s (Q : unit -> St -> Prop) :
  E Fatal -> E Undefined -> exist (packet_at s entry) = 1 ->
  (forall s', marks (eq entry) s s' -> exist (packet_at s' entry) = 2 -> Q tt s') ->
  wp E (Deliver_packet entry copy) Q s.
Proof.
  intros HF HU He HQ. unfold Deliver_packet. do 2 wp_step.
  wp_step. apply unpack_rest_ends; [done|]. intros mq.
  wp_step. wp_step; [done|]. do 2 wp_step. wp_step. wp_step; [done|]. wp_step. wp_step; [done|].
  do 2 wp_step. set (s1 := s <| Up_queue ::= _ |>).
  assert (M1 : marks (eq entry) s s1) by (by split; auto). clearbody s1.
  wp_step.
  assert (Hcopy : forall (Q : unit -> St -> Prop), (forall s2, marks (eq entry) s s2 -> Q tt s2) ->
    wp E (when copy (update_packet entry (fun p =>
      p <| body := buf_get (body (packet_at s entry)) 0 (p_data_len (head (packet_at s entry))) |>)))
      Q s1).
  { clear HQ Q. intros Q HQ. unfold update_packet. wp_step; [wp_step|]; apply HQ; [|done].
    destruct M1 as [A B Hh Hp Ex]. split; try done; intros e; rewrite packet_at_update;
      destruct (decide (entry = e)) as [->|];
      first [exact (Hh e)|exact (Hp e)|exact (Ex e)]. }
  apply Hcopy. clear s1 M1 Hcopy. intros s1 M1.
  wp_step. unfold update_packet. wp_step. set (s2 := s1 <| Packets := _ |>).
  assert (M2 : marks (eq entry) s s2 /\ exist (packet_at s2 entry) = 2).
  { unfold s2. destruct M1 as [A B Hh Hp Ex]. rewrite packet_at_update, decide_True by done.
    split; [|done]. split; try done; intros e; rewrite packet_at_update;
      destruct (decide (entry = e)) as [->|];
    first [exact (Hh e)|exact (Hp e)|exact (Ex e)|by right]. }
  clearbody s2. clear s1 M1. wp_step. wp_step. set (s3 := s2 <| gs_packet_delivered ::= _ |>).
  assert (M3 : marks (eq entry) s s3 /\ exist (packet_at s3 entry) = 2).
  { destruct M2 as [[A B Hh Hp Ex] ?]. by split; [split|]. }
  clearbody s3. clear s2 M2. wp_step.
  (** The rest are upcalls. *)
  set (ok s' := marks (eq entry) s s' /\ exist (packet_at s' entry) = 2).
  assert (Hup : forall m s', ok s' -> wp E (Sess_deliver_message m) (fun _ => ok) s').
  { intros m s' [M Hx]. apply wp_upcall; [apply law_deliver_message|done|done|].
    intros _ s'' Hlow. split.
    - eapply marks_trans; [done|]. by apply marks_lower.
    - destruct (lower_steady _ _ Hlow) as (_ & _ & Hp & _). unfold packet_at in *. by rewrite Hp. }
  change (ok s3) in M3.
  eapply wp_mono with (Q := fun _ => ok).
  - wp_step; [|done]. do 2 wp_step. apply Hup. destruct M3 as [[A B Hh Hp Ex] ?]. by split; [split|].
  - intros [] s4 M4. eapply wp_mono; [apply wp_for_each with (I := ok)|].
    + done.
    + intros; by apply Hup.
    + intros [] s5 [M5 Hx]. by apply HQ.
Qed.

(** ** What a packet hands up *)

(** The first fragment completes, or continues, the message that waits in the
    queue of the packet; the fragments after it are messages of their own. *)
Inductive hands (U : gmap Z scatter) (pk : packet_info) : list scatter -> gmap Z scatter -> Prop :=
| hands_up i mess q :
    i = up_index (head pk) (proc_index pk) ->
    mess = default [] (U !! i) ++ [mk_element (fragment_len (p_first_frag (head pk))) (body pk)] ->
    Z.of_nat (length mess) = Z.abs (fragment_index (p_first_frag (head pk))) ->
    fragments (body pk) (p_data_len (head pk)) (fragment_len (p_first_frag (head pk))) q ->
    hands U pk
      (if fragment_index (p_first_frag (head pk)) <? 0 then mess :: q else q)
      (if fragment_index (p_first_frag (head pk)) <? 0 then delete i (<[i := mess]> U)
       else <[i := mess]> U).

Inductive hands_all : gmap Z scatter -> list packet_info -> list scatter -> gmap Z scatter -> Prop :=
| hands_nil U : hands_all U [] [] U
| hands_cons U pk ms U1 pks ms' U2 :
    hands U pk ms U1 -> hands_all U1 pks ms' U2 -> hands_all U (pk :: pks) (ms ++ ms') U2.

(** From [s] to [s'] the messages of the packets, in their order, were given to
    the session layer, and nothing else was. *)
Definition passed_up (pks : list packet_info) (s s' : St) : Prop :=
  exists ms, hands_all (Up_queue s) pks ms (Up_queue s') /\ delivered ms s s'.

Lemma hands_one U pk ms U' : hands U pk ms U' -> hands_all U [pk] ms U'.
Proof. intros H. rewrite <-(app_nil_r ms). econstructor; [done|constructor]. Qed.

Lemma hands_all_app U1 U2 U3 l1 l2 ms1 ms2 :
  hands_all U1 l1 ms1 U2 -> hands_all U2 l2 ms2 U3 -> hands_all U1 (l1 ++ l2) (ms1 ++ ms2) U3.
Proof.
  induction 1 as [|U pk ms U' pks ms' U'' Hh Ha IH]; [done|]. intros H2.
  rewrite <-(assoc_L (++)). econstructor; [done|]. by apply IH.
Qed.

Lemma passed_up_none s s' : Up_queue s' = Up_queue s -> Sess s' = Sess s -> passed_up [] s s'.
Proof. intros HU HS. exists []. rewrite HU. split; [constructor|by apply dv_own]. Qed.

Lemma passed_up_app l1 l2 s1 s2 s3 : passed_up l1 s1 s2 -> passed_up l2 s2 s3 -> passed_up (l1 ++ l2) s1 s3.
Proof.
  intros (m1 & H1 & D1) (m2 & H2 & D2). exists (m1 ++ m2).
  split; [by eapply hands_all_app|by eapply dv_app].
Qed.

Lemma passed_up_from s0 l s s' :
  Up_queue s = Up_queue s0 -> Sess s = Sess s0 -> passed_up l s s' -> passed_up l s0 s'.
Proof. intros HU HS. by apply (passed_up_app []), passed_up_none. Qed.
Lemma passed_up_to l s s' s1 :
  Up_queue s1 = Up_queue s' -> Sess s1 = Sess s' -> passed_up l s s' -> passed_up l s s1.
Proof. intros HU HS H. rewrite <-(app_nil_r l). by eapply passed_up_app, passed_up_none. Qed.

(** The upcalls of one packet. *)
Lemma upcalls_delivered ms s :
  wp partial (for_each ms Sess_deliver_message) (fun _ s' =>
    delivered ms s s' /\ lower s' = lower s) s.
Proof.
  apply (wp_for_each_prefix partial ms Sess_deliver_message
    (fun l s' => delivered l s s' /\ lower s' = lower s)).
  { split; [by apply dv_own|done]. }
  intros pre m s1 _ [Hd Hl]. apply wp_intro. intros [] s2 Hm.
  split; [by eapply dv_app, dv_upcall|]. rewrite <-Hl.
  by apply (wp_ok _ _ _ _ _ _ (law_deliver_message m s1) Hm).
Qed.

(** The end of [Deliver_packet]: the message that is complete, then the rest. *)
Lemma hand_up_spec (last : bool) i mess q s :
  wp partial (when last (modify (fun s => s <| Up_queue ::= delete i |>);;
                         Sess_deliver_message mess);;
              for_each q Sess_deliver_message) (fun _ s' =>
    delivered (if last then mess :: q else q) s s' /\ Packets s' = Packets s /\
    Up_queue s' = if last then delete i (Up_queue s) else Up_queue s) s.
Proof.
  wp_step. destruct last; unfold when.
  - do 2 wp_step. set (s1 := s <| Up_queue ::= _ |>). apply wp_intro. intros [] s2 Hm.
    pose proof (wp_ok _ _ _ _ _ _ (law_deliver_message mess s1) Hm) as Hlow. cbn beta in Hlow.
    eapply wp_mono; [apply upcalls_delivered|]. intros [] s' [Hd Hl].
    destruct (lower_steady s1 s') as (_ & _ & Hp & HU); [congruence|]. split; [|done].
    apply (delivered_from s _ s1); [done|]. by apply (dv_app [mess] q s1 s2), Hd; apply dv_upcall.
  - wp_step. eapply wp_mono; [apply upcalls_delivered|].
    by intros [] s' [Hd (_ & _ & Hp & HU)%lower_steady].
Qed.

(** The delivery of the packet of an entry hands it up; the other entries stay. *)
Lemma Deliver_packet_passes entry copy s :
  wp partial (Deliver_packet entry copy) (fun _ s' =>
    passed_up [packet_at s entry] s s' /\
    (forall e, e <> entry -> packet_at s' e = packet_at s e)) s.
Proof.
  unfold Deliver_packet. do 2 wp_step. set (pk := packet_at s entry). set (h := head pk).
  wp_step. apply unpack_rest_fragments; [done|]. intros q Hq. cbv zeta.
  set (i := up_index h (proc_index pk)).
  wp_step. wp_step; [done|]. do 2 wp_step. wp_step. wp_step; [done|]. wp_step. wp_step; [done|].
  set (mess := default [] (Up_queue s !! i) ++ [mk_element (fragment_len (p_first_frag h)) (body pk)]).
  bools_to_props.
  assert (Hlen : Z.of_nat (length mess) = Z.abs (fragment_index (p_first_frag h))).
  { unfold mess. rewrite length_app. cbn [length]. lia. }
  pose proof (hands_up (Up_queue s) pk i mess q eq_refl eq_refl Hlen Hq) as Hands. fold h in Hands.
  do 2 wp_step. set (sent s1 := Sess s1 = Sess s /\ Up_queue s1 = <[i := mess]> (Up_queue s) /\
    forall e, e <> entry -> packet_at s1 e = packet_at s e).
  set (s1 := s <| Up_queue ::= _ |>). assert (K1 : sent s1) by done. clearbody s1.
  assert (Hput : forall f s1, sent s1 -> sent (s1 <| Packets := <[entry := f (packet_at s1 entry)]> (Packets s1) |>)).
  { intros f s2 (S1 & S2 & S3). split; [done|]. split; [done|]. intros e He.
    rewrite packet_at_update, decide_False by done. by apply S3. }
  wp_step. eapply wp_mono with (Q := fun _ => sent).
  { wp_step; [unfold update_packet; wp_step; exact (Hput _ s1 K1)|done]. }
  intros [] s2 K2. wp_step. unfold update_packet. wp_step.
  pose proof (Hput (fun p => p <| exist := 2 |>) s2 K2) as K3. cbn beta in K3.
  set (s3 := s2 <| Packets := _ |>) in *. clearbody s3. clear s1 s2 K1 K2.
  wp_step. wp_step.
  set (s4 := s3 <| gs_packet_delivered ::= _ |>). assert (K4 : sent s4) by exact K3. clearbody s4.
  clear s3 K3 Hput. destruct K4 as (S1 & S2 & S3).
  eapply wp_mono; [apply hand_up_spec|]. intros [] s' (Hd & Hp & HU). split.
  - eexists. split; [|exact (delivered_from s _ s4 s' S1 Hd)]. apply hands_one. rewrite HU, S2.
    exact Hands.
  - intros e He. unfold packet_at at 1. rewrite Hp. by apply S3.
Qed.

(** [I_lead] reads whether I lead the active membership. *)
Definition is_leader (s : St) : option bool :=
  (fun l => l =? id (My s)) <$> Conf_leader (Memb_active_ptr s).
Lemma I_lead_frame {T} (f : St -> T) : frame f I_lead.
Proof. unfold I_lead, leader_of. solve_frame. Qed.
Lemma I_lead_stops : stops I_lead.
Proof. unfold I_lead, leader_of. solve_stops. Qed.
Lemma wp_I_lead_is (E : failure -> Prop) (Q : bool -> St -> Prop) s :
  E Fatal -> (forall b, is_leader s = Some b -> Q b s) -> wp E I_lead Q s.
Proof.
  intros HE HQ. unfold I_lead, leader_of. repeat wp_step; [done|]. apply HQ.
  unfold is_leader. by rewrite H.
Qed.
Lemma wp_I_lead (E : failure -> Prop) (Q : bool -> St -> Prop) s :
  E Fatal -> (forall b, Q b s) -> wp E I_lead Q s.
Proof. intros HE HQ. unfold I_lead, leader_of. repeat wp_step; done || apply HQ. Qed.
End Facts.
