(* ===== verification/MembSets.v ===== *)
(** * Members and representatives: the sets of [membership.c]

    The sets exchanged while a membership forms, as the arrays the code keeps
    them in: insertion, the smallest element, sorting, byte flips.  The
    functions keep no state; they read the running configuration [cn]. *)

From S2P Require Import Prelude NetTypes Configuration State Network SessionLayer Delivery.

Definition POTENTIAL_REP : Z := 0.
Definition SEG_REP : Z := 1.
Definition RING_REP : Z := 2.

Section Sets.
Context {L : SpuLib}.
Implicit Types cn : configuration.

Definition aget {A} (l : list A) (i : Z) : M unit A := or_fail Undefined (arr_get l i).
Definition aset {A} (l : list A) (i : Z) (x : A) : M unit (list A) :=
  or_fail Undefined (arr_set l i x).

(** The first [n] elements of an array, as a loop [for (i = 0; i < n; i++)]
    reads them. *)
Definition first_n {A} (n : Z) (l : list A) : list A := take (Z.to_nat n) l.

Definition live (m : members_info) : list Z := first_n (num_members m) (members m).
Definition live_reps (r : reps_info) : list rep_info := first_n (num_reps r) (reps r).

Definition Insert_member (m : members_info) (pid : Z) : M unit (Z * members_info) :=
  if bool_decide (pid ∈ live m) then mret (0, m) else
  if num_members m =? MAX_PROCS_RING then mret (0, m) else
  ms ← aset (members m) (num_members m) pid;
  mret (1, m <| members := ms |> <| num_members ::= Z.succ |>).

(** The loops of [Insert_rep] for a segment's and a ring's representative: the
    value returned and the array, or [None] when the loop ran to its end. *)
Fixpoint insert_seg_rep (p : proc) (l : list rep_info) : option (Z * list rep_info) :=
  match l with
  | [] => None
  | r :: l' =>
      let next := match insert_seg_rep p l' with
                  | Some (v, l'') => Some (v, r :: l'') | None => None end in
      if rep_seg_index r =? seg_index p then
        if rep_type r =? POTENTIAL_REP then
          Some (1, (r <| rep_type := SEG_REP |> <| rep_proc_id := id p |>) :: l')
        else if rep_type r =? SEG_REP then
          if rep_proc_id r =? id p then Some (0, l) else next
        else if (rep_type r =? RING_REP) && (rep_proc_id r =? id p) then
          Some (1, (r <| rep_type := SEG_REP |>) :: l')
        else next
      else next
  end.

Fixpoint insert_ring_rep (p : proc) (l : list rep_info) : option (Z * list rep_info) :=
  match l with
  | [] => None
  | r :: l' =>
      let next := match insert_ring_rep p l' with
                  | Some (v, l'') => Some (v, r :: l'') | None => None end in
      if rep_seg_index r =? seg_index p then
        if rep_type r =? POTENTIAL_REP then
          Some (1, (r <| rep_type := RING_REP |> <| rep_proc_id := id p |>) :: l')
        else if rep_type r =? SEG_REP then
          if rep_proc_id r =? id p then Some (1, (r <| rep_type := RING_REP |>) :: l')
          else next
        else if (rep_type r =? RING_REP) && (rep_proc_id r =? id p) then Some (0, l)
        else next
      else next
  end.

Definition Insert_rep cn (r : reps_info) (rep : rep_info) : M unit (Z * reps_info) :=
  '(_, p) ← or_fail Fatal (Conf_proc_by_id_in_conf cn (rep_proc_id rep));
  found ← (if rep_type rep =? POTENTIAL_REP then
             mret (if existsb (fun x => rep_seg_index x =? seg_index p) (live_reps r)
                   then Some (0, live_reps r) else None)
           else if rep_type rep =? SEG_REP then mret (insert_seg_rep p (live_reps r))
           else if rep_type rep =? RING_REP then mret (insert_ring_rep p (live_reps r))
           else fatal);
  match found with
  | Some (v, l) => mret (v, r <| reps := l ++ drop (length l) (reps r) |>)
  | None =>
      if num_reps r =? MAX_REPS then mret (0, r) else
      rs ← aset (reps r) (num_reps r) rep;
      mret (1, r <| reps := rs |> <| num_reps ::= Z.succ |>)
  end.

(** The order of the daemons: by segment, then by place in the segment. *)
Definition proc_before (p q : proc) : bool :=
  (seg_index p <? seg_index q) ||
  ((seg_index p =? seg_index q) && (index_in_seg p <? index_in_seg q)).

(** The member's id, and its index. *)
Definition Smallest_member cn (m : members_info) : M unit (Z * Z) :=
  m0 ← aget (members m) 0;
  '(_, p0) ← or_fail Fatal (Conf_proc_by_id_in_conf cn m0);
  '(current, _) ← for_fold (zrange 1 (num_members m - 1)) (0, p0) (fun i x =>
    let '(current, curr_proc) := x in
    mi ← aget (members m) i;
    '(_, i_proc) ← or_fail Fatal (Conf_proc_by_id_in_conf cn mi);
    mret (if proc_before i_proc curr_proc then (i, i_proc) else (current, curr_proc)));
  v ← aget (members m) current;
  mret (v, current).

Definition Smallest_rep cn (r : reps_info) : M unit (Z * Z) :=
  current ← for_fold (zrange 1 (num_reps r - 1)) 0 (fun i current =>
    c ← aget (reps r) current;
    x ← aget (reps r) i;
    if rep_type c =? SEG_REP then
      mret (if (rep_type x =? SEG_REP) && (rep_seg_index x <? rep_seg_index c)
            then i else current)
    else if rep_type c =? RING_REP then
      if rep_type x =? RING_REP then
        if rep_seg_index x <? rep_seg_index c then mret i
        else if rep_seg_index x =? rep_seg_index c then
          '(_, curr_p) ← or_fail Undefined (Conf_proc_by_id_in_conf cn (rep_proc_id c));
          '(_, i_p) ← or_fail Undefined (Conf_proc_by_id_in_conf cn (rep_proc_id x));
          mret (if index_in_seg i_p <? index_in_seg curr_p then i else current)
        else mret current
      else if rep_type x =? SEG_REP then mret i
      else mret current
    else fatal);
  c ← aget (reps r) current;
  mret (rep_proc_id c, current).

(** Selection sort: the smallest of [temp] goes to place [i], and the last of
    [temp] takes its place. *)
Definition Sort_members cn (m : members_info) : M unit members_info :=
  '(m, _) ← for_fold (zrange 0 (num_members m - 1)) (m, m) (fun i x =>
    let '(m, temp) := x in
    '(_, index) ← Smallest_member cn temp;
    v ← aget (members temp) index;
    ms ← aset (members m) i v;
    let n := num_members temp - 1 in
    z ← aget (members temp) n;
    ts ← aset (members temp) index z;
    mret (m <| members := ms |>, temp <| num_members := n |> <| members := ts |>));
  mret m.

Definition Sort_reps cn (r : reps_info) : M unit reps_info :=
  '(r, _) ← for_fold (zrange 0 (num_reps r - 1)) (r, r) (fun i x =>
    let '(r, temp) := x in
    '(_, index) ← Smallest_rep cn temp;
    v ← aget (reps temp) index;
    rs ← aset (reps r) i v;
    let n := num_reps temp - 1 in
    z ← aget (reps temp) n;
    ts ← aset (reps temp) index z;
    mret (r <| reps := rs |>, temp <| num_reps := n |> <| reps := ts |>));
  mret r.

(** ** Flips *)

Definition Flip_members (m : members_info) : M unit members_info :=
  let nm := i16 (Flip_int16 (num_members m)) in
  let np := i16 (Flip_int16 (num_pending m)) in
  ms ← for_fold (zrange 0 (nm + np - 1)) (members m) (fun i l =>
    v ← aget l i; aset l i (i32 (Flip_int32 v)));
  mret (mk_members_info nm np ms).

Definition Flip_reps (r : reps_info) : M unit reps_info :=
  let nr := i16 (Flip_int16 (num_reps r)) in
  let ri := i16 (Flip_int16 (rep_index r)) in
  rs ← for_fold (zrange 0 (nr - 1)) (reps r) (fun i l =>
    v ← aget l i;
    aset l i (mk_rep_info (i32 (Flip_int32 (rep_proc_id v)))
      (i16 (Flip_int16 (rep_type v))) (i16 (Flip_int16 (rep_seg_index v)))));
  mret (mk_reps_info nr ri rs).
End Sets.

(** ** The structs in a message *)

Definition sizeof_members_info : Z := 4 + 4 * MAX_PROCS_RING.
Definition sizeof_rep_info : Z := 8.
Definition sizeof_reps_info : Z := 4 + sizeof_rep_info * MAX_REPS.
Definition sizeof_membership_id : Z := 8.

Definition get_members_info (b : list Z) (off : Z) : members_info :=
  mk_members_info (get_i16 b off) (get_i16 b (off + 2))
    (map (fun i => get_i32 b (off + 4 + 4 * i)) (zrange 0 (MAX_PROCS_RING - 1))).
Definition members_bytes (m : members_info) : list Z :=
  bytes16 (num_members m) ++ bytes16 (num_pending m) ++ concat (map bytes32 (members m)).
Definition get_rep_info (b : list Z) (off : Z) : rep_info :=
  mk_rep_info (get_i32 b off) (get_i16 b (off + 4)) (get_i16 b (off + 6)).
Definition rep_bytes (r : rep_info) : list Z :=
  bytes32 (rep_proc_id r) ++ bytes16 (rep_type r) ++ bytes16 (rep_seg_index r).
Definition get_reps_info (b : list Z) (off : Z) : reps_info :=
  mk_reps_info (get_i16 b off) (get_i16 b (off + 2))
    (map (fun i => get_rep_info b (off + 4 + sizeof_rep_info * i)) (zrange 0 (MAX_REPS - 1))).
Definition reps_bytes (r : reps_info) : list Z :=
  bytes16 (num_reps r) ++ bytes16 (rep_index r) ++ concat (map rep_bytes (reps r)).

(** * Membership: installing a membership and shifting state

    The part of [membership.c] that the protocol calls while it delivers
    ([Memb_commit], [Memb_transitional], [Memb_regular]), and the entries into
    the states of the membership algorithm ([Shift_to_op], [Shift_to_seg],
    [Shift_to_gather], [Shift_to_represented]). *)

Section MembBase.
Context {L : SpuLib} {X : Ext}.

(** [State = st; GlobalStatus.state = st] *)
Definition shift_state (st : memb_state) : M St unit :=
  modify (fun s => s <| State := st |> <| gs_state := memb_state_code st |>).

Definition Shift_to_op : M St unit :=
  shift_state OP;;
  need ← gets Prot_Need_Conf_Reload;
  when need (ext_do (E_queue Prot_initiate_conf_reload_event Zero_timeout)).

(** Writing an element of one of the module's arrays. *)
Definition set_member (m : members_info) (i pid : Z) : M St members_info :=
  ms ← or_fail Undefined (arr_set (members m) i pid); mret (m <| members := ms |>).

Definition Shift_to_seg : M St unit :=
  shift_state SEG;;
  my ← gets My;
  m ← gets F_members;
  m ← set_member (m <| num_members := 1 |>) 0 (id my);
  modify (fun s => s <| F_members := m <| num_pending := 0 |> |>);;
  ext_do (E_queue (Scast_alive_event 0) Zero_timeout);;
  e_queue Gather_or_represented_event Seg_timeout.

Definition Shift_to_gather : M St unit :=
  shift_state GATHER;;
  my ← gets My;
  alive ← gets Token_alive;
  r ← gets F_reps;
  rs ← or_fail Undefined (arr_set (reps r) 0
    (mk_rep_info (id my) (if alive : bool then RING_REP else SEG_REP) (seg_index my)));
  modify (fun s => s <| F_reps := r <| num_reps := 1 |> <| reps := rs |> |>);;
  e_dequeue (Scast_alive_event 0);;
  e_dequeue Memb_lookup_new_members_event;;
  ext_do (E_queue Send_join_event Zero_timeout);;
  e_queue Form_or_fail_event Gather_timeout.

Definition Shift_to_represented : M St unit :=
  shift_state REPRESENTED;;
  e_dequeue (Scast_alive_event 0);;
  e_dequeue Gather_or_represented_event;;
  e_queue Shift_to_seg_event Rep_timeout.

Definition Gather_or_represented : M St unit :=
  modify (fun s => s <| My_seg_rep := -1 |>);;
  cn ← gets Config;
  m ← gets F_members;
  my ← gets My;
  '(smallest, _) ← pure_code (Smallest_member cn m);
  if smallest =? id my then Shift_to_gather else Shift_to_represented.

Definition Memb_commit : M St unit :=
  modify (fun s => s <| Commit_set := Future_commit_set s |>).

(** [Conf_append_id_to_seg(&segments[i], ..)] from the module's code: -1 is a
    fatal error there, and a segment's array has [MAX_PROCS_SEGMENT] places. *)
Definition append_id (seg : segment) (pid : Z) : M St segment :=
  cn ← gets Config;
  seg' ← or_fail Fatal (Conf_append_id_to_seg cn seg pid);
  undef_if (MAX_PROCS_SEGMENT <? num_procs seg');;
  mret seg'.

(** The daemons of a segment of the configuration that are in [set] (the
    entries of [Commit_set] the inner loop walks, up to the first hit). *)
Definition fill_segment (set : list Z) (cn_seg seg : segment) : M St segment :=
  for_fold (procs cn_seg) (seg <| procs := [] |>) (fun p seg =>
    if bool_decide (id p ∈ set) then append_id seg (id p) else mret seg).

(** All segments of [memb], from those of the configuration. *)
Definition fill_membership (set : list Z) (memb : configuration) : M St configuration :=
  cn ← gets Config;
  segs ← for_fold (zrange 0 (Conf_num_segments cn - 1)) [] (fun i segs =>
    seg ← fill_segment set (segment_at cn i) (segment_at memb i); mret (segs ++ [seg]));
  mret (memb <| segments := segs |>).

Definition Memb_transitional : M St unit :=
  modify (fun s => s <| Transitional := true |>);;
  c ← gets Commit_set;
  trans ← gets Trans_membership;
  undef_if (MAX_PROCS_RING <? num_pending c);;
  trans ← fill_membership (first_n (num_pending c) (members c)) trans;
  modify (fun s => s <| Trans_membership := trans |>);;
  l ← leader_of Trans_membership;
  modify (fun s => s <| Trans_memb_id := mk_membership_id l (F_trans_memb_time s) |>);;
  commit ← gets Commit_membership;
  undef_if (MAX_PROCS_RING <? num_members c);;
  commit ← fill_membership (first_n (num_members c) (members c)) commit;
  modify (fun s => s <| Commit_membership := commit |>).

(** How many segments of a membership have a member. *)
Definition segments_in_use (l : list segment) : Z :=
  Z.of_nat (length (filter (fun sg => 0 < num_procs sg) l)).

Definition Memb_regular : M St unit :=
  modify (fun s => s <| Transitional := false |> <| Memb_Just_Installed := true |>
    <| gs_membership_changes ::= Z.succ |>);;
  modify (fun s => s <| Membership := Future_membership s |>
    <| Membership_id := Future_membership_id s |>
    <| Reg_membership := Future_membership s |>);;
  my ← gets My;
  c ← gets Commit_set;
  c ← set_member (c <| num_pending := 1 |> <| num_members := 1 |>) 0 (id my);
  modify (fun s => s <| Commit_set := c |>);;
  modify (fun s => s <| gs_num_procs := Conf_num_procs (Membership s) |>
    <| gs_num_segments := segments_in_use (segments (Membership s)) |>
    <| gs_leader_id := m_proc_id (Membership_id s) |>
    <| Foreign_found := false |>);;
  l ← leader_of Membership;
  when (l =? id my) (e_queue Memb_lookup_new_members_event Lookup_timeout);;
  Shift_to_op.
End MembBase.
