(* ===== verification/Discard.v ===== *)
(** * Discarding packets, and the delivery of a membership

    [Discard_packets] of [protocol.c]: in a regular membership the packets all
    members have are delivered and dropped; in state EVS, once the packets of
    the old ring are recovered, it delivers what is left of the old ring around
    the transitional membership and then the new regular membership. *)

From S2P Require Import Prelude NetTypes Configuration State Network SessionLayer.
From S2P Require Import Delivery MembSets.

Section Discard.
Context {L : SpuLib} {X : Ext} {SL : SessionLayer}.

(** Deliver a packet unless that was done, and drop it. *)
Definition deliver_and_drop (entry : Z) : M St unit :=
  pk ← gets (fun s => packet_at s entry);
  when (exist pk =? 1) (Deliver_packet entry false);;
  update_packet entry (fun p => p <| exist := 0 |>).

(** Not in EVS: all packets up to [Aru]. *)
Definition discard_regular : M St unit :=
  ld ← gets Last_discarded;
  aru ← gets Aru;
  for_each (zrange (ld + 1) aru) (fun i =>
    pk ← gets (fun s => packet_at s (entry_of i));
    fatal_if (exist pk =? 0);;
    deliver_and_drop (entry_of i));;
  modify (fun s => s <| Last_discarded := Aru s |>);;
  modify (fun s => s <| Last_delivered ::= Z.max (Last_discarded s) |>).

(** EVS, before the transitional signal: up to the first hole or SAFE message. *)
Definition discard_before_step (i : Z) : M St bool :=
  pk ← gets (fun s => packet_at s (entry_of i));
  fatal_if (exist pk =? 0);;
  if exist pk =? 3 then mret false else
  if Is_safe (p_type (head pk)) then mret false else
  deliver_and_drop (entry_of i);;
  modify (fun s => s <| Last_discarded := i |>);;
  mret true.

(** EVS, after it: past a hole, only what the committed members sent. *)
Definition discard_after_step (i : Z) (found_hole : bool) : M St bool :=
  pk ← gets (fun s => packet_at s (entry_of i));
  fatal_if (exist pk =? 0);;
  if exist pk =? 3 then
    update_packet (entry_of i) (fun p => p <| exist := 0 |>);; mret true
  else
  commit ← gets Commit_membership;
  when (negb found_hole || negb (Conf_id_in_conf commit (p_proc_id (head pk)) =? -1))
    (when (exist pk =? 1) (Deliver_packet (entry_of i) false));;
  update_packet (entry_of i) (fun p => p <| exist := 0 |>);;
  mret found_hole.

(** The queues of partly received messages are emptied (not that of reliable
    messages, whose index is [MAX_PROCS_RING]). *)
Definition clear_up_queues : M St unit :=
  for_each (zrange 0 (MAX_PROCS_RING - 1)) (fun i =>
    modify (fun s => s <| Up_queue ::= delete i |>)).

Definition any_packet (s : St) : bool :=
  existsb (fun i => negb (exist (packet_at s i) =? 0)) (zrange 0 (MAX_PACKETS_IN_STRUCT - 1)).

Definition check_queues : M St unit :=
  some ← gets any_packet;
  fatal_if some;;
  d ← get_down_queue;
  when (0 <? num_mess d) (set_down_queue (mk_down_queue 0 (links d)));;
  clear_up_queues.

(** The end of a change of configuration. *)
Definition finish_reload : M St unit :=
  single ← gets Conf_Reload_Singleton_State;
  when single
    (g ← gets gs_gstate;
     r ← gets Reg_membership;
     fatal_if (negb (g =? 1) || negb (Conf_num_procs r =? 1));;
     Net_clear_partition;;
     ext_do (E_queue Memb_lookup_new_members_event Zero_timeout);;
     modify (fun s => s <| Conf_Reload_Singleton_State := false |>)).

Definition reset_seqs : M St unit :=
  modify (fun s => s <| Highest_seq := 0 |> <| Highest_fifo_seq := 0 |> <| My_aru := 0 |>
    <| Aru := 0 |> <| Last_discarded := 0 |> <| Last_delivered := 0 |>
    <| gs_my_aru := 0 |> <| Token_counter := 0 |>).

Definition deliver_trans : M St unit :=
  Memb_transitional;;
  t ← gets Trans_membership;
  tid ← gets Memb_trans_id;
  Sess_deliver_trans_memb t tid.

Definition deliver_reg : M St unit :=
  Memb_regular;;
  ext_do Log_membership;;
  rid ← gets Memb_id;
  r ← gets Reg_membership;
  Sess_deliver_reg_memb r rid.

Definition discard_evs : M St unit :=
  aru ← gets Aru;
  last ← gets Last_seq;
  if negb (aru =? last) then mret tt else
  ld ← gets Last_discarded;
  hs ← gets Highest_seq;
  for_break (zrange (ld + 1) hs) discard_before_step;;
  deliver_trans;;
  ld ← gets Last_discarded;
  hs ← gets Highest_seq;
  for_fold (zrange (ld + 1) hs) false discard_after_step;;
  check_queues;;
  deliver_reg;;
  finish_reload;;
  reset_seqs.

Definition Discard_packets : M St unit :=
  aru ← gets Aru;
  ld ← gets Last_discarded;
  if aru <=? ld then mret tt else
  st ← gets State;
  if st_eqb st EVS then discard_evs else discard_regular.
End Discard.
