(* ===== verification/Order.v ===== *)
(** * The order of packets

    Between [Last_discarded] and [Highest_seq] the array [Packets] holds what
    was received; up to [My_aru] nothing is missing, up to [Last_delivered] all
    is delivered.  Receiving, delivering and discarding keep this. *)

From S2P Require Import Prelude NetTypes Configuration State Network SessionLayer Delivery.
From S2P Require Import DeliveryFacts MembSets Discard Demo.

Section Order.
Context {L : SpuLib} {X : Ext} {SL : SessionLayer} {HSL : SessionLaws SL}.

Record ordered (s : St) : Prop := {
  od_delivered : Last_discarded s <= Last_delivered s <= My_aru s;
  od_highest : My_aru s <= Highest_seq s <= Last_discarded s + MAX_PACKETS_IN_STRUCT;
  od_held i : Last_discarded s < i <= My_aru s -> held s i = true;
  od_next : My_aru s < Highest_seq s -> held s (My_aru s + 1) = false;
  od_seq e : exist (packet_at s e) <> 0 ->
    entry_of (p_seq (head (packet_at s e))) = e /\
    Last_discarded s < p_seq (head (packet_at s e)) <= Highest_seq s;
  od_exist e : 0 <= exist (packet_at s e) <= 2;
  od_done i : Last_discarded s < i <= Last_delivered s -> exist (packet_of s i) = 2 }.

Lemma held_true s i : held s i = true <-> exist (packet_of s i) <> 0.
Proof. unfold held. rewrite negb_true_iff, Z.eqb_neq. done. Qed.
Lemma held_false s i : held s i = false <-> exist (packet_of s i) = 0.
Proof. unfold held. rewrite negb_false_iff, Z.eqb_eq. done. Qed.

(** In the window a held packet is the one of its sequence number. *)
Lemma ordered_seq s i : ordered s ->
  Last_discarded s < i <= Last_discarded s + MAX_PACKETS_IN_STRUCT ->
  held s i = true -> p_seq (head (packet_of s i)) = i.
Proof.
  intros HO Hi Hh%held_true. apply (od_seq s HO) in Hh as [He Hr].
  pose proof (od_highest s HO).
  unfold MAX_PACKETS_IN_STRUCT, packet_of in *. apply entry_of_inj; [done|lia].
Qed.

(** Marks keep everything but [od_done]'s range, which may have grown. *)
Lemma marks_held D s s' i : marks D s s' -> held s' i = held s i.
Proof.
  intros M. unfold held, packet_of. destruct (marks_exist _ _ _ M (entry_of i)) as [->|(_ & -> & ->)];
    done.
Qed.

Lemma steady_seqs s s' : steady s' = steady s ->
  Aru s' = Aru s /\ My_aru s' = My_aru s /\ Highest_seq s' = Highest_seq s /\
  Last_discarded s' = Last_discarded s /\ State s' = State s.
Proof.
  intros H. split_and!.
  - exact (f_equal (fun t => t.1.1.1.1.1.1.1.1.1.1) H).
  - exact (f_equal (fun t => t.1.1.1.1.1.1.1.1.1.2) H).
  - exact (f_equal (fun t => t.1.1.1.1.1.1.1.1.2) H).
  - exact (f_equal (fun t => t.1.1.1.1.1.1.2) H).
  - exact (f_equal (fun t => t.1.1.2.1.1.1.1.1.1.1.1.1.1.1) H).
Qed.

Lemma marks_ordered D s s' : ordered s -> marks D s s' -> ordered s'.
Proof.
  intros HO M. pose proof (marks_steady _ _ _ M) as (Ha & Hm & Hh & Hd & _)%steady_seqs.
  pose proof (marks_last _ _ _ M) as Hl. destruct HO as [O1 O2 O3 O4 O5 O6 O7]. split.
  - lia.
  - lia.
  - intros i Hi. rewrite (marks_held D s s') by done. apply O3. lia.
  - intros Hi. rewrite (marks_held D s s') by done. rewrite Hm. apply O4. lia.
  - intros e He. rewrite (marks_head _ _ _ M e), Hd, Hh. apply O5.
    destruct (marks_exist _ _ _ M e) as [E|(_ & E & _)]; congruence.
  - intros e. specialize (O6 e). destruct (marks_exist _ _ _ M e) as [->|(_ & _ & ->)]; lia.
  - intros i Hi. specialize (O7 i). unfold packet_of in *.
    destruct (marks_exist _ _ _ M (entry_of i)) as [->|(_ & _ & ->)]; [apply O7; lia|done].
Qed.

(** ** What is handed up *)

(** The packets of the numbers [a] to [b] that are here and not delivered. *)
Definition undelivered (s : St) (a b : Z) : list packet_info :=
  map (packet_of s) (filter (fun i => exist (packet_of s i) = 1) (zrange a b)).

Definition if_undelivered (pk : packet_info) : list packet_info :=
  if exist pk =? 1 then [pk] else [].

Lemma undelivered_snoc s a i : a <= i -> undelivered s a i = undelivered s a (i - 1) ++ if_undelivered (packet_of s i).
Proof.
  intros Hi. unfold undelivered, if_undelivered. replace (zrange a i) with (zrange a (i - 1) ++ [i]).
  - rewrite filter_app, map_app. f_equal. cbn. destruct (Z.eqb_spec (exist (packet_of s i)) 1);
    by destruct (decide _).
  - rewrite <-(Z.sub_add 1 i) at 2 3. by rewrite zrange_snoc by lia.
Qed.

(** A loop over the packets from [a] stands before [i]: the undelivered ones below
    are handed up, the others are as they were. *)
Record passed_to (a : Z) (s : St) (i : Z) (s1 : St) : Prop := {
  pt_passes : passed_up (undelivered s a (i - 1)) s s1;
  pt_rest e : (forall j, a <= j < i -> entry_of j <> e) -> packet_at s1 e = packet_at s e }.

Lemma passed_start a s : passed_to a s a s.
Proof.
  split; [|done]. unfold undelivered. rewrite zrange_nil by lia. by apply passed_up_none.
Qed.

Lemma passed_packet a s i s1 : a <= i < a + 8192 -> passed_to a s i s1 ->
  packet_of s1 i = packet_of s i.
Proof. intros Hi [_ H]. apply H. intros j Hj He. apply entry_of_inj in He; lia. Qed.

Lemma passed_step a s i s1 s2 : a <= i < a + 8192 -> passed_to a s i s1 ->
  passed_up (if_undelivered (packet_of s1 i)) s1 s2 ->
  (forall e, e <> entry_of i -> packet_at s2 e = packet_at s1 e) -> passed_to a s (i + 1) s2.
Proof.
  intros Hi HP Hs Hr. pose proof (passed_packet a s i s1 Hi HP) as Hpk. destruct HP as [A B].
  split.
  - replace (i + 1 - 1) with i by lia. rewrite undelivered_snoc, <-Hpk by lia. by eapply passed_up_app.
  - intros e He. rewrite Hr by (intros ->; apply (He i); [lia|done]). apply B.
    intros j Hj. apply He. lia.
Qed.

(** Counters apart, the state has not moved. *)
Lemma passed_same a s i s1 s2 : Up_queue s2 = Up_queue s1 -> Sess s2 = Sess s1 ->
  Packets s2 = Packets s1 -> passed_to a s i s1 -> passed_to a s i s2.
Proof.
  intros HU HS HP [A B]. split; [by eapply passed_up_to|]. intros e He. rewrite <-B by done.
  unfold packet_at. by rewrite HP.
Qed.

Lemma Deliver_packet_spec e copy s : exist (packet_at s e) = 1 ->
  wp ends (Deliver_packet e copy) (fun _ s' =>
    (marks (eq e) s s' /\ exist (packet_at s' e) = 2) /\
    (passed_up [packet_at s e] s s' /\ forall e', e' <> e -> packet_at s' e' = packet_at s e')) s.
Proof.
  intros He. apply wp_conj; [|apply Deliver_packet_passes].
  apply Deliver_packet_marks; [done|done|done|]. by intros s' M Hx.
Qed.

(** ** [Deliver_agreed_packets] *)

Definition stopped (s : St) (i : Z) : Prop :=
  exist (packet_of s i) = 1 /\ Is_safe (p_type (head (packet_of s i))) = true.

(** The packets of sequence numbers in a range went from received to delivered
    where they were not yet, and nothing else of the packets changed. *)
Record delivers (a b : Z) (s s' : St) : Prop := {
  dl_steady : steady s' = steady s;
  dl_head e : head (packet_at s' e) = head (packet_at s e);
  dl_proc e : proc_index (packet_at s' e) = proc_index (packet_at s e);
  dl_in i : a <= i < b -> exist (packet_of s' i) = 2;
  dl_out e : (forall i, a <= i < b -> entry_of i <> e) ->
    exist (packet_at s' e) = exist (packet_at s e) }.

Lemma delivers_refl a s : delivers a a s s.
Proof. split; try done. intros. lia. Qed.

Lemma delivers_step a i s s1 s2 :
  i - a < 8192 -> a <= i -> delivers a i s s1 -> marks (eq (entry_of i)) s1 s2 ->
  exist (packet_of s2 i) = 2 -> delivers a (i + 1) s s2.
Proof.
  intros Hw Hai [A1 B1 C1 D1 E1] [A2 _ B2 C2 E2] Hx. split.
  - congruence.
  - intros e. by rewrite B2, B1.
  - intros e. by rewrite C2, C1.
  - intros j Hj. destruct (Z.eq_dec j i) as [->|]; [done|]. unfold packet_of in *.
    destruct (E2 (entry_of j)) as [->|(He & _)]; [apply D1; lia|].
    apply entry_of_inj in He; lia.
  - intros e He. destruct (E2 e) as [->|(He' & _)]; [apply E1; intros; apply He; lia|].
    exfalso. apply (He i); [lia|done].
Qed.

Lemma delivers_last a b s s1 n : delivers a b s s1 -> delivers a b s (s1 <| Last_delivered := n |>).
Proof. intros [A B C D E]. by split. Qed.

(** The loop stands before [i]. *)
Record agreed_at (s : St) (i : Z) (s1 : St) : Prop := {
  aa_last : Last_delivered s1 = i - 1;
  aa_delivers : delivers (Last_delivered s + 1) i s s1;
  aa_pass j : Last_delivered s < j < i -> ~ stopped s j;
  aa_passed : passed_to (Last_delivered s + 1) s i s1 }.

Definition agreed_post (s s' : St) : Prop :=
  Last_delivered s <= Last_delivered s' <= My_aru s /\
  agreed_at s (Last_delivered s' + 1) s' /\
  (Last_delivered s' < My_aru s -> stopped s (Last_delivered s' + 1)).

Lemma agreed_packet s i s1 : ordered s -> agreed_at s i s1 ->
  Last_delivered s < i <= My_aru s -> packet_of s1 i = packet_of s1 i /\
  exist (packet_of s1 i) = exist (packet_of s i) /\ head (packet_of s1 i) = head (packet_of s i).
Proof.
  intros HO [A B C _] Hi. pose proof (od_delivered s HO). pose proof (od_highest s HO).
  unfold MAX_PACKETS_IN_STRUCT in *. split_and!; [done| |apply (dl_head _ _ _ _ B)].
  apply (dl_out _ _ _ _ B). intros j Hj He. apply entry_of_inj in He; lia.
Qed.

Lemma agreed_step_next s i s1 s2 n : ordered s -> agreed_at s i s1 ->
  Last_delivered s < i <= My_aru s -> ~ stopped s i ->
  marks (eq (entry_of i)) s1 s2 -> exist (packet_of s2 i) = 2 -> n = i ->
  passed_up (if_undelivered (packet_of s1 i)) s1 s2 ->
  (forall e, e <> entry_of i -> packet_at s2 e = packet_at s1 e) ->
  agreed_at s (i + 1) (s2 <| Last_delivered := n |>).
Proof.
  intros HO [A B C D] Hi Hs M Hx -> Hp Hr. pose proof (od_delivered s HO). pose proof (od_highest s HO).
  unfold MAX_PACKETS_IN_STRUCT in *. split.
  - rec_simpl_in_goal. lia.
  - apply delivers_last. eapply delivers_step; [| |done|done|done]; lia.
  - intros j Hj. destruct (Z.eq_dec j i) as [->|]; [done|]. apply C. lia.
  - apply (passed_same _ _ _ s2); [done..|]. eapply passed_step; [lia|done|done|done].
Qed.

Lemma deliver_agreed_step_spec s i s1 :
  ordered s -> agreed_at s i s1 -> Last_delivered s < i <= My_aru s ->
  wp ends (deliver_agreed_step i) (fun c s2 =>
    if c : bool then agreed_at s (i + 1) s2 else s2 = s1 /\ stopped s i) s1.
Proof.
  intros HO HA Hi. destruct (agreed_packet s i s1 HO HA Hi) as (_ & Hx & Hh).
  pose proof HA as [A B C _]. unfold deliver_agreed_step. do 2 wp_step.
  fold (packet_of s1 i). wp_step.
  - wp_step.
    + wp_step. eapply wp_mono; [apply Deliver_packet_spec; fold (packet_of s1 i); blia|].
      intros [] s2 [[M2 Hx2] [Hp Hr]]. wp_step. wp_step. wp_step.
      eapply agreed_step_next; [done|done|done| |done|done| | |done].
      * intros [_ Hs]. rewrite <-Hh in Hs. rewrite Hs in *. done.
      * rewrite (marks_last _ _ _ M2). lia.
      * unfold if_undelivered. by rewrite H.
    + wp_step. split; [done|]. split; [blia|]. rewrite <-Hh. by bools_to_props.
  - wp_step; [|by wp_step]. wp_step. wp_step; [done|]. wp_step. wp_step. wp_step.
    eapply agreed_step_next; [done|done|done| |apply marks_refl|blia|lia| |done].
    + intros [Hs _]. rewrite Hx in *. bools_to_props. congruence.
    + unfold if_undelivered. rewrite H. by apply passed_up_none.
Qed.

Lemma Deliver_agreed_spec s :
  ordered s -> State s <> EVS -> Prot_delivery_threshold s <= AGREED_TYPE ->
  wp ends Deliver_agreed_packets (fun _ => agreed_post s) s.
Proof.
  intros HO HE HT. pose proof (od_delivered s HO). unfold Deliver_agreed_packets.
  assert (Hstart : agreed_at s (Last_delivered s + 1) s).
  { split; [lia|apply delivers_refl|lia|apply passed_start]. }
  do 4 wp_step. wp_step.
  { wp_step. bools_to_props. split_and!; [lia|lia|done|lia]. }
  do 2 wp_step. wp_step; [unfold st_eqb in *; by rewrite bool_decide_eq_false_2 in *|].
  do 2 wp_step. wp_step; [blia|]. wp_step. bools_to_props.
  apply wp_for_break with (I := agreed_at s); [lia|done| |].
  - intros i s1 Hi HA. eapply wp_mono; [apply (deliver_agreed_step_spec s); [done|done|lia]|].
    intros [] s2 Hr; [done|]. destruct Hr as [-> Hs]. wp_step.
    pose proof (aa_last _ _ _ HA). unfold agreed_post.
    replace (Last_delivered s1 + 1) with i by lia. split_and!; [lia|lia|done|done].
  - intros s1 HA. wp_step. pose proof (aa_last _ _ _ HA). unfold agreed_post.
    replace (Last_delivered s1) with (My_aru s) by lia. split_and!; [lia|lia|done|lia].
Qed.

Lemma entry_in_range a b e :
  (exists i, a <= i < b /\ entry_of i = e) \/ (forall i, a <= i < b -> entry_of i <> e).
Proof.
  destruct (decide (Exists (fun i => entry_of i = e) (zrange a (b - 1)))) as [H|H].
  - left. apply Exists_exists in H as (i & Hi & He). apply elem_of_zrange in Hi.
    exists i. split; [lia|done].
  - right. intros i Hi He. apply H, Exists_exists. exists i. split; [|done].
    apply elem_of_zrange. lia.
Qed.

Lemma delivers_ordered s s' b :
  ordered s -> delivers (Last_delivered s + 1) b s s' ->
  Last_delivered s' = b - 1 -> Last_delivered s < b -> b - 1 <= My_aru s -> ordered s'.
Proof.
  intros HO HD Hl Hb Hm. pose proof (dl_steady _ _ _ _ HD) as (Ha & Hm' & Hh & Hd & _)%steady_seqs.
  pose proof (od_delivered s HO). pose proof (od_highest s HO).
  assert (Hheld : forall i, held s' i = held s i).
  { intros i. destruct (entry_in_range (Last_delivered s + 1) b (entry_of i)) as [(j & Hj & He)|Hout].
    - unfold held, packet_of. rewrite <-He. fold (packet_of s' j) (packet_of s j).
      rewrite (dl_in _ _ _ _ HD j Hj).
      pose proof (od_held s HO j) as Hhj. rewrite held_true in Hhj.
      symmetry. apply negb_true_iff, Z.eqb_neq, Hhj. lia.
    - unfold held, packet_of. by rewrite (dl_out _ _ _ _ HD). }
  split.
  - lia.
  - lia.
  - intros i Hi. rewrite Hheld. apply (od_held s HO). lia.
  - intros Hlt. rewrite Hheld, Hm'. apply (od_next s HO). lia.
  - intros e He. rewrite (dl_head _ _ _ _ HD e), Hd, Hh. apply (od_seq s HO).
    destruct (entry_in_range (Last_delivered s + 1) b e) as [(j & Hj & <-)|Hout].
    + pose proof (od_held s HO j) as Hhj. rewrite held_true in Hhj. apply Hhj. lia.
    + by rewrite <-(dl_out _ _ _ _ HD).
  - intros e. destruct (entry_in_range (Last_delivered s + 1) b e) as [(j & Hj & <-)|Hout].
    + fold (packet_of s' j). rewrite (dl_in _ _ _ _ HD j Hj). lia.
    + rewrite (dl_out _ _ _ _ HD) by done. apply (od_exist s HO).
  - intros i Hi. rewrite Hl, Hd in *. destruct (Z.leb_spec i (Last_delivered s)).
    + unfold MAX_PACKETS_IN_STRUCT in *. unfold packet_of. rewrite (dl_out _ _ _ _ HD).
      * apply (od_done s HO). lia.
      * intros j Hj He. apply entry_of_inj in He; lia.
    + apply (dl_in _ _ _ _ HD). lia.
Qed.

Lemma agreed_post_ordered s s' : ordered s -> agreed_post s s' -> ordered s'.
Proof.
  intros HO (Hr & [A B C _] & _). eapply delivers_ordered; [done|done|lia|lia|lia].
Qed.

(** Whether the agreed delivery takes anything. *)
Definition takes_agreed (s : St) : Prop :=
  State s <> EVS /\ Prot_delivery_threshold s <= AGREED_TYPE.

Lemma Deliver_agreed_idle (E : failure -> Prop) s :
  ~ takes_agreed s -> wp E Deliver_agreed_packets (fun _ s' => s' = s) s.
Proof.
  intros Hn. unfold Deliver_agreed_packets. do 4 wp_step. wp_step; [by wp_step|]. do 2 wp_step.
  wp_step; [by wp_step|]. do 2 wp_step. wp_step; [by wp_step|]. exfalso. apply Hn.
  bools_to_props. split; [|lia]. intros He. unfold st_eqb in *. by rewrite He in *.
Qed.

Lemma takes_agreed_dec s : takes_agreed s \/ ~ takes_agreed s.
Proof.
  unfold takes_agreed. destruct (decide (State s = EVS)); [by right; intros []|].
  destruct (Z.leb_spec (Prot_delivery_threshold s) AGREED_TYPE); [by left|right; intros []; lia].
Qed.

(** What it does, taking packets or not. *)
Definition agreed_result (s s' : St) : Prop :=
  (~ takes_agreed s -> s' = s) /\ (takes_agreed s -> agreed_post s s').

Lemma Deliver_agreed_result s :
  ordered s -> wp ends Deliver_agreed_packets (fun _ => agreed_result s) s.
Proof.
  intros HO. destruct (takes_agreed_dec s) as [Ht|Ht].
  - eapply wp_mono; [apply Deliver_agreed_spec; [done|apply Ht..]|]. intros [] s' Hp. by split.
  - eapply wp_mono; [by apply Deliver_agreed_idle|]. intros [] s' ->. by split.
Qed.

Lemma agreed_result_ordered s s' : ordered s -> agreed_result s s' -> ordered s'.
Proof.
  intros HO [H1 H2]. destruct (takes_agreed_dec s) as [Ht|Ht].
  - by eapply agreed_post_ordered, H2.
  - by rewrite H1.
Qed.

Lemma agreed_result_steady s s' : agreed_result s s' -> steady s' = steady s.
Proof.
  intros [H1 H2]. destruct (takes_agreed_dec s) as [Ht|Ht]; [|by rewrite H1].
  destruct (H2 Ht) as (_ & [_ B _ _] & _). apply B.
Qed.

(** C3. In EVS, or while the threshold holds agreed messages back, the agreed
    delivery does nothing.  Otherwise it takes the packets from the first one
    not delivered, all that is received without a gap, up to the first SAFE one:
    it stops only there or at [My_aru].  Of those it takes, the messages of the
    packets not yet delivered are given to the session layer, in the packets'
    order, and nothing else is; every packet past them is as it was. *)
Theorem Deliver_agreed_prefix (s : St) :
  ordered s ->
  wp ends Deliver_agreed_packets (fun _ s' =>
    ordered s' /\
    (State s = EVS \/ AGREED_TYPE < Prot_delivery_threshold s -> s' = s) /\
    (State s <> EVS -> Prot_delivery_threshold s <= AGREED_TYPE ->
     let d := Last_delivered s' in
     Last_delivered s <= d <= My_aru s /\
     passed_up (undelivered s (Last_delivered s + 1) d) s s' /\
     (forall i, Last_delivered s < i <= d -> exist (packet_of s' i) = 2 /\
        (exist (packet_of s i) = 1 -> Is_safe (p_type (head (packet_of s i))) = false)) /\
     (forall i, d < i <= Last_discarded s + MAX_PACKETS_IN_STRUCT ->
        packet_of s' i = packet_of s i) /\
     (d < My_aru s -> exist (packet_of s (d + 1)) = 1 /\
        Is_safe (p_type (head (packet_of s (d + 1)))) = true))) s.
Proof.
  intros HO. eapply wp_mono; [by apply Deliver_agreed_result|]. intros [] s' Hres.
  split; [by eapply agreed_result_ordered|]. destruct Hres as [Hidle Hpost]. split.
  { intros Hn. apply Hidle. intros [Ht1 Ht2]. destruct Hn; [done|lia]. }
  intros HE HT d. destruct Hpost as (Hr & [A B C [D1 D2]] & Hs); [by split|].
  pose proof (od_highest s HO). pose proof (od_delivered s HO). unfold MAX_PACKETS_IN_STRUCT in *.
  split; [done|]. split; [|split; [|split; [|done]]].
  - unfold d. by replace (Last_delivered s') with (Last_delivered s' + 1 - 1) at 1 by lia.
  - intros i Hi. split; [apply (dl_in _ _ _ _ B); lia|]. intros Hx.
    apply not_true_is_false. intros Hsafe. apply (C i); [lia|by split].
  - intros i Hi. unfold packet_of. apply D2. intros j Hj He. apply entry_of_inj in He; lia.
Qed.

(** Called whatever the state, the threshold and what is held. *)
Lemma Deliver_agreed_ordered s :
  ordered s -> wp ends Deliver_agreed_packets (fun _ s' =>
    ordered s' /\ steady s' = steady s) s.
Proof.
  intros HO. eapply wp_mono; [by apply Deliver_agreed_result|]. intros [] s' Hr.
  split; [by eapply agreed_result_ordered|by apply agreed_result_steady].
Qed.

(** ** [Deliver_reliable_packets] *)

(** Only unfragmented reliable packets past [Last_delivered] are marked. *)
Lemma Deliver_reliable_marks a n s :
  wp ends (Deliver_reliable_packets a n) (fun _ s' =>
    marks (fun e => exists i, a <= i < a + n /\ Last_delivered s < i /\ entry_of i = e /\
      Is_reliable (p_type (head (packet_at s e))) = true /\
      fragment_index (p_first_frag (head (packet_at s e))) = -1) s s') s.
Proof.
  unfold Deliver_reliable_packets. do 2 wp_step.
  wp_step; [wp_step; apply marks_refl|]. do 2 wp_step. wp_step; [wp_step; apply marks_refl|].
  do 2 wp_step. match goal with |- wp _ (for_each (zrange ?f ?t) _) _ _ =>
    set (from := f); set (to := t) end.
  assert (Hfrom : a <= from /\ Last_delivered s < from).
  { unfold from. destruct (Z.leb_spec a (Last_delivered s)); lia. }
  apply wp_for_each with (I := marks _ s); [apply marks_refl|].
  intros i s1 Hi M. apply elem_of_zrange in Hi. do 2 wp_step. wp_step; [|done].
  bools_to_props. apply Deliver_packet_marks; [done|done|done|]. intros s2 M2 _.
  eapply marks_trans; [done|]. eapply marks_weaken; [|done]. intros e <-.
  rewrite !(marks_head _ _ _ M) in *. exists i. repeat split; [lia|lia|lia|done|done].
Qed.

Lemma Deliver_reliable_ordered a n s :
  ordered s -> wp ends (Deliver_reliable_packets a n) (fun _ s' =>
    ordered s' /\ steady s' = steady s) s.
Proof.
  intros HO. eapply wp_mono; [apply Deliver_reliable_marks|]. intros [] s' M.
  split; [by eapply marks_ordered|]. apply M.
Qed.

(** ** [Discard_packets] in a regular membership *)

(** The loop stands before [i]: what is below is gone. *)
Record discarded_to (s : St) (i : Z) (s1 : St) : Prop := {
  dt_steady : steady s1 = steady s;
  dt_last : Last_delivered s1 = Last_delivered s;
  dt_head e : head (packet_at s1 e) = head (packet_at s e);
  dt_proc e : proc_index (packet_at s1 e) = proc_index (packet_at s e);
  dt_gone j : Last_discarded s < j < i -> exist (packet_of s1 j) = 0;
  dt_kept e : (forall j, Last_discarded s < j < i -> entry_of j <> e) ->
    exist (packet_at s1 e) = exist (packet_at s e);
  dt_passed : passed_to (Last_discarded s + 1) s i s1 }.

Lemma deliver_and_drop_spec e s (Q : unit -> St -> Prop) :
  (forall s', steady s' = steady s -> Last_delivered s' = Last_delivered s ->
     (forall e', head (packet_at s' e') = head (packet_at s e')) ->
     (forall e', proc_index (packet_at s' e') = proc_index (packet_at s e')) ->
     (forall e', exist (packet_at s' e') = if decide (e = e') then 0 else exist (packet_at s e')) ->
     passed_up (if_undelivered (packet_at s e)) s s' ->
     (forall e', e' <> e -> packet_at s' e' = packet_at s e') ->
     Q tt s') ->
  wp ends (deliver_and_drop e) Q s.
Proof.
  intros HQ. unfold deliver_and_drop. do 2 wp_step.
  set (ok := fun (_ : unit) s1 => marks (eq e) s s1 /\
    passed_up (if_undelivered (packet_at s e)) s s1 /\ forall e', e' <> e -> packet_at s1 e' = packet_at s e').
  wp_step. eapply wp_mono with (Q := ok).
  { unfold ok, if_undelivered. destruct (exist (packet_at s e) =? 1) eqn:Hx; unfold when.
    - eapply wp_mono; [apply Deliver_packet_spec; blia|]. by intros [] s' [[M _] Hp].
    - wp_step. split; [apply marks_refl|]. split; [by apply passed_up_none|done]. }
  intros [] s1 (M & Hp & Hr). unfold update_packet. wp_step. apply HQ.
  - apply M.
  - apply M.
  - intros e'. rewrite packet_at_update. destruct (decide (e = e')) as [<-|]; apply M.
  - intros e'. rewrite packet_at_update. destruct (decide (e = e')) as [<-|]; apply M.
  - intros e'. rewrite packet_at_update. destruct (decide (e = e')) as [<-|]; [done|].
    destruct (marks_exist _ _ _ M e') as [|(-> & _)]; done.
  - by apply (passed_up_to _ _ s1).
  - intros e' He. rewrite packet_at_update, decide_False by done. by apply Hr.
Qed.

Lemma discard_regular_spec s :
  ordered s -> Last_discarded s <= Aru s <= My_aru s ->
  wp ends discard_regular (fun _ s' =>
    exists s1, discarded_to s (Aru s + 1) s1 /\
      s' = s1 <| Last_discarded := Aru s |>
              <| Last_delivered := Z.max (Aru s) (Last_delivered s) |>) s.
Proof.
  intros HO Ha. pose proof (od_highest s HO). pose proof (od_delivered s HO).
  unfold MAX_PACKETS_IN_STRUCT in *. unfold discard_regular. do 4 wp_step. wp_step.
  eapply wp_for_range with (I := discarded_to s); [lia| | |].
  - split; try done; [intros; lia|apply passed_start].
  - intros i s1 Hi [A B C D E F G]. do 2 wp_step. wp_step. wp_step; [done|].
    apply deliver_and_drop_spec. intros s2 A2 B2 C2 D2 E2 F2 G2. split.
    + congruence.
    + congruence.
    + intros e. by rewrite C2, C.
    + intros e. by rewrite D2, D.
    + intros j Hj. unfold packet_of. rewrite E2. destruct (decide (entry_of i = entry_of j)); [done|].
      apply E. destruct (Z.eq_dec i j) as [->|]; [done|lia].
    + intros e He. rewrite E2. destruct (decide (entry_of i = e)) as [<-|].
      * exfalso. apply (He i); [lia|done].
      * apply F. intros j Hj. apply He. lia.
    + eapply passed_step; [lia|done|done|done].
  - intros s1 HD. pose proof (dt_steady _ _ _ HD) as (Ha1 & _)%steady_seqs.
    do 2 wp_step. wp_step. rec_simpl_in_goal. rewrite Ha1.
    exists s1. split; [done|]. by rewrite <-(dt_last _ _ _ HD).
Qed.

Lemma discarded_ordered s s1 :
  ordered s -> Last_discarded s <= Aru s <= My_aru s -> discarded_to s (Aru s + 1) s1 ->
  ordered (s1 <| Last_discarded := Aru s |>
              <| Last_delivered := Z.max (Aru s) (Last_delivered s) |>).
Proof.
  intros HO Ha HD. pose proof (dt_steady _ _ _ HD) as (_ & Hm & Hh & _ & _)%steady_seqs.
  pose proof (od_highest s HO). pose proof (od_delivered s HO).
  unfold MAX_PACKETS_IN_STRUCT in *.
  set (s' := s1 <| Last_discarded := _ |> <| Last_delivered := _ |>).
  assert (Hd' : Last_discarded s' = Aru s) by done.
  assert (Hl' : Last_delivered s' = Z.max (Aru s) (Last_delivered s)) by done.
  assert (Hm' : My_aru s' = My_aru s) by done. assert (Hh' : Highest_seq s' = Highest_seq s) by done.
  assert (Hp : forall e, packet_at s' e = packet_at s1 e) by done.
  assert (Hsame : forall i, Aru s < i <= Last_discarded s + 8192 ->
    exist (packet_of s' i) = exist (packet_of s i)).
  { intros i Hi. unfold packet_of. rewrite Hp. apply (dt_kept _ _ _ HD). intros j Hj He.
    apply entry_of_inj in He; lia. }
  clearbody s'. split.
  - lia.
  - unfold MAX_PACKETS_IN_STRUCT. lia.
  - intros i Hi. apply held_true. rewrite Hsame by lia. apply held_true, (od_held s HO). lia.
  - intros Hi. apply held_false. rewrite Hm', Hsame by lia. apply held_false, (od_next s HO). lia.
  - intros e He. rewrite Hp in *. rewrite (dt_head _ _ _ HD), Hd', Hh'.
    destruct (entry_in_range (Last_discarded s + 1) (Aru s + 1) e) as [(j & Hj & <-)|Hout].
    { exfalso. apply He, (dt_gone _ _ _ HD). lia. }
    assert (Hk : exist (packet_at s1 e) = exist (packet_at s e)).
    { apply (dt_kept _ _ _ HD). intros j Hj. apply Hout. lia. }
    rewrite Hk in He. apply (od_seq s HO) in He as [Hee Hr]. split; [done|].
    split; [|lia]. apply Z.nle_gt. intros Hle.
    apply (Hout (p_seq (head (packet_at s e)))); [lia|done].
  - intros e. rewrite Hp.
    destruct (entry_in_range (Last_discarded s + 1) (Aru s + 1) e) as [(j & Hj & <-)|Hout].
    + fold (packet_of s1 j). rewrite (dt_gone _ _ _ HD); lia.
    + rewrite (dt_kept _ _ _ HD); [apply (od_exist s HO)|]. intros j Hj. apply Hout. lia.
  - intros i Hi. rewrite Hsame by lia. apply (od_done s HO). lia.
Qed.

(** Its result, in a regular membership: what [discard_regular] leaves. *)
Lemma Discard_packets_state s :
  ordered s -> State s <> EVS -> Last_discarded s <= Aru s <= My_aru s ->
  wp ends Discard_packets (fun _ s' =>
    exists s1, discarded_to s (Aru s + 1) s1 /\
      s' = s1 <| Last_discarded := Aru s |>
              <| Last_delivered := Z.max (Aru s) (Last_delivered s) |>) s.
Proof.
  intros HO HE Ha. pose proof (od_delivered s HO). unfold Discard_packets. do 4 wp_step.
  wp_step.
  { wp_step. bools_to_props. exists s. replace (Aru s) with (Last_discarded s) by lia. split.
    - split; try done; [intros; lia|].
      replace (Last_discarded s + 1) with (Aru s + 1) by lia. apply passed_start.
    - rewrite Z.max_r by lia. by destruct s. }
  do 2 wp_step. wp_step; [unfold st_eqb in *; by rewrite bool_decide_eq_false_2 in *|].
  by apply discard_regular_spec.
Qed.

(** C4. In a regular membership [Discard_packets] gives the messages of the
    packets up to [Aru] that were not delivered yet to the session layer, in the
    packets' order, and nothing else; it drops all packets up to [Aru], which all
    members have, and leaves the others as they were. *)
Theorem Discard_packets_regular (s : St) :
  ordered s -> State s <> EVS -> Last_discarded s <= Aru s <= My_aru s ->
  wp ends Discard_packets (fun _ s' =>
    ordered s' /\ Last_discarded s' = Aru s /\
    Last_delivered s' = Z.max (Aru s) (Last_delivered s) /\
    Highest_seq s' = Highest_seq s /\ My_aru s' = My_aru s /\
    passed_up (undelivered s (Last_discarded s + 1) (Aru s)) s s' /\
    (forall i, Last_discarded s < i <= Aru s -> held s' i = false) /\
    (forall i, Aru s < i <= Last_discarded s + MAX_PACKETS_IN_STRUCT ->
       packet_of s' i = packet_of s i)) s.
Proof.
  intros HO HE Ha. eapply wp_mono; [by apply Discard_packets_state|].
  intros [] s' (s1 & HD & ->). pose proof (dt_steady _ _ _ HD) as (_ & Hm & Hh & _ & _)%steady_seqs.
  destruct (dt_passed _ _ _ HD) as [Hp Hr]. replace (Aru s + 1 - 1) with (Aru s) in Hp by lia.
  split; [by apply discarded_ordered|]. rec_simpl_in_goal.
  split_and!; [done|done|done|done| | |].
  - by apply (passed_up_to _ _ s1).
  - intros i Hi. unfold held.
    change (negb (exist (packet_of s1 i) =? 0) = false). by rewrite (dt_gone _ _ _ HD) by lia.
  - intros i Hi. apply Hr. intros j Hj He. unfold MAX_PACKETS_IN_STRUCT in *.
    apply entry_of_inj in He; lia.
Qed.

(** [ordered] of a given state, decided on the entries of the array. *)
Definition ordered_b (s : St) : bool :=
  (Last_discarded s <=? Last_delivered s) && (Last_delivered s <=? My_aru s) &&
  (My_aru s <=? Highest_seq s) && (Highest_seq s <=? Last_discarded s + MAX_PACKETS_IN_STRUCT) &&
  forallb (held s) (zrange (Last_discarded s + 1) (My_aru s)) &&
  (negb (My_aru s <? Highest_seq s) || negb (held s (My_aru s + 1))) &&
  bool_decide (map_Forall (fun e p =>
    entry_of (p_seq (head p)) = e /\ Last_discarded s < p_seq (head p) <= Highest_seq s /\
    0 <= exist p <= 2) (Packets s)) &&
  forallb (fun i => exist (packet_of s i) =? 2) (zrange (Last_discarded s + 1) (Last_delivered s)).

Lemma ordered_check s : ordered_b s = true -> ordered s.
Proof.
  unfold ordered_b. rewrite !andb_true_iff, !forallb_forall, bool_decide_eq_true, orb_true_iff.
  intros [[[[[[[H1 H2] H3] H4] H5] H6] H7] H8]. bools_to_props.
  assert (Hmap : forall e, packet_at s e = no_packet \/
    (entry_of (p_seq (head (packet_at s e))) = e /\
     Last_discarded s < p_seq (head (packet_at s e)) <= Highest_seq s /\
     0 <= exist (packet_at s e) <= 2)).
  { intros e. unfold packet_at. rewrite lookup_total_alt.
    destruct (Packets s !! e) as [p|] eqn:Hp; [right|by left]. by apply (H7 e p). }
  split; try lia.
  - intros i Hi. apply H5, list_elem_of_In, elem_of_zrange. lia.
  - intros Hi. destruct H6 as [H6|H6]; bools_to_props; [lia|done].
  - intros e He. destruct (Hmap e) as [E|(? & ? & ?)]; [by rewrite E in He|done].
  - intros e. destruct (Hmap e) as [->|(? & ? & ?)]; [cbn; lia|done].
  - intros i Hi. apply Z.eqb_eq, H8, list_elem_of_In, elem_of_zrange. lia.
Qed.
End Order.

Lemma demo_held_undelivered :
  undelivered demo_held 1 2 = [demo_packet AGREED_TYPE 1; demo_packet SAFE_TYPE 2].
Proof. vm_compute. reflexivity. Qed.

(** Above the session layer that records, what was handed up is what its list has got. *)
Lemma demo_passed_up l s s' : passed_up l s s' -> exists ms,
  hands_all (Up_queue s) l ms (Up_queue s') /\ Sess s' = Sess s ++ map Delivered ms.
Proof.
  intros (ms & Hh & Hd). exists ms. split; [exact Hh|].
  exact (Recorder_delivered _ _ (fun l => eq_refl) ms s s' Hd).
Qed.

Example Discard_packets_regular_witness :
  wp ends Discard_packets (fun _ s' =>
    Last_discarded s' = 2 /\ Last_delivered s' = 2 /\
    (exists ms, hands_all (Up_queue demo_held) [demo_packet AGREED_TYPE 1; demo_packet SAFE_TYPE 2] ms
       (Up_queue s') /\ Sess s' = Sess demo_held ++ map Delivered ms) /\
    (forall i, 0 < i <= 2 -> held s' i = false)) demo_held.
Proof.
  eapply wp_mono; [apply (Discard_packets_regular demo_held)|].
  - apply ordered_check. vm_compute. reflexivity.
  - vm_compute. discriminate.
  - vm_compute. split; discriminate.
  - intros [] s' (_ & H1 & H2 & _ & _ & H3 & H4 & _). split; [exact H1|]. split; [exact H2|].
    split; [|exact H4]. apply demo_passed_up. rewrite <-demo_held_undelivered. exact H3.
Defined.

Definition demo_fresh : St := demo_held <| Aru := 0 |>
  <| Packets := list_to_map [(1, demo_packet AGREED_TYPE 1); (2, demo_packet FIFO_TYPE 2);
       (3, demo_packet SAFE_TYPE 3); (5, demo_packet AGREED_TYPE 5)] |>.

Example Deliver_agreed_prefix_witness :
  wp ends Deliver_agreed_packets (fun _ s' =>
    0 <= Last_delivered s' <= 3 /\
    passed_up (undelivered demo_fresh 1 (Last_delivered s')) demo_fresh s') demo_fresh.
Proof.
  eapply wp_mono; [apply (Deliver_agreed_prefix demo_fresh)|].
  - apply ordered_check. vm_compute. reflexivity.
  - intros [] s' (_ & _ & H). destruct H as (H1 & H2 & _); [vm_compute; discriminate..|].
    split; [exact H1|exact H2].
Defined.

Example Deliver_agreed_run :
  ran Deliver_agreed_packets demo_fresh (fun _ s' => (Last_delivered s', delivered_bytes s')) =
    Some (2, [[[1; 0; 0; 7]]; [[2; 0; 0; 7]]]).
Proof. vm_compute. reflexivity. Qed.

(** The same run, computed: two messages are delivered. *)
Example Discard_packets_run :
  ran Discard_packets demo_held (fun _ => delivered_bytes) = Some [[[1; 0; 0; 7]]; [[2; 0; 0; 7]]].
Proof. vm_compute. reflexivity. Qed.
