(* ===== verification/TokenLoss.v ===== *)
(** * Losing the token: [Backoff_membership] and [Memb_token_loss]

    When the token is lost the daemon falls back to a membership of its own,
    remembers one representative of each other segment as a candidate, and
    starts to look for its segment (state SEG).  In state EVS the placeholders
    of unrecoverable packets are taken back first. *)

From S2P Require Import Prelude NetTypes Configuration State Network SessionLayer.
From S2P Require Import Delivery MembSets.

Section TokenLoss.
Context {L : SpuLib} {X : Ext}.

(** [Insert_rep(&Potential_reps, rep)] and [Insert_rep(&F_reps, rep)]; the
    value returned is not used. *)
Definition insert_potential (rep : rep_info) : M St unit :=
  cn ← gets Config;
  r ← gets Potential_reps;
  '(_, r) ← pure_code (Insert_rep cn r rep);
  modify (fun s => s <| Potential_reps := r |>).
Definition insert_f_rep (rep : rep_info) : M St unit :=
  cn ← gets Config;
  r ← gets F_reps;
  '(_, r) ← pure_code (Insert_rep cn r rep);
  modify (fun s => s <| F_reps := r |>).
Definition insert_f_member (pid : Z) : M St unit :=
  m ← gets F_members;
  '(_, m) ← pure_code (Insert_member m pid);
  modify (fun s => s <| F_members := m |>).

Definition clear_potential : M St unit :=
  modify (fun s => s <| Potential_reps ::= fun r => r <| num_reps := 0 |> |>).

(** The representative of a segment: its first member in [memb], or its first
    daemon in the configuration. *)
Definition segment_rep (memb : configuration) (i : Z) : M St Z :=
  match procs (segment_at memb i) with
  | p :: _ => mret (id p)
  | [] => cn ← gets Config; or_fail Fatal (Conf_seg_leader cn i)
  end.

(** The loop over the other segments; [type] is what [temp_rep.type] holds
    when the loop starts. *)
Definition segments_to_potential (memb : configuration) (type : Z) : M St unit :=
  cn ← gets Config;
  my ← gets My;
  for_each (zrange 0 (Conf_num_segments cn - 1)) (fun i =>
    if i =? seg_index my then mret tt else
    pid ← segment_rep memb i;
    insert_potential (mk_rep_info pid type i)).

(** The representatives gathered, all but the first (itself); the result is
    the value left in [temp_rep.type]. *)
Definition f_reps_to_potential (type : Z) : M St Z :=
  r ← gets F_reps;
  for_fold (zrange 1 (num_reps r - 1)) type (fun i type =>
    rep ← or_fail Undefined (arr_get (reps r) i);
    insert_potential rep;;
    mret (rep_type rep)).

Definition Backoff_membership : M St unit :=
  ld ← gets Last_discarded;
  hs ← gets Highest_seq;
  for_each (zrange (ld + 1) hs) (fun i =>
    pk ← gets (fun s => packet_at s (entry_of i));
    when (exist pk =? 3) (update_packet (entry_of i) (fun p => p <| exist := 0 |>)));;
  modify (fun s => s <| Aru := Last_discarded s |>);;
  modify (fun s => s <| My_aru := count_while (held s)
    (zrange (Last_discarded s + 1) (Highest_seq s)) (Last_discarded s) |>).

(** [Membership] becomes the daemon alone. *)
Definition clear_segments (n : Z) (memb : configuration) : configuration :=
  memb <| segments ::= fun l =>
    map (fun sg => sg <| procs := [] |>) (take (Z.to_nat n) l) ++ drop (Z.to_nat n) l |>.

(** [Conf_append_id_to_seg(&memb.segments[i], pid)], its result ignored. *)
Definition append_to (memb : configuration) (i pid : Z) : M St configuration :=
  cn ← gets Config;
  match Conf_append_id_to_seg cn (segment_at memb i) pid with
  | None => mret memb
  | Some sg =>
      undef_if (MAX_PROCS_SEGMENT <? num_procs sg);;
      l ← or_fail Undefined (arr_set (segments memb) i sg);
      mret (memb <| segments := l |>)
  end.

Definition alone (memb : configuration) : M St configuration :=
  cn ← gets Config;
  my ← gets My;
  append_to (clear_segments (Conf_num_segments cn) memb) (seg_index my) (id my).

(** The [switch] on the state. *)
Definition loss_by_state (st : memb_state) : M St unit :=
  match st with
  | OP =>
      clear_potential;;
      memb ← gets Membership; segments_to_potential memb POTENTIAL_REP
  | SEG | REPRESENTED => fatal
  | GATHER =>
      alive ← gets Token_alive;
      fatal_if (negb alive);;
      clear_potential;;
      type ← f_reps_to_potential POTENTIAL_REP;
      memb ← gets Membership; segments_to_potential memb type
  | FORM => mret tt
  | EVS =>
      Backoff_membership;;
      clear_potential;;
      memb ← gets Future_membership; segments_to_potential memb POTENTIAL_REP
  end.

Definition clear_last_token : M St unit :=
  modify (fun s => s <| Last_token ::= fun t =>
    t <| t_type := 0 |> <| t_seq := 0 |> <| t_aru := 0 |> |>).

Definition Memb_token_loss : M St unit :=
  st ← gets State;
  loss_by_state st;;
  modify (fun s => s <| Token_alive := false |>);;
  Prot_set_delivery_threshold BLOCK_REGULAR_DELIVERY;;
  modify (fun s => s <| Memb_Just_Installed := false |>);;
  e_dequeue Memb_token_loss_event;;
  e_dequeue Send_join_event;;
  e_dequeue Form_or_fail_event;;
  e_dequeue Prot_token_hurry_event;;
  e_dequeue Memb_lookup_new_members_event;;
  clear_last_token;;
  memb ← gets Membership;
  memb ← alone memb;
  modify (fun s => s <| Membership := memb |>);;
  Shift_to_seg.
End TokenLoss.
