(* ===== verification/Form1.v ===== *)
(** * The form1 token: [Create_form1] and [Fill_form1]

    A representative with the smallest place creates the form1 token; it visits
    the members of each ring or segment and their representatives in turn, and
    each daemon adds itself, the packets its ring misses and the members it is
    committed to.  The last one turns it into the form2 token.

    The body of a form token: [members_info], [reps_info] (form1) or
    [membership_id] (form2), the number of rings, and for each ring a
    [ring_info] followed by its holes and its committed members. *)

From S2P Require Import Prelude NetTypes Configuration State Network FlowControl SessionLayer Delivery MembSets.
From S2P Require Import Discard TokenLoss.

(** ** Rings in a form token *)

Record ring_info := mk_ring_info {
  rg_memb_id : membership_id; rg_trans_time : Z; rg_aru : Z; rg_highest_seq : Z;
  rg_num_holes : Z; rg_num_commit : Z; rg_num_trans : Z }.
Definition eta_ring_info (r : ring_info) := mk_ring_info (rg_memb_id r) (rg_trans_time r)
  (rg_aru r) (rg_highest_seq r) (rg_num_holes r) (rg_num_commit r) (rg_num_trans r).
#[export] Instance set_rg_memb_id : Setter rg_memb_id := ltac:(make_setter eta_ring_info).
#[export] Instance set_rg_trans_time : Setter rg_trans_time := ltac:(make_setter eta_ring_info).
#[export] Instance set_rg_aru : Setter rg_aru := ltac:(make_setter eta_ring_info).
#[export] Instance set_rg_highest_seq : Setter rg_highest_seq := ltac:(make_setter eta_ring_info).
#[export] Instance set_rg_num_holes : Setter rg_num_holes := ltac:(make_setter eta_ring_info).
#[export] Instance set_rg_num_commit : Setter rg_num_commit := ltac:(make_setter eta_ring_info).
#[export] Instance set_rg_num_trans : Setter rg_num_trans := ltac:(make_setter eta_ring_info).

Definition sizeof_ring_info : Z := 28.

Definition get_ring_info (b : list Z) (off : Z) : ring_info :=
  mk_ring_info (mk_membership_id (get_i32 b off) (get_i32 b (off + 4)))
    (get_i32 b (off + 8)) (get_i32 b (off + 12)) (get_i32 b (off + 16))
    (get_i32 b (off + 20)) (get_i16 b (off + 24)) (get_i16 b (off + 26)).
Definition ring_info_bytes (r : ring_info) : list Z :=
  bytes32 (m_proc_id (rg_memb_id r)) ++ bytes32 (m_time (rg_memb_id r)) ++
  bytes32 (rg_trans_time r) ++ bytes32 (rg_aru r) ++ bytes32 (rg_highest_seq r) ++
  bytes32 (rg_num_holes r) ++ bytes16 (rg_num_commit r) ++ bytes16 (rg_num_trans r).

Definition flip_ring_info (r : ring_info) : ring_info :=
  mk_ring_info (flip_memb_id (rg_memb_id r)) (i32 (Flip_int32 (rg_trans_time r)))
    (i32 (Flip_int32 (rg_aru r))) (i32 (Flip_int32 (rg_highest_seq r)))
    (i32 (Flip_int32 (rg_num_holes r))) (i16 (Flip_int16 (rg_num_commit r)))
    (i16 (Flip_int16 (rg_num_trans r))).

(** The bytes a ring takes: its header, its holes, its committed members (a
    [size_t] assigned to an [int]). *)
Definition ring_bytes (r : ring_info) : Z :=
  i32 (sizeof_ring_info + (rg_num_holes r + rg_num_commit r) * 4).

(** An access to [n] bytes at offset [off] of a buffer of [size] bytes. *)
Definition in_buffer (size off n : Z) : bool := (0 <=? off) && (off + n <=? size).

(** [Flip_rings] on a buffer of [size] bytes: flip one integer in place ... *)
Definition flip_at (size : Z) (b : list Z) (ptr : Z) : M unit (list Z) :=
  undef_if (negb (in_buffer size ptr 4));;
  mret (put_i32 b ptr (i32 (Flip_int32 (get_i32 b ptr)))).

(** ... one ring at [ptr], to the offset of the next ... *)
Definition flip_ring (size : Z) (b : list Z) (ptr : Z) : M unit (list Z * Z) :=
  undef_if (negb (in_buffer size ptr sizeof_ring_info));;
  let r := flip_ring_info (get_ring_info b ptr) in
  let b := buf_put b ptr (ring_info_bytes r) in
  for_fold (zrange 0 (rg_num_holes r + rg_num_commit r - 1)) (b, ptr + sizeof_ring_info)
    (fun _ x => let '(b, ptr) := x in b ← flip_at size b ptr; mret (b, ptr + 4)).

(** ... and all of them. *)
Definition Flip_rings (size : Z) (b : list Z) : M unit (list Z) :=
  b ← flip_at size b 0;
  '(b, _) ← for_fold (zrange 0 (get_i32 b 0 - 1)) (b, 4) (fun _ x =>
    let '(b, ptr) := x in flip_ring size b ptr);
  mret b.

Section Form1.
Context {L : SpuLib} {X : Ext}.

(** ** Shared by the two *)

(** Writing one [int32] at the end of [rg_info_buf]: the bytes used, and the
    integers written after the current [ring_info]. *)
Definition put_entry (x : Z) (e : Z * list Z) : M St (Z * list Z) :=
  let '(num_bytes, l) := e in
  fatal_if (sizeof_token_body <? num_bytes + 4);;
  mret (num_bytes + 4, l ++ [x]).

(** The sequence numbers in a range whose packet is missing. *)
Definition put_missing (from to : Z) (e : Z * list Z) : M St (Z * list Z) :=
  for_fold (zrange from to) e (fun index e =>
    pk ← gets (fun s => packet_at s (entry_of index));
    if exist pk =? 0 then put_entry index e else mret e).

(** Myself, and then the members of [Commit_set] but me. *)
Definition put_commit (e : Z * list Z) : M St (Z * list Z) :=
  my ← gets My;
  c ← gets Commit_set;
  undef_if (MAX_PROCS_RING <? num_members c);;
  e ← put_entry (id my) e;
  for_fold (live c) e (fun pid e => if pid =? id my then mret e else put_entry pid e).

(** Writing [F_members.members] from its first entry. *)
Definition set_f_members (l : list Z) : M St unit :=
  m ← gets F_members;
  undef_if (MAX_PROCS_RING <? Z.of_nat (length l));;
  modify (fun s => s <| F_members :=
    m <| members := l ++ drop (length l) (members m) |>
      <| num_members := Z.of_nat (length l) |> |>).

Definition in_reps (pid : Z) (l : list rep_info) : bool :=
  existsb (fun r => rep_proc_id r =? pid) l.

(** The representatives of the other segments become candidates. *)
Definition reps_to_potential (r : reps_info) : M St unit :=
  clear_potential;;
  for_each (zrange 0 (num_reps r - 1)) (fun i =>
    rep ← or_fail Undefined (arr_get (reps r) i);
    my ← gets My;
    when (negb (rep_seg_index rep =? seg_index my))
      (insert_potential (rep <| rep_type := POTENTIAL_REP |>))).

(** Two sends of the same token. *)
Definition ucast_token_twice (pid : Z) (h : token_header) (els : list (list Z))
  : M St token_header :=
  '(_, h) ← Net_ucast_token pid h els;
  '(_, h) ← Net_ucast_token pid h els;
  mret h.

Definition sum_lens (els : list (list Z)) : Z :=
  foldr (fun e n => Z.of_nat (length e) + n) 0 els.

(** ** [Create_form1] *)

(** Its first lines: an id for the attempt, later than any used before. *)
Definition create_form1_id : M St membership_id :=
  my ← gets My;
  now ← ext_call E_get_time;
  last ← gets Last_time_used;
  let t := i32 now in
  let t := if t <=? last then last + 1 else t in
  let mid := mk_membership_id (id my) t in
  modify (fun s => s <| Last_time_used := t |> <| Form1_memb_id := mid |>);;
  mret mid.

(** A ring leader's members are those of its ring. *)
Definition ring_to_f_members : M St unit :=
  r ← gets F_reps;
  r0 ← or_fail Undefined (arr_get (reps r) 0);
  when (rep_type r0 =? RING_REP)
    (memb ← gets Membership; set_f_members (ring_of memb)).

(** Members that are representatives too are left out; I come first and the
    rest is pending. *)
Definition create_form1_members : M St unit :=
  m ← gets F_members;
  undef_if (MAX_PROCS_RING <? num_members m);;
  r ← gets F_reps;
  my ← gets My;
  set_f_members (filter (fun pid => negb (in_reps pid (live_reps r) && negb (pid =? id my)))
    (live m));;
  modify (fun s => s <| F_members ::= fun m =>
    m <| num_pending := num_members m - 1 |> <| num_members := 1 |> |>).

Definition create_form1_reps : M St unit :=
  cn ← gets Config;
  r ← gets F_reps;
  r ← pure_code (Sort_reps cn r);
  let r := r <| rep_index := 1 |> in
  modify (fun s => s <| F_reps := r |>);;
  reps_to_potential r.

(** The bytes of my ring: what it misses, and whom I am committed to. *)
Definition create_form1_ring : M St (list Z) :=
  aru ← gets Aru; my_aru ← gets My_aru; hs ← gets Highest_seq; mid ← gets Membership_id;
  '(n, holes) ← put_missing (my_aru + 1) hs (4 + sizeof_ring_info, []);
  '(_, entries) ← put_commit (n, holes);
  let num_holes := Z.of_nat (length holes) in
  let num_commit := Z.of_nat (length entries) - num_holes in
  mret (bytes32 1 ++ ring_info_bytes (mk_ring_info mid 0 aru hs num_holes num_commit 1) ++
        concat (map bytes32 entries)).

(** To the next pending member, to the next representative, or to myself as
    a form2 token. *)
Definition create_form1_send (h : token_header) (ring : list Z) : M St unit :=
  m ← gets F_members;
  r ← gets F_reps;
  let els := [members_bytes m; reps_bytes r; ring] in
  let h := h <| t_rtr_len := u16 (sum_lens els) |> in
  if 0 <? num_pending m then
    pid ← or_fail Undefined (arr_get (members m) (num_members m));
    ucast_token_twice pid h els;; mret tt
  else if rep_index r <? num_reps r then
    rep ← or_fail Undefined (arr_get (reps r) (rep_index r));
    ucast_token_twice (rep_proc_id rep) h els;; mret tt
  else
    let m := m <| num_pending := 1 |> <| num_members := 0 |> in
    modify (fun s => s <| F_members := m |>);;
    let els := [members_bytes m; take (Z.to_nat sizeof_membership_id) (reps_bytes r); ring] in
    let h := h <| t_type := FORM2_TYPE |> <| t_rtr_len := u16 (sum_lens els) |> in
    my ← gets My;
    ucast_token_twice (id my) h els;; mret tt.

(** The end of both: wait for the form2 token. *)
Definition shift_to_form : M St unit :=
  e_queue Memb_token_loss_event Form_timeout;;
  e_dequeue Prot_token_hurry_event;;
  modify (fun s => s <| Token_alive := false |>);;
  Prot_set_delivery_threshold BLOCK_REGULAR_DELIVERY;;
  shift_state FORM.

Definition Create_form1 : M St unit :=
  my ← gets My;
  mid ← create_form1_id;
  hs ← gets Highest_seq;
  let h := mk_token_header FORM1_TYPE 0 (id my) mid (hs + 3333) 0 0 0 0 0 in
  ring_to_f_members;;
  create_form1_members;;
  create_form1_reps;;
  ring ← create_form1_ring;
  create_form1_send h ring;;
  e_dequeue Send_join_event;;
  shift_to_form.

(** ** [Fill_form1] *)

(** The validity checks and the members added when a member of a ring or a
    represented daemon is next in the token; [None] drops the token. *)
Definition fill_as_member (m : members_info) : M St (option members_info) :=
  my ← gets My;
  next ← or_fail Undefined (arr_get (members m) (num_members m));
  mret (if negb (next =? id my) || (num_pending m <=? 0) then None
        else Some (m <| num_members ::= Z.succ |> <| num_pending ::= Z.pred |>)).

(** My members, less those in the token, its representatives and mine. *)
Definition fill_valid_members (m : members_info) (r : reps_info) : M St unit :=
  fm ← gets F_members;
  fr ← gets F_reps;
  my ← gets My;
  undef_if ((MAX_PROCS_RING <? num_members fm) || (MAX_PROCS_RING <? num_members m) ||
            (MAX_REPS <? num_reps r));;
  set_f_members (filter (fun pid =>
    negb (bool_decide (pid ∈ live m) ||
          (in_reps pid (live_reps r) && negb (pid =? id my)) ||
          (in_reps pid (live_reps fr) && negb (pid =? id my)))) (live fm)).

(** Writing [l] to [m_info->members] from index [i]. *)
Definition write_members (m : members_info) (i : Z) (l : list Z) : M St members_info :=
  '(m, _) ← for_fold l (m, i) (fun pid x =>
    let '(m, i) := x in m ← set_member m i pid; mret (m, i + 1));
  mret m.

Definition fill_as_rep (m : members_info) (r : reps_info)
  : M St (option (members_info * reps_info)) :=
  my ← gets My;
  alive ← gets Token_alive;
  rep ← or_fail Undefined (arr_get (reps r) (rep_index r));
  if negb (rep_proc_id rep =? id my) || (alive && (rep_type rep =? SEG_REP)) ||
     (negb alive && (rep_type rep =? RING_REP)) || negb (num_pending m =? 0)
  then mret None else
  fill_valid_members m r;;
  fm ← gets F_members;
  memb ← gets Membership;
  m' ← (if rep_type rep =? SEG_REP then
          m' ← write_members m (num_members m) (live fm);
          mret (m' <| num_pending := num_members fm - 1 |>)
        else if rep_type rep =? RING_REP then
          m' ← write_members m (num_members m) (ring_of memb);
          mret (m' <| num_pending := Z.of_nat (length (ring_of memb)) - 1 |>)
        else fatal);
  mret (Some (m' <| num_members ::= Z.succ |>, r <| rep_index ::= Z.succ |>)).

Definition fill_members (m : members_info) (r : reps_info)
  : M St (option (members_info * reps_info)) :=
  st ← gets State;
  match st with
  | OP | REPRESENTED =>
      m' ← fill_as_member m; mret ((fun m' => (m', r)) <$> m')
  | GATHER => fill_as_rep m r
  | _ => fatal
  end.

(** The rings of the token, from offset [ptr] of [buf]: those of other
    memberships are copied, mine is remembered by its offset. *)
Record rings_acc := mk_rings_acc {
  ra_ptr : Z; ra_copied : list Z; ra_num : Z; ra_mine : option Z }.

Definition copy_ring (size : Z) (buf : list Z) (_ : Z) (x : rings_acc) : M St rings_acc :=
  undef_if (negb (in_buffer size (ra_ptr x) sizeof_ring_info));;
  let rg := get_ring_info buf (ra_ptr x) in
  mid ← gets Membership_id;
  if Memb_is_equal (rg_memb_id rg) mid then
    mret (mk_rings_acc (ra_ptr x + ring_bytes rg) (ra_copied x) (ra_num x) (Some (ra_ptr x)))
  else
    fatal_if (sizeof_token_body <? 4 + Z.of_nat (length (ra_copied x)) + ring_bytes rg);;
    undef_if ((ring_bytes rg <? 0) || negb (in_buffer size (ra_ptr x) (ring_bytes rg)));;
    mret (mk_rings_acc (ra_ptr x + ring_bytes rg)
            (ra_copied x ++ buf_get buf (ra_ptr x) (ring_bytes rg)) (ra_num x + 1) (ra_mine x)).

(** My ring was not in the token: what I miss, and my commit set. *)
Definition fill_new_ring (num_bytes : Z) : M St (ring_info * list Z) :=
  mid ← gets Membership_id; aru ← gets Aru; hs ← gets Highest_seq;
  ld ← gets Last_discarded;
  '(n, holes) ← put_missing (ld + 1) hs (num_bytes, []);
  '(_, entries) ← put_commit (n, holes);
  let num_holes := Z.of_nat (length holes) in
  mret (mk_ring_info mid 0 aru hs num_holes (Z.of_nat (length entries) - num_holes) 1, entries).

(** It was: of its holes those I miss too and what I miss past its highest
    sequence number; its transitional members and me, and all the committed. *)
Definition read_entry (size : Z) (buf : list Z) (ptr : Z) : M St Z :=
  undef_if (negb (in_buffer size ptr 4));; mret (get_i32 buf ptr).

Definition fill_old_holes (size : Z) (buf : list Z) (mine : Z) (rg : ring_info)
    (e : Z * list Z) : M St (Z * list Z) :=
  for_fold (zrange 0 (rg_num_holes rg - 1)) e (fun i e =>
    x ← read_entry size buf (mine + sizeof_ring_info + 4 * i);
    pk ← gets (fun s => packet_at s (entry_of x));
    if exist pk =? 0 then put_entry x e else mret e).

Definition insert_entries (size : Z) (buf : list Z) (ptr from to : Z) (t : members_info)
  : M St members_info :=
  for_fold (zrange from (to - 1)) t (fun i t =>
    x ← read_entry size buf (ptr + 4 * i);
    '(_, t) ← pure_code (Insert_member t x); mret t).

Definition fill_old_commit (size : Z) (buf : list Z) (ptr : Z) (rg : ring_info)
  : M St members_info :=
  my ← gets My;
  c ← gets Commit_set;
  undef_if (MAX_PROCS_RING <? num_members c);;
  let empty := mk_members_info 0 0 (replicate (Z.to_nat MAX_PROCS_RING) 0) in
  t ← insert_entries size buf ptr 0 (rg_num_trans rg) empty;
  '(_, t) ← pure_code (Insert_member t (id my));
  fatal_if (negb (num_members t =? rg_num_trans rg + 1));;
  let t := t <| num_pending := i16 (rg_num_trans rg + 1) |> in
  let read := Z.max 0 (rg_num_trans rg) in
  t ← insert_entries size buf (ptr + 4 * (read - rg_num_trans rg))
        (rg_num_trans rg) (rg_num_commit rg) t;
  for_fold (live c) t (fun pid t => '(_, t) ← pure_code (Insert_member t pid); mret t).

Definition fill_old_ring (size : Z) (buf : list Z) (mine num_bytes : Z)
  : M St (ring_info * list Z) :=
  let rg := get_ring_info buf mine in
  mid ← gets Membership_id; aru ← gets Aru; hs ← gets Highest_seq;
  '(n, holes) ← fill_old_holes size buf mine rg (num_bytes, []);
  '(n, holes) ← (if rg_highest_seq rg <? hs
                 then put_missing (rg_highest_seq rg + 1) hs (n, holes)
                 else mret (n, holes));
  let ptr := mine + sizeof_ring_info + 4 * Z.max 0 (rg_num_holes rg) in
  t ← fill_old_commit size buf ptr rg;
  '(_, entries) ← for_fold (live t) (n, holes) put_entry;
  mret (mk_ring_info mid 0 (Z.max aru (rg_aru rg)) (Z.max hs (rg_highest_seq rg))
          (Z.of_nat (length holes)) (num_members t) (num_pending t), entries).

(** No place for my ring: I leave the members of the token. *)
Definition remove_self (m : members_info) : M St members_info :=
  my ← gets My;
  undef_if (MAX_PROCS_RING <? num_members m);;
  l ← match find_index (fun pid => pid =? id my) (live m) with
      | None => mret (members m)
      | Some (i, _) =>
          let n := num_members m + num_pending m - i - 1 in
          undef_if ((n <? 0) || (MAX_PROCS_RING <? i + 1 + n));;
          mret (take (Z.to_nat i) (members m) ++
                buf_get (members m) (i + 1) n ++
                drop (Z.to_nat (i + n)) (members m))
      end;
  mret (m <| members := l |> <| num_members ::= Z.pred |>).

(** The rings of the new token: the copied ones, and mine. *)
Definition fill_rings (size : Z) (buf : list Z) (m : members_info)
  : M St (list Z * members_info) :=
  undef_if (negb (in_buffer size 0 4));;
  x ← for_fold (zrange 0 (get_i32 buf 0 - 1)) (mk_rings_acc 4 [] 0 None) (copy_ring size buf);
  let num_bytes := 4 + Z.of_nat (length (ra_copied x)) + sizeof_ring_info in
  let num_rings := ra_num x + 1 in
  fatal_if (sizeof_token_body <? num_bytes);;
  match ra_mine x with
  | None =>
      if MAX_FORM_REPS <? num_rings then
        m ← remove_self m;
        mret (bytes32 (num_rings - 1) ++ ra_copied x, m)
      else
        '(rg, entries) ← fill_new_ring num_bytes;
        mret (bytes32 num_rings ++ ra_copied x ++ ring_info_bytes rg ++
              concat (map bytes32 entries), m)
  | Some mine =>
      '(rg, entries) ← fill_old_ring size buf mine num_bytes;
      mret (bytes32 num_rings ++ ra_copied x ++ ring_info_bytes rg ++
            concat (map bytes32 entries), m)
  end.

Definition fill_send (h : token_header) (m : members_info) (r : reps_info) (rings : list Z)
  : M St unit :=
  let els := [members_bytes m; reps_bytes r; rings] in
  let h := h <| t_rtr_len := u16 (sum_lens els) |> in
  if 0 <? num_pending m then
    pid ← or_fail Undefined (arr_get (members m) (num_members m));
    ucast_token_twice pid h els;; mret tt
  else if rep_index r <? num_reps r then
    rep ← or_fail Undefined (arr_get (reps r) (rep_index r));
    ucast_token_twice (rep_proc_id rep) h els;; mret tt
  else
    cn ← gets Config;
    m ← pure_code (Sort_members cn m);
    let m := m <| num_pending := num_members m |> <| num_members := 0 |> in
    let els := [members_bytes m; take (Z.to_nat sizeof_membership_id) (reps_bytes r); rings] in
    let h := h <| t_type := FORM2_TYPE |> <| t_rtr_len := u16 (sum_lens els) |> in
    first ← or_fail Undefined (arr_get (members m) 0);
    ucast_token_twice first h els;; mret tt.

(** The body of a form1 token, in the endianness of the host. *)
Definition decode_form1 (same : bool) (body : list Z)
  : M St (members_info * reps_info * list Z) :=
  let m := get_members_info body 0 in
  let r := get_reps_info body sizeof_members_info in
  let off := sizeof_members_info + sizeof_reps_info in
  let buf := drop (Z.to_nat off) body in
  if same then mret (m, r, buf) else
  m ← pure_code (Flip_members m);
  r ← pure_code (Flip_reps r);
  buf ← pure_code (Flip_rings (sizeof_token_body - off) buf);
  mret (m, r, buf).

Definition Fill_form1 (h : token_header) (body : list Z) : M St unit :=
  '(m, r, buf) ← decode_form1 (Same_endian (t_type h)) body;
  my ← gets My;
  hs ← gets Highest_seq;
  let h := h <| t_proc_id := id my |> in
  let h := if t_seq h <? hs + 3333 then h <| t_seq := hs + 3333 |> else h in
  filled ← fill_members m r;
  match filled with
  | None => mret tt
  | Some (m, r) =>
      modify (fun s => s <| Form1_memb_id := t_memb_id h |>);;
      reps_to_potential r;;
      '(rings, m) ←
        fill_rings (sizeof_token_body - sizeof_members_info - sizeof_reps_info) buf m;
      fill_send h m r rings;;
      e_dequeue Send_join_event;;
      e_dequeue Form_or_fail_event;;
      e_dequeue Shift_to_seg_event;;
      shift_to_form
  end.
End Form1.

(** * The form2 token: [Read_form2]

    The token goes once round the members of the new membership.  Each checks
    it, builds the future membership, drops packets the token does not know,
    delivers what its old ring has in common, marks the packets nobody has, and
    enters state EVS; the last one sends the first regular token. *)

Section Form2.
Context {L : SpuLib} {X : Ext} {SL : SessionLayer}.

(** The token's parts; [f2_buf] starts at the number of rings. *)
Record form2 := mk_form2 {
  f2_members : members_info; f2_id : membership_id; f2_buf : list Z }.

(** The size of the parts before the rings, and of the room for the rings. *)
Definition form2_prefix : Z := sizeof_members_info + sizeof_membership_id.
Definition form2_room : Z := sizeof_token_body - form2_prefix.

Definition decode_form2 (same : bool) (body : list Z) : M St form2 :=
  let m := get_members_info body 0 in
  let mid := mk_membership_id (get_i32 body sizeof_members_info)
               (get_i32 body (sizeof_members_info + 4)) in
  let buf := drop (Z.to_nat form2_prefix) body in
  if same then mret (mk_form2 m mid buf) else
  m ← pure_code (Flip_members m);
  buf ← pure_code (Flip_rings form2_room buf);
  mret (mk_form2 m (flip_memb_id mid) buf).

(** The checks on the header and on the list of members. *)
Definition form2_members_ok (memb_id : membership_id) (m : members_info) : M St bool :=
  mine ← gets Form1_memb_id;
  my ← gets My;
  if negb (Memb_is_equal memb_id mine) then mret false else
  if (num_members m <? 0) || (num_pending m <=? 0) ||
     (MAX_PROCS_RING <=? num_members m + num_pending m) then mret false else
  next ← or_fail Undefined (arr_get (members m) (num_members m));
  mret (next =? id my).

Definition malformed_ring (rg : ring_info) : bool :=
  (rg_num_trans rg <? 1) || (rg_num_commit rg <? rg_num_trans rg) ||
  (MAX_PROCS_RING <? rg_num_commit rg) || (rg_num_holes rg <? 0) ||
  (MAX_SEQ_GAP <? rg_num_holes rg).

(** The rings from offset [ptr] of the buffer, [n] of them, [mine] being the
    last found that is mine: the offset past the rings and that of mine, or
    [None] when the token is dropped. *)
Fixpoint find_my_ring (tot_len : Z) (buf : list Z) (mid : membership_id) (n : nat) (ptr : Z)
    (mine : option Z) : M St (option (Z * option Z)) :=
  match n with
  | O => mret (Some (ptr, mine))
  | S n =>
      undef_if (negb (in_buffer form2_room ptr sizeof_ring_info));;
      let rg := get_ring_info buf ptr in
      if malformed_ring rg then mret None else
      let mine := if Memb_is_equal (rg_memb_id rg) mid then Some ptr else mine in
      let ptr := ptr + ring_bytes rg in
      if tot_len <? form2_prefix + ptr then mret None
      else find_my_ring tot_len buf mid n ptr mine
  end.

(** A time later than any this daemon used. *)
Definition fresh_time : M St Z :=
  now ← ext_call E_get_time;
  last ← gets Last_time_used;
  let t := i32 now in
  let t := if t <=? last then last + 1 else t in
  modify (fun s => s <| Last_time_used := t |>);;
  mret t.

(** The first member names the membership: the time left for its transitional
    membership (0 for the others), and the id. *)
Definition name_membership (m : members_info) (mid : membership_id)
  : M St (Z * membership_id) :=
  if negb (num_members m =? 1) then mret (0, mid) else
  memb_time ← fresh_time;
  modify (fun s => s <| Last_time_used ::= Z.succ |>);;
  my ← gets My;
  t ← gets Last_time_used;
  mret (memb_time, mk_membership_id (id my) t).

(** [Future_membership]: the members of the token, each in its segment. *)
Definition build_future (m : members_info) : M St configuration :=
  cn ← gets Config;
  let empty := clear_segments (Conf_num_segments cn) cn in
  for_fold (zrange 0 (num_members m + num_pending m - 1)) empty (fun i memb =>
    pid ← or_fail Undefined (arr_get (members m) i);
    '(_, p) ← or_fail Fatal (Conf_proc_by_id_in_conf cn pid);
    append_to memb (seg_index p) (id p)).

(** The checks before a packet the others do not know of is dropped: it was
    not delivered, it is the one expected, and its sender leaves. *)
Definition check_dropped (entry seq : Z) : M St unit :=
  pk ← gets (fun s => packet_at s entry);
  mid ← gets Membership_id;
  fm ← gets Future_membership;
  fatal_if (negb (exist pk =? 1));;
  fatal_if (negb (Memb_is_equal (p_memb_id (head pk)) mid));;
  fatal_if (negb (p_seq (head pk) =? seq));;
  fatal_if (match Conf_proc_by_id_in_conf fm (p_proc_id (head pk)) with
            | Some _ => true | None => false end).

(** Packets above the highest sequence number of my ring on the token. *)
Definition forget_above (highest : Z) : M St unit :=
  hs ← gets Highest_seq;
  for_each (rev (zrange (highest + 1) hs)) (fun seq =>
    pk ← gets (fun s => packet_at s (entry_of seq));
    when (negb (exist pk =? 0))
      (check_dropped (entry_of seq) seq;;
       update_packet (entry_of seq) (fun p => p <| exist := 0 |>)));;
  modify (fun s => s <| My_aru ::= Z.min highest |> <| Highest_seq := highest |>).

(** Dummy messages in place of the holes of my ring. *)
Definition mark_holes (holes : list Z) : M St unit :=
  for_each holes (fun seq =>
    pk ← gets (fun s => packet_at s (entry_of seq));
    when (negb (exist pk =? 0)) (check_dropped (entry_of seq) seq);;
    update_packet (entry_of seq) (fun p => p <| exist := 3 |>)).

(** [My_aru] recomputed in two ways, which must agree. *)
Definition recompute_step (i : Z) (x : Z * Z) : M St (Z * Z) :=
  let '(my_aru, my_aru2) := x in
  pk ← gets (fun s => packet_at s (entry_of i));
  if (exist pk =? 1) || (exist pk =? 2) then
    mret (if i =? my_aru + 1 then i else my_aru, my_aru2)
  else if (exist pk =? 0) || (exist pk =? 3) then
    mret (my_aru, if i <=? my_aru2 then i - 1 else my_aru2)
  else fatal.

Definition recompute_my_aru : M St unit :=
  ld ← gets Last_discarded; hs ← gets Highest_seq; ma ← gets My_aru;
  '(my_aru, my_aru2) ← for_fold (zrange (ld + 1) hs) (ld, ma) recompute_step;
  fatal_if (negb (my_aru =? my_aru2));;
  modify (fun s => s <| My_aru := my_aru |>).

(** The committed members of my ring become [Future_commit_set]. *)
Definition set_future_commit (rg : ring_info) (pids : list Z) : M St unit :=
  undef_if (MAX_PROCS_RING <? Z.of_nat (length pids));;
  modify (fun s => s <| Future_commit_set ::= fun m =>
    mk_members_info (rg_num_commit rg) (rg_num_trans rg)
      (pids ++ drop (length pids) (members m)) |>).

(** The time of the transitional membership: on the token, or set here. *)
Definition transitional_time (rg : ring_info) (memb_time : Z) : M St Z :=
  t ← (if truth (rg_trans_time rg) then mret (rg_trans_time rg)
       else if truth memb_time then mret memb_time else fresh_time);
  modify (fun s => s <| F_trans_memb_time := t |>);;
  mret t.

Definition send_token_twice (h : token_header) (els : list (list Z)) : M St token_header :=
  '(_, h) ← Net_send_token h els;
  '(_, h) ← Net_send_token h els;
  mret h.

(** On to the next member, or the first regular token of the membership. *)
Definition form2_send (h : token_header) (body : list Z) : M St unit :=
  my ← gets My;
  fm ← gets Future_membership;
  last ← or_fail Fatal (Conf_last fm);
  if negb (last =? id my) then
    send_token_twice h [body];;
    modify (fun s => s <| Token_rounds := 0 |>)
  else
    fid ← gets Future_membership_id;
    let h := h <| t_type := 0 |> <| t_memb_id := fid |> <| t_seq := 0 |>
               <| t_aru := INT32_MAX |> <| t_aru_last_id := -1 |>
               <| t_flow_control := 0 |> <| t_rtr_len := 0 |> in
    send_token_twice h [];;
    modify (fun s => s <| Token_rounds := 1 |>).

Definition int_at (buf : list Z) (ptr i : Z) : Z := get_i32 buf (ptr + 4 * i).

(** After the checks: [ptr] is the offset past the rings, [mine] that of mine. *)
Definition accept_form2 (h : token_header) (f : form2) (ptr mine : Z) : M St unit :=
  my ← gets My;
  let h := h <| t_proc_id := id my |> in
  let m := f2_members f in
  let m := m <| num_members ::= Z.succ |> <| num_pending ::= Z.pred |> in
  modify (fun s => s <| Last_seq := t_seq h |>);;
  '(memb_time, mid) ← name_membership m (f2_id f);
  modify (fun s => s <| Future_membership_id := mid |>);;
  fm ← build_future m;
  modify (fun s => s <| Future_membership := fm |>);;
  Net_set_membership fm;;
  Prot_set_prev_proc fm;;
  FC_new_configuration;;
  let rg := get_ring_info (f2_buf f) mine in
  forget_above (rg_highest_seq rg);;
  modify (fun s => s <| Aru := rg_aru rg |>);;
  Discard_packets;;
  let holes_at := mine + sizeof_ring_info in
  mark_holes (map (int_at (f2_buf f) holes_at) (zrange 0 (rg_num_holes rg - 1)));;
  recompute_my_aru;;
  set_future_commit rg (map (int_at (f2_buf f) (holes_at + 4 * rg_num_holes rg))
                          (zrange 0 (rg_num_commit rg - 1)));;
  t ← transitional_time rg memb_time;
  let buf := put_i32 (f2_buf f) (mine + 8) t in
  form2_send h (members_bytes m ++ bytes32 (m_proc_id mid) ++ bytes32 (m_time mid) ++
                buf_get buf 0 ptr);;
  modify (fun s => s <| Token_alive := true |>);;
  e_queue Memb_token_loss_event Token_timeout;;
  modify (fun s => s <| Received_token_rounds := 0 |>);;
  clear_last_token;;
  modify (fun s => s <| Aru := 0 |>);;
  shift_state EVS.

(** [tot_len] is the length of the element that holds the body. *)
Definition Read_form2 (h : token_header) (body : list Z) (tot_len : Z) : M St unit :=
  if tot_len <? form2_prefix + 4 then mret tt else
  f ← decode_form2 (Same_endian (t_type h)) body;
  ok ← form2_members_ok (t_memb_id h) (f2_members f);
  if negb ok then mret tt else
  mid ← gets Membership_id;
  found ← find_my_ring tot_len (f2_buf f) mid (Z.to_nat (get_i32 (f2_buf f) 0)) 4 None;
  match found with
  | Some (ptr, Some mine) => accept_form2 h f ptr mine
  | _ => mret tt
  end.
End Form2.
