(* ===== verification/Membership.v ===== *)
(** * The membership algorithm: timers and messages of [membership.c]

    The alive, join and refer messages by which daemons find each other, the
    timer handlers, and the dispatch of messages and form tokens on the state. *)

From S2P Require Import Prelude NetTypes Configuration State Network FlowControl.
From S2P Require Import SessionLayer Delivery MembSets Discard TokenLoss Form1.

Section Membership.
Context {L : SpuLib} {X : Ext} {SL : SessionLayer}.

(** ** Sending *)

(** The bytes of [F_members] and [F_reps] that a message carries. *)
Definition members_part (m : members_info) : M St (list Z) :=
  undef_if ((num_members m <? 0) || (MAX_PROCS_RING <? num_members m));;
  mret (take (Z.to_nat (4 + 4 * num_members m)) (members_bytes m)).
Definition reps_part (r : reps_info) : M St (list Z) :=
  undef_if ((num_reps r <? 0) || (MAX_REPS <? num_reps r));;
  mret (take (Z.to_nat (4 + sizeof_rep_info * num_reps r)) (reps_bytes r)).

(** A send of [Send_pack], whose header keeps what the send writes. *)
Definition with_send_pack (send : packet_header -> M St (Z * packet_header)) : M St unit :=
  h ← gets Send_pack_head;
  '(_, h) ← send h;
  modify (fun s => s <| Send_pack_head := h |>).

Definition Scast_alive (code : Z) : M St unit :=
  m ← gets F_members;
  part ← members_part m;
  modify (fun s => s <| Send_pack_head ::= fun h =>
    h <| p_type := ALIVE_TYPE |> <| p_data_len := u16 (Z.of_nat (length part)) |> |>);;
  my ← gets My;
  with_send_pack (fun h => Net_scast (seg_index my) h [part]);;
  when (code =? 0) (e_queue (Scast_alive_event 0) Alive_timeout).

(** The join message in [Send_pack]: its two parts. *)
Definition prepare_join : M St (list (list Z)) :=
  m ← gets F_members; p1 ← members_part m;
  r ← gets F_reps; p2 ← reps_part r;
  modify (fun s => s <| Send_pack_head ::= fun h =>
    h <| p_type := JOIN_TYPE |>
      <| p_data_len := u16 (Z.of_nat (length p1) + Z.of_nat (length p2)) |> |>);;
  mret [p1; p2].

Definition Send_join : M St unit :=
  els ← prepare_join;
  alive ← gets Token_alive;
  my ← gets My;
  when (negb alive) (with_send_pack (fun h => Net_scast (seg_index my) h els));;
  r ← gets Potential_reps;
  for_each (zrange 0 (num_reps r - 1)) (fun i =>
    rep ← or_fail Undefined (arr_get (reps r) i);
    with_send_pack (fun h => Net_ucast (rep_proc_id rep) h els));;
  e_queue Send_join_event Join_timeout.

(** A refer message: [pid] is a representative of kind [type]. *)
Definition send_refer (dst pid type : Z) : M St unit :=
  my ← gets My;
  Net_ucast dst (no_header <| p_type := REFER_TYPE |> <| p_proc_id := id my |>
    <| p_memb_id := mk_membership_id pid type |> <| p_data_len := 0 |>) [];;
  mret tt.

(** ** Timers *)

Definition back_to_op : M St unit :=
  e_dequeue Send_join_event;;
  e_queue Memb_lookup_new_members_event Lookup_timeout;;
  Shift_to_op.

Definition Form_or_fail : M St unit :=
  cn ← gets Config;
  r ← gets F_reps;
  my ← gets My;
  alive ← gets Token_alive;
  '(smallest, _) ← pure_code (Smallest_rep cn r);
  if smallest =? id my then
    if alive && (num_reps r =? 1) then back_to_op else Create_form1
  else if alive : bool then back_to_op
  else
    m ← gets F_members;
    m ← set_member (m <| num_members := 1 |>) 0 (id my);
    modify (fun s => s <| F_members := m <| num_pending := 0 |> |>);;
    clear_potential;;
    f_reps_to_potential POTENTIAL_REP;;
    Shift_to_gather.

(** Joins to the daemons that are not members; on one segment, a broadcast. *)
Definition lookup_sends (els : list (list Z)) : M St Z :=
  cn ← gets Config;
  my ← gets My;
  if Conf_num_segments cn =? 1 then
    with_send_pack (fun h => Net_scast (seg_index my) h els);; mret 1
  else
    reg ← gets Reg_membership;
    for_fold (concat (map procs (segments cn))) 0 (fun p n =>
      if Conf_id_in_conf reg (id p) =? -1 then
        with_send_pack (fun h => Net_ucast (id p) h els);; mret (n + 1)
      else mret n).

Definition Memb_lookup_new_members : M St unit :=
  st ← gets State;
  if negb (st_eqb st OP) then mret tt else
  clear_potential;;
  my ← gets My;
  r ← gets F_reps;
  rs ← or_fail Undefined (arr_set (reps r) 0 (mk_rep_info (id my) RING_REP (seg_index my)));
  modify (fun s => s <| F_reps := r <| num_reps := 1 |> <| reps := rs |> |>
    <| F_members ::= fun m => m <| num_members := 0 |> <| num_pending := 0 |> |>);;
  els ← prepare_join;
  num_missing ← lookup_sends els;
  when (truth num_missing) Shift_to_gather.

(** ** Messages *)

Definition Memb_handle_alive (h : packet_header) : M St unit :=
  st ← gets State;
  match st with
  | OP =>
      memb ← gets Membership;
      when (negb (Conf_id_in_conf memb (p_proc_id h) =? -1))
        (Memb_token_loss;; insert_f_member (p_proc_id h))
  | SEG => insert_f_member (p_proc_id h)
  | REPRESENTED => e_queue Shift_to_seg_event Rep_timeout
  | GATHER =>
      alive ← gets Token_alive;
      if negb alive then insert_f_member (p_proc_id h) else
      memb ← gets Membership;
      when (negb (Conf_id_in_conf memb (p_proc_id h) =? -1))
        (Memb_token_loss;; insert_f_member (p_proc_id h))
  | FORM => mret tt
  | EVS =>
      memb ← gets Future_membership;
      when (negb (Conf_id_in_conf memb (p_proc_id h) =? -1))
        (Memb_token_loss;; insert_f_member (p_proc_id h))
  end.

(** The representatives of a join message, in the endianness of the host: how
    many, and a read of one of them from the message's buffer. *)
Record join_reps := mk_join_reps { jr_num : Z; jr_get : Z -> M St rep_info }.

Definition decode_join (h : packet_header) (body : list Z) : M St join_reps :=
  let same := Same_endian (p_type h) in
  let m := get_members_info body 0 in
  m ← (if same then mret m else pure_code (Flip_members m));
  let body := if same then body else buf_put body 0 (members_bytes m) in
  let off := 4 + 4 * num_members m in
  undef_if ((off <? 0) || (sizeof_packet_body <? off + 4));;
  let r := get_reps_info body off in
  r ← (if same then mret r else pure_code (Flip_reps r));
  mret (mk_join_reps (num_reps r) (fun i =>
    undef_if (negb (in_buffer sizeof_packet_body (off + 4 + sizeof_rep_info * i)
                      sizeof_rep_info));;
    or_fail Undefined (arr_get (reps r) i))).

(** A join that reached a member of another ring: the leader starts to gather,
    others refer the sender to the leader. *)
Definition join_in_op (h : packet_header) (jr : join_reps) : M St unit :=
  memb ← gets Membership;
  my ← gets My;
  if Conf_id_in_conf memb (p_proc_id h) =? -1 then
    l ← or_fail Fatal (Conf_leader memb);
    rep0 ← jr_get jr 0;
    if l =? id my then
      r ← gets Potential_reps;
      rs ← or_fail Undefined (arr_set (reps r) 0 rep0);
      modify (fun s => s <| Potential_reps := r <| reps := rs |> <| num_reps := 1 |> |>
        <| F_members ::= fun m => m <| num_members := 0 |> <| num_pending := 0 |> |>);;
      Shift_to_gather
    else
      answer ← (if negb (rep_seg_index rep0 =? seg_index my) then mret true
                else sl ← or_fail Fatal (Conf_seg_leader memb (seg_index my));
                     mret (sl =? id my));
      when answer (send_refer (p_proc_id h) l RING_REP)
  else
    cn ← gets Config;
    when (1 <? Conf_num_segments cn) Memb_token_loss.

(** Whether the sender represents my segment. *)
Definition my_representative (h : packet_header) (jr : join_reps) : M St bool :=
  cn ← gets Config;
  my ← gets My;
  '(_, p) ← or_fail Undefined (Conf_proc_by_id_in_conf cn (p_proc_id h));
  if negb (seg_index my =? seg_index p) then mret false else
  rep0 ← jr_get jr 0;
  mret (rep_type rep0 =? SEG_REP).

Definition join_in_gather (h : packet_header) (jr : join_reps) : M St unit :=
  rep0 ← jr_get jr 0;
  insert_f_rep rep0;;
  for_each (zrange 0 (jr_num jr - 1)) (fun i => rep ← jr_get jr i; insert_potential rep);;
  cn ← gets Config;
  r ← gets F_reps;
  '(smallest, _) ← pure_code (Smallest_rep cn r);
  when (smallest =? rep_proc_id rep0) (e_queue Form_or_fail_event Gather_timeout).

Definition Memb_handle_join (h : packet_header) (body : list Z) : M St unit :=
  jr ← decode_join h body;
  st ← gets State;
  match st with
  | OP => join_in_op h jr
  | SEG =>
      mine ← my_representative h jr;
      when mine
        (modify (fun s => s <| My_seg_rep := p_proc_id h |>);;
         Shift_to_represented;;
         Scast_alive 1)
  | REPRESENTED =>
      mine ← my_representative h jr;
      if mine : bool then
        modify (fun s => s <| My_seg_rep := p_proc_id h |>);;
        e_queue Shift_to_seg_event Rep_timeout;;
        Scast_alive 1
      else
        rep ← gets My_seg_rep;
        when (negb (rep =? -1)) (send_refer (p_proc_id h) rep SEG_REP)
  | GATHER => join_in_gather h jr
  | FORM => mret tt
  | EVS =>
      memb ← gets Future_membership;
      when (negb (Conf_id_in_conf memb (p_proc_id h) =? -1))
        (Memb_token_loss;; insert_f_member (p_proc_id h))
  end.

Definition Memb_handle_refer (h : packet_header) : M St unit :=
  st ← gets State;
  if negb (st_eqb st GATHER) then mret tt else
  cn ← gets Config;
  match Conf_proc_by_id_in_conf cn (m_proc_id (p_memb_id h)) with
  | None => mret tt
  | Some (_, p) =>
      insert_potential (mk_rep_info (id p) (i16 (m_time (p_memb_id h))) (seg_index p))
  end.

(** A regular message of another membership: the leader looks for new members,
    a segment's leader tells the leader once. *)
Definition Memb_handle_foreign (h : packet_header) (body : list Z) : M St unit :=
  st ← gets State;
  if negb (st_eqb st OP) then mret tt else
  cn ← gets Config;
  match Conf_proc_by_id_in_conf cn (p_proc_id h) with
  | None => mret tt
  | Some _ =>
      memb ← gets Membership;
      my ← gets My;
      l ← or_fail Fatal (Conf_leader memb);
      if l =? id my then Memb_lookup_new_members else
      sl ← or_fail Fatal (Conf_seg_leader memb (seg_index my));
      found ← gets Foreign_found;
      when ((sl =? id my) && negb found)
        (modify (fun s => s <| Foreign_found := true |>);;
         let els := [buf_get body 0 (p_data_len h)] in
         '(_, h) ← Net_ucast l h els;
         '(_, h) ← Net_ucast l h els;
         mret tt)
  end.

Definition Memb_handle_message (h : packet_header) (body : list Z) : M St unit :=
  if Is_alive (p_type h) then Memb_handle_alive h
  else if Is_join (p_type h) then Memb_handle_join h body
  else if Is_refer (p_type h) then Memb_handle_refer h
  else if Is_regular (p_type h) then Memb_handle_foreign h body
  else mret tt.

Definition Memb_handle_form1 (h : token_header) (body : list Z) : M St unit :=
  st ← gets State;
  match st with
  | OP => lead ← (memb ← gets Membership; my ← gets My;
                  l ← or_fail Fatal (Conf_leader memb); mret (l =? id my));
          when (negb lead) (Fill_form1 h body)
  | REPRESENTED | GATHER => Fill_form1 h body
  | SEG | FORM | EVS => mret tt
  end.

Definition Memb_handle_form2 (h : token_header) (body : list Z) : M St unit :=
  st ← gets State;
  if st_eqb st FORM then Read_form2 h body sizeof_token_body else mret tt.

Definition Memb_handle_token (h : token_header) (body : list Z) : M St unit :=
  if Is_form1 (t_type h) then Memb_handle_form1 h body
  else if Is_form2 (t_type h) then Memb_handle_form2 h body
  else mret tt.

(** ** Start *)

Definition ALL_TIMEOUT_CONF : Z := 0x1FF.

(** [t.sec = ms / 1000; t.usec = ms % 1000 * 1000] *)
Definition timeout_ms (ms : Z) : sp_time := mk_sp_time (Z.quot ms 1000) (Z.rem ms 1000 * 1000).

(** The nine timeouts: token, hurry, alive, join, rep, seg, gather, form, lookup. *)
Definition set_timeouts (l : list sp_time) : M St unit :=
  let t i := nth i l Zero_timeout in
  modify (fun s => s
    <| Token_timeout := t 0%nat |> <| Hurry_timeout := t 1%nat |>
    <| Alive_timeout := t 2%nat |> <| Join_timeout := t 3%nat |>
    <| Rep_timeout := t 4%nat |> <| Seg_timeout := t 5%nat |>
    <| Gather_timeout := t 6%nat |> <| Form_timeout := t 7%nat |>
    <| Lookup_timeout := t 8%nat |>).

Definition default_timeouts (wide : bool) : list sp_time :=
  if wide then
    [mk_sp_time 5 0; mk_sp_time 1 500000; mk_sp_time 0 250000; mk_sp_time 0 250000;
     mk_sp_time 1 250000; mk_sp_time 0 500000; mk_sp_time 2 500000; mk_sp_time 2 500000;
     mk_sp_time 45 0]
  else
    [mk_sp_time 1 250000; mk_sp_time 0 500000; mk_sp_time 0 250000; mk_sp_time 0 250000;
     mk_sp_time 0 625000; mk_sp_time 0 500000; mk_sp_time 1 250000; mk_sp_time 1 250000;
     mk_sp_time 30 0].

Definition init_timeouts : M St unit :=
  mask ← gets TimeoutMask;
  wide ← gets Wide_network;
  if mask =? 0 then set_timeouts (default_timeouts wide) else
  fatal_if (negb (mask =? ALL_TIMEOUT_CONF));;
  ts ← gets conf_Timeouts;
  set_timeouts (map timeout_ms ts).

Definition init_network_kind : M St unit :=
  flag ← gets WideAreaNetworkFlag;
  modify (fun s => s <| Wide_network :=
    if flag : bool then WideAreaNetwork s else 1 <? Conf_num_segments (Config s) |>);;
  ring_flag ← gets conf_AcceleratedRingFlag;
  when (negb ring_flag)
    (modify (fun s => s <| conf_AcceleratedRing := negb (Wide_network s) |>)).

(** The daemon alone, before any membership. *)
Definition init_membership : M St unit :=
  cn ← gets Config;
  my ← gets My;
  memb ← append_to (clear_segments (Conf_num_segments cn) cn) (seg_index my) (id my);
  modify (fun s => s <| Membership := memb |>
    <| Membership_id := mk_membership_id (id my) (-1) |> <| Last_time_used := -1 |>
    <| Transitional := false |> <| Reg_membership := memb |>);;
  c ← gets Commit_set;
  c ← set_member (c <| num_pending := 1 |> <| num_members := 1 |>) 0 (id my);
  modify (fun s => s <| Commit_set := c |>
    <| Send_pack_head := no_header <| p_proc_id := id my |> |>).

Definition Memb_init : M St unit :=
  Shift_to_op;;
  modify (fun s => s <| gs_membership_changes := 0 |>);;
  init_network_kind;;
  init_timeouts;;
  init_membership;;
  Memb_token_loss.
End Membership.
