(* ===== verification/Receive.v ===== *)
(** * Receiving packets: [Prot_handle_bcast]

    What a broadcast datagram does: control, membership and hurry messages go
    to their handlers, a packet of the membership is inserted unless it is
    known, and what it makes deliverable is delivered. *)

From S2P Require Import Prelude NetTypes Configuration State Network FlowControl.
From S2P Require Import SessionLayer Delivery MembSets Discard TokenLoss.
From S2P Require Import Form1 Membership.

Section Receive.
Context {L : SpuLib} {X : Ext} {SL : SessionLayer}.

(** ** The fragments of a packet of the other endianness *)

(** The loop over the fragments in the body, from [processed_bytes]: the bytes
    processed and the body with their headers flipped. *)
Definition flip_frags_step (data_len : Z) (x : Z * list Z)
  : M St ((Z * list Z) + (Z * list Z)) :=
  let '(processed_bytes, body) := x in
  if data_len <=? processed_bytes then mret (inr (processed_bytes, body)) else
  let processed_bytes := processed_bytes + padding_of processed_bytes in
  if data_len <? processed_bytes + sizeof_fragment_header
  then mret (inr (processed_bytes, body)) else
  undef_if (negb (in_buffer sizeof_packet_body processed_bytes sizeof_fragment_header));;
  let frag := Flip_frag (get_frag body processed_bytes) in
  mret (inl (processed_bytes + sizeof_fragment_header + fragment_len frag,
             put_frag body processed_bytes frag)).

(** A malformed packet is kept as well, so that the count does not matter. *)
Definition flip_frags (h : packet_header) (body : list Z) : M St (packet_header * list Z) :=
  if Same_endian (p_type h) then mret (h, body) else
  let h := h <| p_first_frag ::= Flip_frag |> in
  '(_, body) ← while_fuel (S (Z.to_nat (p_data_len h))) (flip_frags_step (p_data_len h))
    (fragment_len (p_first_frag h), body);
  mret (h, body).

(** ** The priorities of the channels *)

(** One channel changes its priority; [check] says whether the code tests
    what [E_attach_fd] returned. *)
Definition move_fd (hd : fd_handler) (from to : priority) (check : bool) (fd : Z)
  : M St unit :=
  r ← ext_call (E_detach_fd_priority fd from);
  fatal_if (r <? 0);;
  r ← ext_call (E_attach_fd fd hd to);
  fatal_if (check && (r <? 0)).

Definition prefer_token : M St unit :=
  b ← gets Bcast_channel;
  for_each b (move_fd Prot_handle_bcast_fd HIGH_PRIORITY MEDIUM_PRIORITY true);;
  t ← gets Token_channel;
  for_each t (move_fd Prot_handle_token_fd MEDIUM_PRIORITY HIGH_PRIORITY false);;
  modify (fun s => s <| Token_has_priority := true |>).

Definition prefer_bcast : M St unit :=
  b ← gets Bcast_channel;
  for_each b (move_fd Prot_handle_bcast_fd MEDIUM_PRIORITY HIGH_PRIORITY false);;
  t ← gets Token_channel;
  for_each t (move_fd Prot_handle_token_fd HIGH_PRIORITY MEDIUM_PRIORITY false);;
  modify (fun s => s <| Token_has_priority := false |>).

(** ** A packet of the membership *)

(** The token is alive: its loss and its hurry are postponed. *)
Definition postpone_timers : M St unit :=
  alive ← gets Token_alive;
  when alive
    (e_queue Memb_token_loss_event Token_timeout;;
     lead ← I_lead;
     when lead (e_queue Prot_token_hurry_event Hurry_timeout)).

Definition insert_packet (h : packet_header) (body : list Z) (pidx : Z) : M St unit :=
  set_packet (entry_of (p_seq h)) (mk_packet_info h body 1 pidx).

(** My predecessor has started the next round. *)
Definition maybe_prefer_token (h : packet_header) : M St unit :=
  acc ← gets Accelerated_ring;
  prio ← gets Token_has_priority;
  rounds ← gets Received_token_rounds;
  prev ← gets Prev_proc_id;
  when (acc && negb prio && (rounds <? p_token_round h) && (p_transmiter_id h =? prev))
    prefer_token.

(** [My_aru] advances over the packets held from [from] up to [to], the
    variable being incremented for each. *)
Definition advance_my_aru (from to : Z) (s : St) : Z :=
  count_while (held s) (zrange from to) (My_aru s).

Definition update_after_insert (seq : Z) : M St unit :=
  modify (fun s => s <| Highest_seq ::= Z.max seq |>);;
  my_aru ← gets My_aru;
  if seq =? my_aru + 1 then
    modify (fun s => s <| My_aru := advance_my_aru seq (Highest_seq s) s |>);;
    Deliver_agreed_packets
  else Deliver_reliable_packets seq 1.

Definition handle_regular (h : packet_header) (body : list Z) : M St unit :=
  postpone_timers;;
  ld ← gets Last_discarded;
  if p_seq h <=? ld then mret tt else
  pk ← gets (fun s => packet_at s (entry_of (p_seq h)));
  if negb (exist pk =? 0) then mret tt else
  cn ← gets Config;
  let pidx := index_or_minus1 (Conf_proc_by_id_in_conf cn (p_proc_id h)) in
  update_packet (entry_of (p_seq h)) (fun p => p <| proc_index := pidx |>);;
  if pidx <? 0 then mret tt else
  '(h, body) ← flip_frags h body;
  insert_packet h body pidx;;
  maybe_prefer_token h;;
  update_after_insert (p_seq h);;
  modify (fun s => s <| gs_packet_recv ::= Z.succ |> <| gs_my_aru := My_aru s |>
    <| gs_highest_seq := Highest_seq s |>).
End Receive.
