(* ===== verification/ReceiveProps.v ===== *)
(** * Receiving keeps the order, and ignores what it has

    [handle_regular] under the invariant of [Order.v]. *)

From S2P Require Import Prelude NetTypes Configuration State Network FlowControl.
From S2P Require Import SessionLayer Delivery DeliveryFacts MembSets Discard Order.
From S2P Require Import TokenLoss Form1 Membership Receive Demo.

Section ReceiveProps.
Context {L : SpuLib} {X : Ext} {SL : SessionLayer} {HSL : SessionLaws SL}.

(** What [ordered] speaks of. *)
Definition window (s : St) :=
  (Last_discarded s, Last_delivered s, My_aru s, Highest_seq s, Packets s).

Lemma window_fields s s' : window s' = window s ->
  Last_discarded s' = Last_discarded s /\ Last_delivered s' = Last_delivered s /\
  My_aru s' = My_aru s /\ Highest_seq s' = Highest_seq s /\ Packets s' = Packets s.
Proof.
  intros H. split_and!.
  - exact (f_equal (fun t => t.1.1.1.1) H).
  - exact (f_equal (fun t => t.1.1.1.2) H).
  - exact (f_equal (fun t => t.1.1.2) H).
  - exact (f_equal (fun t => t.1.2) H).
  - exact (f_equal snd H).
Qed.

(** [ordered] looks at the headers and at what is there. *)
Lemma ordered_ext s s' :
  Last_discarded s' = Last_discarded s -> Last_delivered s' = Last_delivered s ->
  My_aru s' = My_aru s -> Highest_seq s' = Highest_seq s ->
  (forall e, exist (packet_at s' e) = exist (packet_at s e)) ->
  (forall e, head (packet_at s' e) = head (packet_at s e)) ->
  ordered s -> ordered s'.
Proof.
  intros E1 E2 E3 E4 Hx Hp.
  assert (Hh : forall i, held s' i = held s i) by (intros; unfold held, packet_of; by rewrite Hx).
  intros [O1 O2 O3 O4 O5 O6 O7]. split; rewrite ?E1, ?E2, ?E3, ?E4 in *; try done.
  - intros i Hi. rewrite Hh. by apply O3.
  - intros Hi. rewrite Hh. by apply O4.
  - intros e. rewrite Hp, Hx. apply O5.
  - intros e. rewrite Hx. apply O6.
  - intros i. unfold packet_of. rewrite Hx. apply O7.
Qed.

Lemma ordered_window s s' : window s' = window s -> ordered s -> ordered s'.
Proof.
  intros (E1 & E2 & E3 & E4 & E5)%window_fields.
  apply ordered_ext; try done; intros e; unfold packet_at; by rewrite E5.
Qed.

(** ** A new packet *)

Definition with_packet (s : St) (p : packet_info) : St :=
  s <| Packets ::= insert (entry_of (p_seq (head p))) p |>
    <| Highest_seq ::= Z.max (p_seq (head p)) |>.

Lemma with_packet_of s p i :
  Last_discarded s < p_seq (head p) <= Last_discarded s + 8192 ->
  Last_discarded s < i <= Last_discarded s + 8192 ->
  packet_of (with_packet s p) i = if decide (p_seq (head p) = i) then p else packet_of s i.
Proof.
  intros Hp Hi. unfold packet_of, with_packet.
  change (packet_at (s <| Packets ::= insert (entry_of (p_seq (head p))) p |>) (entry_of i) =
    if decide (p_seq (head p) = i) then p else packet_at s (entry_of i)).
  rewrite packet_at_insert. destruct (decide (p_seq (head p) = i)) as [->|Hne].
  - by rewrite decide_True.
  - rewrite decide_False; [done|]. intros He. apply entry_of_inj in He; lia.
Qed.

Section New.
Context (s : St) (p : packet_info).
Hypothesis HO : ordered s.
Hypothesis Hwin : Last_discarded s < p_seq (head p) <= Last_discarded s + MAX_PACKETS_IN_STRUCT.
Hypothesis Hnew : held s (p_seq (head p)) = false.
Hypothesis Hex : exist p = 1.

Lemma new_above : My_aru s < p_seq (head p).
Proof.
  apply Z.nle_gt. intros Hle. pose proof (od_held s HO (p_seq (head p))) as H.
  rewrite Hnew in H. discriminate H. lia.
Qed.

Lemma next_missing : held s (My_aru s + 1) = false.
Proof.
  destruct (Z.ltb_spec (My_aru s) (Highest_seq s)); [by apply (od_next s HO)|].
  pose proof (od_highest s HO). pose proof (od_delivered s HO). pose proof new_above.
  unfold MAX_PACKETS_IN_STRUCT in *.
  apply held_false. destruct (Z.eq_dec (exist (packet_of s (My_aru s + 1))) 0) as [|Hne]; [done|].
  exfalso. apply (od_seq s HO) in Hne as [He Hr]. unfold packet_of in *.
  apply entry_of_inj in He; lia.
Qed.

Lemma with_packet_held i : Last_discarded s < i <= Last_discarded s + MAX_PACKETS_IN_STRUCT ->
  held (with_packet s p) i = if decide (p_seq (head p) = i) then true else held s i.
Proof.
  unfold MAX_PACKETS_IN_STRUCT in *. intros Hi. unfold held. rewrite with_packet_of by done.
  destruct (decide (p_seq (head p) = i)); [by rewrite Hex|done].
Qed.

Lemma with_packet_ordered n :
  My_aru s <= n <= Z.max (p_seq (head p)) (Highest_seq s) ->
  (forall i, My_aru s < i <= n -> held (with_packet s p) i = true) ->
  (n < Z.max (p_seq (head p)) (Highest_seq s) -> held (with_packet s p) (n + 1) = false) ->
  ordered ((with_packet s p) <| My_aru := n |>).
Proof.
  intros Hn Hh Hx. pose proof (od_highest s HO). pose proof (od_delivered s HO).
  pose proof new_above. set (s' := (with_packet s p) <| My_aru := n |>).
  assert (Hs : forall i, held s' i = held (with_packet s p) i) by done.
  assert (Hp : forall e, packet_at s' e =
    if decide (entry_of (p_seq (head p)) = e) then p else packet_at s e).
  { intros e. apply (packet_at_insert s). }
  assert (Hd : Last_discarded s' = Last_discarded s) by done.
  assert (Hl : Last_delivered s' = Last_delivered s) by done. assert (Hm : My_aru s' = n) by done.
  assert (Hi : Highest_seq s' = Z.max (p_seq (head p)) (Highest_seq s)) by done.
  clearbody s'. unfold MAX_PACKETS_IN_STRUCT in *. split.
  - lia.
  - unfold MAX_PACKETS_IN_STRUCT. lia.
  - intros i Hr. rewrite Hs. destruct (Z.leb_spec i (My_aru s)); [|apply Hh; lia].
    rewrite with_packet_held by (unfold MAX_PACKETS_IN_STRUCT; lia).
    destruct (decide _); [done|]. apply (od_held s HO). lia.
  - intros Hr. rewrite Hs, Hm. apply Hx. lia.
  - intros e. rewrite Hp. destruct (decide (entry_of (p_seq (head p)) = e)) as [<-|].
    + intros _. split; [done|lia].
    + intros He. apply (od_seq s HO) in He as [He ?]. split; [done|lia].
  - intros e. rewrite Hp. destruct (decide _); [lia|apply (od_exist s HO)].
  - intros i Hr. unfold packet_of. rewrite Hp.
    destruct (decide (entry_of (p_seq (head p)) = entry_of i)) as [He|].
    + apply entry_of_inj in He; lia.
    + apply (od_done s HO). lia.
Qed.

(** The packet is the next: all that follows it without a gap is there. *)
Lemma insert_next : p_seq (head p) = My_aru s + 1 ->
  let s1 := with_packet s p in
  let n := advance_my_aru (p_seq (head p)) (Highest_seq s1) s1 in
  ordered (s1 <| My_aru := n |>) /\ p_seq (head p) <= n.
Proof.
  intros Hseq s1 n. pose proof (od_highest s HO). pose proof (od_delivered s HO).
  unfold MAX_PACKETS_IN_STRUCT in *.
  assert (Hs1 : Highest_seq s1 = Z.max (p_seq (head p)) (Highest_seq s)) by done.
  destruct (count_while_zrange (held s1) (p_seq (head p)) (Highest_seq s1) (My_aru s))
    as (j & Hj & Hc & Ht & Hf); [lia|].
  assert (Hn : n = My_aru s + j) by exact Hc. rewrite Hn.
  assert (Hself : held s1 (p_seq (head p)) = true).
  { unfold s1. rewrite with_packet_held by (unfold MAX_PACKETS_IN_STRUCT; lia).
    by rewrite decide_True. }
  assert (0 < j).
  { destruct (Z.eq_dec j 0) as [->|]; [|lia]. rewrite Z.add_0_r in Hf. rewrite Hf in Hself; [done|lia]. }
  split; [|lia]. apply with_packet_ordered; fold s1; rewrite <-?Hs1.
  - lia.
  - intros i Hi. apply Ht. lia.
  - intros Hlt. replace (My_aru s + j + 1) with (p_seq (head p) + j) by lia. apply Hf. lia.
Qed.

(** It is not: nothing advances. *)
Lemma insert_later : p_seq (head p) <> My_aru s + 1 -> ordered (with_packet s p).
Proof.
  intros Hne. pose proof new_above. pose proof (od_highest s HO). pose proof (od_delivered s HO).
  apply (ordered_window ((with_packet s p) <| My_aru := My_aru s |>)); [done|].
  apply with_packet_ordered; [lia|lia|].
  intros Hlt. unfold MAX_PACKETS_IN_STRUCT in *.
  rewrite with_packet_held by (unfold MAX_PACKETS_IN_STRUCT; lia).
  rewrite decide_False by done. apply next_missing.
Qed.
End New.

(** ** The handler *)

(** What the parts of the handler that only talk to the event system keep. *)
Definition kept (s : St) := (window s, Up_queue s, steady s, Prot_delivery_threshold s, Sess s).

Lemma kept_window s s' : kept s' = kept s -> window s' = window s.
Proof. intros H. exact (f_equal (fun t => t.1.1.1.1) H). Qed.
Lemma kept_steady s s' : kept s' = kept s -> steady s' = steady s.
Proof. intros H. exact (f_equal (fun t => t.1.1.2) H). Qed.

Lemma postpone_kept : frame kept postpone_timers.
Proof.
  unfold postpone_timers. repeat first [apply I_lead_frame | solve_frame].
Qed.
Lemma postpone_stops : stops postpone_timers.
Proof. unfold postpone_timers. repeat first [apply I_lead_stops | solve_stops]. Qed.
Lemma prefer_token_kept : frame kept prefer_token.
Proof. unfold prefer_token, move_fd. solve_frame. Qed.
Lemma prefer_token_stops : stops prefer_token.
Proof. unfold prefer_token, move_fd. solve_stops. Qed.
Lemma maybe_prefer_kept h : frame kept (maybe_prefer_token h).
Proof. unfold maybe_prefer_token. repeat first [apply prefer_token_kept | solve_frame]. Qed.
Lemma maybe_prefer_stops h : stops (maybe_prefer_token h).
Proof. unfold maybe_prefer_token. repeat first [apply prefer_token_stops | solve_stops]. Qed.

(** The order after the handler, compared with before. *)
Record grown (s s' : St) : Prop := {
  gr_ordered : ordered s';
  gr_discarded : Last_discarded s' = Last_discarded s;
  gr_aru : Aru s' = Aru s;
  gr_state : State s' = State s;
  gr_my_aru : My_aru s <= My_aru s';
  gr_highest : Highest_seq s <= Highest_seq s' }.

Lemma grown_steady s s1 s' : steady s1 = steady s -> grown s1 s' -> grown s s'.
Proof.
  intros (A1 & A2 & A3 & A4 & A5)%steady_seqs [G1 G2 G3 G4 G5 G6]. split; congruence || lia.
Qed.

Lemma delivered_grown s s1 s2 : grown s s1 -> ordered s2 -> steady s2 = steady s1 -> grown s s2.
Proof.
  intros [G1 G2 G3 G4 G5 G6] HO (A1 & A2 & A3 & A4 & A5)%steady_seqs.
  split; [done|congruence|congruence|congruence|lia|lia].
Qed.

(** The counters of [GlobalStatus] do not matter. *)
Lemma grown_window s s1 s2 :
  grown s s1 -> window s2 = window s1 -> Aru s2 = Aru s1 -> State s2 = State s1 -> grown s s2.
Proof.
  intros [G1 G2 G3 G4 G5 G6] Hw Ha Hs. pose proof (ordered_window _ _ Hw G1).
  apply window_fields in Hw as (E1 & E2 & E3 & E4 & E5). split; [done|congruence|congruence|congruence|lia|lia].
Qed.

(** ** What the new packet makes deliverable *)

(** Whether a packet goes up without waiting for those before it. *)
Definition takes_reliable (s : St) (p : packet_info) : bool :=
  negb (st_eqb (State s) EVS) && (Prot_delivery_threshold s <=? RELIABLE_TYPE) &&
  Is_reliable (p_type (head p)) && (fragment_index (p_first_frag (head p)) =? -1).

(** With the next packet [p] the agreed delivery goes on, over it and what was
    held behind it, to the first SAFE packet; another packet goes up alone or
    waits. *)
Definition received (s : St) (p : packet_info) (s' : St) : Prop :=
  if p_seq (head p) =? My_aru s + 1 then
    if bool_decide (State s = EVS) || (AGREED_TYPE <? Prot_delivery_threshold s)
    then passed_up [] s s' /\ Last_delivered s' = Last_delivered s
    else passed_up (undelivered (with_packet s p) (Last_delivered s + 1) (Last_delivered s')) s s' /\
      Last_delivered s <= Last_delivered s' <= My_aru s' /\
      (Last_delivered s' < My_aru s' -> stopped (with_packet s p) (Last_delivered s' + 1))
  else passed_up (if takes_reliable s p then [p] else []) s s' /\ Last_delivered s' = Last_delivered s.

(** [received] looks at this of the state before. *)
Definition before (s : St) :=
  (Packets s, Last_delivered s, My_aru s, State s, Prot_delivery_threshold s, Up_queue s, Sess s).

Lemma before_fields s s' : before s' = before s ->
  Packets s' = Packets s /\ Last_delivered s' = Last_delivered s /\ My_aru s' = My_aru s /\
  State s' = State s /\ Prot_delivery_threshold s' = Prot_delivery_threshold s /\
  Up_queue s' = Up_queue s /\ Sess s' = Sess s.
Proof. intros H. unfold before in H. injection H. intros. by split_and!. Qed.

Lemma kept_before s s' : kept s' = kept s -> before s' = before s.
Proof.
  intros H. pose proof (kept_window _ _ H) as (_ & E2 & E3 & _ & E5)%window_fields.
  pose proof (kept_steady _ _ H) as (_ & _ & _ & _ & E)%steady_seqs.
  pose proof (f_equal (fun t => (t.1.1.1.2, t.1.2, t.2)) H) as E'. cbn in E'. injection E'. intros.
  unfold before. congruence.
Qed.

Lemma undelivered_packets s s' a b : Packets s' = Packets s -> undelivered s' a b = undelivered s a b.
Proof. intros H. unfold undelivered, packet_of, packet_at. by rewrite H. Qed.

Lemma received_agreed s p sB s' :
  p_seq (head p) = My_aru s + 1 -> Packets sB = Packets (with_packet s p) ->
  Last_delivered sB = Last_delivered s -> State sB = State s ->
  Prot_delivery_threshold sB = Prot_delivery_threshold s ->
  Up_queue sB = Up_queue s -> Sess sB = Sess s ->
  agreed_result sB s' -> received s p s'.
Proof.
  intros Hseq HP HL HE HT HU HS [Hidle Hpost]. unfold received. rewrite (proj2 (Z.eqb_eq _ _) Hseq).
  unfold takes_agreed in *. rewrite HE, HT in *.
  destruct (bool_decide _ || _) eqn:Hb.
  - rewrite Hidle.
    2:{ intros [H1 H2]. rewrite bool_decide_eq_false_2 in Hb by done. apply Z.ltb_lt in Hb. lia. }
    split; [|done]. by apply passed_up_none.
  - apply orb_false_iff in Hb as [Hb1%bool_decide_eq_false Hb2%Z.ltb_ge].
    destruct Hpost as (Hr & [A B _ [D _]] & Hs); [split; [done|lia]|].
    pose proof (dl_steady _ _ _ _ B) as (_ & Hm & _)%steady_seqs.
    replace (Last_delivered s' + 1 - 1) with (Last_delivered s') in D by lia.
    rewrite (undelivered_packets (with_packet s p)), HL in D by done. split; [by eapply passed_up_from|].
    rewrite Hm, <-HL. split; [done|]. intros Hlt. unfold stopped, packet_of, packet_at.
    rewrite <-HP. by apply Hs.
Qed.

Lemma Deliver_reliable_one s n : Last_delivered s < n ->
  wp partial (Deliver_reliable_packets n 1) (fun _ s' =>
    passed_up (if (exist (packet_of s n) =? 1) && takes_reliable s (packet_of s n)
            then [packet_of s n] else []) s s') s.
Proof.
  intros Hn. unfold Deliver_reliable_packets, takes_reliable. do 2 wp_step. wp_step.
  { wp_step. unfold st_eqb in *. rewrite H. cbn [negb andb]. rewrite andb_false_r.
    by apply passed_up_none. }
  do 2 wp_step. wp_step.
  { wp_step. replace (Prot_delivery_threshold s <=? RELIABLE_TYPE) with false
      by (symmetry; apply Z.leb_gt; blia).
    rewrite !andb_false_r, ?andb_false_l, ?andb_false_r. by apply passed_up_none. }
  do 2 wp_step. replace (n <=? Last_delivered s) with false by (symmetry; by apply Z.leb_gt).
  replace (n + 1 - 1) with n by lia. rewrite zrange_cons, zrange_nil by lia. cbn [for_each].
  unfold st_eqb in *. rewrite H. cbn [negb andb].
  replace (Prot_delivery_threshold s <=? RELIABLE_TYPE) with true
    by (symmetry; apply Z.leb_le; blia). cbn [andb].
  do 3 wp_step. fold (packet_of s n).
  rewrite andb_assoc. destruct (_ && _) eqn:Hc; unfold when.
  - eapply wp_mono; [apply Deliver_packet_passes|]. intros [] s' [Hp _]. by wp_step.
  - do 2 wp_step. by apply passed_up_none.
Qed.

Lemma update_after_insert_spec s0 s p :
  ordered s0 -> exist p = 1 -> held s0 (p_seq (head p)) = false ->
  Last_discarded s0 < p_seq (head p) <= Last_discarded s0 + MAX_PACKETS_IN_STRUCT ->
  kept s = kept (s0 <| Packets ::= insert (entry_of (p_seq (head p))) p |>) ->
  wp ends (update_after_insert (p_seq (head p))) (fun _ s' =>
    (grown s0 s' /\ held s' (p_seq (head p)) = true) /\ received s0 p s') s.
Proof.
  intros HO Hex Hnew Hwin Hk. pose proof (kept_before _ _ Hk) as Hbef.
  destruct (before_fields _ _ Hbef) as (F1 & F2 & F3 & F4 & F5 & F6 & F7). pose proof (od_highest s0 HO). pose proof (od_delivered s0 HO).
  pose proof (kept_window _ _ Hk) as Hw. destruct (window_fields _ _ Hw) as (W1 & W2 & W3 & W4 & W5).
  rec_simpl_in W1. rec_simpl_in W2. rec_simpl_in W3. rec_simpl_in W4.
  pose proof (kept_steady _ _ Hk) as (A1 & A2 & A3 & A4 & A5)%steady_seqs.
  set (sA := s <| Highest_seq ::= Z.max (p_seq (head p)) |>).
  assert (HwA : window sA = window (with_packet s0 p)).
  { unfold window. change (Highest_seq sA) with (Z.max (p_seq (head p)) (Highest_seq s)).
    change (Last_discarded sA) with (Last_discarded s). change (My_aru sA) with (My_aru s).
    change (Last_delivered sA) with (Last_delivered s). change (Packets sA) with (Packets s).
    rewrite W1, W2, W3, W4, W5. done. }
  assert (Hheld : forall s', window s' = window (with_packet s0 p) ->
    forall i, held s' i = held (with_packet s0 p) i).
  { intros s' E i. injection E as _ _ _ _ E. unfold held, packet_of, packet_at. by rewrite E. }
  assert (Hself : held (with_packet s0 p) (p_seq (head p)) = true).
  { rewrite with_packet_held by done. by rewrite decide_True. }
  unfold update_after_insert. do 2 wp_step. fold sA. do 2 wp_step.
  assert (HmA : My_aru sA = My_aru s0) by apply (window_fields _ _ HwA).
  wp_step.
  - do 2 wp_step. set (n := advance_my_aru _ _ _). set (sB := sA <| My_aru := n |>).
    bools_to_props. rewrite HmA in *.
    destruct (insert_next s0 p HO Hwin Hnew Hex) as [HB Hn]; [done|].
    assert (En : n = advance_my_aru (p_seq (head p)) (Highest_seq (with_packet s0 p)) (with_packet s0 p)).
    { unfold n, advance_my_aru. destruct (window_fields _ _ HwA) as (_ & _ & E3 & E4 & _).
      rewrite E3, E4.
      assert (HH : forall l x, count_while (held sA) l x = count_while (held (with_packet s0 p)) l x).
      { induction l as [|i l IH]; intros x; cbn [count_while]; [done|].
        rewrite (Hheld sA HwA). destruct (held _ i); [apply IH|done]. }
      apply HH. }
    assert (HOB : ordered sB).
    { eapply ordered_window; [|exact HB]. rewrite <-En. unfold window in *.
      destruct (window_fields _ _ HwA) as (E1 & E2 & E3 & E4 & E5).
      unfold sB. rec_simpl_in_goal. congruence. }
    eapply wp_mono; [by apply Deliver_agreed_result|]. intros [] s' Hres.
    pose proof (agreed_result_ordered _ _ HOB Hres) as HO'.
    pose proof (agreed_result_steady _ _ Hres) as Hst.
    split; [split|by eapply (received_agreed _ _ sB)].
    + eapply delivered_grown; [|done|done]. split; [done|done| |done|..].
      * exact A1.
      * change (My_aru s0 <= n). rewrite En. etransitivity; [|apply Hn]. lia.
      * change (Highest_seq s0 <= Z.max (p_seq (head p)) (Highest_seq s)). rewrite W4. lia.
    + apply (od_held s' HO'). apply steady_seqs in Hst as (B1 & B2 & B3 & B4 & B5).
      rewrite B2, B4. change (Last_discarded s < p_seq (head p) <= n).
      rewrite W1, En. split; [apply Hwin|apply Hn].
  - bools_to_props. rewrite HmA in *.
    assert (HOA : ordered sA).
    { eapply ordered_window; [exact HwA|]. by apply insert_later. }
    eapply frame_wp_conj with (f := fun s => True); [by intros ??? _|].
    eapply wp_mono; [apply wp_conj; [apply Deliver_reliable_marks|apply Deliver_reliable_one]|].
    { change (Last_delivered s < p_seq (head p)). pose proof (new_above s0 p HO Hwin Hnew). lia. }
    intros [] s' [M Hp] _.
    split; [split|].
    + eapply delivered_grown; [|by eapply marks_ordered|apply M]. split; [done|done| |done|..].
      * exact A1.
      * change (My_aru s0 <= My_aru s). rewrite W3. done.
      * change (Highest_seq s0 <= Z.max (p_seq (head p)) (Highest_seq s)). rewrite W4. lia.
    + rewrite (marks_held _ _ _ _ M), (Hheld sA HwA). done.
    + assert (Ep : packet_of sA (p_seq (head p)) = p).
      { transitivity (packet_of (with_packet s0 p) (p_seq (head p))).
        - unfold packet_of, packet_at. by rewrite (proj2 (proj2 (proj2 (proj2 (window_fields _ _ HwA))))).
        - rewrite with_packet_of by (unfold MAX_PACKETS_IN_STRUCT in *; lia).
          by rewrite decide_True. }
      rewrite Ep, Hex in Hp. cbn [Z.eqb Pos.eqb andb] in Hp.
      unfold received. rewrite (proj2 (Z.eqb_neq _ _)) by done. split.
      * unfold takes_reliable in *. change (State sA) with (State s) in Hp.
        change (Prot_delivery_threshold sA) with (Prot_delivery_threshold s) in Hp.
        rewrite F4, F5 in Hp. by eapply passed_up_from, Hp.
      * rewrite (marks_last _ _ _ M). exact F2.
Qed.

Lemma grown_refl s : ordered s -> grown s s.
Proof. intros HO. split; done || lia. Qed.

(** Writing [proc_index] of an entry. *)
Lemma index_ordered s e n :
  ordered s -> ordered (s <| Packets := <[e := (packet_at s e) <| proc_index := n |>]> (Packets s) |>).
Proof.
  apply ordered_ext; try done; intros e'; rewrite packet_at_update;
    by destruct (decide (e = e')) as [<-|].
Qed.

(** The index of the daemon, written before the packet is inserted, is written
    over with it. *)
Lemma received_index s s2 s4 s' p n :
  Packets s2 = <[entry_of (p_seq (head p)) := n]> (Packets s) ->
  Last_delivered s2 = Last_delivered s -> My_aru s2 = My_aru s -> State s2 = State s ->
  Prot_delivery_threshold s2 = Prot_delivery_threshold s ->
  Up_queue s2 = Up_queue s -> Sess s2 = Sess s ->
  Last_delivered s' = Last_delivered s4 -> My_aru s' = My_aru s4 ->
  Up_queue s' = Up_queue s4 -> Sess s' = Sess s4 ->
  received s2 p s4 -> received s p s'.
Proof.
  intros HP HL HM HE HT HU HS HL' HM' HU' HS'.
  assert (HP' : Packets (with_packet s2 p) = Packets (with_packet s p)).
  { unfold with_packet. rec_simpl_in_goal. rewrite HP. by rewrite insert_insert_eq. }
  assert (Hp : forall l, passed_up l s2 s4 -> passed_up l s s').
  { intros l H. eapply passed_up_to, passed_up_from, H; done. }
  unfold received, takes_reliable, stopped, packet_of, packet_at.
  rewrite HL, HM, HE, HT, HL', HM', HP', (undelivered_packets _ _ _ _ HP').
  destruct (_ =? _); [destruct (_ || _)|]; intuition auto.
Qed.

(** C5. Receiving a packet of the membership keeps the order, and nothing moves
    back.  A new packet of a known daemon is held after it, and what became
    deliverable is delivered: if it is the next one, the packets that are held
    from it on without a gap go up in order to the first SAFE packet, unless the
    threshold holds them back; if it leaves a gap, it goes up alone if it is a
    whole reliable message and the threshold allows it, or waits.  A packet that
    is not new, or of an unknown daemon, delivers nothing.  The packet is in the
    window that flow control keeps to, and of this daemon's endianness. *)
Theorem handle_regular_ordered (h : packet_header) (body : list Z) (s : St) :
  ordered s -> State s <> EVS -> Same_endian (p_type h) = true ->
  p_seq h <= Last_discarded s + MAX_PACKETS_IN_STRUCT ->
  wp ends (handle_regular h body) (fun _ s' =>
    grown s s' /\
    if (Last_discarded s <? p_seq h) && negb (held s (p_seq h)) then
      match Conf_proc_by_id_in_conf (Config s) (p_proc_id h) with
      | Some (i, _) => held s' (p_seq h) = true /\ received s (mk_packet_info h body 1 i) s'
      | None => passed_up [] s s'
      end
    else passed_up [] s s') s.
Proof.
  intros HO HE Hsame Hwin. unfold handle_regular. wp_step.
  apply (wp_stops_frame kept); [apply postpone_stops|apply postpone_kept|].
  intros _ s1 Hk1. pose proof (kept_steady _ _ Hk1) as Hst1.
  pose proof (steady_seqs _ _ Hst1) as (A1 & A2 & A3 & A4 & A5).
  destruct (before_fields _ _ (kept_before _ _ Hk1)) as (F1 & F2 & F3 & F4 & F5 & F6 & F7).
  assert (HO1 : ordered s1) by (eapply ordered_window; [by apply kept_window|done]).
  assert (HC1 : Config s1 = Config s) by exact (f_equal (fun t => t.1.2.1.1.1.1.1.1.1) Hst1).
  assert (Hsame1 : grown s s1) by (eapply grown_steady; [done|by apply grown_refl]).
  assert (Hh1 : forall i, held s1 i = held s i).
  { intros i. unfold held, packet_of, packet_at. by rewrite F1. }
  do 2 wp_step. rewrite A4. wp_step.
  { wp_step. split; [done|]. replace (Last_discarded s <? p_seq h) with false; [by apply passed_up_none|].
    symmetry. apply Z.ltb_ge. blia. }
  replace (Last_discarded s <? p_seq h) with true by (symmetry; apply Z.ltb_lt; blia).
  do 2 wp_step. wp_step.
  { wp_step. split; [done|]. rewrite <-Hh1.
    assert (Hdup : held s1 (p_seq h) = true) by (unfold packet_of, held in *; done).
    rewrite Hdup. by apply passed_up_none. }
  assert (Hnew1 : held s1 (p_seq h) = false) by (unfold packet_of, held in *; done).
  rewrite Hh1 in Hnew1. rewrite Hnew1. cbn [negb andb].
  bools_to_props. do 2 wp_step. rewrite HC1.
  wp_step. unfold update_packet at 1. wp_step. set (s2 := s1 <| Packets := _ |>).
  assert (HO2 : ordered s2) by by apply index_ordered.
  assert (Hst2 : steady s2 = steady s) by done.
  assert (Hnew : held s2 (p_seq h) = false).
  { apply held_false. unfold packet_of, s2. rewrite packet_at_update, decide_True by done. done. }
  destruct (Conf_proc_by_id_in_conf (Config s) (p_proc_id h)) as [[i q]|] eqn:Hc; cbn [index_or_minus1].
  2:{ wp_step; [|done]. wp_step. split; [eapply grown_steady; [done|by apply grown_refl]|].
      by apply passed_up_none. }
  apply find_index_Some in Hc. cbn in Hc. wp_step; [exfalso; blia|].
  wp_step. unfold flip_frags. rewrite Hsame. wp_step.
  wp_step. unfold insert_packet, set_packet. wp_step. wp_step.
  set (p := mk_packet_info h body 1 i).
  apply (wp_stops_frame kept); [apply maybe_prefer_stops|apply maybe_prefer_kept|].
  intros _ s3 Hk3. wp_step.
  pose proof (steady_seqs _ _ Hst2) as (B1 & B2 & B3 & B4 & B5).
  eapply wp_mono; [apply (update_after_insert_spec s2 s3 p); [done|done|done| |done]|].
  { cbn. lia. }
  intros [] s4 [[G Hheld] Hrec]. wp_step. split; [|split; [done|]].
  - eapply grown_steady; [exact Hst2|]. by eapply grown_window.
  - eapply (received_index s s2 s4); [|exact F2|exact F3|exact F4|exact F5|exact F6|exact F7|done..].
    unfold s2. rec_simpl_in_goal. rewrite F1. reflexivity.
Qed.

(** C6. A packet that was received before, or discarded, changes nothing: no packet,
    no sequence number, no queue of messages, no delivery. *)
Theorem handle_regular_duplicate (h : packet_header) (body : list Z) (s : St) :
  p_seq h <= Last_discarded s \/ held s (p_seq h) = true ->
  wp may_exit (handle_regular h body) (fun _ s' =>
    exists tr, s' = s <| trace := tr |>) s.
Proof.
  intros Hdup. unfold handle_regular. wp_step.
  eapply wp_mono with (Q := fun _ s' => exists tr, s' = s <| trace := tr |>).
  { unfold postpone_timers. do 2 wp_step. wp_step; [|exists (trace s); by destruct s].
    wp_step. apply wp_e_queue. intros tr. wp_step. unfold I_lead, leader_of.
    do 3 wp_step. wp_step; [done|]. do 3 wp_step. wp_step; [|by exists tr].
    apply wp_e_queue. intros tr'. by exists tr'. }
  intros [] s1 [tr ->]. do 2 wp_step. wp_step; [wp_step; by exists tr|].
  do 2 wp_step. wp_step; [wp_step; by exists tr|]. exfalso. bools_to_props.
  destruct Hdup as [Hd|Hd%held_true].
  - change (Last_discarded s < p_seq h) in H. lia.
  - apply Hd. done.
Qed.
End ReceiveProps.

(** The missing packet 4 arrives: 3 to 5 are delivered but 4 comes first. *)
Definition demo_new : packet_header := head (demo_packet (Set_endian AGREED_TYPE) 4).

Definition demo_new_packet : packet_info := mk_packet_info demo_new [4; 0; 0; 7] 1 1.

Lemma demo_new_is_new :
  (Last_discarded demo_held <? p_seq demo_new) && negb (held demo_held (p_seq demo_new)) = true.
Proof. vm_compute. reflexivity. Qed.
Lemma demo_new_known :
  Conf_proc_by_id_in_conf (Config demo_held) (p_proc_id demo_new) = Some (1, demo_b).
Proof. reflexivity. Qed.
Lemma demo_new_next :
  (p_seq (head demo_new_packet) =? My_aru demo_held + 1) = true /\
  bool_decide (State demo_held = EVS) || (AGREED_TYPE <? Prot_delivery_threshold demo_held) = false /\
  Last_delivered demo_held + 1 = 1.
Proof. vm_compute. repeat split. Qed.
Lemma demo_new_received s' : received demo_held demo_new_packet s' ->
  passed_up (undelivered (with_packet demo_held demo_new_packet) 1 (Last_delivered s')) demo_held s'.
Proof.
  destruct demo_new_next as (E1 & E2 & E3). unfold received. rewrite E1, E2, E3.
  intros [H _]. exact H.
Qed.

Example handle_regular_ordered_witness :
  wp ends (handle_regular demo_new [4; 0; 0; 7]) (fun _ s' =>
    grown demo_held s' /\ held s' 4 = true /\
    passed_up (undelivered (with_packet demo_held demo_new_packet) 1 (Last_delivered s')) demo_held s')
    demo_held.
Proof.
  eapply wp_mono; [apply (handle_regular_ordered demo_new [4; 0; 0; 7] demo_held)|].
  - apply ordered_check. vm_compute. reflexivity.
  - vm_compute. discriminate.
  - vm_compute. reflexivity.
  - vm_compute. discriminate.
  - intros [] s' [G H]. rewrite demo_new_is_new, demo_new_known in H. destruct H as [H1 H2].
    split; [exact G|]. split; [exact H1|]. exact (demo_new_received s' H2).
Defined.

Example handle_regular_run :
  ran (handle_regular demo_new [4; 0; 0; 7]) (demo_held <| Last_delivered := 2 |>)
    (fun _ s' => (My_aru s', Last_delivered s', delivered_bytes s')) =
    Some (5, 5, [[[3; 0; 0; 7]]; [[4; 0; 0; 7]]; [[5; 0; 0; 7]]]).
Proof. vm_compute. reflexivity. Qed.

Example handle_regular_duplicate_witness :
  wp may_exit (handle_regular (head (demo_packet AGREED_TYPE 5)) []) (fun _ s' =>
    exists tr, s' = demo_held <| trace := tr |>) demo_held.
Proof. apply handle_regular_duplicate. right. vm_compute. reflexivity. Defined.
