(* ===== verification/Send.v ===== *)
(** * Sending: new packets, the broadcast queue, messages from the sessions

    [Prot_new_message], [Send_new_packets], [Prot_queue_bcast] and
    [Prot_flush_bcast] of [protocol.c].  A packet that waits in
    [Send_pack_queue] shares its header with the entry of [Packets] it was
    inserted in; the queue holds the sequence number of that entry. *)

From S2P Require Import Prelude NetTypes Configuration State Network FlowControl.
From S2P Require Import SessionLayer Delivery.

Section Down.
Context {L : SpuLib} {X : Ext} {UL : UserLevels}.

(** ** Messages from the session layer *)

Definition Prot_set_down_queue (q : down_queue_name) : M St unit :=
  modify (fun s => s <| Down_queue_ptr := Some q |>).

Definition Prot_init_down_queues : M St unit :=
  modify (fun s => s <| Normal_down_queue := mk_down_queue 0 [] |>
                     <| Groups_down_queue := mk_down_queue 0 [] |>).

(** A leader hurries its own token; another daemon asks the leader. *)
Definition send_hurry : M St unit :=
  leader_id ← leader_of Memb_active_ptr;
  my ← gets My;
  hd ← gets Hurry_head;
  if leader_id =? id my then Handle_hurry hd
  else
    '(_, hd) ← Net_ucast leader_id hd [];
    modify (fun s => s <| Hurry_head := hd |>).

Definition Prot_new_message (l : down_link) : M St unit :=
  d ← get_down_queue;
  set_down_queue (mk_down_queue (cur_element d) (links d ++ [l]));;
  d ← get_down_queue;
  when (WATER_MARK <=? num_mess d) Sess_block_users_level;;
  d ← get_down_queue;
  hold ← gets Is_token_hold;
  when ((num_mess d =? 1) && hold) send_hurry.
End Down.

Section Send.
Context {L : SpuLib} {X : Ext} {SL : SessionLayer}.

(** ** The broadcast queue *)

(** Broadcast a packet with the current round; its header as left. *)
Definition bcast_now (h : packet_header) (body : list Z) : M St packet_header :=
  rounds ← gets Token_rounds;
  '(_, h) ← Net_bcast (h <| p_token_round := rounds |>) [body];
  mret h.

(** Send the first [n] packets of the queue. *)
Definition send_queued (n : nat) : M St unit :=
  for_each (zseq 0 n) (fun _ =>
    q ← gets Send_pack_queue;
    match q with
    | [] => undefined
    | seq :: q =>
        modify (fun s => s <| Send_pack_queue := q |>);;
        pk ← gets (fun s => packet_at s (entry_of seq));
        h ← bcast_now (head pk) (buf_get (body pk) 0 (p_data_len (head pk)));
        update_packet (entry_of seq) (fun p => p <| head := h |>)
    end).

Definition num_to_send (s : St) : Z :=
  let n := Z.of_nat (length (Send_pack_queue s)) in
  if negb (Accelerated_ring s) || st_eqb (State s) EVS then n else
  Z.min (Z.max (n - Accelerated_window s + 1) 0) n.

(** The new packet is broadcast at once, or it waits; its header as left. *)
Definition Prot_queue_bcast (h : packet_header) (body : list Z) : M St packet_header :=
  n ← gets num_to_send;
  send_queued (Z.to_nat n);;
  acc ← gets Accelerated_ring;
  win ← gets Accelerated_window;
  st ← gets State;
  if negb acc || (win =? 0) || st_eqb st EVS then bcast_now h body
  else modify (fun s => s <| Send_pack_queue ::= fun q => q ++ [p_seq h] |>);; mret h.

Definition Prot_flush_bcast : M St unit :=
  q ← gets Send_pack_queue;
  send_queued (length q).

(** ** New packets *)

(** The packet being filled: its header, its body, and the fragment header to
    write next ([None]: the one in the packet header). *)
Record filling := mk_filling {
  fl_head : packet_header; fl_body : list Z; fl_frag : option Z }.

Definition set_frag_index (f : filling) (index : Z) : filling :=
  match fl_frag f with
  | None =>
      let h := fl_head f in
      mk_filling (h <| p_first_frag ::= fun fr => mk_frag (i16 index) (fragment_len fr) |>)
        (fl_body f) None
  | Some off => mk_filling (fl_head f) (put_i16 (fl_body f) off index) (Some off)
  end.

(** The first element of the queue becomes a packet of its own. *)
Definition start_packet : M St filling :=
  d ← get_down_queue;
  l ← or_fail Undefined (links d !! 0%nat);
  my ← gets My;
  mid ← gets Memb_id;
  hs ← gets Highest_seq;
  modify (fun s => s <| Highest_seq ::= Z.succ |> <| Highest_fifo_seq ::= Z.succ |>);;
  e ← or_fail Undefined (arr_get (d_mess l) (cur_element d));
  let h := no_header <| p_type := d_type l |> <| p_proc_id := id my |> <| p_memb_id := mid |>
    <| p_seq := hs + 1 |> <| p_data_len := u16 (e_len e) |>
    <| p_first_frag := mk_frag 0 (i16 (e_len e)) |> in
  mret (mk_filling h (e_buf e) None).

(** The queue moves past the fragment just added, which gets its index:
    negative at the end of a message. *)
Definition advance_queue (f : filling) : M St filling :=
  d ← get_down_queue;
  l ← or_fail Undefined (links d !! 0%nat);
  let n := Z.of_nat (length (d_mess l)) in
  let cur := cur_element d + 1 in
  if cur <? n then
    set_down_queue (mk_down_queue cur (links d));;
    mret (set_frag_index f cur)
  else if cur =? n then
    set_down_queue (mk_down_queue 0 (tail (links d)));;
    d ← get_down_queue;
    when (num_mess d <? WATER_MARK) Sess_unblock_users_level;;
    mret (set_frag_index f (- i16 n))
  else fatal.

(** Two messages may share a packet. *)
Definition compatible (t1 t2 : Z) : bool :=
  (t1 =? t2) || ((Is_fifo t1 || Is_agreed t1) && (Is_fifo t2 || Is_agreed t2)).

(** One turn of the loop: advance, and add the next element if it fits. *)
Definition fill_step (f : filling) : M St (filling + filling) :=
  f ← advance_queue f;
  d ← get_down_queue;
  match links d with
  | [] => mret (inr f)
  | l :: _ =>
      let h := fl_head f in
      let padding := padding_of (p_data_len h) in
      let available :=
        sizeof_packet_body - p_data_len h - padding - sizeof_fragment_header in
      e ← or_fail Undefined (arr_get (d_mess l) (cur_element d));
      if available <? e_len e then mret (inr f) else
      if negb (compatible (p_type h) (d_type l)) then mret (inr f) else
      let len := i16 (e_len e) in
      undef_if (len <? 0);;
      let off := p_data_len h + padding in
      let body := buf_put (fl_body f) (off + sizeof_fragment_header)
                    (buf_get (e_buf e) 0 len) in
      let body := put_i16 body (off + 2) len in
      mret (inl (mk_filling
        (h <| p_data_len := u16 (off + sizeof_fragment_header + len) |>) body (Some off)))
  end.

(** Every turn but the last adds at least a fragment header to the body. *)
Definition build_packet : M St filling :=
  f ← start_packet;
  while_fuel (S (S (Z.to_nat sizeof_packet_body))) fill_step f.

Definition send_one_packet : M St unit :=
  f ← build_packet;
  let h := fl_head f in
  h ← Prot_queue_bcast h (buf_get (fl_body f) 0 (p_data_len h));
  pk ← gets (fun s => packet_at s (entry_of (p_seq h)));
  fatal_if (negb (exist pk =? 0));;
  my_index ← gets My_index;
  set_packet (entry_of (p_seq h)) (mk_packet_info h (fl_body f) 1 my_index).

(** Up to [num_allowed] packets, while there is something to send; the number
    sent. *)
Definition send_step (num_allowed : Z) (num_sent : Z) : M St (Z + Z) :=
  if num_allowed <=? num_sent then mret (inr num_sent) else
  d ← get_down_queue;
  if num_mess d =? 0 then mret (inr num_sent) else
  send_one_packet;;
  mret (inl (num_sent + 1)).

Definition Send_new_packets (num_allowed : Z) : M St Z :=
  while_fuel (S (Z.to_nat num_allowed)) (send_step num_allowed) 0.
End Send.
