(* ===== verification/SendProps.v ===== *)
(** * What sending packets changes

    A packet that is sent keeps its place, its number and its contents: only
    the header fields of the transmission are written.  New packets get the next
    sequence numbers. *)

From S2P Require Import Prelude NetTypes Configuration State Network NetFacts FlowControl.
From S2P Require Import SessionLayer Delivery DeliveryFacts MembSets Discard Order.
From S2P Require Import TokenLoss Form1 Membership Receive ReceiveProps Send Demo.

(** The fields of a header that say which packet it is and what is in it. *)
Record same_packet (h h' : packet_header) : Prop := {
  sp_proc_id : p_proc_id h' = p_proc_id h;
  sp_memb_id : p_memb_id h' = p_memb_id h;
  sp_seq : p_seq h' = p_seq h;
  sp_data_len : p_data_len h' = p_data_len h;
  sp_frag : p_first_frag h' = p_first_frag h }.

Lemma same_packet_refl h : same_packet h h.
Proof. by split. Qed.
Lemma same_packet_trans h1 h2 h3 : same_packet h1 h2 -> same_packet h2 h3 -> same_packet h1 h3.
Proof. intros [] []. split; congruence. Qed.
Lemma sent_as_same h h' : sent_as h h' -> same_packet h h'.
Proof. by intros []. Qed.

Section Resent.
Context {L : SpuLib} {X : Ext} {SL : SessionLayer}.

(** All of the protocol's variables but the packets, and the down queues. *)
Definition vars (s : St) :=
  (seqs s, membs s, confs s, memb_lists s, My_index s,
   (Normal_down_queue s, Groups_down_queue s, Down_queue_ptr s, Last_token s)).

Record resent (s s' : St) : Prop := {
  rs_vars : vars s' = vars s;
  rs_exist e : exist (packet_at s' e) = exist (packet_at s e);
  rs_body e : body (packet_at s' e) = body (packet_at s e);
  rs_head e : same_packet (head (packet_at s e)) (head (packet_at s' e)) }.

Lemma resent_refl s : resent s s.
Proof. by split. Qed.
Lemma resent_trans s1 s2 s3 : resent s1 s2 -> resent s2 s3 -> resent s1 s3.
Proof.
  intros [] []. split; intros; try congruence. eapply same_packet_trans; eauto.
Qed.
(** A step that leaves the packets alone. *)
Lemma resent_same s s' : vars s' = vars s -> Packets s' = Packets s -> resent s s'.
Proof.
  intros Hv Hp. split; [done|..]; intros e; unfold packet_at; by rewrite Hp.
Qed.

Lemma resent_vars s s' : resent s s' ->
  Aru s' = Aru s /\ My_aru s' = My_aru s /\ Highest_seq s' = Highest_seq s /\
  Last_discarded s' = Last_discarded s /\ Last_delivered s' = Last_delivered s.
Proof.
  intros [H _ _ _]. split_and!.
  - exact (f_equal (fun t => t.1.1.1.1.1.1.1.1.1.1.1) H).
  - exact (f_equal (fun t => t.1.1.1.1.1.1.1.1.1.1.2) H).
  - exact (f_equal (fun t => t.1.1.1.1.1.1.1.1.1.2) H).
  - exact (f_equal (fun t => t.1.1.1.1.1.1.1.2) H).
  - exact (f_equal (fun t => t.1.1.1.1.1.1.2) H).
Qed.

Lemma resent_held s s' i : resent s s' -> held s' i = held s i.
Proof. intros H. unfold held, packet_of. by rewrite (rs_exist _ _ H). Qed.

(** Writing back the header of a packet that was sent. *)
Lemma resent_update s e h : same_packet (head (packet_at s e)) h ->
  resent s (s <| Packets := <[e := (packet_at s e) <| head := h |>]> (Packets s) |>).
Proof.
  intros Hh. split; [done|..]; intros e'; rewrite packet_at_update;
    by destruct (decide (e = e')) as [<-|].
Qed.

Lemma wp_bcast_now (E : failure -> Prop) h b (Q : packet_header -> St -> Prop) s :
  E Fatal -> (forall h' tr, same_packet h h' -> Q h' (s <| trace := tr |>)) -> wp E (bcast_now h b) Q s.
Proof.
  intros HE HQ. unfold bcast_now. do 3 wp_step. apply wp_Net_bcast; [done|].
  intros r h' tr []. wp_step. apply HQ. by split.
Qed.

(** The trace does not count. *)
Lemma resent_trace s s' tr : resent s s' -> resent s (s' <| trace := tr |>).
Proof. intros H. eapply resent_trans; [exact H|]. by apply resent_same. Qed.

(** ** Retransmissions and the broadcast queue *)

Lemma send_queued_resent n s : wp ends (send_queued n) (fun _ => resent s) s.
Proof.
  unfold send_queued. apply wp_for_each; [apply resent_refl|]. intros i s1 _ H1.
  do 2 wp_step. destruct (Send_pack_queue s1) as [|seq q]; [by wp_step|].
  do 4 wp_step. wp_step. apply wp_bcast_now; [done|]. intros h' tr Hh.
  unfold update_packet. wp_step.
  eapply resent_trans; [exact H1|].
  eapply resent_trans; [|apply resent_update, Hh]. by apply resent_same.
Qed.

Lemma Prot_queue_bcast_resent h b s :
  wp ends (Prot_queue_bcast h b) (fun h' s' => resent s s' /\ same_packet h h') s.
Proof.
  unfold Prot_queue_bcast. do 3 wp_step. eapply wp_mono; [apply send_queued_resent|].
  intros [] s1 H1. do 6 wp_step. wp_step.
  - apply wp_bcast_now; [done|]. intros h' tr Hh. split; [by apply resent_trace|done].
  - do 3 wp_step. split; [|done]. eapply resent_trans; [exact H1|]. by apply resent_same.
Qed.

Lemma Prot_flush_bcast_resent s : wp ends Prot_flush_bcast (fun _ => resent s) s.
Proof. unfold Prot_flush_bcast. do 2 wp_step. apply send_queued_resent. Qed.

(** ** The packets without a condition on the next one *)

(** [ordered], while [My_aru] may lag behind the packets held. *)
Record loose (s : St) : Prop := {
  lo_delivered : Last_discarded s <= Last_delivered s <= My_aru s;
  lo_highest : My_aru s <= Highest_seq s <= Last_discarded s + MAX_PACKETS_IN_STRUCT;
  lo_held i : Last_discarded s < i <= My_aru s -> held s i = true;
  lo_seq e : exist (packet_at s e) <> 0 ->
    entry_of (p_seq (head (packet_at s e))) = e /\
    Last_discarded s < p_seq (head (packet_at s e)) <= Highest_seq s;
  lo_exist e : 0 <= exist (packet_at s e) <= 2;
  lo_done i : Last_discarded s < i <= Last_delivered s -> exist (packet_of s i) = 2 }.

Lemma ordered_loose s : ordered s -> loose s.
Proof. by intros []. Qed.

(** What the next steps leave alone. *)
Definition stay (s : St) := (Aru s, My_aru s, Last_discarded s, Last_delivered s, State s).

Lemma stay_fields s s' : stay s' = stay s ->
  Aru s' = Aru s /\ My_aru s' = My_aru s /\ Last_discarded s' = Last_discarded s /\
  Last_delivered s' = Last_delivered s /\ State s' = State s.
Proof. unfold stay. intros H. by injection H. Qed.

(** The same packets, under a highest sequence number that may have grown. *)
Lemma loose_ext s s' :
  stay s' = stay s -> Highest_seq s <= Highest_seq s' <= Last_discarded s + MAX_PACKETS_IN_STRUCT ->
  (forall e, exist (packet_at s' e) = exist (packet_at s e)) ->
  (forall e, p_seq (head (packet_at s' e)) = p_seq (head (packet_at s e))) ->
  loose s -> loose s'.
Proof.
  intros (_ & E1 & E2 & E3 & _)%stay_fields Hh Hx Hp [O1 O2 O3 O4 O5 O6].
  split; rewrite ?E1, ?E2, ?E3; try done; try lia.
  - intros i Hi. unfold held, packet_of. rewrite Hx. by apply O3.
  - intros e. rewrite Hx, Hp. intros He. destruct (O4 e He). split; [done|lia].
  - intros e. rewrite Hx. apply O5.
  - intros i. unfold packet_of. rewrite Hx. apply O6.
Qed.

Lemma resent_stay s s' : resent s s' -> stay s' = stay s /\ Highest_seq s' = Highest_seq s.
Proof.
  intros H. pose proof (resent_vars _ _ H) as (E1 & E2 & E3 & E4 & E5). destruct H as [Hv _ _ _].
  pose proof (f_equal (fun t => t.1.1.1.1.2.1.1.1.1.1.1.1.1.1.1.1) Hv) as E6. cbn in E6.
  unfold stay. split; congruence.
Qed.

Lemma resent_loose s s' : resent s s' -> loose s -> loose s'.
Proof.
  intros H HO. destruct (resent_stay _ _ H) as [Hs Hh]. pose proof (lo_highest s HO).
  eapply loose_ext; [done|lia|apply H| |done]. intros e. apply (rs_head _ _ H).
Qed.

(** A packet at the highest sequence number. *)
Lemma loose_insert s p : loose s -> p_seq (head p) = Highest_seq s -> exist p = 1 ->
  exist (packet_of s (Highest_seq s)) = 0 -> Last_discarded s < Highest_seq s ->
  loose (s <| Packets ::= insert (entry_of (Highest_seq s)) p |>).
Proof.
  intros HO Hp Hx Hnew Hlt. pose proof (lo_delivered s HO). pose proof (lo_highest s HO) as Hh.
  unfold MAX_PACKETS_IN_STRUCT in Hh.
  assert (Hh' : My_aru s < Highest_seq s).
  { apply Z.nle_gt. intros Hle. pose proof (lo_held s HO (Highest_seq s) ltac:(lia)) as Hb.
    apply held_true in Hb. congruence. }
  assert (Hother : forall i, Last_discarded s < i <= My_aru s ->
    packet_of (s <| Packets ::= insert (entry_of (Highest_seq s)) p |>) i = packet_of s i).
  { intros i Hi. unfold packet_of. rewrite packet_at_insert, decide_False; [done|].
    intros He. apply entry_of_inj in He; lia. }
  split; try apply HO.
  - intros i Hi. unfold held. rewrite Hother by done. by apply (lo_held s HO).
  - intros e. rewrite packet_at_insert. destruct (decide _) as [<-|]; [|apply (lo_seq s HO)].
    intros _. rewrite Hp. split; [done|]. rec_simpl_in_goal. lia.
  - intros e. rewrite packet_at_insert. destruct (decide _); [lia|apply (lo_exist s HO)].
  - intros i Hi. rewrite Hother; [by apply (lo_done s HO)|]. rec_simpl_in Hi. lia.
Qed.

(** [My_aru] caught up. *)
Lemma loose_advance s : loose s ->
  let n := advance_my_aru (My_aru s + 1) (Highest_seq s) s in
  ordered (s <| My_aru := n |>) /\ My_aru s <= n.
Proof.
  intros HO n. pose proof (lo_delivered s HO). pose proof (lo_highest s HO).
  destruct (count_while_zrange (held s) (My_aru s + 1) (Highest_seq s) (My_aru s))
    as (j & Hj & Hc & Ht & Hf); [lia|].
  assert (Hn : n = My_aru s + j) by exact Hc. clearbody n. subst n. split; [|lia].
  split; rec_simpl_in_goal; try apply HO; try lia.
  - intros i Hi. destruct (Z.leb_spec i (My_aru s)); [apply (lo_held s HO); lia|apply Ht; lia].
  - intros Hlt. replace (My_aru s + j + 1) with (My_aru s + 1 + j) by lia. apply Hf. lia.
Qed.
End Resent.

(** ** New packets *)

Section NewPackets.
Context {L : SpuLib} {X : Ext} {SL : SessionLayer} {HSL : SessionLaws SL}.

(** No element that waits has a negative length. *)
Definition link_ok (l : down_link) : Prop := Forall (fun e => 0 <= e_len e) (d_mess l).
Definition queues_ok (s : St) : Prop :=
  Forall link_ok (links (Normal_down_queue s)) /\ Forall link_ok (links (Groups_down_queue s)).

(** What filling a packet leaves alone. *)
Definition aside (s : St) := (stay s, Highest_seq s, Packets s).

Lemma downs_queues s s' : downs s' = downs s -> queues_ok s -> queues_ok s'.
Proof. unfold downs, queues_ok. intros H. injection H. by intros _ -> ->. Qed.

Lemma wp_get_down_queue (Q : down_queue -> St -> Prop) s :
  queues_ok s -> (forall d, Forall link_ok (links d) -> Q d s) -> wp ends get_down_queue Q s.
Proof.
  intros [H1 H2] HQ. unfold get_down_queue. do 2 wp_step.
  destruct (Down_queue_ptr s) as [[]|]; wp_step; auto.
Qed.

Lemma wp_set_down_queue d (Q : unit -> St -> Prop) s :
  queues_ok s -> Forall link_ok (links d) ->
  (forall s', aside s' = aside s -> queues_ok s' -> Q tt s') -> wp ends (set_down_queue d) Q s.
Proof.
  intros [H1 H2] Hd HQ. unfold set_down_queue. do 2 wp_step.
  destruct (Down_queue_ptr s) as [[]|]; wp_step; try done; apply HQ; done.
Qed.

Lemma wp_unblock (Q : unit -> St -> Prop) s :
  queues_ok s -> (forall s', aside s' = aside s -> queues_ok s' -> Q tt s') ->
  wp ends Sess_unblock_users_level Q s.
Proof.
  intros Hq HQ. eapply wp_mono with (Q := fun _ s' => lower s' = lower s /\ downs s' = downs s).
  - apply wp_conj; [|apply law_unblock_downs].
    apply (wp_upcall ends _ _ s); [apply law_unblock|done|done|done].
  - intros [] s' [Hl Hd]. apply HQ; [|by eapply downs_queues].
    pose proof (lower_seqs _ _ Hl) as H1. pose proof (lower_stores _ _ Hl) as H2.
    pose proof (lower_membs _ _ Hl) as H3. unfold seqs, stores, membs in *.
    injection H1. injection H2. injection H3. intros. unfold aside, stay. congruence.
Qed.

(** The number of the packet being filled is never written again. *)
Lemma set_frag_index_head f i :
  p_seq (fl_head (set_frag_index f i)) = p_seq (fl_head f) /\
  p_data_len (fl_head (set_frag_index f i)) = p_data_len (fl_head f).
Proof. unfold set_frag_index. by destruct (fl_frag f). Qed.

Lemma advance_queue_spec f s : queues_ok s ->
  wp ends (advance_queue f) (fun f' s' => aside s' = aside s /\ queues_ok s' /\
    p_seq (fl_head f') = p_seq (fl_head f) /\ p_data_len (fl_head f') = p_data_len (fl_head f)) s.
Proof.
  intros Hq. unfold advance_queue. wp_step. apply wp_get_down_queue; [done|]. intros d Hd.
  wp_step. wp_step; [done|]. destruct (links d) as [|l ls] eqn:El; [done|].
  wp_step.
  - wp_step. apply wp_set_down_queue; [done|done|]. intros s1 H1 Hq1. wp_step.
    split_and!; [done|done|apply set_frag_index_head..].
  - wp_step; [|by wp_step]. wp_step. apply wp_set_down_queue; [done| |].
    { by apply Forall_cons in Hd as [_ ?]. }
    intros s1 Ha1 Hq1. wp_step. apply wp_get_down_queue; [done|]. intros d1 Hd1. wp_step.
    eapply wp_mono with (Q := fun _ s' => aside s' = aside s /\ queues_ok s').
    { wp_step; [|done]. apply wp_unblock; [done|]. intros s2 Ha2 Hq2. split; [congruence|done]. }
    intros [] s2 [Ha2 Hq2]. wp_step. split_and!; [done|done|apply set_frag_index_head..].
Qed.

(** A packet is filled within its size; the loop ends, since every turn adds a
    fragment header at least. *)
Hypothesis Hsize : sizeof_packet_body < 65536.

Definition room_left (f : filling) : Z :=
  Z.max 0 (sizeof_packet_body - p_data_len (fl_head f)) + 1.

Lemma padding_range n : 0 <= padding_of n.
Proof. pose proof (padding_of_range n). lia. Qed.

Lemma i16_nonneg x : 0 <= x < 65536 -> 0 <= i16 x -> i16 x = x.
Proof.
  intros Hx Hi. apply i16_id. split; [lia|]. apply Z.nle_gt. intros Hge.
  unfold i16 in Hi. rewrite <-(Z.mod_add _ (-1)), Z.mod_small in Hi by lia. lia.
Qed.

Lemma fill_step_spec f s : queues_ok s -> 0 <= p_data_len (fl_head f) ->
  wp ends (fill_step f) (fun r s' => aside s' = aside s /\ queues_ok s' /\
    match r with
    | inl f' => p_seq (fl_head f') = p_seq (fl_head f) /\ 0 <= p_data_len (fl_head f') /\
        0 <= room_left f' < room_left f
    | inr f' => p_seq (fl_head f') = p_seq (fl_head f)
    end) s.
Proof.
  intros Hq Hlen. unfold fill_step. wp_step. eapply wp_mono; [by apply advance_queue_spec|].
  intros f1 s1 (Ha & Hq1 & Hs1 & Hl1). wp_step. apply wp_get_down_queue; [done|]. intros d Hd.
  destruct (links d) as [|l ls]; [by wp_step|]. apply Forall_cons in Hd as [Hl _].
  wp_step. wp_step; [done|]. unfold arr_get in H. destruct (_ <? 0) in H; [done|].
  pose proof (Forall_lookup_1 _ _ _ _ Hl H) as He. cbn in He. rewrite Hl1.
  wp_step; [by wp_step|]. wp_step; [by wp_step|]. wp_step. wp_step; [done|]. wp_step.
  split; [done|]. split; [done|]. split; [done|]. bools_to_props.
  pose proof (padding_range (p_data_len (fl_head f))). unfold sizeof_fragment_header in *.
  rewrite (i16_nonneg (e_len a)) by lia. cbn [fl_head]. rec_simpl_in_goal.
  rewrite u16_id by lia. split; [lia|]. unfold room_left. cbn [fl_head]. rec_simpl_in_goal.
  lia.
Qed.

Lemma build_packet_spec s : queues_ok s ->
  wp ends build_packet (fun f s' => stay s' = stay s /\ Packets s' = Packets s /\
    Highest_seq s' = Highest_seq s + 1 /\ queues_ok s' /\
    p_seq (fl_head f) = Highest_seq s + 1) s.
Proof.
  intros Hq. unfold build_packet, start_packet. wp_step. wp_step.
  apply wp_get_down_queue; [done|]. intros d Hd. wp_step. wp_step; [done|]. do 9 wp_step.
  wp_step; [done|]. wp_step. set (f0 := mk_filling _ _ None).
  set (s1 := s <| Highest_seq ::= Z.succ |> <| Highest_fifo_seq ::= Z.succ |>).
  apply wp_while with (mu := room_left) (I := fun f s' => aside s' = aside s1 /\ queues_ok s' /\
    p_seq (fl_head f) = Highest_seq s + 1 /\ 0 <= p_data_len (fl_head f)).
  - unfold room_left. change (p_data_len (fl_head f0)) with (u16 (e_len a0)).
    pose proof (u16_range (e_len a0)). lia.
  - split_and!; [done|done|done|]. apply u16_range.
  - intros f s2 (Ha & Hq2 & Hs & Hl). eapply wp_mono; [by apply fill_step_spec|].
    intros r s3 (Ha3 & Hq3 & Hr). destruct r as [f'|f'].
    + destruct Hr as (Hs' & Hl' & Hmu). split_and!; try done; congruence || lia.
    + rewrite Ha in Ha3. unfold aside in Ha3. injection Ha3 as E1 E2 E3 E4 E5 E6 E7.
      unfold stay. split_and!; [congruence|done| |done|congruence]. rewrite E6. done.
Qed.

Lemma resent_queues s s' : resent s s' -> queues_ok s -> queues_ok s'.
Proof.
  intros [H _ _ _]. pose proof (f_equal snd H) as Hd. cbn in Hd. injection Hd as E1 E2 E3 E4.
  unfold queues_ok. by rewrite E1, E2.
Qed.

(** One more packet: the next sequence number, held. *)
Lemma send_one_packet_spec s : loose s -> queues_ok s ->
  Highest_seq s < Last_discarded s + MAX_PACKETS_IN_STRUCT ->
  wp ends send_one_packet (fun _ s' => stay s' = stay s /\
    Highest_seq s' = Highest_seq s + 1 /\ loose s' /\ queues_ok s' /\
    held s' (Highest_seq s') = true /\
    (forall i, Last_discarded s < i <= Highest_seq s -> held s' i = held s i)) s.
Proof.
  intros HO Hq Hwin. unfold send_one_packet. wp_step.
  eapply wp_mono; [by apply build_packet_spec|]. intros f s1 (Hs1 & Hp1 & Hh1 & Hq1 & Hf).
  pose proof (stay_fields _ _ Hs1) as (_ & A2 & A3 & A4 & _).
  pose proof (lo_delivered s HO). pose proof (lo_highest s HO).
  assert (HO1 : loose s1).
  { apply (loose_ext s); try done; [rewrite Hh1; lia|..]; intros e; unfold packet_at; by rewrite Hp1. }
  wp_step. eapply wp_mono; [apply Prot_queue_bcast_resent|]. intros h s2 [H2 Hsame].
  destruct (resent_stay _ _ H2) as [Hs2 Hh2]. pose proof (resent_loose _ _ H2 HO1) as HO2.
  pose proof (stay_fields _ _ Hs2) as (_ & B2 & B3 & B4 & _).
  do 4 wp_step; [done|]. do 2 wp_step. unfold set_packet. wp_step.
  assert (Hseq : p_seq h = Highest_seq s2).
  { rewrite (sp_seq _ _ Hsame), Hf, Hh2. lia. }
  rewrite Hseq in *. split_and!.
  - unfold stay in *. rewrite <-Hs1, <-Hs2. done.
  - rec_simpl_in_goal. lia.
  - apply loose_insert; [done|done|done| |lia]. unfold packet_of. bools_to_props. done.
  - by apply (resent_queues _ _ H2).
  - unfold held, packet_of. rewrite packet_at_insert. rec_simpl_in_goal. by rewrite decide_True.
  - intros i Hi. unfold MAX_PACKETS_IN_STRUCT in *. unfold held at 1, packet_of.
    rewrite packet_at_insert, decide_False.
    + fold (packet_of s2 i). fold (held s2 i). rewrite (resent_held _ _ _ H2).
      unfold held, packet_of, packet_at. by rewrite Hp1.
    + intros He. apply entry_of_inj in He; lia.
Qed.

(** At most [num_allowed] packets are sent; they get the sequence numbers that
    follow the highest one, and are held. *)
Lemma Send_new_packets_spec (num_allowed : Z) (s : St) : loose s -> queues_ok s ->
  0 <= num_allowed -> Highest_seq s + num_allowed <= Last_discarded s + MAX_PACKETS_IN_STRUCT ->
  wp ends (Send_new_packets num_allowed) (fun num_sent s' => stay s' = stay s /\
    0 <= num_sent <= num_allowed /\ Highest_seq s' = Highest_seq s + num_sent /\ loose s' /\
    (forall i, Highest_seq s < i <= Highest_seq s' -> held s' i = true)) s.
Proof.
  intros HO Hq Hn Hwin. unfold Send_new_packets.
  set (inv := fun n s' => stay s' = stay s /\ 0 <= n <= num_allowed /\
    Highest_seq s' = Highest_seq s + n /\ loose s' /\ queues_ok s' /\
    forall i, Highest_seq s < i <= Highest_seq s' -> held s' i = true).
  apply wp_while with (mu := fun n => num_allowed - n) (I := inv).
  - lia.
  - unfold inv. split_and!; try done; lia.
  - intros n s1 (Hs & Hr & Hh & HO1 & Hq1 & Hheld). unfold send_step.
    assert (Hdone : wp ends (mret (inr n) : M St (Z + Z)) (fun r s' => match r with
      | inl x' => inv x' s' /\ 0 <= num_allowed - x' < num_allowed - n
      | inr n => stay s' = stay s /\ 0 <= n <= num_allowed /\ Highest_seq s' = Highest_seq s + n /\
          loose s' /\ forall i, Highest_seq s < i <= Highest_seq s' -> held s' i = true end) s1).
    { by wp_step. }
    wp_step; [done|]. wp_step. apply wp_get_down_queue; [done|]. intros d Hd. wp_step; [done|].
    wp_step. pose proof (stay_fields _ _ Hs) as (_ & _ & A3 & _). bools_to_props.
    eapply wp_mono; [apply send_one_packet_spec; [done|done|lia]|].
    intros [] s2 (Hs2 & Hh2 & HO2 & Hq2 & Hheld2 & Hkeep). wp_step.
    unfold inv. split; [|lia]. split_and!; try done; try congruence; try lia.
    intros i Hi. destruct (Z.eq_dec i (Highest_seq s2)) as [->|]; [done|].
    pose proof (lo_delivered s HO). pose proof (lo_highest s HO).
    rewrite Hkeep by lia. apply Hheld. lia.
Qed.
End NewPackets.
