(* ===== verification/Token.v ===== *)
(** * The token: [Prot_handle_token]

    The visit of a token: whether it is taken, the retransmissions it asks for,
    the new packets, the requests added to it, the all-received-up-to value it
    carries, and what may be delivered and discarded after it. *)

From S2P Require Import Prelude NetTypes Configuration State Network FlowControl.
From S2P Require Import SessionLayer Delivery MembSets Discard TokenLoss.
From S2P Require Import Form1 Membership Receive Send.

(** ** Flipping the requests of a token *)

Definition flip_ring_rtr (r : ring_rtr) : ring_rtr :=
  mk_ring_rtr (flip_memb_id (r_memb_id r)) (i32 (Flip_int32 (r_proc_id r)))
    (i16 (Flip_int16 (r_seg_index r))) (i16 (Flip_int16 (r_num_seq r))).

(** One ring's requests at [ptr]: the buffer and the offset of the next ring. *)
Definition flip_requests (buf : list Z) (ptr : Z) : M unit (list Z * Z) :=
  undef_if (negb (in_buffer sizeof_token_body ptr sizeof_ring_rtr));;
  let r := flip_ring_rtr (get_ring_rtr buf ptr) in
  let buf := buf_put buf ptr (ring_rtr_bytes r) in
  for_fold (zrange 0 (r_num_seq r - 1)) (buf, ptr + sizeof_ring_rtr) (fun _ x =>
    let '(b, p) := x in b ← flip_at sizeof_token_body b p; mret (b, p + 4)).

Definition flip_token_step (rtr_len : Z) (x : list Z * Z)
  : M unit (list Z * Z + list Z) :=
  let '(buf, ptr) := x in
  if rtr_len <=? ptr then mret (inr buf) else
  x ← flip_requests buf ptr; mret (inl x).

Definition Flip_token_body (buf : list Z) (rtr_len : Z) : M unit (list Z) :=
  if rtr_len <=? 0 then mret buf else
  while_fuel (S (Z.to_nat rtr_len)) (flip_token_step rtr_len) (buf, 0).

Section Token.
Context {L : SpuLib} {X : Ext} {SL : SessionLayer}.

(** ** Retransmissions *)

(** What [Answer_retrans] carries along: retransmissions sent, the requests
    of other rings kept (the first [new_ptr] bytes of the buffer, compacted in
    place), and whom my requests are answered by. *)
Record retrans := mk_retrans {
  rt_num : Z; rt_kept : list Z; rt_proc_id : Z; rt_seg_index : Z }.

(** A packet is sent again: to the daemon, the segment or the ring that
    misses it. *)
Definition resend (r : ring_rtr) (entry : Z) : M St unit :=
  pk ← gets (fun s => packet_at s entry);
  undef_if (exist pk =? 3);;
  let h := head pk in
  let els := [buf_get (body pk) 0 (p_data_len h)] in
  '(_, h) ← (if negb (r_proc_id r =? -1) then
               modify (fun s => s <| gs_u_retrans ::= Z.succ |>);; Net_ucast (r_proc_id r) h els
             else if negb (r_seg_index r =? -1) then
               modify (fun s => s <| gs_s_retrans ::= Z.succ |>);; Net_scast (r_seg_index r) h els
             else
               modify (fun s => s <| gs_b_retrans ::= Z.succ |>);; Net_bcast h els);
  update_packet entry (fun p => p <| head := h |>).

Definition answer_request (r : ring_rtr) (seq : Z) (x : retrans) : M St retrans :=
  aru ← gets Aru;
  fatal_if (seq <? aru);;
  my ← gets My;
  pk ← gets (fun s => packet_at s (entry_of seq));
  if negb (exist pk =? 0) then
    resend r (entry_of seq);;
    mret (mk_retrans (rt_num x + 1) (rt_kept x) (rt_proc_id x) (rt_seg_index x))
  else
    mret (mk_retrans (rt_num x) (rt_kept x) (-1)
            (if negb (r_seg_index r =? seg_index my) then -1 else rt_seg_index x)).

(** One ring's requests at [old_ptr].  The move of another ring's entry by a
    negative number of bytes is undefined (the code also goes backwards). *)
Definition answer_ring (buf : list Z) (old_ptr : Z) (x : retrans) : M St (Z * retrans) :=
  undef_if (negb (in_buffer sizeof_token_body old_ptr sizeof_ring_rtr));;
  let r := get_ring_rtr buf old_ptr in
  mid ← gets Memb_id;
  if Memb_is_equal (r_memb_id r) mid then
    x ← for_fold (zrange 0 (r_num_seq r - 1)) x (fun i x =>
      let p := old_ptr + sizeof_ring_rtr + 4 * i in
      undef_if (negb (in_buffer sizeof_token_body p 4));;
      answer_request r (get_i32 buf p) x);
    mret (old_ptr + sizeof_ring_rtr + 4 * Z.max 0 (r_num_seq r), x)
  else
    let bytes := sizeof_ring_rtr + 4 * r_num_seq r in
    undef_if ((bytes <? 0) || negb (in_buffer sizeof_token_body old_ptr bytes));;
    mret (old_ptr + bytes,
          mk_retrans (rt_num x) (rt_kept x ++ buf_get buf old_ptr bytes)
            (rt_proc_id x) (rt_seg_index x)).

Definition answer_step (buf : list Z) (rtr_len : Z) (y : Z * retrans)
  : M St (Z * retrans + retrans) :=
  let '(old_ptr, x) := y in
  if rtr_len <=? old_ptr then mret (inr x) else
  y ← answer_ring buf old_ptr x; mret (inl y).

(** [Token->rtr_len] and the token's body; every ring moves [old_ptr] on, but
    one with a negative count, with which the loop may not end. *)
Definition Answer_retrans (buf : list Z) (rtr_len : Z) : M St retrans :=
  my ← gets My;
  while_fuel (S (Z.to_nat rtr_len)) (answer_step buf rtr_len)
    (0, mk_retrans 0 [] (id my) (seg_index my)).

(** ** Whether the token is taken *)

(** The sender, the membership and the length are the expected ones. *)
Definition token_expected (h : token_header) (ret : Z) : M St bool :=
  alive ← gets Token_alive;
  if negb alive then mret false else
  mid ← gets Memb_active_id;
  if negb (Memb_is_equal (t_memb_id h) mid) then mret false else
  my ← gets My;
  memb ← gets Memb_active_ptr;
  prev ← or_fail Fatal (Conf_previous my memb);
  if negb (t_transmiter_id h =? prev) then mret false else
  mret (ret =? sizeof_token_header + t_rtr_len h).

(** Sequence numbers about to wrap: the token is swallowed. *)
Definition token_wrapped (h : token_header) (s : St) : bool :=
  negb (st_eqb (State s) EVS) && (MAX_WRAP_SEQUENCE_VALUE <? t_seq h).

(** The first token after a membership was installed. *)
Definition just_installed : M St unit :=
  j ← gets Memb_Just_Installed;
  when j (modify (fun s => s <| Memb_Just_Installed := false |>
    <| Last_token ::= fun t => t <| t_aru := 0 |> |>)).

(** The number of the token: the leader takes the one it sent, another daemon
    the next one; a repeated token may ask to send the last one again. *)
Definition token_in_turn (h : token_header) : M St bool :=
  lead ← I_lead;
  last ← gets Last_token;
  if lead : bool then
    if negb (Get_arq (t_type h) =? Get_arq (t_type last)) then mret false
    else just_installed;; mret true
  else if Get_arq (t_type h) =? Get_arq (t_type last) then
    when (Get_retrans (t_type last) <? Get_retrans (t_type h))
      (modify (fun s => s <| Last_token ::= fun t =>
         t <| t_type := Set_retrans (t_type t) (Get_retrans (t_type h)) |> |>);;
       Prot_token_hurry);;
    mret false
  else if negb (Get_arq (t_type h) =? (Get_arq (t_type last) + 1) mod 16) then mret false
  else
    just_installed;;
    when (0 <? Get_retrans (t_type h)) (modify (fun s => s <| gs_token_hurry ::= Z.succ |>));;
    mret true.

(** ** The requests for what this daemon misses *)

Definition u64 (x : Z) : Z := x mod 18446744073709551616.

(** The entries that still fit, computed in [size_t] and assigned to an [int]. *)
Definition retrans_allowed (new_ptr : Z) : Z :=
  i32 (u64 (sizeof_token_body - new_ptr - sizeof_ring_rtr) / 4).

Fixpoint requests (s : St) (l : list Z) (allowed : nat) : list Z :=
  match l, allowed with
  | [], _ | _, O => []
  | i :: l, S n =>
      if exist (packet_at s (entry_of i)) =? 0 then i :: requests s l n
      else requests s l allowed
  end.

(** The body of the token from what was kept of it. *)
Definition add_requests (x : retrans) (max_rtr_seq : Z) (s : St) : list Z :=
  let kept := rt_kept x in
  let allowed := retrans_allowed (Z.of_nat (length kept)) in
  if (My_aru s <? max_rtr_seq) && (1 <? allowed) then
    let l := requests s (zrange (My_aru s + 1) max_rtr_seq) (Z.to_nat allowed) in
    kept ++ ring_rtr_bytes (mk_ring_rtr (Memb_id s) (rt_proc_id x) (rt_seg_index x)
              (Z.of_nat (length l))) ++ concat (map bytes32 l)
  else kept.

Definition max_rtr_seq (s : St) : Z :=
  if Accelerated_ring s && negb (st_eqb (State s) EVS)
  then t_seq (Last_token s) else Highest_seq s.

(** In EVS, all there is to recover was: commit to the members. *)
Definition evs_commit : M St unit :=
  st ← gets State;
  ma ← gets My_aru;
  hs ← gets Highest_seq;
  when (st_eqb st EVS && (ma =? hs))
    (modify (fun s => s <| My_aru := Last_seq s |>);; Memb_commit).

(** ** The token that goes on *)

(** The flow control count of the ring: what this daemon sent in this visit
    instead of what it sent in the one before. *)
Definition flow_control_update (h : token_header) (num_retrans num_sent : Z)
  : M St token_header :=
  lr ← gets Last_num_retrans;
  ls ← gets Last_num_sent;
  modify (fun s => s <| Last_num_retrans := num_retrans |> <| Last_num_sent := num_sent |>);;
  mret (h <| t_flow_control := i16 (t_flow_control h - lr - ls + num_retrans + num_sent) |>).

(** [Token->aru]: lowered to [My_aru]; raised to it by the daemon that lowered
    it, or when all received everything. *)
Definition token_aru (h : token_header) (s : St) : token_header :=
  if (My_aru s <? t_aru h) || (t_aru_last_id h =? id (My s)) ||
     ((t_aru h =? t_seq h) && negb (st_eqb (State s) EVS))
  then h <| t_aru := My_aru s |> <| t_aru_last_id := id (My s) |>
  else h.

Definition token_stamp (h : token_header) (s : St) : token_header :=
  let h := h <| t_proc_id := id (My s) |> in
  if negb (st_eqb (State s) EVS) then h <| t_seq := Highest_seq s |> else h.

(** The leader gives the token its next number. *)
Definition token_next_arq (t : Z) : Z :=
  Set_retrans (Set_arq t ((Get_arq t + 1) mod 16)) 0.

Definition send_token (h : token_header) (rtr : list Z) : M St token_header :=
  '(_, h) ← Net_send_token h [rtr];
  if 1 <? Get_retrans (t_type h) then
    '(_, h) ← Net_send_token h [rtr];
    '(_, h) ← Net_send_token h [rtr];
    mret h
  else mret h.

(** The body of the token is [rtr]. *)
Definition pass_token (h : token_header) (rtr : list Z) : M St token_header :=
  h ← gets (token_aru (h <| t_rtr_len := u16 (Z.of_nat (length rtr)) |>));
  h ← gets (token_stamp h);
  lead ← I_lead;
  let h := if lead : bool then h <| t_type ::= token_next_arq |> else h in
  hold ← gets To_hold_token;
  h ← (if lead && hold then mret h else send_token h rtr);
  modify (fun s => s <| Token_rounds ::= Z.succ |>);;
  lead ← I_lead;
  when lead (e_queue Prot_token_hurry_event Hurry_timeout);;
  e_queue Memb_token_loss_event Token_timeout;;
  mret h.

(** [Aru]: what two visits of the token agree on; it is never lowered. *)
Definition update_aru (h : token_header) : M St unit :=
  last ← gets Last_token;
  aru ← gets Aru;
  let new := if t_aru last <? t_aru h then t_aru last else t_aru h in
  fatal_if (new <? aru);;
  modify (fun s => s <| Aru := new |>).

Definition count_idle_round : M St unit :=
  modify (fun s => s <| Token_counter :=
    if Highest_seq s =? Aru s then Token_counter s + 1 else 0 |>).

(** ** What the daemon does with its new knowledge *)

Definition deliver_after_token (num_sent : Z) : M St unit :=
  Discard_packets;;
  Deliver_agreed_packets;;
  hs ← gets Highest_seq;
  Deliver_reliable_packets (hs - num_sent + 1) num_sent.

Definition limit_evs_rounds : M St unit :=
  st ← gets State;
  rounds ← gets Token_rounds;
  when (st_eqb st EVS && (MAX_EVS_ROUNDS <? rounds)) Memb_token_loss.

(** ** The visit of a token that is taken *)

Definition token_begin (h : token_header) : M St unit :=
  modify (fun s => s <| Highest_seq ::= Z.max (t_seq h) |>
    <| Received_token_rounds ::= Z.succ |>);;
  prio ← gets Token_has_priority;
  when prio prefer_bcast.

(** Answers, new packets and requests: the token, its body and what was sent. *)
Definition token_work (h : token_header) (body : list Z)
  : M St (token_header * list Z * Z) :=
  x ← Answer_retrans body (t_rtr_len h);
  modify (fun s => s <| gs_retrans ::= Z.add (rt_num x) |>);;
  num_allowed ← gets (FC_allowed (t_flow_control h) (rt_num x));
  num_sent ← Send_new_packets num_allowed;
  modify (fun s => s <| gs_packet_sent ::= Z.add num_sent |>);;
  h ← flow_control_update h (rt_num x) num_sent;
  modify (fun s => s <| My_aru := advance_my_aru (My_aru s + 1) (Highest_seq s) s |>);;
  modify (fun s => s <| gs_my_aru := My_aru s |>);;
  m ← gets max_rtr_seq;
  rtr ← gets (add_requests x m);
  evs_commit;;
  mret (h, rtr, num_sent).

Definition token_end (h : token_header) (num_sent : Z) : M St unit :=
  Prot_flush_bcast;;
  update_aru h;;
  count_idle_round;;
  modify (fun s => s <| Last_token := h |>);;
  deliver_after_token num_sent;;
  limit_evs_rounds;;
  modify (fun s => s <| gs_highest_seq := Highest_seq s |> <| gs_aru := Aru s |>
    <| gs_token_rounds := Token_rounds s |>).

Definition process_token (h : token_header) (body : list Z) : M St unit :=
  token_begin h;;
  '(h, rtr, num_sent) ← token_work h body;
  h ← pass_token h rtr;
  token_end h num_sent.

(** A regular token, [ret] bytes of it. *)
Definition handle_regular_token (h : token_header) (body : list Z) (ret : Z) : M St unit :=
  expected ← token_expected h ret;
  if negb expected then mret tt else
  body ← (if Same_endian (t_type h) then mret body
          else pure_code (Flip_token_body body (t_rtr_len h)));
  wrapped ← gets (token_wrapped h);
  if wrapped : bool then mret tt else
  turn ← token_in_turn h;
  when turn (process_token h body).

Definition Prot_handle_token (r : recvd token_header) : M St unit :=
  '(ret, h) ← Net_recv_token r;
  if ret <=? 0 then mret tt else
  if Is_form (t_type h) then Memb_handle_token h (rc_body r)
  else handle_regular_token h (rc_body r) ret.
End Token.
