(* ===== verification/TokenBody.v ===== *)
(** * The body of the token: what is asked for, and how it is answered

    The body is a sequence of entries, one per ring: a [ring_rtr] and the
    sequence numbers its daemons miss.  [Answer_retrans] and [Flip_token_body]
    walk over its bytes; here they are compared with what they do entry by
    entry, and [add_requests] with the packets that are missing. *)

From S2P Require Import Prelude NetTypes Configuration State Network NetFacts FlowControl SessionLayer Demo.
From S2P Require Import Delivery DeliveryFacts MembSets Discard Order TokenLoss Form1 Membership Receive.
From S2P Require Import Send SendProps Token.

(** ** Entries *)

Definition entry : Type := ring_rtr * list Z.
Definition entry_bytes (e : entry) : list Z := ring_rtr_bytes e.1 ++ concat (map bytes32 e.2).
Definition entries_bytes (es : list entry) : list Z := concat (map entry_bytes es).
Definition is_entry (e : entry) : Prop :=
  is_ring_rtr e.1 /\ r_num_seq e.1 = Z.of_nat (length e.2) /\ Forall is_i32 e.2.

Lemma length_seqs l : length (concat (map bytes32 l)) = (4 * length l)%nat.
Proof. induction l; [done|]. cbn [map concat]. rewrite length_app, length_bytes32. cbn. lia. Qed.
Lemma length_entry_bytes e : length (entry_bytes e) = (16 + 4 * length e.2)%nat.
Proof. unfold entry_bytes. by rewrite length_app, length_ring_rtr_bytes, length_seqs. Qed.

(** Reading the [i]-th sequence number of an entry. *)
Lemma get_seq pre l post i off : (i < length l)%nat -> Z.to_nat off = length pre -> 0 <= off ->
  Forall is_i32 l ->
  Some (get_i32 (pre ++ concat (map bytes32 l) ++ post) (off + 4 * Z.of_nat i)) = l !! i.
Proof.
  revert pre i off. induction l as [|x l IH]; intros pre i off Hi Hoff H0 Hl; [by inversion Hi|].
  apply Forall_cons in Hl as [Hx Hl]. cbn [map concat]. rewrite <-app_assoc. destruct i as [|i].
  - rewrite get_i32_app by lia. cbn. by rewrite i32_id.
  - cbn [lookup list_lookup]. rewrite app_assoc.
    replace (off + 4 * Z.of_nat (S i)) with (off + 4 + 4 * Z.of_nat i) by lia.
    apply IH; [cbn in Hi; lia| |lia|done]. rewrite length_app, length_bytes32. lia.
Qed.

(** A loop over the sequence numbers, by their offsets. *)
Lemma for_fold_get {T B} (pre l post : list Z) (off : Z) (x : B) (k : Z -> B -> M T B)
    (f : Z -> Z) s (g : Z -> B -> M T B) :
  Z.to_nat off = length pre -> 0 <= off -> Forall is_i32 l ->
  (forall i y s', 0 <= i < Z.of_nat (length l) ->
     k i y s' = g (get_i32 (pre ++ concat (map bytes32 l) ++ post) (off + 4 * i)) y s') ->
  for_fold (zrange 0 (Z.of_nat (length l) - 1)) x k s = for_fold l x g s.
Proof.
  intros Hoff H0 Hl Hk.
  assert (H : forall n i y s', (i + n = length l)%nat ->
    for_fold (zseq (Z.of_nat i) n) y k s' = for_fold (drop i l) y g s').
  { induction n as [|n IH]; intros i y s' Hn; cbn [zseq for_fold].
    - rewrite drop_ge by lia. done.
    - destruct (lookup_lt_is_Some_2 l i) as [z Hz]; [lia|].
      rewrite (drop_S _ _ _ Hz). cbn [for_fold]. unfold mbind, M_bind. rewrite Hk by lia.
      pose proof (get_seq pre l post i off ltac:(lia) Hoff H0 Hl) as Hg. rewrite Hz in Hg.
      injection Hg as ->. destruct (g z y s'); [|done].
      replace (Z.of_nat i + 1) with (Z.of_nat (S i)) by lia. apply IH. lia. }
  unfold zrange. specialize (H (length l) 0%nat x s eq_refl).
  replace (Z.to_nat (Z.of_nat (length l) - 1 - 0 + 1)) with (length l) by lia. exact H.
Qed.

Section Body.
Context {L : SpuLib} {X : Ext} {SL : SessionLayer}.

(** ** [Answer_retrans], entry by entry *)

(** My ring's requests are answered one by one; another ring's are kept. *)
Definition answer_entry (e : entry) (x : retrans) : M St retrans :=
  mid ← gets Memb_id;
  if Memb_is_equal (r_memb_id e.1) mid then for_fold e.2 x (answer_request e.1)
  else mret (mk_retrans (rt_num x) (rt_kept x ++ entry_bytes e) (rt_proc_id x) (rt_seg_index x)).

Definition answer_entries (es : list entry) : M St retrans :=
  my ← gets My; for_fold es (mk_retrans 0 [] (id my) (seg_index my)) answer_entry.

Lemma get_entry pre e post : is_entry e ->
  get_ring_rtr (pre ++ entry_bytes e ++ post) (Z.of_nat (length pre)) = e.1.
Proof.
  intros [He _]. unfold entry_bytes. rewrite <-app_assoc. apply get_ring_rtr_app; lia || done.
Qed.

Lemma in_buffer_true size off n : 0 <= off -> off + n <= size -> in_buffer size off n = true.
Proof. intros. unfold in_buffer. apply andb_true_iff. by rewrite !Z.leb_le. Qed.

Lemma answer_ring_entry pre e post x s : is_entry e ->
  Z.of_nat (length pre + length (entry_bytes e)) <= sizeof_token_body ->
  answer_ring (pre ++ entry_bytes e ++ post) (Z.of_nat (length pre)) x s =
    (x' ← answer_entry e x; mret (Z.of_nat (length pre + length (entry_bytes e)), x')) s.
Proof.
  intros He Hlen. pose proof (length_entry_bytes e) as Hl. pose proof He as (Hr & Hn & Hs).
  unfold answer_ring. rewrite (in_buffer_true _ _ sizeof_ring_rtr) by (unfold sizeof_ring_rtr; lia).
  rewrite get_entry by done. cbn [negb undef_if]. unfold answer_entry, mbind, M_bind, gets, mret, M_ret.
  destruct (Memb_is_equal _ _).
  - rewrite Hn. unfold entry_bytes at 1. rewrite <-app_assoc, (app_assoc pre).
    rewrite (for_fold_get (pre ++ ring_rtr_bytes e.1) e.2 post
      (Z.of_nat (length pre) + sizeof_ring_rtr) x _ (fun z => z) s (answer_request e.1)).
    + destruct (for_fold _ _ _ s); [|done]. do 2 f_equal. unfold sizeof_ring_rtr. lia.
    + rewrite length_app, length_ring_rtr_bytes. unfold sizeof_ring_rtr. lia.
    + unfold sizeof_ring_rtr. lia.
    + done.
    + intros i y s' Hi. rewrite in_buffer_true by (unfold sizeof_ring_rtr; lia). done.
  - rewrite Hn. replace (sizeof_ring_rtr + 4 * Z.of_nat (length e.2))
      with (Z.of_nat (length (entry_bytes e))) by (unfold sizeof_ring_rtr; lia).
    rewrite in_buffer_true by lia. destruct (Z.ltb_spec (Z.of_nat (length (entry_bytes e))) 0); [lia|].
    cbn. rewrite buf_get_app by lia. by rewrite Nat2Z.inj_add.
Qed.

Lemma answer_loop es : forall pre x s fuel,
  Forall is_entry es -> (length (entries_bytes es) < fuel)%nat ->
  Z.of_nat (length pre + length (entries_bytes es)) <= sizeof_token_body ->
  while_fuel fuel (answer_step (pre ++ entries_bytes es)
    (Z.of_nat (length pre + length (entries_bytes es)))) (Z.of_nat (length pre), x) s =
  for_fold es x answer_entry s.
Proof.
  unfold entries_bytes.
  induction es as [|e es IH]; intros pre x s fuel Hes Hfuel Hlen; destruct fuel as [|fuel]; [lia| |lia|];
    cbn [map concat] in *; cbn [while_fuel]; unfold answer_step, mbind, M_bind.
  - destruct (Z.leb_spec (Z.of_nat (length pre + length (@nil Z))) (Z.of_nat (length pre))); [done|cbn in *; lia].
  - apply Forall_cons in Hes as [He Hes]. pose proof (length_entry_bytes e) as Hl.
    rewrite length_app in *.
    destruct (Z.leb_spec (Z.of_nat (length pre + (length (entry_bytes e) +
      length (concat (map entry_bytes es))))) (Z.of_nat (length pre))); [lia|].
    rewrite answer_ring_entry by (done || lia). cbn [for_fold]. unfold mbind, M_bind.
    destruct (answer_entry e x s) as [x' s'|]; [|done]. unfold mret, M_ret.
    specialize (IH (pre ++ entry_bytes e) x' s' fuel Hes ltac:(lia)).
    rewrite <-app_assoc, length_app, <-Nat.add_assoc in IH. apply IH. lia.
Qed.

(** On a body made of entries [Answer_retrans] ends, and does what the entries
    say one after the other. *)
Lemma Answer_retrans_entries (es : list entry) (s : St) :
  Forall is_entry es -> Z.of_nat (length (entries_bytes es)) <= sizeof_token_body ->
  Answer_retrans (entries_bytes es) (Z.of_nat (length (entries_bytes es))) s =
    answer_entries es s.
Proof.
  intros Hes Hlen. unfold Answer_retrans, answer_entries. cbv [mbind M_bind gets].
  rewrite Nat2Z.id. apply (answer_loop es [] _ s); [done|lia|done].
Qed.
(** ** What the answers are *)

Lemma resend_resent r e s : wp ends (resend r e) (fun _ => resent s) s.
Proof.
  unfold resend. do 3 wp_step. wp_step; [done|]. set (h := head (packet_at s e)).
  wp_step. eapply wp_mono with (Q := fun (r : Z * packet_header) s' =>
    sent_as h r.2 /\ resent s s' /\ Packets s' = Packets s).
  { wp_step; [|wp_step]; do 2 wp_step.
    - apply wp_Net_ucast. intros. split_and!; [done|by apply resent_same|done].
    - apply wp_Net_scast; [done|]. intros. split_and!; [done|by apply resent_same|done].
    - apply wp_Net_bcast; [done|]. intros. split_and!; [done|by apply resent_same|done]. }
  intros [z h'] s1 (Hh & H1 & HP). unfold update_packet. wp_step.
  eapply resent_trans; [exact H1|]. apply resent_update.
  unfold packet_at. rewrite HP. by apply sent_as_same.
Qed.

(** One request: a packet that is held is sent again and counted; one that is
    not is to be sent to every daemon of the segment, or of the ring. *)
Definition answered (r : ring_rtr) (mine : Z) (has : bool) (x : retrans) : retrans :=
  if has then mk_retrans (rt_num x + 1) (rt_kept x) (rt_proc_id x) (rt_seg_index x)
  else mk_retrans (rt_num x) (rt_kept x) (-1)
         (if r_seg_index r =? mine then rt_seg_index x else -1).

Lemma answer_request_spec r seq x s :
  wp ends (answer_request r seq x) (fun x' s' =>
    resent s s' /\ Aru s <= seq /\ x' = answered r (seg_index (My s)) (held s seq) x) s.
Proof.
  unfold answer_request. do 3 wp_step. wp_step; [done|]. do 4 wp_step.
  fold (packet_of s seq). fold (held s seq). wp_step.
  - wp_step. eapply wp_mono; [apply resend_resent|]. intros [] s1 H1. wp_step.
    split_and!; [done|blia|]. by rewrite H0.
  - wp_step. split_and!; [apply resent_refl|blia|]. rewrite H0. unfold answered.
    by destruct (r_seg_index r =? seg_index (My s)).
Qed.

Lemma resent_My s s' : resent s s' -> My s' = My s.
Proof. intros [H _ _ _]. exact (f_equal (fun t => t.1.1.1.2.1.1.1.1.1.1.2) H). Qed.
Lemma resent_Memb_id s s' : resent s s' -> Memb_id s' = Memb_id s.
Proof.
  intros [H _ _ _]. pose proof (f_equal (fun t => t.1.1.1.1.2) H) as Hm. cbn in Hm.
  unfold membs in Hm. unfold Memb_id. injection Hm; intros. congruence.
Qed.

Lemma answered_all r mine (f : Z -> bool) l x :
  let x' := foldl (fun x i => answered r mine (f i) x) x l in
  let missed := filter (fun i => f i = false) l in
  rt_num x' = rt_num x + (Z.of_nat (length l) - Z.of_nat (length missed)) /\
  rt_kept x' = rt_kept x /\ rt_proc_id x' = match missed with [] => rt_proc_id x | _ => -1 end /\
  rt_seg_index x' = match missed with [] => rt_seg_index x | _ =>
    if r_seg_index r =? mine then rt_seg_index x else -1 end.
Proof.
  cbn zeta. revert x. induction l as [|i l IH]; intros x; cbn [foldl].
  { cbn. split_and!; done || lia. }
  destruct (IH (answered r mine (f i) x)) as (-> & -> & -> & ->). rewrite filter_cons.
  unfold answered. destruct (f i); case_decide; try done; cbn [length rt_num rt_kept rt_proc_id rt_seg_index].
  - split_and!; done || lia.
  - destruct (filter _ l), (r_seg_index r =? mine); split_and!; done || lia.
Qed.

Lemma answer_requests_spec r l x s s1 : resent s s1 ->
  wp ends (for_fold l x (answer_request r)) (fun x' s' => resent s s' /\
    Forall (Z.le (Aru s)) l /\
    x' = foldl (fun x i => answered r (seg_index (My s)) (held s i) x) x l) s1.
Proof.
  revert x s1. induction l as [|i l IH]; intros x s1 H1; cbn [for_fold foldl].
  { by wp_step. }
  wp_step. eapply wp_mono; [apply answer_request_spec|]. intros x2 s2 (H2 & Hi & ->).
  rewrite (resent_held _ _ _ H1), (resent_My _ _ H1).
  destruct (resent_vars _ _ H1) as (Ha & _). rewrite Ha in Hi.
  eapply wp_mono; [apply (IH _ s2); by eapply resent_trans|]. intros x' s' (H & Hl & ->).
  split_and!; [done|by constructor|done].
Qed.

(** The requests of my ring: every packet held is sent again; if one is missing
    here too, my own requests go to the whole segment, or ring. *)
Lemma answer_entry_mine (e : entry) (x : retrans) (s : St) :
  Memb_is_equal (r_memb_id e.1) (Memb_id s) = true ->
  wp ends (answer_entry e x) (fun x' s' => resent s s' /\ Forall (Z.le (Aru s)) e.2 /\
    let missed := filter (fun i => held s i = false) e.2 in
    rt_num x' = rt_num x + (Z.of_nat (length e.2) - Z.of_nat (length missed)) /\
    rt_kept x' = rt_kept x /\ rt_proc_id x' = match missed with [] => rt_proc_id x | _ => -1 end /\
    rt_seg_index x' = match missed with [] => rt_seg_index x | _ =>
      if r_seg_index e.1 =? seg_index (My s) then rt_seg_index x else -1 end) s.
Proof.
  intros Hmid. unfold answer_entry. do 2 wp_step. rewrite Hmid. clear Hmid.
  destruct e as [r l]. cbn [fst snd].
  eapply wp_mono; [by apply answer_requests_spec with (s := s), resent_refl|].
  intros x' s' (H1 & H2 & ->). split; [done|]. split; [done|]. apply answered_all.
Qed.
(** ** What is asked for *)

Definition missing (s : St) (a b : Z) : list Z := filter (fun i => held s i = false) (zrange a b).

Lemma requests_filter s l n : requests s l n = take n (filter (fun i => held s i = false) l).
Proof.
  revert n. induction l as [|i l IH]; intros n; cbn [requests]; [by destruct n|].
  destruct n as [|n]; [done|]. rewrite filter_cons. fold (packet_of s i).
  case_decide as Hd; unfold held in Hd.
  - apply negb_false_iff in Hd as ->. cbn [take]. by rewrite IH.
  - destruct (exist (packet_of s i) =? 0); [done|apply IH].
Qed.

(** The [size_t] arithmetic: a token without room gives a negative count. *)
Lemma retrans_allowed_eq p : 0 <= p <= sizeof_token_body ->
  retrans_allowed p = (sizeof_token_body - p - sizeof_ring_rtr) / 4.
Proof.
  unfold retrans_allowed. intros Hp. set (y := sizeof_token_body - p - sizeof_ring_rtr).
  assert (-16 <= y <= 65451) as Hy.
  { unfold y, sizeof_token_body, sizeof_token_header, sizeof_ring_rtr in *. lia. }
  assert (-4 <= y / 4 <= 16362) as Hd by (Z.div_mod_to_equations; lia).
  unfold u64. destruct (Z.leb_spec 0 y).
  - rewrite Z.mod_small by lia. apply i32_id. unfold is_i32. lia.
  - rewrite <-(Z.mod_add y 1), Z.mod_small by lia.
    replace (y + 1 * 18446744073709551616) with (y + 4611686018427387904 * 4) by lia.
    rewrite Z.div_add by lia. unfold i32.
    replace (y / 4 + 4611686018427387904 + 2147483648)
      with (y / 4 + 2147483648 + 1073741824 * 4294967296) by lia.
    rewrite Z.mod_add, Z.mod_small by lia. lia.
Qed.

(** C35. The requests go at the end of what was kept, in an entry of my ring: the
    first of the missing packets past [My_aru], as many as fit; with no room, or
    nothing to ask for, the body is what was kept. *)
Theorem add_requests_spec (x : retrans) (m : Z) (s : St) (es : list entry) :
  rt_kept x = entries_bytes es -> Forall is_entry es ->
  Z.of_nat (length (rt_kept x)) <= sizeof_token_body ->
  is_membership_id (Memb_id s) -> is_i32 (rt_proc_id x) -> is_i16 (rt_seg_index x) ->
  -2147483648 <= My_aru s -> m < 2147483648 ->
  let room := (sizeof_token_body - Z.of_nat (length (rt_kept x)) - sizeof_ring_rtr) / 4 in
  exists es', add_requests x m s = entries_bytes (es ++ es') /\ Forall is_entry es' /\
    Z.of_nat (length (add_requests x m s)) <= sizeof_token_body /\
    (es' = [] /\ (m <= My_aru s \/ room <= 1) \/
     exists r l, es' = [(r, l)] /\ r_memb_id r = Memb_id s /\
       r_proc_id r = rt_proc_id x /\ r_seg_index r = rt_seg_index x /\
       l = take (Z.to_nat room) (missing s (My_aru s + 1) m)).
Proof.
  intros Hk Hes Hlen Hmid Hp Hs Ha Hm room. unfold add_requests.
  rewrite retrans_allowed_eq by lia. fold room.
  destruct (Z.ltb_spec (My_aru s) m); cbn [andb]; [|exists []; rewrite app_nil_r; split_and!; auto].
  destruct (Z.ltb_spec 1 room); [|exists []; rewrite app_nil_r; split_and!; auto].
  rewrite requests_filter. fold (missing s (My_aru s + 1) m).
  set (l := take (Z.to_nat room) (missing s (My_aru s + 1) m)).
  set (r := mk_ring_rtr _ _ _ _). exists [(r, l)].
  assert (Hl : Z.of_nat (length l) <= room) by (unfold l; rewrite length_take; lia).
  assert (Hroom : room * 4 + sizeof_ring_rtr + Z.of_nat (length (rt_kept x)) <= sizeof_token_body).
  { unfold room. Z.div_mod_to_equations. lia. }
  assert (Hbytes : rt_kept x ++ ring_rtr_bytes r ++ concat (map bytes32 l) =
    entries_bytes (es ++ [(r, l)])).
  { unfold entries_bytes. rewrite map_app, concat_app. cbn. rewrite app_nil_r, Hk. done. }
  split_and!; [exact Hbytes| | |].
  - constructor; [|constructor]. split; [|split; [done|]].
    + destruct Hmid as [H1 H2]. refine (conj H1 (conj H2 (conj Hp (conj Hs _)))).
      unfold is_i16, r, sizeof_token_body, sizeof_token_header, sizeof_ring_rtr in *.
      cbn [r_num_seq fst]. lia.
    + apply list.Forall_forall. intros i Hi. cbn in Hi. unfold l in Hi.
      apply (subseteq_take _ _) in Hi. apply list_elem_of_filter in Hi as [_ Hi].
      apply elem_of_zrange in Hi. unfold is_i32. lia.
  - rewrite !length_app, length_ring_rtr_bytes, length_seqs. unfold sizeof_ring_rtr in *. lia.
  - right. exists r, l. done.
Qed.
End Body.

(** The body of a token: 3 and 4 asked of the daemon, and another ring's 7. *)
Definition demo_entries : list entry :=
  [(mk_ring_rtr (mk_membership_id 1 1) (-1) (-1) 2, [3; 4]);
   (mk_ring_rtr (mk_membership_id 9 9) 9 0 1, [7])].
Lemma demo_entries_ok : Forall is_entry demo_entries.
Proof. repeat constructor; vm_compute; done. Qed.

Example Answer_retrans_entries_witness :
  Answer_retrans (entries_bytes demo_entries) (Z.of_nat (length (entries_bytes demo_entries)))
    demo_held = answer_entries demo_entries demo_held.
Proof.
  apply Answer_retrans_entries; [exact demo_entries_ok|vm_compute; discriminate].
Defined.

(** 3 is sent again, 4 is missing here too, and 7 stays on the token. *)
Example Answer_retrans_run :
  ran (Answer_retrans (entries_bytes demo_entries) 44) (demo_held <| Bcast_addrs := [1] |>)
    (fun x s => (rt_num x, rt_proc_id x, rt_seg_index x, length (rt_kept x), gs_b_retrans s)) =
    Some (1, -1, -1, 20%nat, 1).
Proof. vm_compute. reflexivity. Qed.

Example answer_entry_mine_witness :
  let e := (mk_ring_rtr (mk_membership_id 1 1) (-1) (-1) 2, [3; 4]) in
  wp ends (answer_entry e (mk_retrans 0 [] 1 0)) (fun x' _ => rt_proc_id x' = -1) demo_held.
Proof.
  intros e. eapply wp_mono; [apply (answer_entry_mine e); vm_compute; reflexivity|].
  intros x' s' (_ & _ & H). cbv zeta in H. destruct H as (_ & _ & H & _).
  rewrite H. vm_compute. reflexivity.
Defined.

Example add_requests_spec_witness :
  exists es', add_requests (mk_retrans 0 [] 1 0) 5 demo_held = entries_bytes ([] ++ es') /\
    Forall is_entry es'.
Proof.
  destruct (add_requests_spec (mk_retrans 0 [] 1 0) 5 demo_held []) as (es' & H1 & H2 & _);
    [reflexivity|constructor|vm_compute; discriminate|repeat split; vm_compute; done|
     split; vm_compute; done|split; vm_compute; done|vm_compute; discriminate|
     vm_compute; reflexivity|].
  exists es'. split; [exact H1|exact H2].
Defined.

Example add_requests_run :
  add_requests (mk_retrans 0 [] 1 0) 5 demo_held =
    entries_bytes [(mk_ring_rtr (mk_membership_id 1 1) 1 0 1, [4])].
Proof. vm_compute. reflexivity. Qed.

(** * The token's body in the other endianness

    [Flip_token_body] on the body a daemon of the other endianness wrote. *)

(** What the host reads in an integer, an entry and a body of the other
    endianness. *)
Definition flipped (x : Z) : Z := i32 (Flip_int32 x).
Definition flip_entry (e : entry) : entry := (flip_ring_rtr e.1, map flipped e.2).

Lemma flip_ring_rtr_is r : is_ring_rtr (flip_ring_rtr r).
Proof. repeat split; apply i32_range || apply i16_range. Qed.
Lemma flip_ring_rtr_involutive r : is_ring_rtr r -> flip_ring_rtr (flip_ring_rtr r) = r.
Proof.
  intros (H1 & H2 & H3 & H4 & H5). destruct r as [[p t] q g n]. cbn in *.
  unfold flip_ring_rtr, flip_memb_id. cbn.
  by rewrite !Flip_int32_involutive, !Flip_int16_involutive.
Qed.

Lemma buf_put_app pre xs post ys off :
  Z.to_nat off = length pre -> length ys = length xs ->
  buf_put (pre ++ xs ++ post) off ys = pre ++ ys ++ post.
Proof.
  intros Hoff Hl. unfold buf_put. rewrite Hoff, resize_app by done.
  do 2 f_equal. rewrite Hl, app_assoc, <-length_app. apply drop_app_length.
Qed.

Lemma flip_at_app size pre x post : is_i32 x ->
  Z.of_nat (length pre + 4) <= size ->
  flip_at size (pre ++ bytes32 (flipped x) ++ post) (Z.of_nat (length pre)) tt =
    Ok (pre ++ bytes32 x ++ post) tt.
Proof.
  intros Hx Hlen. unfold flip_at. rewrite in_buffer_true by lia.
  cbv [mbind M_bind negb undef_if mret M_ret]. unfold put_i32. f_equal.
  rewrite get_i32_app by lia. unfold flipped.
  rewrite (i32_id (i32 _)) by apply i32_range. rewrite Flip_int32_involutive by done.
  apply buf_put_app; [lia|by rewrite !length_bytes32].
Qed.

Definition flip_one (size : Z) (_ : Z) (x : list Z * Z) : M unit (list Z * Z) :=
  let '(b, p) := x in b ← flip_at size b p; mret (b, p + 4).

Lemma flip_one_app size i pre x post : is_i32 x -> Z.of_nat (length pre + 4) <= size ->
  flip_one size i (pre ++ bytes32 (flipped x) ++ post, Z.of_nat (length pre)) tt =
    Ok (pre ++ bytes32 x ++ post, Z.of_nat (length pre) + 4) tt.
Proof. intros. unfold flip_one, mbind, M_bind. by rewrite flip_at_app. Qed.

(** The loop over the sequence numbers of an entry. *)
Lemma flip_seqs size l : forall pre post a, Forall is_i32 l ->
  Z.of_nat (length pre + 4 * length l) <= size ->
  for_fold (zseq a (length l)) (pre ++ concat (map bytes32 (map flipped l)) ++ post,
      Z.of_nat (length pre)) (flip_one size) tt =
    Ok (pre ++ concat (map bytes32 l) ++ post, Z.of_nat (length pre + 4 * length l)) tt.
Proof.
  induction l as [|x l IH]; intros pre post a Hl Hlen; cbn [length zseq for_fold map concat].
  - cbv [mret M_ret]. do 3 f_equal. lia.
  - apply Forall_cons in Hl as [Hx Hl]. cbn [length] in Hlen.
    unfold mbind, M_bind. rewrite <-!app_assoc. rewrite flip_one_app by (done || lia). rewrite app_assoc.
    specialize (IH (pre ++ bytes32 x) post (a + 1) Hl).
    rewrite length_app, length_bytes32 in IH.
    replace (Z.of_nat (length pre) + 4) with (Z.of_nat (length pre + 4)) by lia.
    rewrite IH by lia. rewrite <-!app_assoc. do 2 f_equal. lia.
Qed.

Lemma flip_requests_entry pre e post : is_entry e ->
  Z.of_nat (length pre + length (entry_bytes e)) <= sizeof_token_body ->
  flip_requests (pre ++ entry_bytes (flip_entry e) ++ post) (Z.of_nat (length pre)) tt =
    Ok (pre ++ entry_bytes e ++ post, Z.of_nat (length pre + length (entry_bytes e))) tt.
Proof.
  intros (Hr & Hn & Hl) Hlen. pose proof (length_entry_bytes e) as Hb. destruct e as [r l].
  cbn [fst snd] in *. unfold flip_requests, entry_bytes. cbn [flip_entry fst snd].
  rewrite (in_buffer_true _ _ sizeof_ring_rtr) by (unfold sizeof_ring_rtr; lia).
  cbv [mbind M_bind negb undef_if mret M_ret]. rewrite <-!app_assoc.
  rewrite get_ring_rtr_app by (lia || apply flip_ring_rtr_is).
  rewrite flip_ring_rtr_involutive by done.
  rewrite buf_put_app by (rewrite ?length_ring_rtr_bytes; lia || done).
  rewrite Hn. unfold zrange. replace (Z.to_nat (Z.of_nat (length l) - 1 - 0 + 1)) with (length l) by lia.
  pose proof (flip_seqs sizeof_token_body l (pre ++ ring_rtr_bytes r) post 0 Hl) as H.
  rewrite length_app, length_ring_rtr_bytes in H. rewrite <-!app_assoc in H.
  replace (Z.of_nat (length pre) + sizeof_ring_rtr) with (Z.of_nat (length pre + 16))
    by (unfold sizeof_ring_rtr; lia).
  etransitivity; [apply H; lia|]. rewrite length_app, length_ring_rtr_bytes, length_seqs.
  do 3 f_equal. lia.
Qed.

Lemma flip_loop es : forall pre fuel, Forall is_entry es ->
  (length (entries_bytes es) < fuel)%nat ->
  Z.of_nat (length pre + length (entries_bytes es)) <= sizeof_token_body ->
  while_fuel fuel (flip_token_step (Z.of_nat (length pre + length (entries_bytes es))))
    (pre ++ entries_bytes (map flip_entry es), Z.of_nat (length pre)) tt =
  Ok (pre ++ entries_bytes es) tt.
Proof.
  unfold entries_bytes.
  induction es as [|e es IH]; intros pre fuel Hes Hfuel Hlen; destruct fuel as [|fuel]; [lia| |lia|];
    cbn [map concat] in *; cbn [while_fuel]; unfold flip_token_step, mbind, M_bind.
  - destruct (Z.leb_spec (Z.of_nat (length pre + length (@nil Z))) (Z.of_nat (length pre)));
      [done|cbn in *; lia].
  - apply Forall_cons in Hes as [He Hes]. pose proof (length_entry_bytes e) as Hl.
    rewrite length_app in *.
    destruct (Z.leb_spec (Z.of_nat (length pre + (length (entry_bytes e) +
      length (concat (map entry_bytes es))))) (Z.of_nat (length pre))); [lia|].
    rewrite flip_requests_entry by (done || lia). cbv [mret M_ret].
    specialize (IH (pre ++ entry_bytes e) fuel Hes ltac:(lia)).
    rewrite <-!app_assoc, length_app, <-Nat.add_assoc in IH. apply IH. lia.
Qed.

(** C36. The body of a daemon of the other endianness, flipped, is the body it wrote:
    the loops end, at the right places, on every well-formed body. *)
Theorem Flip_token_body_entries (es : list entry) :
  Forall is_entry es -> Z.of_nat (length (entries_bytes es)) <= sizeof_token_body ->
  Flip_token_body (entries_bytes (map flip_entry es)) (Z.of_nat (length (entries_bytes es))) tt =
    Ok (entries_bytes es) tt.
Proof.
  intros Hes Hlen. unfold Flip_token_body.
  destruct (Z.leb_spec (Z.of_nat (length (entries_bytes es))) 0) as [Hz|Hz].
  - destruct es as [|e es]; [done|]. unfold entries_bytes in Hz. cbn [map concat] in Hz.
    rewrite length_app, length_entry_bytes in Hz. lia.
  - rewrite Nat2Z.id. apply (flip_loop es []); [done|lia|done].
Qed.

Example Flip_token_body_entries_witness :
  Flip_token_body (entries_bytes (map flip_entry demo_entries)) 44 tt =
    Ok (entries_bytes demo_entries) tt.
Proof.
  apply (Flip_token_body_entries demo_entries); [exact demo_entries_ok|vm_compute; discriminate].
Defined.
