(* ===== verification/TokenProps.v ===== *)
(** * What the token guarantees

    The rules by which the daemons of a ring change the token, one visit after
    the other: the all-received-up-to value, the flow control count, the number
    of the token. *)

From S2P Require Import Prelude NetTypes Configuration State Network FlowControl.
From S2P Require Import SessionLayer Delivery DeliveryFacts MembSets Discard Order.
From S2P Require Import TokenLoss Form1 Membership Receive Send Token Demo.

(** ** The all-received-up-to value, round the ring *)

Section Rounds.
Context {L : SpuLib} {X : Ext}.

(** The token a visit sends on, as far as the daemons' agreement goes: the
    stamp after [token_aru]. *)
Definition visited (h : token_header) (s : St) : token_header := token_stamp (token_aru h s) s.

(** This daemon sets the value to its own. *)
Definition sets_aru (h : token_header) (s : St) : bool :=
  (My_aru s <? t_aru h) || (t_aru_last_id h =? id (My s)) ||
    ((t_aru h =? t_seq h) && negb (st_eqb (State s) EVS)).

Lemma visited_aru h s : t_aru (visited h s) = if sets_aru h s then My_aru s else t_aru h.
Proof.
  unfold visited, token_stamp, token_aru, sets_aru.
  by destruct (_ || _), (negb (st_eqb (State s) EVS)).
Qed.
Lemma visited_last_id h s :
  t_aru_last_id (visited h s) = if sets_aru h s then id (My s) else t_aru_last_id h.
Proof.
  unfold visited, token_stamp, token_aru, sets_aru.
  by destruct (_ || _), (negb (st_eqb (State s) EVS)).
Qed.
Lemma visited_seq h s :
  t_seq (visited h s) = if st_eqb (State s) EVS then t_seq h else Highest_seq s.
Proof.
  unfold visited, token_stamp, token_aru. by destruct (_ || _), (st_eqb (State s) EVS).
Qed.

Lemma visited_aru_le h s : t_aru (visited h s) <= My_aru s.
Proof.
  rewrite visited_aru. destruct (sets_aru h s) eqn:Hc; [lia|]. unfold sets_aru in Hc. blia.
Qed.

(** The part of the token the daemons agree on. *)
Definition agreed_fields (h : token_header) : Z * Z * Z := (t_aru h, t_aru_last_id h, t_seq h).

Lemma agreed_stamp s h : agreed_fields (stamp_token s h) = agreed_fields h.
Proof. done. Qed.

Lemma Net_send_token_fields h els s :
  wp ends (Net_send_token h els) (fun r s' =>
    agreed_fields r.2 = agreed_fields h /\ lower s' = lower s /\ Last_token s' = Last_token s) s.
Proof.
  unfold Net_send_token, check_token_len. repeat wp_step; done.
Qed.

Lemma send_token_fields h rtr s :
  wp ends (send_token h rtr) (fun h' s' =>
    agreed_fields h' = agreed_fields h /\ lower s' = lower s /\ Last_token s' = Last_token s) s.
Proof.
  unfold send_token. wp_step. eapply wp_mono; [apply Net_send_token_fields|].
  intros [r1 h1] s1 (E1 & L1 & T1). wp_step; [|by wp_step].
  wp_step. eapply wp_mono; [apply Net_send_token_fields|]. intros [r2 h2] s2 (E2 & L2 & T2).
  wp_step. eapply wp_mono; [apply Net_send_token_fields|]. intros [r3 h3] s3 (E3 & L3 & T3).
  wp_step. cbn in *. split_and!; congruence.
Qed.

(** What passing the token on leaves alone in the daemon. *)
Definition passed (s : St) := (seqs s, stores s, membs s, Last_token s).

(** [pass_token] sends on what [visited] says. *)
Lemma pass_token_fields h rtr s :
  wp ends (pass_token h rtr) (fun h' s' =>
    agreed_fields h' = agreed_fields (visited h s) /\ passed s' = passed s) s.
Proof.
  unfold pass_token. do 4 wp_step. set (h1 := token_stamp _ s).
  assert (Hf : forall t (b : bool), agreed_fields (if b then h1 <| t_type ::= t |> else h1) =
    agreed_fields (visited h s)).
  { intros t b. transitivity (agreed_fields h1); [by destruct b|].
    unfold h1, visited, token_stamp, token_aru. rec_simpl_in_goal.
    by destruct (_ || _), (negb (st_eqb (State s) EVS)). }
  wp_step. apply wp_I_lead; [done|intros b]. do 3 wp_step.
  eapply wp_mono with (Q := fun h' s' => agreed_fields h' = agreed_fields (visited h s) /\
    passed s' = passed s).
  { wp_step; [wp_step; by rewrite Hf|]. eapply wp_mono; [apply send_token_fields|].
    intros h' s' (E & L1 & T1). split; [by rewrite E, Hf|]. unfold passed.
    by rewrite (lower_seqs _ _ L1), (lower_stores _ _ L1), (lower_membs _ _ L1), T1. }
  intros h' s1 [E1 P1]. do 3 wp_step. apply wp_I_lead; [done|intros b']. wp_step.
  eapply wp_mono with (Q := fun _ s' => passed s' = passed s).
  { wp_step; [|done]. by apply wp_e_queue. }
  intros _ s2 P2. wp_step. apply wp_e_queue. intros tr. by wp_step.
Qed.

(** The ring: [n] daemons in turn; [st t] is the state of the daemon that takes
    the token [tok t] when it passes it on, and [tok (S t)] what it sends. *)
Context (n : nat) (st : nat -> St) (tok : nat -> token_header).
Record ring_rounds : Prop := {
  rr_pass t : exists rtr h s', pass_token (tok t) rtr (st t) = Ok h s' /\
    agreed_fields (tok (S t)) = agreed_fields h;
  rr_other t k : (0 < k < n)%nat -> id (My (st (t + k))) <> id (My (st t));
  rr_evs : (forall t, State (st t) = EVS) \/
    (forall t, State (st t) <> EVS /\ t_seq (tok t) <= Highest_seq (st t));
  rr_highest t : My_aru (st t) <= Highest_seq (st t) }.
Hypothesis HR : ring_rounds.

Lemma tok_next t : agreed_fields (tok (S t)) = agreed_fields (visited (tok t) (st t)).
Proof.
  destruct (rr_pass HR t) as (rtr & h & s' & Hp & ->).
  by destruct (wp_ok _ _ _ _ _ _ (pass_token_fields (tok t) rtr (st t)) Hp).
Qed.
Lemma rr_aru t : t_aru (tok (S t)) = t_aru (visited (tok t) (st t)).
Proof. exact (f_equal (fun x => x.1.1) (tok_next t)). Qed.
Lemma rr_last t : t_aru_last_id (tok (S t)) = t_aru_last_id (visited (tok t) (st t)).
Proof. exact (f_equal (fun x => x.1.2) (tok_next t)). Qed.
Lemma rr_seq t : t_seq (tok (S t)) = t_seq (visited (tok t) (st t)).
Proof. exact (f_equal snd (tok_next t)). Qed.

(** What a visit does: nothing, or it sets the value to its own. *)
Lemma aru_step t :
  (t_aru (tok (S t)) = t_aru (tok t) /\ t_aru_last_id (tok (S t)) = t_aru_last_id (tok t)) \/
  (t_aru (tok (S t)) = My_aru (st t) /\ t_aru_last_id (tok (S t)) = id (My (st t)) /\
   (My_aru (st t) < t_aru (tok t) \/ t_aru_last_id (tok t) = id (My (st t)) \/
    t_aru (tok t) = t_seq (tok t) /\ State (st t) <> EVS)).
Proof.
  rewrite rr_aru, rr_last, visited_aru, visited_last_id.
  destruct (sets_aru (tok t) (st t)) eqn:Hc; [right|by left]. repeat split.
  unfold sets_aru, st_eqb in Hc. rewrite !orb_true_iff, andb_true_iff in Hc.
  rewrite Z.ltb_lt, !Z.eqb_eq, negb_true_iff, bool_decide_eq_false in Hc. tauto.
Qed.

Lemma aru_le_my t : t_aru (tok (S t)) <= My_aru (st t).
Proof. rewrite rr_aru. apply visited_aru_le. Qed.

(** Outside EVS the sequence number of the token grows, and is never below the
    value. *)
Section Operational.
Hypothesis Hop : forall t, State (st t) <> EVS /\ t_seq (tok t) <= Highest_seq (st t).

Lemma seq_next t : t_seq (tok (S t)) = Highest_seq (st t).
Proof.
  rewrite rr_seq, visited_seq. unfold st_eqb. by rewrite bool_decide_eq_false_2 by apply Hop.
Qed.
Lemma seq_mono t u : (t <= u)%nat -> t_seq (tok t) <= t_seq (tok u).
Proof.
  induction 1 as [|u _ IH]; [lia|]. rewrite seq_next. pose proof (proj2 (Hop u)). lia.
Qed.
Lemma aru_le_seq t : t_aru (tok (S t)) <= t_seq (tok (S t)).
Proof. rewrite seq_next. pose proof (aru_le_my t). pose proof (rr_highest HR t). lia. Qed.
End Operational.

(** As long as nobody raises the value, it falls. *)
Lemma aru_fall a t : (a <= t)%nat ->
  (forall r, (a <= r < t)%nat -> t_aru (tok (S r)) <= t_aru (tok r)) ->
  t_aru (tok t) <= t_aru (tok a).
Proof.
  induction 1 as [|t Hat IH]; [lia|]. intros Hr. pose proof (Hr t ltac:(lia)).
  assert (t_aru (tok t) <= t_aru (tok a)) by (apply IH; intros; apply Hr; lia). lia.
Qed.

(** The first visit that raises it, if one does. *)
Lemma first_raise a t : (a <= t)%nat ->
  (forall r, (a <= r < t)%nat -> t_aru (tok (S r)) <= t_aru (tok r)) \/
  exists r, (a <= r < t)%nat /\ t_aru (tok r) < t_aru (tok (S r)) /\
    t_aru (tok r) <= t_aru (tok a).
Proof.
  induction 1 as [|t Hat IH]; [left; lia|].
  destruct IH as [IH|(r & Hr & H)]; [|right; exists r; split; [lia|done]].
  destruct (Z.le_gt_cases (t_aru (tok (S t))) (t_aru (tok t))).
  - left. intros r Hr. destruct (decide (r = t)) as [->|]; [done|]. apply IH. lia.
  - right. exists t. split; [lia|]. split; [lia|by apply aru_fall].
Qed.

(** A daemon that finds its own id on the token: within the last round nobody
    else wrote the value. *)
Lemma unwritten r d : (d < n)%nat -> (d <= r)%nat ->
  t_aru_last_id (tok r) = id (My (st r)) ->
  t_aru (tok (r - d)) = t_aru (tok r) /\ t_aru_last_id (tok (r - d)) = id (My (st r)).
Proof.
  intros Hd Hr Hid. induction d as [|d IH]; [by rewrite Nat.sub_0_r|].
  destruct IH as [IHa IHl]; [lia|lia|]. remember (r - S d)%nat as v eqn:Ev.
  replace (r - d)%nat with (S v) in IHa, IHl by lia.
  destruct (aru_step v) as [[Ha Hl]|(_ & Hl & _)]; [split; congruence|].
  exfalso. apply (rr_other HR v (S d)); [lia|]. replace (v + S d)%nat with r by lia. congruence.
Qed.

(** The values two visits a round apart send are not both above what a daemon
    visited in between has received. *)
Lemma aru_round t u : (t < u <= t + n)%nat ->
  Z.min (t_aru (tok (S t))) (t_aru (tok (S (t + n)))) <= My_aru (st u).
Proof.
  intros Hu. pose proof (aru_le_my u) as Hmy.
  destruct (first_raise (S u) (S (t + n))) as [Hf|(r & Hr & Hup & Hle)]; [lia| |].
  { apply (aru_fall (S u)) in Hf; lia. }
  enough (t_aru (tok (S t)) <= t_aru (tok r)) by lia.
  destruct (aru_step r) as [[E _]|(E & _ & H)]; [lia|].
  destruct H as [H|[H|[H HE]]]; [lia| |].
  - destruct (unwritten r (r - S t)) as [E' _]; [lia|lia|done|].
    replace (r - (r - S t))%nat with (S t) in E' by lia. lia.
  - destruct (rr_evs HR) as [Hevs|Hop]; [by rewrite Hevs in HE|].
    pose proof (aru_le_seq Hop t). pose proof (seq_mono Hop (S t) r ltac:(lia)). lia.
Qed.

(** C1. [Aru] is safe: when a daemon takes the value of the token of two of its
    visits, a round apart, every daemon of the ring had received every message
    up to it when the token visited it in between. *)
Theorem Aru_received_by_all (t : nat) (s : St) :
  t_aru (Last_token s) <= t_aru (tok (S t)) ->
  wp may_exit (update_aru (tok (S (t + n)))) (fun _ s' =>
    Aru s <= Aru s' /\ forall u, (t < u <= t + n)%nat -> Aru s' <= My_aru (st u)) s.
Proof.
  intros Hl. unfold update_aru. repeat wp_step; [done|]. bools_to_props.
  split; [rec_simpl_in_goal; done|]. intros u Hu. pose proof (aru_round t u Hu).
  rec_simpl_in_goal. destruct (Z.ltb_spec (t_aru (Last_token s)) (t_aru (tok (S (t + n))))); lia.
Qed.
End Rounds.

(** Daemons 1 and 2; the second one misses packets 4 and 5. *)
Definition demo_round (t : nat) : St :=
  if Nat.even t then (demo_state demo_conf demo_a) <| My_aru := 5 |> <| Highest_seq := 5 |>
  else (demo_state demo_conf demo_b) <| My_aru := 3 |> <| Highest_seq := 5 |>.
Definition demo_tok : token_header :=
  demo_token <| t_seq := 5 |> <| t_aru := 3 |> <| t_aru_last_id := 2 |>.

Lemma ran_Some {A B} (m : M St A) (s : St) (f : A -> St -> B) b :
  ran m s f = Some b -> exists a s', m s = Ok a s' /\ b = f a s'.
Proof. unfold ran. destruct (m s); [intros [= <-]; eauto|done]. Qed.

Lemma demo_ring_rounds : ring_rounds 2 demo_round (fun _ => demo_tok).
Proof.
  split.
  - intros t. exists [].
    assert (H : ran (pass_token demo_tok []) (demo_round t) (fun h _ => agreed_fields h) =
      Some (agreed_fields demo_tok)).
    { unfold demo_round. by destruct (Nat.even t); vm_compute. }
    apply ran_Some in H as (h & s' & E & Ef). eauto.
  - intros t k Hk. replace k with 1%nat by lia. rewrite Nat.add_1_r. unfold demo_round.
    rewrite Nat.even_succ, <-Nat.negb_even. by destruct (Nat.even t); vm_compute.
  - right. intros t. unfold demo_round. by destruct (Nat.even t); vm_compute.
  - intros t. unfold demo_round. by destruct (Nat.even t); vm_compute.
Qed.

Example Aru_received_by_all_witness :
  let s := (demo_round 2) <| Aru := 2 |> <| Last_token := demo_tok |> in
  wp may_exit (update_aru demo_tok) (fun _ s' =>
    Aru s <= Aru s' /\ forall u, (0 < u <= 0 + 2)%nat -> Aru s' <= My_aru (demo_round u)) s.
Proof.
  intros s. apply (Aru_received_by_all 2 demo_round (fun _ => demo_tok) demo_ring_rounds 0 s).
  vm_compute. discriminate.
Defined.

Example Aru_received_by_all_run :
  ran (update_aru demo_tok) ((demo_round 2) <| Aru := 2 |> <| Last_token := demo_tok |>)
    (fun _ s' => Aru s') = Some 3.
Proof. vm_compute. reflexivity. Qed.
