(* ===== verification/TokenOrder.v ===== *)
(** * A visit of the token keeps the packets in order

    [process_token], step by step, under the invariant of [Order.v]. *)

From S2P Require Import Prelude NetTypes Configuration State Network FlowControl.
From S2P Require Import SessionLayer Delivery DeliveryFacts MembSets Discard Order.
From S2P Require Import TokenLoss Form1 Membership Receive ReceiveProps NetFacts Send.
From S2P Require Import SendProps Token.
From S2P Require Import TokenBody TokenProps Demo.

Section TokenOrder.
Context {L : SpuLib} {X : Ext} {SL : SessionLayer} {HSL : SessionLaws SL}.
Hypothesis Hsize : sizeof_packet_body < 65536.

Lemma aside_fields s s' : aside s' = aside s ->
  stay s' = stay s /\ Highest_seq s' = Highest_seq s /\ Packets s' = Packets s.
Proof.
  unfold aside. intros H. split_and!.
  - exact (f_equal (fun t => t.1.1) H).
  - exact (f_equal (fun t => t.1.2) H).
  - exact (f_equal snd H).
Qed.

Lemma aside_loose s s' : aside s' = aside s -> loose s -> loose s'.
Proof.
  intros (Hs & Hh & Hp)%aside_fields HO. pose proof (lo_highest s HO).
  apply (loose_ext s); try done; [lia|..]; intros e; unfold packet_at; by rewrite Hp.
Qed.

(** The token arrives. *)
Lemma prefer_bcast_frame : frame (fun s => (aside s, downs s, confs s)) prefer_bcast.
Proof. unfold prefer_bcast, move_fd. solve_frame. Qed.
Lemma prefer_bcast_stops : stops prefer_bcast.
Proof. unfold prefer_bcast, move_fd. solve_stops. Qed.

Lemma token_begin_spec h s : loose s -> queues_ok s ->
  t_seq h <= Last_discarded s + MAX_PACKETS_IN_STRUCT ->
  wp ends (token_begin h) (fun _ s' => stay s' = stay s /\ loose s' /\ queues_ok s' /\
    confs s' = confs s /\ Highest_seq s' = Z.max (t_seq h) (Highest_seq s)) s.
Proof.
  intros HO Hq Hwin. pose proof (lo_highest s HO). unfold token_begin. do 4 wp_step.
  set (s1 := s <| Highest_seq ::= Z.max (t_seq h) |> <| Received_token_rounds ::= Z.succ |>).
  assert (Hh1 : Highest_seq s1 = Z.max (t_seq h) (Highest_seq s)) by done.
  assert (HO1 : loose s1) by (apply (loose_ext s); try done; lia).
  wp_step; [|split_and!; done].
  apply (wp_stops_frame (fun s => (aside s, downs s, confs s)));
    [apply prefer_bcast_stops|apply prefer_bcast_frame|].
  intros [] s2 H2. pose proof (f_equal (fun t => t.1.1) H2) as Ha. cbn in Ha.
  pose proof (f_equal (fun t => t.1.2) H2) as Hd. cbn in Hd.
  pose proof (f_equal snd H2) as Hc. cbn in Hc.
  destruct (aside_fields _ _ Ha) as (E1 & E2 & E3). split_and!.
  - by rewrite E1.
  - by eapply aside_loose.
  - by apply (downs_queues s1).
  - by rewrite Hc.
  - by rewrite E2.
Qed.

(** The requests are answered. *)
Lemma answer_entries_resent es s : wp ends (answer_entries es) (fun _ => resent s) s.
Proof.
  unfold answer_entries. do 2 wp_step. generalize (mk_retrans 0 [] (id (My s)) (seg_index (My s))).
  assert (H : forall s1 x, resent s s1 ->
    wp ends (for_fold es x answer_entry) (fun _ => resent s) s1).
  2:{ intros x. apply H, resent_refl. }
  induction es as [|e es IH]; intros s1 x H1; cbn [for_fold]; [by wp_step|].
  wp_step. eapply wp_mono with (Q := fun _ => resent s); [|intros x' s2 H2; by apply IH].
  unfold answer_entry. do 2 wp_step. wp_step; [|by wp_step].
  eapply wp_mono; [apply answer_requests_spec, H1|]. by intros x' s' [Hx _].
Qed.

(** New packets, and [My_aru]. *)
Definition at_most (s : St) : Z := Z.min (Window s) (Personal_window s).

Lemma resent_confs s s' : resent s s' -> confs s' = confs s.
Proof. intros [H _ _ _]. exact (f_equal (fun t => t.1.1.1.2) H). Qed.

Lemma FC_allowed_window fc nr s : 0 <= Window s -> 0 <= Personal_window s ->
  Last_discarded s = Aru s -> at_most s <= MAX_PACKETS_IN_STRUCT - MAX_SEQ_GAP ->
  Highest_seq s <= Last_discarded s + MAX_PACKETS_IN_STRUCT ->
  0 <= FC_allowed fc nr s <= at_most s /\
  Highest_seq s + FC_allowed fc nr s <= Last_discarded s + MAX_PACKETS_IN_STRUCT.
Proof.
  intros Hw Hp Ha Hm Hh. unfold at_most, MAX_PACKETS_IN_STRUCT, MAX_SEQ_GAP in *.
  pose proof (FC_allowed_range fc nr s Hw Hp). split; [done|].
  destruct (Z.eq_dec (FC_allowed fc nr s) 0) as [->|]; [lia|].
  destruct (FC_allowed_gap fc nr s) as [_ Hg]; [done|done|lia|]. unfold MAX_SEQ_GAP in Hg. lia.
Qed.

Lemma evs_commit_skip (Q : unit -> St -> Prop) s :
  State s <> EVS -> Q tt s -> wp ends evs_commit Q s.
Proof.
  intros HE HQ. unfold evs_commit. do 6 wp_step. wp_step; [|done].
  unfold st_eqb in *. by rewrite bool_decide_eq_false_2 in *.
Qed.

Lemma token_work_spec h es s : loose s -> queues_ok s -> State s <> EVS ->
  Forall is_entry es -> Z.of_nat (length (entries_bytes es)) <= sizeof_token_body ->
  t_rtr_len h = Z.of_nat (length (entries_bytes es)) ->
  0 <= Window s -> 0 <= Personal_window s -> Last_discarded s = Aru s ->
  at_most s <= MAX_PACKETS_IN_STRUCT - MAX_SEQ_GAP ->
  wp ends (token_work h (entries_bytes es)) (fun _ s' => ordered s' /\
    Aru s' = Aru s /\ Last_discarded s' = Last_discarded s /\ State s' = State s /\
    My_aru s <= My_aru s' /\ Highest_seq s <= Highest_seq s' <= Highest_seq s + at_most s) s.
Proof.
  intros HO Hq HE Hes Hlen Hrtr Hw Hp Ha Hm. pose proof (lo_highest s HO).
  unfold token_work. rewrite Hrtr. wp_step.
  eapply wp_eq; [by apply Answer_retrans_entries|].
  eapply wp_mono; [apply answer_entries_resent|]. intros x s1 H1.
  destruct (resent_stay _ _ H1) as [Hs1 Hh1]. pose proof (resent_confs _ _ H1) as Hc1.
  pose proof (stay_fields _ _ Hs1) as (A1 & A2 & A3 & A4 & A5).
  assert (Hw1 : Window s1 = Window s /\ Personal_window s1 = Personal_window s).
  { unfold confs in Hc1. by injection Hc1. }
  destruct Hw1 as [Hw1 Hp1]. do 4 wp_step. set (s2 := s1 <| gs_retrans ::= _ |>).
  assert (HO2 : loose s2) by exact (aside_loose s1 s2 eq_refl (resent_loose _ _ H1 HO)).
  assert (Hq2 : queues_ok s2) by exact (resent_queues _ _ H1 Hq).
  assert (Hw2 : Window s2 = Window s) by exact Hw1.
  assert (Hp2 : Personal_window s2 = Personal_window s) by exact Hp1.
  assert (Hat : at_most s2 = at_most s) by (unfold at_most; by rewrite Hw2, Hp2).
  destruct (FC_allowed_window (t_flow_control h) (rt_num x) s2) as [Hr Hroom];
    [lia|lia|change (Last_discarded s1 = Aru s1); lia|lia|apply (lo_highest s2 HO2)|].
  rewrite Hat in Hr. wp_step.
  eapply wp_mono; [apply Send_new_packets_spec; [done|done|done|lia|done]|].
  intros n s3 (Hs3 & Hn & Hh3 & HO3 & _). do 3 wp_step. unfold flow_control_update.
  do 7 wp_step. match goal with |- wp _ _ _ ?t => set (s4 := t) end.
  assert (HO4 : loose s4) by exact (aside_loose s3 s4 eq_refl HO3).
  destruct (loose_advance s4 HO4) as [HO5 Hmy]. do 2 wp_step.
  match goal with |- wp _ _ _ ?t => set (s5 := t) end. do 7 wp_step. apply evs_commit_skip.
  - change (State s3 <> EVS). destruct (stay_fields _ _ Hs3) as (_ & _ & _ & _ & B5).
    change (State s2) with (State s1) in B5. congruence.
  - wp_step. pose proof (stay_fields _ _ Hs3) as (B1 & B2 & B3 & B4 & B5).
    change (Aru s2) with (Aru s1) in *. change (My_aru s2) with (My_aru s1) in *.
    change (Last_discarded s2) with (Last_discarded s1) in *. change (State s2) with (State s1) in *.
    change (Highest_seq s2) with (Highest_seq s1) in *. change (My_aru s4) with (My_aru s3) in *.
    split_and!.
    + by apply (ordered_window s5).
    + change (Aru s3 = Aru s). congruence.
    + change (Last_discarded s3 = Last_discarded s). congruence.
    + change (State s3 = State s). congruence.
    + eapply Z.le_trans; [|exact Hmy]. lia.
    + change (Highest_seq s <= Highest_seq s3). lia.
    + change (Highest_seq s3 <= Highest_seq s + at_most s). lia.
Qed.

(** The token goes on. *)
Lemma passed_order s s' : passed s' = passed s -> ordered s ->
  ordered s' /\ stay s' = stay s /\ Highest_seq s' = Highest_seq s.
Proof.
  intros H HO. unfold passed in H.
  pose proof (f_equal (fun t => t.1.1.1) H) as H1. pose proof (f_equal (fun t => t.1.1.2) H) as H2.
  pose proof (f_equal (fun t => t.1.2) H) as H3. cbn in H1, H2, H3.
  unfold seqs, stores, membs in *. injection H1. injection H2. injection H3. intros. split.
  - apply (ordered_window s); [|done]. unfold window. congruence.
  - unfold stay. split; congruence.
Qed.

(** What the end of the visit starts from: [Aru] as it is from now on. *)
Lemma update_aru_spec h (Q : unit -> St -> Prop) s :
  (forall a, Aru s <= a <= t_aru h -> Q tt (s <| Aru := a |>)) -> wp ends (update_aru h) Q s.
Proof.
  intros HQ. unfold update_aru. do 5 wp_step. wp_step; [done|]. wp_step. apply HQ. bools_to_props.
  split; [done|]. destruct (Z.ltb_spec (t_aru (Last_token s)) (t_aru h)); lia.
Qed.

Definition visited_to (s s' : St) : Prop :=
  ordered s' /\ Last_discarded s' = Aru s' /\ Aru s <= Aru s' /\ My_aru s' = My_aru s /\
  Highest_seq s' = Highest_seq s /\ State s' = State s.

Lemma deliver_after_spec n s : ordered s -> State s <> EVS ->
  Last_discarded s <= Aru s <= My_aru s -> wp ends (deliver_after_token n) (fun _ => visited_to s) s.
Proof.
  intros HO HE Ha. unfold deliver_after_token. wp_step.
  eapply wp_mono; [by apply Discard_packets_state|]. intros [] s1 (s0 & HD & ->).
  pose proof (discarded_ordered s s0 HO Ha HD) as HO1.
  pose proof (dt_steady _ _ _ HD) as (A1 & A2 & A3 & A4 & A5)%steady_seqs.
  set (s1 := s0 <| Last_discarded := _ |> <| Last_delivered := _ |>) in *.
  assert (Hv : visited_to s s1).
  { split; [done|]. split; [symmetry; exact A1|]. change (Aru s1) with (Aru s0).
    split_and!; [lia|exact A2|exact A3|exact A5]. }
  clearbody s1. wp_step. eapply wp_mono; [by apply Deliver_agreed_ordered|].
  intros [] s2 [HO2 (B1 & B2 & B3 & B4 & B5)%steady_seqs]. do 2 wp_step.
  eapply wp_mono; [by apply Deliver_reliable_ordered|].
  intros [] s3 [HO3 (C1 & C2 & C3 & C4 & C5)%steady_seqs].
  destruct Hv as (_ & V2 & V3 & V4 & V5 & V6). unfold visited_to. split_and!; congruence || lia || done.
Qed.

Lemma token_end_spec h n s : ordered s -> State s <> EVS ->
  Last_discarded s = Aru s -> t_aru h <= My_aru s ->
  wp ends (token_end h n) (fun _ => visited_to s) s.
Proof.
  intros HO HE Ha Ht. unfold token_end. wp_step.
  eapply wp_mono; [apply Prot_flush_bcast_resent|]. intros [] s1 H1.
  destruct (resent_stay _ _ H1) as [Hs1 Hh1]. pose proof (stay_fields _ _ Hs1) as (A1 & A2 & A3 & A4 & A5).
  assert (HO1 : ordered s1).
  { pose proof (resent_loose _ _ H1 (ordered_loose _ HO)) as [L1 L2 L3 L4 L5 L6].
    split; try done. intros Hlt. rewrite (resent_held _ _ _ H1), A2. apply (od_next s HO). lia. }
  wp_step. apply update_aru_spec. intros a Hr. unfold count_idle_round. do 4 wp_step.
  match goal with |- wp _ _ _ ?t => set (s2 := t) end.
  assert (HO2 : ordered s2) by exact (ordered_window s1 s2 eq_refl HO1).
  wp_step. eapply wp_mono; [apply deliver_after_spec; [done| |]|].
  - change (State s1 <> EVS). congruence.
  - change (Last_discarded s1 <= a <= My_aru s1). lia.
  - intros [] s3 (V1 & V2 & V3 & V4 & V5 & V6).
    change (Aru s2) with a in V3. change (My_aru s2) with (My_aru s1) in V4.
    change (Highest_seq s2) with (Highest_seq s1) in V5. change (State s2) with (State s1) in V6.
    wp_step. unfold limit_evs_rounds. do 5 wp_step.
    { unfold st_eqb in *. rewrite bool_decide_eq_false_2 in * by congruence. done. }
    wp_step. split; [by apply (ordered_window s3)|].
    split; [exact V2|]. split; [change (Aru s <= Aru s3); lia|].
    split; [change (My_aru s3 = My_aru s); congruence|].
    split; [change (Highest_seq s3 = Highest_seq s); congruence|].
    change (State s3 = State s). congruence.
Qed.

(** C2. A visit of the token outside EVS - at the end of which the counters are
    reset - keeps the order of the packets: the new
    packets stay within the flow control windows and the array, [My_aru] and
    [Aru] do not move back, and all is discarded up to the new [Aru].  The token
    is within the window of the array, and its body is made of entries. *)
Theorem process_token_ordered (h : token_header) (es : list entry) (s : St) :
  ordered s -> queues_ok s -> State s <> EVS -> Last_discarded s = Aru s ->
  t_seq h <= Last_discarded s + MAX_PACKETS_IN_STRUCT ->
  Forall is_entry es -> t_rtr_len h = Z.of_nat (length (entries_bytes es)) ->
  t_rtr_len h <= sizeof_token_body ->
  0 <= Window s -> 0 <= Personal_window s ->
  at_most s <= MAX_PACKETS_IN_STRUCT - MAX_SEQ_GAP ->
  wp ends (process_token h (entries_bytes es)) (fun _ s' =>
    ordered s' /\ Last_discarded s' = Aru s' /\ Aru s <= Aru s' /\ My_aru s <= My_aru s' /\
    Z.max (t_seq h) (Highest_seq s) <= Highest_seq s' /\
    Highest_seq s' <= Z.max (t_seq h) (Highest_seq s) + at_most s /\ State s' = State s) s.
Proof.
  intros HO Hq HE Ha Hwin Hes Hrtr Hlen Hw Hp Hm. unfold process_token. wp_step.
  eapply wp_mono; [by apply token_begin_spec; [apply ordered_loose|..]|].
  intros [] s1 (Hs1 & HO1 & Hq1 & Hc1 & Hh1).
  pose proof (stay_fields _ _ Hs1) as (A1 & A2 & A3 & A4 & A5).
  assert (Hw1 : Window s1 = Window s /\ Personal_window s1 = Personal_window s).
  { unfold confs in Hc1. by injection Hc1. }
  destruct Hw1 as [Hw1 Hp1].
  assert (Hat : at_most s1 = at_most s) by (unfold at_most; by rewrite Hw1, Hp1).
  wp_step. eapply wp_mono; [apply (token_work_spec h es s1); try done; try congruence; lia|].
  intros [[h1 rtr] n] s2 (HO2 & B1 & B2 & B3 & B4 & B5). wp_step.
  eapply wp_mono; [apply pass_token_fields|]. intros h2 s3 [Hf Hpass].
  destruct (passed_order _ _ Hpass HO2) as (HO3 & Hs3 & Hh3).
  pose proof (stay_fields _ _ Hs3) as (C1 & C2 & C3 & C4 & C5).
  pose proof (f_equal (fun t => t.1.1) Hf) as Hta. cbn in Hta.
  eapply wp_mono; [apply (token_end_spec h2 n s3); try done; try congruence|].
  - rewrite Hta, C2. apply visited_aru_le.
  - intros [] s' (V1 & V2 & V3 & V4 & V5 & V6). split_and!; congruence || lia || done.
Qed.
End TokenOrder.

(** A visit: 3 and 4 are asked for, and one message waits. *)
Definition demo_visit : St := demo_fresh <| Bcast_addrs := [1] |>
  <| Normal_down_queue := mk_down_queue 0
       [mk_down_link AGREED_TYPE [mk_element 4 [9; 0; 0; 7]]] |>.
Definition demo_visit_token : token_header :=
  demo_token <| t_seq := 5 |> <| t_aru := 3 |> <| t_aru_last_id := 2 |> <| t_rtr_len := 44 |>.

Lemma demo_visit_queues : queues_ok demo_visit.
Proof. split; repeat constructor. vm_compute. discriminate. Qed.

Example process_token_ordered_witness :
  wp ends (process_token demo_visit_token (entries_bytes demo_entries)) (fun _ s' =>
    ordered s' /\ 5 <= Highest_seq s' <= 25) demo_visit.
Proof.
  assert (Hz : sizeof_packet_body < 65536) by (vm_compute; reflexivity).
  eapply wp_mono; [apply (process_token_ordered Hz demo_visit_token demo_entries)|].
  - apply ordered_check. vm_compute. reflexivity.
  - exact demo_visit_queues.
  - vm_compute. discriminate.
  - vm_compute. reflexivity.
  - vm_compute. discriminate.
  - exact demo_entries_ok.
  - vm_compute. reflexivity.
  - vm_compute. discriminate.
  - vm_compute. discriminate.
  - vm_compute. discriminate.
  - vm_compute. discriminate.
  - intros [] s' (H1 & _ & _ & _ & H2 & H3 & _). split; [exact H1|].
    split; [exact H2|exact H3].
Defined.


(** 6 is sent; 1 and 2 are delivered, 3 is SAFE and waits. *)
Example process_token_run :
  ran (process_token demo_visit_token (entries_bytes demo_entries)) demo_visit
    (fun _ s => (My_aru s, Highest_seq s, held s 6, delivered_bytes s)) =
    Some (3, 6, true, [[[1; 0; 0; 7]]; [[2; 0; 0; 7]]]).
Proof. vm_compute. reflexivity. Qed.
