(* ===== verification/TokenNumber.v ===== *)
(** * The number of the token

    The leader gives the token a new number (4 bits of its type) in every
    round; by it the daemons tell a token from the one they had, and take each
    once. *)

From S2P Require Import Prelude NetTypes Configuration State Network FlowControl.
From S2P Require Import SessionLayer Delivery DeliveryFacts MembSets Discard Order.
From S2P Require Import TokenLoss Form1 Membership Receive ReceiveProps NetFacts Send.
From S2P Require Import SendProps Token TokenBody TokenProps Demo.

Section TokenNumber.
Context {L : SpuLib} {X : Ext} {SL : SessionLayer}.

Definition last_number (s : St) : Z := Get_arq (t_type (Last_token s)).
Definition number (h : token_header) : Z := Get_arq (t_type h).
(** The number a daemon waits for. *)
Definition awaited (lead : bool) (last : Z) : Z := if lead then last else (last + 1) mod 16.

Lemma number_range h : 0 <= number h < 16.
Proof. apply Get_arq_range. Qed.

(** Sending again the last token changes the trace, and the flags the network
    writes in it. *)
Lemma resend_last_number s :
  wp ends resend_last_token (fun _ s' => lower s' = lower s /\ last_number s' = last_number s) s.
Proof.
  unfold resend_last_token, Net_send_token, check_token_len. repeat wp_step; try done.
  apply wp_ext_call. intros tr. repeat wp_step. split; [done|].
  unfold last_number. rec_simpl_in_goal. apply Get_arq_Set_endian.
Qed.

Lemma Prot_token_hurry_number s :
  wp ends Prot_token_hurry (fun _ s' => lower s' = lower s /\ last_number s' = last_number s) s.
Proof.
  set (Q := fun (_ : unit) s' => lower s' = lower s /\ last_number s' = last_number s).
  assert (Hr : forall s', Q tt s' -> wp ends resend_last_token Q s').
  { intros s' [H1 H2]. eapply wp_mono; [apply resend_last_number|].
    intros [] s2 [H3 H4]. split; congruence. }
  unfold Prot_token_hurry. do 3 wp_step. apply wp_I_lead; [done|]. intros b. wp_step.
  eapply wp_mono with (Q := Q).
  { wp_step; [|done]. do 3 wp_step. apply wp_e_queue. intros tr. wp_step. split; [done|].
    unfold last_number. rec_simpl_in_goal. apply Get_arq_Set_retrans. }
  intros [] s1 H1. wp_step. eapply wp_mono; [by apply Hr|]. intros [] s2 H2. do 3 wp_step.
  eapply wp_mono with (Q := Q).
  { wp_step; [|done]. do 5 wp_step. wp_step; [done|]. wp_step; [by apply Hr|done]. }
  intros [] s3 H3. do 2 wp_step. wp_step; [|done]. wp_step.
  eapply wp_mono; [by apply Hr|]. intros [] s4 H4. by apply Hr.
Qed.

(** A token is taken when its number is the one awaited; otherwise nothing of
    the protocol's state changes. *)
Lemma token_in_turn_spec h s :
  wp ends (token_in_turn h) (fun turn s' => exists lead, is_leader s = Some lead /\
    turn = (number h =? awaited lead (last_number s)) /\
    last_number s' = last_number s /\ (turn = false -> lower s' = lower s)) s.
Proof.
  assert (Hji : forall lead b, is_leader s = Some lead ->
    b = (number h =? awaited lead (last_number s)) -> b = true ->
    forall s', last_number s' = last_number s -> exists lead, is_leader s = Some lead /\
      true = (number h =? awaited lead (last_number s)) /\ last_number s' = last_number s /\
      (true = false -> lower s' = lower s)).
  { intros lead b Hl Hb Ht s' Hs. exists lead. split_and!; congruence. }
  pose proof (number_range h) as Hn. unfold token_in_turn. wp_step.
  apply wp_I_lead_is; [done|]. intros lead Hlead. do 2 wp_step. fold (number h).
  fold (last_number s). wp_step.
  - subst lead. wp_step.
    + wp_step. exists true. split_and!; try done. by bools_to_props; symmetry; apply Z.eqb_neq.
    + bools_to_props. wp_step. eapply wp_mono with (Q := fun _ s' => last_number s' = last_number s).
      { unfold just_installed. do 2 wp_step. by wp_step. }
      intros [] s1 H1. wp_step. eapply Hji; [done|done|by apply Z.eqb_eq|done].
  - subst lead. wp_step; [|wp_step].
    + bools_to_props. wp_step.
      assert (Hne : (number h =? awaited false (last_number s)) = false).
      { apply Z.eqb_neq. unfold awaited. rewrite <-H. Z.div_mod_to_equations. lia. }
      eapply wp_mono with (Q := fun _ s' => lower s' = lower s /\ last_number s' = last_number s).
      { wp_step; [|done]. do 2 wp_step. eapply wp_mono; [apply Prot_token_hurry_number|].
        intros [] s' [H1 H2]. split; [exact H1|]. rewrite H2. unfold last_number.
        rec_simpl_in_goal. apply Get_arq_Set_retrans. }
      intros [] s' [H1 H2]. wp_step. exists false. by split_and!.
    + wp_step. exists false. split_and!; try done. by bools_to_props; symmetry; apply Z.eqb_neq.
    + bools_to_props. wp_step. eapply wp_mono with (Q := fun _ s' => last_number s' = last_number s).
      { unfold just_installed. do 2 wp_step. by wp_step. }
      intros [] s1 H1. wp_step. eapply wp_mono with (Q := fun _ s' => last_number s' = last_number s).
      { by wp_step. }
      intros [] s2 H2. wp_step. eapply Hji; [done|done|by apply Z.eqb_eq|done].
Qed.

(** The number a daemon sends on: the leader's is the next one. *)
Definition next_number (lead : bool) (n : Z) : Z := if lead then (n + 1) mod 16 else n.

Lemma send_token_number h rtr s :
  wp ends (send_token h rtr) (fun h' _ => number h' = number h) s.
Proof.
  assert (Hs : forall h s, wp ends (Net_send_token h [rtr]) (fun r _ => number r.2 = number h) s).
  { clear. intros h s. unfold Net_send_token, check_token_len. repeat wp_step; try done.
    apply wp_ext_call. intros tr. wp_step. apply Get_arq_Set_endian. }
  unfold send_token. wp_step. eapply wp_mono; [apply Hs|]. intros [r1 h1] s1 E1.
  wp_step; [|by wp_step]. wp_step. eapply wp_mono; [apply Hs|]. intros [r2 h2] s2 E2.
  wp_step. eapply wp_mono; [apply Hs|]. intros [r3 h3] s3 E3. wp_step. cbn in *. congruence.
Qed.

Lemma pass_token_number h rtr s :
  wp ends (pass_token h rtr) (fun h' _ => exists lead, is_leader s = Some lead /\
    number h' = next_number lead (number h)) s.
Proof.
  unfold pass_token. do 4 wp_step. set (h1 := token_stamp _ s).
  assert (H1 : t_type h1 = t_type h).
  { unfold h1, token_stamp, token_aru. by destruct (_ || _), (negb (st_eqb (State s) EVS)). }
  wp_step. apply wp_I_lead_is; [done|intros lead Hlead]. do 3 wp_step.
  set (h2 := if lead then _ else h1).
  assert (H2 : number h2 = next_number lead (number h)).
  { unfold h2, number, next_number. destruct lead; [|by rewrite H1]. rec_simpl_in_goal.
    unfold token_next_arq. rewrite Get_arq_Set_retrans, Get_arq_Set_arq, H1.
    by rewrite Z.mod_mod. }
  eapply wp_mono with (Q := fun h' _ => number h' = number h2).
  { wp_step; [by wp_step|]. apply send_token_number. }
  intros h' s1 H'. do 3 wp_step. apply wp_I_lead; [done|intros b]. wp_step.
  eapply wp_mono with (Q := fun _ _ => True).
  { wp_step; [|done]. by apply wp_e_queue. }
  intros [] s2 _. wp_step. apply wp_e_queue. intros tr. wp_step. exists lead.
  split; [done|]. congruence.
Qed.

(** C7. A token is taken once: after its visit, the same token, or one repeated
    with its number, is swallowed, until the daemon has had another one; nothing
    of the protocol's state changes. *)
Theorem token_taken_once (h h2 h' : token_header) (rtr : list Z) (s s1 s2 : St) :
  pass_token h rtr s = Ok h' s1 -> is_leader s2 = is_leader s ->
  last_number s2 = number h' -> number h2 = number h ->
  wp ends (token_in_turn h2) (fun turn s3 => turn = false /\ lower s3 = lower s2) s2.
Proof.
  intros Hp Hl Hlast Hh2.
  destruct (wp_ok _ _ _ _ _ _ (pass_token_number h rtr s) Hp) as (lead & Hlead & Hn).
  eapply wp_mono; [apply token_in_turn_spec|]. intros turn s3 (lead' & Hl' & -> & _ & Hs).
  assert (lead' = lead) as -> by congruence.
  assert (Hf : (number h2 =? awaited lead (last_number s2)) = false).
  { apply Z.eqb_neq. pose proof (number_range h). rewrite Hh2, Hlast, Hn.
    unfold awaited, next_number. destruct lead; Z.div_mod_to_equations; lia. }
  split; [exact Hf|]. by apply Hs.
Qed.

(** The round closes: the number the leader gives the token is the one the
    others await after the leader's last one, they pass it on as it is, and the
    leader awaits it. *)
Lemma token_number_round (h h1 h2 : token_header) (r1 r2 : list Z) (a b : St) (sa sb : St) :
  pass_token h r1 a = Ok h1 sa -> is_leader a = Some true ->
  pass_token h1 r2 b = Ok h2 sb -> is_leader b = Some false ->
  last_number b = number h ->
  wp ends (token_in_turn h1) (fun turn _ => turn = true) b /\
  (forall a', is_leader a' = Some true -> last_number a' = number h1 ->
     wp ends (token_in_turn h2) (fun turn _ => turn = true) a').
Proof.
  intros Ha La Hb Lb Hlast.
  destruct (wp_ok _ _ _ _ _ _ (pass_token_number h r1 a) Ha) as (l1 & Hl1 & Hn1).
  destruct (wp_ok _ _ _ _ _ _ (pass_token_number h1 r2 b) Hb) as (l2 & Hl2 & Hn2).
  assert (l1 = true) as -> by congruence. assert (l2 = false) as -> by congruence.
  split.
  - eapply wp_mono; [apply token_in_turn_spec|]. intros turn s' (l & Hl & -> & _).
    assert (l = false) as -> by congruence. apply Z.eqb_eq. rewrite Hn1, Hlast. done.
  - intros a' La' Hlast'. eapply wp_mono; [apply token_in_turn_spec|].
    intros turn s' (l & Hl & -> & _). assert (l = true) as -> by congruence.
    apply Z.eqb_eq. rewrite Hn2, Hlast'. done.
Qed.
End TokenNumber.

(** Daemon 1 leads; it gives token 0 the number 1. *)
Definition demo_leader : St := demo_state demo_conf demo_a.
Definition demo_follower : St := demo_state demo_conf demo_b.

Example token_taken_once_witness : exists h' s1,
  pass_token demo_tok [] demo_leader = Ok h' s1 /\ number h' = 1 /\
  wp ends (token_in_turn demo_tok) (fun turn s3 => turn = false /\
    lower s3 = lower (demo_leader <| Last_token := h' |>)) (demo_leader <| Last_token := h' |>).
Proof.
  assert (H : ran (pass_token demo_tok []) demo_leader (fun h _ => number h) = Some 1)
    by (vm_compute; reflexivity).
  apply ran_Some in H as (h' & s1 & E & Ef). exists h', s1. split; [exact E|].
  split; [exact (eq_sym Ef)|].
  apply (token_taken_once demo_tok demo_tok h' [] demo_leader s1); [exact E|..]; reflexivity.
Defined.

Example token_number_round_witness : exists h1 h2 sa sb,
  pass_token demo_tok [] demo_leader = Ok h1 sa /\
  pass_token h1 [] demo_follower = Ok h2 sb /\ number h2 = 1 /\
  wp ends (token_in_turn h1) (fun turn _ => turn = true) demo_follower.
Proof.
  assert (H : ran (pass_token demo_tok []) demo_leader (fun h1 _ =>
    (is_leader demo_leader, ran (pass_token h1 []) demo_follower (fun h2 _ => number h2))) =
    Some (Some true, Some 1)) by (vm_compute; reflexivity).
  apply ran_Some in H as (h1 & sa & E1 & [= H]). symmetry in H.
  apply ran_Some in H as (h2 & sb & E2 & Ef). exists h1, h2, sa, sb.
  split_and!; [exact E1|exact E2|exact (eq_sym Ef)|].
  apply (token_number_round demo_tok h1 h2 [] [] demo_leader demo_follower sa sb);
    [exact E1|vm_compute; reflexivity|exact E2|vm_compute; reflexivity|reflexivity].
Defined.
