(* ===== verification/Protocol.v ===== *)
(** * The protocol: entry points of [protocol.c]

    [Prot_handle_bcast] (the datagrams of the broadcast channels), the start of
    the protocol, and the reload of the configuration.  [Net_init] (opening the
    channels) and [Conf_reload_initiate] (reading the configuration file) are
    parameters here; NetInit.v and ConfigLoad.v have them. *)

From S2P Require Import Prelude NetTypes Configuration State Network FlowControl.
From S2P Require Import SessionLayer Delivery MembSets Discard TokenLoss.
From S2P Require Import Form1 Membership Receive Send Token.

Section Protocol.
Context {L : SpuLib} {X : Ext} {SL : SessionLayer}.
Variable Net_init : M St unit.
Variable Conf_reload_initiate : M St bool.

(** ** Reloading the configuration *)

Definition signal_conf_reload : M St unit :=
  Net_signal_conf_reload;;
  Sess_signal_conf_reload;;
  FC_signal_conf_reload;;
  modify (fun s => s <| My_index :=
    index_or_minus1 (Conf_proc_by_id_in_conf (Config s) (id (My s))) |>).

(** Every daemon in a component of its own. *)
Definition singleton_partition : M St unit :=
  cn ← gets Config;
  undef_if (MAX_PROCS_RING <? Conf_num_procs cn);;
  Net_set_partition (zrange 0 (Conf_num_procs cn - 1));;
  modify (fun s => s <| Conf_Reload_Singleton_State := true |>).

Definition Prot_initiate_conf_reload : M St unit :=
  st ← gets State;
  if negb (st_eqb st OP) then mret tt else
  modify (fun s => s <| Prot_Need_Conf_Reload := false |>);;
  need_memb_partition ← Conf_reload_initiate;
  signal_conf_reload;;
  when need_memb_partition singleton_partition;;
  ext_do (E_queue Memb_token_loss_event Zero_timeout).

Definition Prot_handle_conf_reload : M St unit :=
  st ← gets State;
  if st_eqb st OP then Prot_initiate_conf_reload
  else modify (fun s => s <| Prot_Need_Conf_Reload := true |>).

(** ** The broadcast channels *)

Definition handle_control (h : packet_header) (body : list Z) : M St unit :=
  if Is_status (p_type h) then ext_do (Stat_handle_message h)
  else if Is_fc (p_type h) then FC_handle_message h body
  else if Is_conf_reload (p_type h) then Prot_handle_conf_reload
  else mret tt.

Definition Prot_handle_bcast (r : recvd packet_header) : M St unit :=
  '(received_bytes, h, body) ← Net_recv r;
  if received_bytes <=? 0 then mret tt else
  if Is_control (p_type h) then handle_control h body else
  if Is_membership (p_type h) then Memb_handle_message h body else
  if Is_hurry (p_type h) then Handle_hurry h else
  if negb (Is_regular (p_type h)) then mret tt else
  mid ← gets Memb_id;
  if negb (Memb_is_equal mid (p_memb_id h)) then Memb_handle_message h body
  else handle_regular h body.

(** ** Start *)

Definition init_variables : M St unit :=
  modify (fun s => s
    <| My_index := index_or_minus1 (Conf_proc_by_id_in_conf (Config s) (id (My s))) |>
    <| gs_my_id := id (My s) |> <| gs_packet_delivered := 0 |> <| Prev_proc_id := 0 |>
    <| Up_queue := ∅ |> <| Packets := ∅ |>
    <| Highest_seq := 0 |> <| Highest_fifo_seq := 0 |> <| My_aru := 0 |> <| Aru := 0 |>
    <| Last_discarded := 0 |> <| Last_delivered := 0 |> <| Send_pack_queue := [] |>
    <| Last_token := mk_token_header 0 0 0 (mk_membership_id 0 0) 0 0 0 0 0 0 |>
    <| Hurry_head := no_header <| p_proc_id := id (My s) |> <| p_type := HURRY_TYPE |> |>).

Definition attach_channels : M St unit :=
  b ← gets Bcast_channel;
  for_each b (fun fd => ext_do (E_attach_fd fd Prot_handle_bcast_fd HIGH_PRIORITY));;
  t ← gets Token_channel;
  for_each t (fun fd => ext_do (E_attach_fd fd Prot_handle_token_fd MEDIUM_PRIORITY));;
  modify (fun s => s <| Token_has_priority := false |>).

Definition Prot_init : M St unit :=
  init_variables;;
  Net_init;;
  attach_channels;;
  FC_init;;
  Memb_init;;
  r ← gets Reg_membership;
  Net_set_membership r.
End Protocol.
