(* ===== verification/Machine.v ===== *)
(** * The membership algorithm as a state machine

    The daemon between two events: its membership state, whether the token is
    alive, and which of the membership's timers are armed.  [mach_of] reads
    this from the concrete state (the timers from the trace of [E_queue] and
    [E_dequeue] calls); [moves] says what a piece of code does to it.  [fits] is
    the invariant: the armed timers are a function of the state.  [edge] is the
    diagram of the six states of [membership.c] (OP to EVS), read off its code: which
    may follow which in one event. *)

From S2P Require Import Prelude NetTypes Configuration State Network FlowControl SessionLayer Delivery MembSets.
From S2P Require Import Discard TokenLoss Form1 Membership Receive Send Token.

(** ** The abstract machine *)

(** The membership's timers: loss of the token, [Shift_to_seg],
    [Gather_or_represented], [Form_or_fail], [Scast_alive], [Send_join]. *)
Record timers := mk_timers {
  tm_loss : bool; tm_seg : bool; tm_gather : bool; tm_form : bool; tm_alive : bool;
  tm_join : bool }.
Definition no_timers : timers := mk_timers false false false false false false.

Definition set_timer (e : event) (v : bool) (t : timers) : timers :=
  let '(mk_timers l s g f a j) := t in
  match e with
  | Memb_token_loss_event => mk_timers v s g f a j
  | Shift_to_seg_event => mk_timers l v g f a j
  | Gather_or_represented_event => mk_timers l s v f a j
  | Form_or_fail_event => mk_timers l s g v a j
  | Scast_alive_event 0 => mk_timers l s g f v j
  | Send_join_event => mk_timers l s g f a v
  | _ => t
  end.
(** The timers of other modules, and [Memb_lookup_new_members], which looks at
    the state itself, may fire at any time. *)
Definition timer_armed (e : event) (t : timers) : bool :=
  match e with
  | Memb_token_loss_event => tm_loss t
  | Shift_to_seg_event => tm_seg t
  | Gather_or_represented_event => tm_gather t
  | Form_or_fail_event => tm_form t
  | Scast_alive_event code => (code =? 0) && tm_alive t
  | Send_join_event => tm_join t
  | _ => true
  end.

Record mach := mk_mach { m_state : memb_state; m_alive : bool; m_timers : timers }.

(** The timers a state needs. *)
Definition timers_of (st : memb_state) (alive : bool) : timers :=
  match st with
  | OP | EVS | FORM => mk_timers true false false false false false
  | SEG => mk_timers false false true false true false
  | REPRESENTED => mk_timers false true false false false false
  | GATHER => mk_timers alive false false true false true
  end.
Definition alive_in (st : memb_state) (alive : bool) : bool :=
  match st with OP | EVS => alive | GATHER => true | _ => negb alive end.
Definition fits (m : mach) : Prop :=
  alive_in (m_state m) (m_alive m) = true /\ m_timers m = timers_of (m_state m) (m_alive m).

(** What one event may lead to. *)
Definition edge (a b : memb_state) : bool :=
  st_eqb a b ||
  match a with
  | OP => bool_decide (b ∈ [GATHER; FORM; SEG])
  | SEG => bool_decide (b ∈ [GATHER; REPRESENTED])
  | REPRESENTED => bool_decide (b ∈ [SEG; FORM])
  | GATHER => bool_decide (b ∈ [OP; FORM; SEG])
  | FORM => bool_decide (b ∈ [EVS; SEG])
  | EVS => bool_decide (b ∈ [OP; SEG])
  end.

Section Machine.
Context {L : SpuLib} {X : Ext}.

Definition arm (t : timers) (c : call) : timers :=
  match c with
  | E_queue e _ => set_timer e true t
  | E_dequeue e => set_timer e false t
  | _ => t
  end.
Definition armed (s : St) : timers := foldl arm no_timers (trace s).
Definition mach_of (s : St) : mach := mk_mach (State s) (Token_alive s) (armed s).

(** [m] takes the machine along [F], if it returns. *)
Definition moves {A} (m : M St A) (F : mach -> mach) : Prop :=
  forall s, wp partial m (fun _ s' => mach_of s' = F (mach_of s)) s.
Definition calls (c : call) (m : mach) : mach :=
  mk_mach (m_state m) (m_alive m) (arm (m_timers m) c).

Lemma moves_ext_call c : moves (ext_call c) (calls c).
Proof.
  intros s. apply wp_intro. intros a s' [= _ <-]. unfold mach_of, armed. rec_simpl_in_goal.
  by rewrite foldl_app.
Qed.
Lemma moves_ext_do c : moves (ext_do c) (calls c).
Proof.
  intros s. unfold ext_do. wp_step. eapply wp_mono; [apply moves_ext_call|].
  intros r s' H. by wp_step.
Qed.
Lemma moves_e_queue e t : moves (e_queue e t) (calls (E_queue e Zero_timeout)).
Proof.
  intros s. unfold e_queue. do 2 wp_step. eapply wp_mono; [apply moves_ext_do|]. done.
Qed.
Lemma moves_e_dequeue e : moves (e_dequeue e) (calls (E_dequeue e)).
Proof. apply moves_ext_do. Qed.
Lemma moves_modify g F : (forall s, mach_of (g s) = F (mach_of s)) -> moves (modify g) F.
Proof. intros H s. wp_step. apply H. Qed.
Lemma moves_bind {A B} (m : M St A) (k : A -> M St B) F G :
  moves m F -> (forall a, moves (k a) G) -> moves (mbind k m) (fun x => G (F x)).
Proof.
  intros Hm Hk s. wp_step. eapply wp_mono; [apply Hm|]. intros a s1 <-. apply Hk.
Qed.
Lemma moves_skip {A B} (m : M St A) (k : A -> M St B) F :
  frame mach_of m -> (forall a, moves (k a) F) -> moves (mbind k m) F.
Proof.
  intros Hm Hk s. wp_step. eapply wp_mono; [apply (frame_wp mach_of _ _ Hm)|].
  intros a s1 <-. apply Hk.
Qed.
Lemma moves_frame {A} (m : M St A) : frame mach_of m -> moves m (fun x => x).
Proof. intros H s. by apply (frame_wp mach_of). Qed.
Lemma moves_eq {A} (m : M St A) F G : moves m F -> (forall x, F x = G x) -> moves m G.
Proof. intros H E s. eapply wp_mono; [apply H|]. intros a s' ->. apply E. Qed.

(** A call that arms nothing. *)
Lemma frame_call_mach c : (forall t, arm t c = t) -> frame mach_of (ext_call c).
Proof.
  intros H s a s' [= _ <-]. unfold mach_of, armed. rec_simpl_in_goal. rewrite foldl_app. cbn [foldl]. by rewrite H.
Qed.
Lemma frame_do_mach c : (forall t, arm t c = t) -> frame mach_of (ext_do c).
Proof.
  intros H. apply frame_bind; [by apply frame_call_mach|]. intros. apply frame_ret.
Qed.
Lemma frame_queue_mach e t : (forall x, set_timer e true x = x) -> frame mach_of (e_queue e t).
Proof.
  intros H. apply frame_bind; [apply frame_gets|]. intros. by apply frame_do_mach.
Qed.
End Machine.

(** The code that leaves the machine alone. *)

#[export] Hint Extern 1 (frame mach_of (ext_call _)) => apply frame_call_mach; by intros [] : frame.
#[export] Hint Extern 1 (frame mach_of (ext_do _)) => apply frame_do_mach; by intros [] : frame.
#[export] Hint Extern 1 (frame mach_of (e_queue _ _)) => apply frame_queue_mach; by intros [] : frame.
#[export] Hint Extern 1 (frame mach_of (update_packet _ _)) => apply frame_modify; reflexivity : frame.
#[export] Hint Extern 1 (frame mach_of (set_packet _ _)) => apply frame_modify; reflexivity : frame.
#[export] Hint Extern 1 (frame mach_of (e_dequeue _)) => apply frame_do_mach; by intros [] : frame.

Section Frames.
Context {L : SpuLib} {X : Ext}.
Implicit Types (h : packet_header) (t : token_header).

Lemma send_bcast_rest_mach d l r : frame mach_of (send_bcast_rest d l r).
Proof. revert r. induction l; intros r; cbn [send_bcast_rest]; solve_frame. Qed.
Hint Resolve send_bcast_rest_mach : frame.
Lemma send_bcast_mach d : frame mach_of (send_bcast d).
Proof. unfold send_bcast. solve_frame. Qed.
Hint Resolve send_bcast_mach : frame.
Lemma Net_bcast_mach h els : frame mach_of (Net_bcast h els).
Proof.
  unfold Net_bcast. apply frame_bind; [apply frame_gets|intros h1].
  apply frame_bind; [apply frame_gets|intros addrs].
  apply frame_bind; [|intros; solve_frame].
  match goal with |- frame _ (?f addrs 0) => set (go := f) end. generalize 0.
  induction addrs as [|a addrs IH]; intros r; [apply frame_ret|].
  apply frame_bind; [apply frame_call_mach; by intros []|]. intros r'. apply IH.
Qed.
Lemma Net_scast_mach i h els : frame mach_of (Net_scast i h els).
Proof. unfold Net_scast. solve_frame. Qed.
Lemma Net_ucast_mach i h els : frame mach_of (Net_ucast i h els).
Proof. unfold Net_ucast. solve_frame. Qed.
Lemma Net_send_token_mach t els : frame mach_of (Net_send_token t els).
Proof. unfold Net_send_token, check_token_len. solve_frame. Qed.
Lemma Net_ucast_token_mach i t els : frame mach_of (Net_ucast_token i t els).
Proof. unfold Net_ucast_token, check_token_len. solve_frame. Qed.
Lemma Net_set_membership_mach c : frame mach_of (Net_set_membership c).
Proof. unfold Net_set_membership. solve_frame. Qed.
Lemma Net_set_partition_mach l : frame mach_of (Net_set_partition l).
Proof. unfold Net_set_partition, write_partition. solve_frame. Qed.
Lemma Net_clear_partition_mach : frame mach_of Net_clear_partition.
Proof. unfold Net_clear_partition, write_partition. solve_frame. Qed.
Lemma In_my_component_mach i : frame mach_of (In_my_component i).
Proof. unfold In_my_component. solve_frame. Qed.
Lemma Net_signal_conf_reload_mach : frame mach_of Net_signal_conf_reload.
Proof. unfold Net_signal_conf_reload. solve_frame. apply Net_clear_partition_mach. Qed.
End Frames.

#[export] Hint Resolve send_bcast_mach Net_bcast_mach Net_scast_mach Net_ucast_mach
  Net_send_token_mach Net_ucast_token_mach Net_set_membership_mach Net_set_partition_mach
  Net_clear_partition_mach In_my_component_mach Net_signal_conf_reload_mach : frame.

Section Receiving.
Context {L : SpuLib} {X : Ext}.

Lemma Net_recv_mach r : frame mach_of (Net_recv r).
Proof. unfold Net_recv, Net_route, Net_handle_monitor. solve_frame. Qed.
Lemma Net_recv_token_mach r : frame mach_of (Net_recv_token r).
Proof. unfold Net_recv_token. solve_frame. Qed.
Lemma FC_handle_message_mach h b : frame mach_of (FC_handle_message h b).
Proof. unfold FC_handle_message. solve_frame. Qed.
Lemma FC_init_mach : frame mach_of FC_init.
Proof. unfold FC_init. solve_frame. Qed.
Lemma Prot_set_delivery_threshold_mach t : frame mach_of (Prot_set_delivery_threshold t).
Proof. unfold Prot_set_delivery_threshold. solve_frame. Qed.
Lemma I_lead_mach : frame mach_of I_lead.
Proof. unfold I_lead, leader_of. solve_frame. Qed.
Hint Resolve I_lead_mach : frame.
Lemma Prot_token_hurry_mach : frame mach_of Prot_token_hurry.
Proof. unfold Prot_token_hurry, resend_last_token. solve_frame. Qed.
Hint Resolve Prot_token_hurry_mach : frame.
Lemma Handle_hurry_mach h : frame mach_of (Handle_hurry h).
Proof. unfold Handle_hurry. solve_frame. Qed.
Hint Resolve Handle_hurry_mach : frame.
Lemma send_hurry_mach : frame mach_of send_hurry.
Proof. unfold send_hurry, leader_of. solve_frame. Qed.
Lemma unpack_rest_mach b h : frame mach_of (unpack_rest b h).
Proof. unfold unpack_rest, unpack_step. solve_frame. Qed.
Lemma get_down_queue_mach : frame mach_of get_down_queue.
Proof. unfold get_down_queue. solve_frame. Qed.
Lemma set_down_queue_mach d : frame mach_of (set_down_queue d).
Proof. unfold set_down_queue. solve_frame. Qed.
End Receiving.

#[export] Hint Resolve Net_recv_mach Net_recv_token_mach FC_handle_message_mach FC_init_mach
  Prot_set_delivery_threshold_mach I_lead_mach Prot_token_hurry_mach Handle_hurry_mach
  send_hurry_mach unpack_rest_mach get_down_queue_mach set_down_queue_mach : frame.

(** * What leaves the machine alone

    Sending, delivering, the exchange of packets, and the bodies of the form
    tokens do not touch the membership's state, the liveness of the token or
    the membership's timers. *)

(** The session layer arms none of the membership's timers. *)
Class SessionTimers {L : SpuLib} {X : Ext} (SL : SessionLayer) : Prop := {
  timers_deliver_message m : frame armed (Sess_deliver_message m);
  timers_deliver_trans c i : frame armed (Sess_deliver_trans_memb c i);
  timers_deliver_reg c i : frame armed (Sess_deliver_reg_memb c i);
  timers_block : frame armed Sess_block_users_level;
  timers_unblock : frame armed Sess_unblock_users_level;
  timers_conf_reload : frame mach_of Sess_signal_conf_reload;
  timers_badger mbox : frame mach_of (Sess_badger mbox);
  timers_accept_continue : frame mach_of Sess_accept_continue
}.

Lemma Recorder_timers {L : SpuLib} {X : Ext} to_list of_list :
  SessionTimers (Recorder to_list of_list).
Proof. split; intros; cbn; unfold record_delivery; solve_frame. Qed.

Section Frames.
Context {L : SpuLib} {X : Ext} {SL : SessionLayer} {HSL : SessionLaws SL} {HST : SessionTimers SL}.

Lemma upcall_mach {A} (m : M St A) : frame lower m -> frame armed m -> frame mach_of m.
Proof.
  intros Hu Ha s a s' E. unfold mach_of. rewrite (Ha s a s' E).
  pose proof (lower_membs _ _ (Hu s a s' E)) as Hm.
  unfold membs in Hm. by injection Hm as -> ->.
Qed.

Lemma deliver_message_mach m : frame mach_of (Sess_deliver_message m).
Proof. apply upcall_mach; [apply upcall_frame, law_deliver_message|apply timers_deliver_message]. Qed.
Lemma deliver_trans_mach c i : frame mach_of (Sess_deliver_trans_memb c i).
Proof. apply upcall_mach; [apply law_deliver_trans|apply timers_deliver_trans]. Qed.
Lemma deliver_reg_mach c i : frame mach_of (Sess_deliver_reg_memb c i).
Proof. apply upcall_mach; [apply law_deliver_reg|apply timers_deliver_reg]. Qed.
Lemma block_mach : frame mach_of Sess_block_users_level.
Proof. apply upcall_mach; [apply law_block|apply timers_block]. Qed.
Lemma unblock_mach : frame mach_of Sess_unblock_users_level.
Proof. apply upcall_mach; [apply upcall_frame, law_unblock|apply timers_unblock]. Qed.
Hint Resolve deliver_message_mach deliver_trans_mach deliver_reg_mach block_mach
  unblock_mach : frame.
Hint Resolve timers_conf_reload : frame.

(** ** Delivery and sending *)

Lemma Deliver_packet_mach e c : frame mach_of (Deliver_packet e c).
Proof. unfold Deliver_packet. solve_frame. Qed.
Hint Resolve Deliver_packet_mach : frame.
Lemma Deliver_reliable_packets_mach a n : frame mach_of (Deliver_reliable_packets a n).
Proof. unfold Deliver_reliable_packets. solve_frame. Qed.
Lemma Deliver_agreed_packets_mach : frame mach_of Deliver_agreed_packets.
Proof. unfold Deliver_agreed_packets, deliver_agreed_step. solve_frame. Qed.
Hint Resolve Deliver_reliable_packets_mach Deliver_agreed_packets_mach : frame.
Lemma discard_regular_mach : frame mach_of discard_regular.
Proof. unfold discard_regular, deliver_and_drop. solve_frame. Qed.
Lemma Prot_new_message_mach l : frame mach_of (Prot_new_message l).
Proof. unfold Prot_new_message. solve_frame. Qed.
Lemma send_queued_mach n : frame mach_of (send_queued n).
Proof. unfold send_queued, bcast_now. solve_frame. Qed.
Hint Resolve send_queued_mach : frame.
Lemma Prot_queue_bcast_mach h b : frame mach_of (Prot_queue_bcast h b).
Proof. unfold Prot_queue_bcast, bcast_now. solve_frame. Qed.
Lemma Prot_flush_bcast_mach : frame mach_of Prot_flush_bcast.
Proof. unfold Prot_flush_bcast. solve_frame. Qed.
Hint Resolve Prot_queue_bcast_mach : frame.
Lemma Send_new_packets_mach n : frame mach_of (Send_new_packets n).
Proof.
  unfold Send_new_packets, send_step, send_one_packet, build_packet, start_packet, fill_step,
    advance_queue. solve_frame.
Qed.
Lemma Answer_retrans_mach b n : frame mach_of (Answer_retrans b n).
Proof. unfold Answer_retrans, answer_step, answer_ring, answer_request, resend. solve_frame. Qed.
Lemma evs_commit_mach : frame mach_of evs_commit.
Proof. unfold evs_commit, Memb_commit. solve_frame. Qed.
Lemma prefer_bcast_mach : frame mach_of prefer_bcast.
Proof. unfold prefer_bcast, move_fd. solve_frame. Qed.
Hint Resolve Send_new_packets_mach Answer_retrans_mach evs_commit_mach prefer_bcast_mach : frame.
Lemma token_begin_mach h : frame mach_of (token_begin h).
Proof. unfold token_begin. solve_frame. Qed.
Lemma token_work_mach h b : frame mach_of (token_work h b).
Proof. unfold token_work, flow_control_update. solve_frame. Qed.
Lemma token_in_turn_mach h : frame mach_of (token_in_turn h).
Proof. unfold token_in_turn, just_installed. solve_frame. Qed.
Lemma token_expected_mach h r : frame mach_of (token_expected h r).
Proof. unfold token_expected. solve_frame. Qed.
Lemma update_aru_mach h : frame mach_of (update_aru h).
Proof. unfold update_aru. solve_frame. Qed.
Lemma count_idle_round_mach : frame mach_of count_idle_round.
Proof. unfold count_idle_round. solve_frame. Qed.
Lemma maybe_prefer_token_mach h : frame mach_of (maybe_prefer_token h).
Proof. unfold maybe_prefer_token, prefer_token, move_fd. solve_frame. Qed.
Lemma update_after_insert_mach n : frame mach_of (update_after_insert n).
Proof. unfold update_after_insert. solve_frame. Qed.
Lemma flip_frags_mach h b : frame mach_of (flip_frags h b).
Proof. unfold flip_frags, flip_frags_step. solve_frame. Qed.

(** ** The form tokens *)

Lemma fill_membership_mach l c : frame mach_of (fill_membership l c).
Proof. unfold fill_membership, fill_segment, append_id. solve_frame. Qed.
Hint Resolve fill_membership_mach : frame.
Lemma Memb_transitional_mach : frame mach_of Memb_transitional.
Proof. unfold Memb_transitional, leader_of. solve_frame. Qed.
Lemma Backoff_membership_mach : frame mach_of Backoff_membership.
Proof. unfold Backoff_membership. solve_frame. Qed.
Lemma insert_f_member_mach i : frame mach_of (insert_f_member i).
Proof. unfold insert_f_member. solve_frame. Qed.
Lemma insert_f_rep_mach i : frame mach_of (insert_f_rep i).
Proof. unfold insert_f_rep. solve_frame. Qed.
Lemma insert_potential_mach i : frame mach_of (insert_potential i).
Proof. unfold insert_potential. solve_frame. Qed.
Lemma clear_potential_mach : frame mach_of clear_potential.
Proof. unfold clear_potential. solve_frame. Qed.
Hint Resolve insert_potential_mach clear_potential_mach Backoff_membership_mach : frame.
Lemma segments_to_potential_mach c t : frame mach_of (segments_to_potential c t).
Proof. unfold segments_to_potential, segment_rep. solve_frame. Qed.
Lemma f_reps_to_potential_mach t : frame mach_of (f_reps_to_potential t).
Proof. unfold f_reps_to_potential. solve_frame. Qed.
Hint Resolve segments_to_potential_mach f_reps_to_potential_mach : frame.
Lemma loss_by_state_mach st : frame mach_of (loss_by_state st).
Proof. unfold loss_by_state. solve_frame. Qed.
Lemma alone_mach c : frame mach_of (alone c).
Proof. unfold alone, append_to. solve_frame. Qed.
Lemma clear_last_token_mach : frame mach_of clear_last_token.
Proof. unfold clear_last_token. solve_frame. Qed.
Lemma reps_to_potential_mach r : frame mach_of (reps_to_potential r).
Proof. unfold reps_to_potential. solve_frame. Qed.
Lemma put_missing_mach a b e : frame mach_of (put_missing a b e).
Proof. unfold put_missing, put_entry. solve_frame. Qed.
Lemma put_commit_mach e : frame mach_of (put_commit e).
Proof. unfold put_commit, put_entry. solve_frame. Qed.
Lemma set_f_members_mach l : frame mach_of (set_f_members l).
Proof. unfold set_f_members. solve_frame. Qed.
Lemma ucast_token_twice_mach p h e : frame mach_of (ucast_token_twice p h e).
Proof. unfold ucast_token_twice. solve_frame. Qed.
Hint Resolve reps_to_potential_mach put_missing_mach put_commit_mach set_f_members_mach
  ucast_token_twice_mach : frame.

(** [Create_form1] before it waits for the form2 token. *)
Lemma create_form1_id_mach : frame mach_of create_form1_id.
Proof. unfold create_form1_id. solve_frame. Qed.
Lemma ring_to_f_members_mach : frame mach_of ring_to_f_members.
Proof. unfold ring_to_f_members. solve_frame. Qed.
Lemma create_form1_members_mach : frame mach_of create_form1_members.
Proof. unfold create_form1_members. solve_frame. Qed.
Lemma create_form1_reps_mach : frame mach_of create_form1_reps.
Proof. unfold create_form1_reps. solve_frame. Qed.
Lemma create_form1_ring_mach : frame mach_of create_form1_ring.
Proof. unfold create_form1_ring. solve_frame. Qed.
Lemma create_form1_send_mach h r : frame mach_of (create_form1_send h r).
Proof. unfold create_form1_send. solve_frame. Qed.

Lemma decode_form1_mach b l : frame mach_of (decode_form1 b l).
Proof. unfold decode_form1. solve_frame. Qed.
Lemma fill_members_mach m r : frame mach_of (fill_members m r).
Proof.
  unfold fill_members, fill_as_member, fill_as_rep, fill_valid_members, write_members, set_member.
  solve_frame.
Qed.
Lemma fill_rings_mach n b m : frame mach_of (fill_rings n b m).
Proof.
  unfold fill_rings, copy_ring, remove_self, fill_new_ring, fill_old_ring, fill_old_holes,
    fill_old_commit, insert_entries, read_entry, put_entry. solve_frame.
Qed.
Lemma fill_send_mach h m r l : frame mach_of (fill_send h m r l).
Proof. unfold fill_send. solve_frame. Qed.

Lemma decode_form2_mach b l : frame mach_of (decode_form2 b l).
Proof. unfold decode_form2. solve_frame. Qed.
Lemma form2_members_ok_mach i m : frame mach_of (form2_members_ok i m).
Proof. unfold form2_members_ok. solve_frame. Qed.
Lemma find_my_ring_mach t b i n : forall p o, frame mach_of (find_my_ring t b i n p o).
Proof. induction n; intros p o; cbn [find_my_ring]; solve_frame. Qed.
Lemma fresh_time_mach : frame mach_of fresh_time.
Proof. unfold fresh_time. solve_frame. Qed.
Hint Resolve fresh_time_mach : frame.
Lemma name_membership_mach m i : frame mach_of (name_membership m i).
Proof. unfold name_membership. solve_frame. Qed.
Lemma build_future_mach m : frame mach_of (build_future m).
Proof. unfold build_future, append_to. solve_frame. Qed.
Lemma check_dropped_mach a b : frame mach_of (check_dropped a b).
Proof. unfold check_dropped. solve_frame. Qed.
Hint Resolve check_dropped_mach : frame.
Lemma forget_above_mach n : frame mach_of (forget_above n).
Proof. unfold forget_above. solve_frame. Qed.
Lemma mark_holes_mach l : frame mach_of (mark_holes l).
Proof. unfold mark_holes. solve_frame. Qed.
Lemma recompute_my_aru_mach : frame mach_of recompute_my_aru.
Proof. unfold recompute_my_aru, recompute_step. solve_frame. Qed.
Lemma set_future_commit_mach r l : frame mach_of (set_future_commit r l).
Proof. unfold set_future_commit. solve_frame. Qed.
Lemma transitional_time_mach r t : frame mach_of (transitional_time r t).
Proof. unfold transitional_time. solve_frame. Qed.
Lemma form2_send_mach h b : frame mach_of (form2_send h b).
Proof. unfold form2_send, send_token_twice. solve_frame. Qed.

(** ** Messages *)

Lemma with_send_pack_mach f : (forall h, frame mach_of (f h)) -> frame mach_of (with_send_pack f).
Proof. intros H. unfold with_send_pack. solve_frame. Qed.
Lemma prepare_join_mach : frame mach_of prepare_join.
Proof. unfold prepare_join, members_part, reps_part. solve_frame. Qed.
Lemma send_refer_mach a b c : frame mach_of (send_refer a b c).
Proof. unfold send_refer. solve_frame. Qed.
Lemma lookup_sends_mach l : frame mach_of (lookup_sends l).
Proof. unfold lookup_sends, with_send_pack. solve_frame. Qed.
Lemma decode_join_mach h b : frame mach_of (decode_join h b).
Proof. unfold decode_join. solve_frame. Qed.
Lemma set_member_mach m i p : frame mach_of (set_member m i p).
Proof. unfold set_member. solve_frame. Qed.
End Frames.

#[export] Hint Resolve deliver_message_mach deliver_trans_mach deliver_reg_mach block_mach
  unblock_mach Deliver_packet_mach Deliver_reliable_packets_mach Deliver_agreed_packets_mach
  discard_regular_mach Prot_new_message_mach Prot_flush_bcast_mach token_begin_mach
  token_work_mach token_in_turn_mach token_expected_mach update_aru_mach count_idle_round_mach
  maybe_prefer_token_mach update_after_insert_mach flip_frags_mach timers_conf_reload : frame.
#[export] Hint Resolve Memb_transitional_mach insert_f_member_mach insert_f_rep_mach
  insert_potential_mach clear_potential_mach f_reps_to_potential_mach loss_by_state_mach
  alone_mach clear_last_token_mach reps_to_potential_mach create_form1_id_mach
  ring_to_f_members_mach create_form1_members_mach create_form1_reps_mach create_form1_ring_mach
  create_form1_send_mach decode_form1_mach fill_members_mach fill_rings_mach fill_send_mach
  decode_form2_mach form2_members_ok_mach find_my_ring_mach name_membership_mach
  build_future_mach forget_above_mach mark_holes_mach recompute_my_aru_mach
  set_future_commit_mach transitional_time_mach form2_send_mach prepare_join_mach
  send_refer_mach lookup_sends_mach decode_join_mach set_member_mach : frame.
