(* ===== verification/MachineProps.v ===== *)
(** * The membership algorithm, event by event

    Every handler takes a daemon whose armed timers fit its state to one whose
    do, along an edge of the diagram; so do all reachable states, and each of
    them has an armed timer that ends it. *)

From stdpp Require Import relations.
From S2P Require Import Prelude NetTypes Configuration State Network FlowControl.
From S2P Require Import SessionLayer Delivery MembSets Discard TokenLoss.
From S2P Require Import Form1 Membership Receive Send Token Protocol.
From S2P Require Import Machine.

Section Moves.
Context {L : SpuLib} {X : Ext} {SL : SessionLayer} {HSL : SessionLaws SL} {HST : SessionTimers SL}.

Lemma moves_shift_state st :
  moves (shift_state st) (fun m => mk_mach st (m_alive m) (m_timers m)).
Proof. by apply moves_modify. Qed.
Lemma moves_set_alive v :
  moves (modify (fun s => s <| Token_alive := v |>)) (fun m => mk_mach (m_state m) v (m_timers m)).
Proof. by apply moves_modify. Qed.
End Moves.

(** Steps through straight-line code. *)
Create HintDb moves discriminated.
Ltac moves_step :=
  lazymatch goal with
  | |- moves (mbind _ _) _ =>
      first [ apply moves_skip; [solve [solve_frame] | intros] | eapply moves_bind; [ | intros] ]
  | |- moves (match ?x with _ => _ end) _ => destruct x
  | |- moves (shift_state _) _ => apply moves_shift_state
  | |- moves (ext_do _) _ => apply moves_ext_do
  | |- moves (e_queue _ _) _ => apply moves_e_queue
  | |- moves (e_dequeue _) _ => apply moves_e_dequeue
  | |- moves _ _ =>
      first [ apply moves_set_alive | solve [eauto 1 with moves nocore]
            | apply moves_frame; solve [solve_frame] ]
  end.
Create HintDb safe discriminated.
Ltac solve_moves := eapply moves_eq; [repeat moves_step | by intros [? ? []]].

Section Machine.
Context {L : SpuLib} {X : Ext} {SL : SessionLayer} {HSL : SessionLaws SL} {HST : SessionTimers SL}.

Lemma Shift_to_op_moves : moves Shift_to_op (fun m => mk_mach OP (m_alive m) (m_timers m)).
Proof. unfold Shift_to_op. solve_moves. Qed.
Lemma Shift_to_seg_moves : moves Shift_to_seg (fun m => mk_mach SEG (m_alive m)
  (set_timer Gather_or_represented_event true (set_timer (Scast_alive_event 0) true (m_timers m)))).
Proof. unfold Shift_to_seg. solve_moves. Qed.
Lemma Shift_to_gather_moves : moves Shift_to_gather (fun m => mk_mach GATHER (m_alive m)
  (set_timer Form_or_fail_event true (set_timer Send_join_event true
    (set_timer (Scast_alive_event 0) false (m_timers m))))).
Proof. unfold Shift_to_gather. solve_moves. Qed.
Lemma Shift_to_represented_moves : moves Shift_to_represented (fun m =>
  mk_mach REPRESENTED (m_alive m) (set_timer Shift_to_seg_event true
    (set_timer Gather_or_represented_event false
      (set_timer (Scast_alive_event 0) false (m_timers m))))).
Proof. unfold Shift_to_represented. solve_moves. Qed.
Hint Resolve Shift_to_op_moves Shift_to_seg_moves Shift_to_gather_moves
  Shift_to_represented_moves : moves.
Lemma back_to_op_moves : moves back_to_op (fun m =>
  mk_mach OP (m_alive m) (set_timer Send_join_event false (m_timers m))).
Proof. unfold back_to_op. solve_moves. Qed.

(** ** The loss of the token *)

Definition lost (m : mach) : mach :=
  let '(mk_timers l s g f a j) := m_timers m in
  mk_mach SEG false (mk_timers false s true false true false).

Lemma Memb_token_loss_moves : moves Memb_token_loss lost.
Proof. unfold Memb_token_loss. solve_moves. Qed.

Lemma Memb_token_loss_state s :
  wp partial Memb_token_loss (fun _ _ => State s <> SEG /\ State s <> REPRESENTED) s.
Proof.
  unfold Memb_token_loss. do 3 wp_step.
  apply wp_intro. intros [] s1 H1.
  match goal with |- wp _ ?m _ _ => set (r := m) end.
  apply wp_intro. intros a s' _. destruct (State s); try done; cbn in H1; discriminate.
Qed.

(** ** The form tokens *)

Definition waiting (m : mach) : mach :=
  mk_mach FORM false (set_timer Memb_token_loss_event true (m_timers m)).
Lemma shift_to_form_moves : moves shift_to_form waiting.
Proof. unfold shift_to_form. solve_moves. Qed.
Hint Resolve shift_to_form_moves : moves.

Lemma Create_form1_moves :
  moves Create_form1 (fun m => waiting (calls (L:=L) (E_dequeue Send_join_event) m)).
Proof. unfold Create_form1. solve_moves. Qed.

Lemma Fill_form1_spec h b s : wp partial (Fill_form1 h b) (fun _ s' =>
  mach_of s' = mach_of s \/
  mach_of s' = waiting (mk_mach FORM false (set_timer Shift_to_seg_event false
    (set_timer Form_or_fail_event false (set_timer Send_join_event false (armed s)))))) s.
Proof.
  set (Q := fun (_ : unit) s' => mach_of s' = mach_of s \/
    mach_of s' = waiting (mk_mach FORM false (set_timer Shift_to_seg_event false
      (set_timer Form_or_fail_event false (set_timer Send_join_event false (armed s)))))).
  unfold Fill_form1. wp_step.
  eapply wp_mono; [apply (frame_wp mach_of); solve_frame|]. intros [[m r] buf] s1 E1.
  do 4 wp_step. wp_step.
  eapply wp_mono; [apply (frame_wp mach_of); solve_frame|]. intros [[m' r']|] s2 E2.
  - assert (Hm : mach_of s2 = mach_of s) by congruence.
    match goal with |- wp _ ?p _ _ => assert (H : moves p (fun m => waiting (mk_mach FORM false
      (set_timer Shift_to_seg_event false (set_timer Form_or_fail_event false
        (set_timer Send_join_event false (m_timers m))))))) end.
    { solve_moves. }
    eapply wp_mono; [apply H|]. intros [] s3 E3. right. rewrite E3, Hm. done.
  - wp_step. left. congruence.
Qed.

(** ** Handlers *)

Definition good (st : memb_state) (m : mach) : Prop := fits m /\ edge st (m_state m) = true.
(** From the machine [m0] to fitting timers, along an edge. *)
Definition safe_from {A} (m0 : mach) (m : M St A) : Prop :=
  forall s, mach_of s = m0 -> wp partial m (fun _ s' => good (m_state m0) (mach_of s')) s.
(** A handler run in state [st] ... *)
Definition safe {A} (st : memb_state) (m : M St A) : Prop :=
  forall al, alive_in st al = true -> safe_from (mk_mach st al (timers_of st al)) m.
(** ... and the function of a timer, which is not armed any more. *)
Definition fired {A} (e : event) (st : memb_state) (m : M St A) : Prop :=
  forall al, alive_in st al = true ->
    safe_from (mk_mach st al (set_timer e false (timers_of st al))) m.

Lemma fits_eq m : fits m ->
  alive_in (m_state m) (m_alive m) = true /\
  m = mk_mach (m_state m) (m_alive m) (timers_of (m_state m) (m_alive m)).
Proof. destruct m as [st al t]. intros [Ha Ht]. cbn in *. by subst t. Qed.
Lemma good_refl m : fits m -> good (m_state m) m.
Proof. split; [done|]. by destruct (m_state m). Qed.

Section Safe.
Context (m0 : mach).

Lemma safe_frame {A} (m : M St A) : fits m0 -> frame mach_of m -> safe_from m0 m.
Proof.
  intros Hf Hm s <-. eapply wp_mono; [by apply (frame_wp mach_of)|]. intros a s' ->.
  by apply good_refl.
Qed.
Lemma safe_when c m : fits m0 -> safe_from m0 m -> safe_from m0 (when c m).
Proof. destruct c; [done|]. intros Hf _. apply safe_frame; [done|apply frame_ret]. Qed.
(** Where the machine goes. *)
Lemma safe_moves {A} (m : M St A) F : moves m F -> good (m_state m0) (F m0) -> safe_from m0 m.
Proof. intros Hm H s E. eapply wp_mono; [apply Hm|]. intros a s' ->. by rewrite E. Qed.
Lemma safe_then {A B} (m : M St A) (k : A -> M St B) :
  safe_from m0 m -> (forall a, frame mach_of (k a)) -> safe_from m0 (mbind k m).
Proof.
  intros Hm Hk s Hs. wp_step. eapply wp_mono; [by apply Hm|]. intros a s1 H1.
  eapply wp_mono; [by apply (frame_wp mach_of)|]. intros b s2 ->. exact H1.
Qed.
Lemma safe_after_with {A B} (P : A -> Prop) (m : M St A) (k : A -> M St B) :
  (forall s, mach_of s = m0 -> wp partial m (fun a s' => mach_of s' = m0 /\ P a) s) ->
  (forall a, P a -> safe_from m0 (k a)) -> safe_from m0 (mbind k m).
Proof.
  intros Hm Hk s Hs. wp_step. eapply wp_mono; [by apply Hm|]. intros a s1 [E Ha].
  by apply (Hk a Ha).
Qed.
Lemma safe_after {A B} (m : M St A) (k : A -> M St B) :
  frame mach_of m -> (forall a, safe_from m0 (k a)) -> safe_from m0 (mbind k m).
Proof.
  intros Hm Hk. apply safe_after_with with (P := fun _ => True); [|auto]. intros s <-.
  eapply wp_mono; [by apply (frame_wp mach_of)|]. done.
Qed.
(** A handler that looks at the state. *)
Lemma safe_by_state {A} (k : memb_state -> M St A) :
  safe_from m0 (k (m_state m0)) -> safe_from m0 (mbind k (gets State)).
Proof. intros H s Hs. do 2 wp_step. subst m0. by apply H. Qed.
Lemma safe_by_alive {A} (k : bool -> M St A) :
  safe_from m0 (k (m_alive m0)) -> safe_from m0 (mbind k (gets Token_alive)).
Proof. intros H s Hs. do 2 wp_step. subst m0. by apply H. Qed.
End Safe.

Lemma Memb_token_loss_from m0 :
  good (m_state m0) (lost m0) \/ m_state m0 = SEG \/ m_state m0 = REPRESENTED ->
  safe_from m0 Memb_token_loss.
Proof.
  intros H s Hs. eapply wp_mono.
  { apply wp_conj; [apply Memb_token_loss_moves|apply Memb_token_loss_state]. }
  intros [] s' [-> [H1 H2]]. rewrite Hs. subst m0. by destruct H as [|[|]].
Qed.
Lemma Memb_token_loss_safe st : safe st Memb_token_loss.
Proof.
  intros al Ha. apply Memb_token_loss_from. destruct st, al; auto; left; repeat split.
Qed.
Hint Resolve Memb_token_loss_safe : safe.
End Machine.
#[export] Hint Resolve Memb_token_loss_safe : safe.

(** Walk through a handler; the state is known. *)
Ltac safe_step :=
  lazymatch goal with
  | |- safe _ _ => intros ? ?
  | |- fired _ _ _ => intros ? ?
  | |- safe_from _ (mbind _ (gets State)) => apply safe_by_state; cbn [m_state]
  | |- safe_from _ (mbind _ (gets Token_alive)) => apply safe_by_alive; cbn [m_alive]
  | |- safe_from _ (mbind _ _) =>
      first [ apply safe_after; [solve [solve_frame] | intros]
            | apply safe_then; [ | intros; solve [solve_frame]] ]
  | |- safe_from _ (when _ _) => apply safe_when; [by split|]
  | |- safe_from _ (match ?x with _ => _ end) => destruct x
  | |- safe_from _ _ =>
      first [ apply safe_frame; [by split | solve [solve_frame]]
            | match goal with H : alive_in ?st ?al = true |- safe_from (mk_mach ?st ?al _) ?m =>
                revert al H; change (safe st m); solve [eauto 2 with safe nocore] end ]
  end.
Ltac solve_safe := repeat safe_step.
(** Leaves that arm a timer or shift the state. *)
Ltac check_moves H := eapply safe_moves;
  [ apply H
  | repeat match goal with Ha : alive_in _ ?al = true |- _ => is_var al; destruct al end;
    first [discriminate | by split] ].

#[export] Hint Resolve Shift_to_op_moves Shift_to_seg_moves Shift_to_gather_moves
  Shift_to_represented_moves back_to_op_moves Memb_token_loss_moves shift_to_form_moves
  Create_form1_moves : moves.

Section Handlers.
Context {L : SpuLib} {X : Ext} {SL : SessionLayer} {HSL : SessionLaws SL} {HST : SessionTimers SL}.

Lemma Memb_handle_alive_safe st h : safe st (Memb_handle_alive h).
Proof.
  unfold Memb_handle_alive. do 2 safe_step. destruct st; solve_safe. check_moves moves_e_queue.
Qed.

Lemma Gather_or_represented_fired :
  fired Gather_or_represented_event SEG Gather_or_represented.
Proof.
  unfold Gather_or_represented. solve_safe;
    [check_moves Shift_to_gather_moves|check_moves Shift_to_represented_moves].
Qed.
(** The representatives of a join message are read from its buffer. *)
Definition reads_only (jr : join_reps) : Prop := forall i, frame mach_of (jr_get jr i).
Hint Extern 1 (frame mach_of (jr_get ?jr _)) =>
  match goal with H : reads_only jr |- _ => apply H end : frame.
Lemma decode_join_reads h b s : wp partial (decode_join h b) (fun jr _ => reads_only jr) s.
Proof.
  assert (Hk : forall (jr : join_reps) s, reads_only jr ->
    wp partial (mret jr : M St join_reps) (fun jr _ => reads_only jr) s) by (intros; by wp_step).
  unfold decode_join. wp_step. apply wp_intro. intros m s1 _. wp_step. wp_step; [done|].
  wp_step. apply wp_intro. intros r s2 _. apply Hk. intros i. cbn. solve_frame.
Qed.

Lemma join_in_op_safe h jr : reads_only jr -> safe OP (join_in_op h jr).
Proof. intros Hjr. unfold join_in_op. solve_safe. check_moves Shift_to_gather_moves. Qed.
Lemma join_in_gather_safe h jr : reads_only jr -> safe GATHER (join_in_gather h jr).
Proof. intros Hjr. unfold join_in_gather. solve_safe. check_moves moves_e_queue. Qed.
Lemma Scast_alive_1 : frame mach_of (Scast_alive 1).
Proof. unfold Scast_alive, members_part, with_send_pack. cbn. solve_frame. Qed.
Hint Resolve Scast_alive_1 : frame.
Hint Resolve join_in_op_safe join_in_gather_safe : safe.

Lemma Memb_handle_join_safe st h b : safe st (Memb_handle_join h b).
Proof.
  unfold Memb_handle_join, my_representative.
  safe_step. apply safe_after_with with (P := reads_only).
  { intros s <-. apply wp_conj; [apply (frame_wp mach_of); solve_frame|apply decode_join_reads]. }
  intros jr Hjr. safe_step. destruct st; solve_safe; [check_moves Shift_to_represented_moves|check_moves moves_e_queue].
Qed.
Lemma Memb_handle_refer_safe st h : safe st (Memb_handle_refer h).
Proof.
  intros al Ha. apply safe_frame; [by split|]. unfold Memb_handle_refer. solve_frame.
Qed.
Lemma Memb_lookup_new_members_safe st : safe st Memb_lookup_new_members.
Proof.
  unfold Memb_lookup_new_members. do 2 safe_step. unfold st_eqb.
  case_bool_decide as E; [subst st|]; cbn; solve_safe. check_moves Shift_to_gather_moves.
Qed.
Hint Resolve Memb_handle_alive_safe Memb_handle_join_safe Memb_handle_refer_safe
  Memb_lookup_new_members_safe : safe.
Lemma Memb_handle_foreign_safe st h b : safe st (Memb_handle_foreign h b).
Proof. unfold Memb_handle_foreign. solve_safe. Qed.
Hint Resolve Memb_handle_foreign_safe : safe.
Lemma Memb_handle_message_safe st h b : safe st (Memb_handle_message h b).
Proof. unfold Memb_handle_message. solve_safe. Qed.

Lemma Fill_form1_safe st h b : bool_decide (st ∈ [OP; REPRESENTED; GATHER]) = true ->
  safe st (Fill_form1 h b).
Proof.
  intros Hst al Ha s Hs. eapply wp_mono; [apply Fill_form1_spec|]. intros [] s' [->| ->].
  - rewrite Hs. by apply good_refl.
  - injection Hs as _ _ ->. by destruct st, al.
Qed.
Lemma Memb_handle_form1_safe st h b : safe st (Memb_handle_form1 h b).
Proof.
  unfold Memb_handle_form1. do 2 safe_step. destruct st; solve_safe; by apply Fill_form1_safe.
Qed.
End Handlers.

#[export] Hint Resolve Memb_handle_message_safe Memb_handle_form1_safe
  Memb_lookup_new_members_safe : safe.

Section Events.
Context {L : SpuLib} {X : Ext} {SL : SessionLayer} {HSL : SessionLaws SL} {HST : SessionTimers SL}.

(** ** The timers *)

Lemma Memb_token_loss_fired st : bool_decide (st ∈ [SEG; REPRESENTED]) = false ->
  fired Memb_token_loss_event st Memb_token_loss.
Proof.
  intros Hst al Ha. apply Memb_token_loss_from. destruct st, al; auto; left; repeat split.
Qed.
Lemma Shift_to_seg_fired : fired Shift_to_seg_event REPRESENTED Shift_to_seg.
Proof. safe_step. check_moves Shift_to_seg_moves. Qed.
Lemma Scast_alive_moves : moves (Scast_alive 0) (calls (L:=L) (E_queue (Scast_alive_event 0) Zero_timeout)).
Proof. unfold Scast_alive, members_part, with_send_pack. cbn. solve_moves. Qed.
Lemma Scast_alive_fired : fired (Scast_alive_event 0) SEG (Scast_alive 0).
Proof. safe_step. check_moves Scast_alive_moves. Qed.
Lemma Send_join_moves : moves Send_join (calls (L:=L) (E_queue Send_join_event Zero_timeout)).
Proof. unfold Send_join, with_send_pack. solve_moves. Qed.
Lemma Send_join_fired : fired Send_join_event GATHER Send_join.
Proof. safe_step. check_moves Send_join_moves. Qed.
Lemma Form_or_fail_fired : fired Form_or_fail_event GATHER Form_or_fail.
Proof.
  intros al _. unfold Form_or_fail. do 4 safe_step. safe_step.
  destruct al; cbn [andb]; repeat (safe_step || check_moves back_to_op_moves ||
    check_moves Create_form1_moves || check_moves Shift_to_gather_moves).
Qed.

(** ** The form2 token, and the end of EVS *)

Lemma Discard_packets_regular_mach m0 : m_state m0 <> EVS ->
  forall s, mach_of s = m0 -> wp partial Discard_packets (fun _ s' => mach_of s' = m0 /\ True) s.
Proof.
  intros Hne s <-. cbn in Hne. unfold Discard_packets, st_eqb.
  do 4 wp_step. wp_step; [by wp_step|]. do 2 wp_step.
  rewrite bool_decide_eq_false_2 by done. eapply wp_mono; [apply (frame_wp mach_of); solve_frame|]. done.
Qed.
Lemma Memb_regular_moves : moves Memb_regular (fun m => mk_mach OP (m_alive m) (m_timers m)).
Proof. unfold Memb_regular, leader_of. solve_moves. Qed.
Lemma Discard_packets_safe st : safe st Discard_packets.
Proof.
  intros al Ha. destruct (decide (st = EVS)) as [->|Hne].
  - unfold Discard_packets, discard_evs, discard_before_step, deliver_and_drop, deliver_trans,
      discard_after_step, check_queues, clear_up_queues, deliver_reg, finish_reload, reset_seqs.
    cbn in Ha. subst al. solve_safe. check_moves Memb_regular_moves.
  - intros s Hs. eapply wp_mono;
      [by apply (Discard_packets_regular_mach (mk_mach st al (timers_of st al)) Hne)|].
    intros [] s' [-> _]. apply (good_refl (mk_mach st al _)). by split.
Qed.

(** From FORM to EVS. *)
Definition installs (m : mach) : mach :=
  mk_mach EVS true (set_timer Memb_token_loss_event true (m_timers m)).
Lemma accept_form2_safe h f p i : safe FORM (accept_form2 h f p i).
Proof.
  intros al Ha. unfold accept_form2, Prot_set_prev_proc, FC_new_configuration.
  repeat lazymatch goal with
  | |- safe_from _ (mbind _ Discard_packets) =>
      apply safe_after_with with (P := fun _ => True);
        [by apply Discard_packets_regular_mach | intros _ _]
  | |- safe_from _ (mbind _ _) => apply safe_after; [solve [solve_frame] | intros]
  | |- safe_from _ (match ?x with _ => _ end) => destruct x
  end.
  apply (safe_moves _ _ installs); [solve_moves|]. by destruct al.
Qed.
Lemma Read_form2_safe h b n : safe FORM (Read_form2 h b n).
Proof.
  intros al Ha. unfold Read_form2. repeat (safe_step || by apply accept_form2_safe).
Qed.
Hint Resolve Read_form2_safe Discard_packets_safe : safe.
Lemma Memb_handle_form2_safe st h b : safe st (Memb_handle_form2 h b).
Proof.
  unfold Memb_handle_form2. do 2 safe_step. unfold st_eqb.
  case_bool_decide as E; [subst st|]; cbn; solve_safe.
Qed.
Hint Resolve Memb_handle_form2_safe : safe.
Lemma Memb_handle_token_safe st h b : safe st (Memb_handle_token h b).
Proof. unfold Memb_handle_token. solve_safe. Qed.
Hint Resolve Memb_handle_token_safe : safe.

(** ** A visit of the token *)

Lemma token_expected_alive h n s : wp partial (token_expected h n) (fun b s' =>
  mach_of s' = mach_of s /\ (b = true -> Token_alive s = true)) s.
Proof.
  apply wp_conj; [apply (frame_wp mach_of); solve_frame|]. unfold token_expected.
  do 3 wp_step; [by wp_step|]. bools_to_props. apply wp_intro. auto.
Qed.
Lemma pass_token_moves h l : moves (pass_token h l) (calls (L:=L) (E_queue Memb_token_loss_event Zero_timeout)).
Proof. unfold pass_token, send_token. solve_moves. Qed.

Lemma limit_evs_rounds_safe st m : bool_decide (st ∈ [OP; GATHER; EVS]) = true -> good st m ->
  forall s, mach_of s = m -> wp partial limit_evs_rounds (fun _ s' => good st (mach_of s')) s.
Proof.
  intros Hst [Hf He] s Hs. unfold limit_evs_rounds. do 4 wp_step. wp_step; [|by subst m].
  unfold st_eqb in *. apply andb_prop in H as [HE _]. apply bool_decide_eq_true in HE.
  assert (m_state m = EVS) as Em by (by subst m). rewrite Em in He.
  assert (st = EVS) as -> by (by destruct st).
  destruct (fits_eq _ Hf) as [Ha Eq]. rewrite Em in Ha, Eq.
  apply (Memb_token_loss_safe EVS (m_alive m) Ha). congruence.
Qed.

Lemma process_token_safe st h b : bool_decide (st ∈ [OP; GATHER; EVS]) = true ->
  safe_from (mk_mach st true (timers_of st true)) (process_token h b).
Proof.
  intros Hst. unfold process_token. apply safe_after; [solve_frame|intros _].
  apply safe_after; [solve_frame|intros [[h' rtr] n]].
  apply safe_after_with with (P := fun _ => True).
  { intros s Hs. eapply wp_mono; [apply pass_token_moves|]. intros a' s' ->. rewrite Hs.
    split; [by destruct st|done]. }
  intros h2 _. unfold token_end, deliver_after_token. do 4 safe_step. intros s Hs. wp_step.
  assert (Hf : fits (mk_mach st true (timers_of st true))) by (by destruct st).
  eapply wp_mono with (Q := fun _ s' => good st (mach_of s')).
  { wp_step. eapply wp_mono.
    { apply (Discard_packets_safe st true); [by destruct st|exact Hs]. }
    intros [] s1 H1. cbn in H1. eapply wp_mono; [apply (frame_wp mach_of); solve_frame|].
    by intros [] s2 ->. }
  intros [] s1 H1. wp_step. eapply wp_mono; [by eapply limit_evs_rounds_safe|].
  intros [] s2 H2. by wp_step.
Qed.

Lemma handle_regular_token_safe st h b n : safe st (handle_regular_token h b n).
Proof.
  intros al Ha. unfold handle_regular_token.
  apply safe_after_with with (P := fun b => b = true -> al = true).
  { intros s Hs. eapply wp_mono; [apply token_expected_alive|]. intros b' s' [-> H].
    split; [done|]. by injection Hs as _ <- _. }
  intros [] Hal; cbn [negb]; [|by safe_step]. specialize (Hal eq_refl). subst al.
  solve_safe. apply process_token_safe. by destruct st.
Qed.
Hint Resolve handle_regular_token_safe : safe.
Lemma Prot_handle_token_safe st r : safe st (Prot_handle_token r).
Proof. unfold Prot_handle_token. solve_safe. Qed.

(** ** Packets *)

Lemma postpone_timers_same m0 : fits m0 ->
  forall s, mach_of s = m0 -> wp partial postpone_timers (fun _ s' => mach_of s' = m0 /\ True) s.
Proof.
  intros Hf s Hs. unfold postpone_timers. do 2 wp_step. wp_step; [|done].
  assert (Hm : moves (e_queue Memb_token_loss_event Token_timeout;; (lead ← I_lead;
    when lead (e_queue Prot_token_hurry_event Hurry_timeout)))
    (calls (L:=L) (E_queue Memb_token_loss_event Zero_timeout))) by solve_moves.
  eapply wp_mono; [apply Hm|]. intros [] s' ->. split; [|done].
  assert (Hal : m_alive m0 = true) by (by subst). destruct (fits_eq _ Hf) as [Ha E].
  rewrite Hal in Ha. rewrite Hs, E, Hal. by destruct (m_state m0).
Qed.
Lemma handle_regular_safe st h b : safe st (handle_regular h b).
Proof.
  intros al Ha. unfold handle_regular. apply safe_after_with with (P := fun _ => True).
  { apply postpone_timers_same. by split. }
  intros _ _. unfold insert_packet. solve_safe.
Qed.
Hint Resolve handle_regular_safe : safe.

Context (Net_init : M St unit) (Conf_reload_initiate : M St bool).
Context (Hreload : frame mach_of Conf_reload_initiate).
Lemma signal_conf_reload_mach : frame mach_of signal_conf_reload.
Proof.
  unfold signal_conf_reload. apply frame_bind; [apply Net_signal_conf_reload_mach|intros _].
  apply frame_bind; [apply timers_conf_reload|intros _].
  apply frame_bind; [apply FC_init_mach|intros _]. by apply frame_modify.
Qed.
Lemma singleton_partition_mach : frame mach_of singleton_partition.
Proof. unfold singleton_partition. solve_frame. Qed.
Hint Resolve signal_conf_reload_mach singleton_partition_mach : frame.
Lemma Prot_initiate_conf_reload_safe st : safe st (Prot_initiate_conf_reload Conf_reload_initiate).
Proof.
  unfold Prot_initiate_conf_reload. do 2 safe_step. unfold st_eqb.
  case_bool_decide as E; [subst st|]; cbn; solve_safe. check_moves moves_ext_do.
Qed.
Hint Resolve Prot_initiate_conf_reload_safe : safe.
Lemma handle_control_safe st h b : safe st (handle_control Conf_reload_initiate h b).
Proof. unfold handle_control, Prot_handle_conf_reload. solve_safe. Qed.
Hint Resolve handle_control_safe : safe.
Lemma Prot_handle_bcast_safe st r : safe st (Prot_handle_bcast Conf_reload_initiate r).
Proof. unfold Prot_handle_bcast. solve_safe. Qed.
End Events.
