(* ===== verification/MachineRuns.v ===== *)
(** * Runs of a daemon

    [step]: one event of the daemon's main loop - a datagram, a timer that is
    armed, a call of the session layer.  [reachable]: the states after the
    start.  In all of them the armed timers fit the state; the state changes
    along the diagram; and an armed timer ends it. *)

From stdpp Require Import relations.
From S2P Require Import Prelude NetTypes Configuration State Network FlowControl.
From S2P Require Import SessionLayer Delivery MembSets Discard TokenLoss.
From S2P Require Import Form1 Membership Receive Send Token Protocol Demo TokenProps.
From S2P Require Import Machine MachineProps.

Section Runs.
Context {L : SpuLib} {X : Ext} {SL : SessionLayer} {HSL : SessionLaws SL} {HST : SessionTimers SL}.
Context (Net_init : M St unit) (Conf_reload_initiate : M St bool).

(** The function queued for each event. *)
Definition run_timer (e : event) : M St unit :=
  match e with
  | Memb_token_loss_event => Memb_token_loss
  | Memb_lookup_new_members_event => Memb_lookup_new_members
  | Shift_to_seg_event => Shift_to_seg
  | Gather_or_represented_event => Gather_or_represented
  | Form_or_fail_event => Form_or_fail
  | Scast_alive_event code => Scast_alive code
  | Send_join_event => Send_join
  | Prot_token_hurry_event => Prot_token_hurry
  | Deliver_all_reliable_packets_event => Deliver_all_reliable_packets
  | Deliver_agreed_packets_event => Deliver_agreed_packets
  | Prot_initiate_conf_reload_event => Prot_initiate_conf_reload Conf_reload_initiate
  | Clear_partition_cb => Net_clear_partition
  | Sess_badger_TO mbox => Sess_badger mbox
  | Sess_accept_continue2 => Sess_accept_continue
  end.

(** The event system takes a timer off its queue, and then runs it. *)
Definition fire (e : event) (s : St) : St := s <| trace := trace s ++ [E_dequeue e] |>.

Inductive step : St -> St -> Prop :=
| step_bcast r s s' : Prot_handle_bcast Conf_reload_initiate r s = Ok tt s' -> step s s'
| step_token r s s' : Prot_handle_token r s = Ok tt s' -> step s s'
| step_timer e s s' :
    timer_armed e (armed s) = true -> run_timer e (fire e s) = Ok tt s' -> step s s'
| step_message l s s' : Prot_new_message l s = Ok tt s' -> step s s'
| step_down_queue q s s' : Prot_set_down_queue q s = Ok tt s' -> step s s'
| step_threshold t s s' : Prot_set_delivery_threshold t s = Ok tt s' -> step s s'.

Definition started (s : St) : Prop :=
  exists s0, armed s0 = no_timers /\ Prot_init Net_init s0 = Ok tt s.
Definition reachable (s : St) : Prop := exists s0, started s0 /\ rtc step s0 s.

Context (Hinit : frame mach_of Net_init) (Hreload : frame mach_of Conf_reload_initiate).

Lemma mach_of_fire e s : mach_of (fire e s) = calls (L:=L) (E_dequeue e) (mach_of s).
Proof. unfold mach_of, armed, fire. rec_simpl_in_goal. by rewrite foldl_app. Qed.

Lemma Prot_init_moves :
  moves (Prot_init Net_init) (fun m => lost (mk_mach OP (m_alive m) (m_timers m))).
Proof.
  unfold Prot_init, init_variables, attach_channels, Memb_init, init_network_kind, init_timeouts,
    init_membership, append_to, set_timeouts. solve_moves.
Qed.

Lemma started_fits s : started s -> fits (mach_of s).
Proof.
  intros (s0 & Ha & E). rewrite (wp_ok _ _ _ _ _ _ (Prot_init_moves s0) E).
  unfold mach_of. by rewrite Ha.
Qed.

(** A timer runs in the states it is armed in. *)
Lemma run_timer_safe e st al : alive_in st al = true ->
  timer_armed e (timers_of st al) = true ->
  safe_from (calls (L:=L) (E_dequeue e) (mk_mach st al (timers_of st al))) (run_timer e).
Proof.
  intros Ha He.
  assert (Hsafe : forall m : M St unit, set_timer e false (timers_of st al) = timers_of st al -> safe st m ->
    safe_from (calls (L:=L) (E_dequeue e) (mk_mach st al (timers_of st al))) m).
  { intros m E Hm. unfold calls. cbn. rewrite E. by apply Hm. }
  destruct e as [| | | | |code| | | | | | |mbox|]; cbn [timer_armed run_timer] in *.
  - apply Memb_token_loss_fired; [by destruct st, al|done].
  - apply Hsafe; [by destruct (timers_of st al)|apply Memb_lookup_new_members_safe].
  - destruct st; try done. by apply Shift_to_seg_fired.
  - destruct st; try done. by apply Gather_or_represented_fired.
  - destruct st; try done. by apply Form_or_fail_fired.
  - apply andb_prop in He as [->%Z.eqb_eq He]. destruct st; try done. by apply Scast_alive_fired.
  - destruct st; try done. by apply Send_join_fired.
  - apply Hsafe; [by destruct (timers_of st al)|]. intros ??. apply safe_frame; [by split|].
    apply Prot_token_hurry_mach.
  - apply Hsafe; [by destruct (timers_of st al)|]. intros ??. apply safe_frame; [by split|].
    unfold Deliver_all_reliable_packets. solve_frame.
  - apply Hsafe; [by destruct (timers_of st al)|]. intros ??. apply safe_frame; [by split|].
    apply Deliver_agreed_packets_mach.
  - apply Hsafe; [by destruct (timers_of st al)|by apply Prot_initiate_conf_reload_safe].
  - apply Hsafe; [by destruct (timers_of st al)|]. intros ??. apply safe_frame; [by split|].
    apply Net_clear_partition_mach.
  - apply Hsafe; [by destruct (timers_of st al)|]. intros ??. apply safe_frame; [by split|].
    apply timers_badger.
  - apply Hsafe; [by destruct (timers_of st al)|]. intros ??. apply safe_frame; [by split|].
    apply timers_accept_continue.
Qed.

Lemma step_good s s' : step s s' -> fits (mach_of s) -> good (State s) (mach_of s').
Proof.
  intros Hstep Hf. pose proof (fits_eq _ Hf) as [Ha E].
  assert (Hsafe : forall m : M St unit, safe (State s) m -> m s = Ok tt s' -> good (State s) (mach_of s')).
  { intros m Hm R. by apply (wp_ok _ _ _ _ _ _ (Hm _ Ha s E) R). }
  assert (Hfr : forall m : M St unit, frame mach_of m -> m s = Ok tt s' -> good (State s) (mach_of s')).
  { intros m Hm. apply Hsafe. intros ??. apply safe_frame; [by split|done]. }
  destruct Hstep as [r s s' R|r s s' R|e s s' He R|l s s' R|q s s' R|t s s' R].
  - by apply (Hsafe _ (Prot_handle_bcast_safe _ Hreload _ r)).
  - by apply (Hsafe _ (Prot_handle_token_safe _ r)).
  - apply (f_equal m_timers) in E as Et. cbn in Et. rewrite Et in He.
    pose proof (run_timer_safe e _ _ Ha He (fire e s)) as H. rewrite <-E in H.
    exact (wp_ok _ _ _ _ _ _ (H (mach_of_fire e s)) R).
  - by apply (Hfr _ (Prot_new_message_mach l)).
  - eapply (Hfr _); [|exact R]. by apply frame_modify.
  - by apply (Hfr _ (Prot_set_delivery_threshold_mach t)).
Qed.

Lemma reachable_fits s : reachable s -> fits (mach_of s).
Proof.
  intros (s0 & H0 & Hr). apply started_fits in H0.
  induction Hr as [|s1 s2 s3 H1 _ IH]; [done|]. apply IH. by apply (step_good s1).
Qed.

(** C8. The armed timers of the membership follow its state: in every state a
    daemon reaches - by datagrams, timers and the calls of the sessions, in any
    order - exactly the timers of the state are armed, and the token is alive
    in OP and EVS, dead in SEG, REPRESENTED and FORM. *)
Theorem timers_follow_state (s : St) : reachable s ->
  armed s = timers_of (State s) (Token_alive s) /\ alive_in (State s) (Token_alive s) = true.
Proof. intros H. destruct (reachable_fits s H) as [Ha Ht]. by split. Qed.

(** C9. The diagram of the states: one event takes a reachable daemon along one
    edge, so that, for instance, a membership is installed (EVS to OP) only by a
    daemon that waited for it (FORM to EVS). *)
Theorem states_follow_diagram (s s' : St) : reachable s -> step s s' ->
  edge (State s) (State s') = true.
Proof. intros Hr%reachable_fits Hs. apply (step_good s s' Hs Hr). Qed.

(** The timer that ends a state, and where it leads: from GATHER a daemon with
    the token alive goes back to OP, one without it gathers again, unless it
    forms a membership. *)
Definition ending (st : memb_state) : event :=
  match st with
  | OP | EVS | FORM => Memb_token_loss_event
  | SEG => Gather_or_represented_event
  | REPRESENTED => Shift_to_seg_event
  | GATHER => Form_or_fail_event
  end.
Definition exits (st : memb_state) (alive : bool) : list memb_state :=
  match st with
  | OP | EVS | FORM | REPRESENTED => [SEG]
  | SEG => [GATHER; REPRESENTED]
  | GATHER => [FORM; if alive then OP else GATHER]
  end.

Lemma moves_to {A} (m : M St A) F s st : moves m F -> (forall x, m_state (F x) = st) ->
  wp partial m (fun _ s' => State s' = st) s.
Proof.
  intros Hm HF. eapply wp_mono; [apply Hm|]. intros a s' E. rewrite <-(HF (mach_of s)), <-E. done.
Qed.
Lemma lost_state m : m_state (lost m) = SEG.
Proof. by destruct m as [? ? []]. Qed.

Lemma Gather_or_represented_exits s :
  wp partial Gather_or_represented (fun _ s' => State s' ∈ [GATHER; REPRESENTED]) s.
Proof.
  unfold Gather_or_represented. do 9 wp_step. apply wp_intro. intros [n i] s1 _. wp_step.
  - eapply wp_mono; [by apply (moves_to _ _ _ GATHER Shift_to_gather_moves)|].
    intros [] s' ->. left.
  - eapply wp_mono; [by apply (moves_to _ _ _ REPRESENTED Shift_to_represented_moves)|].
    intros [] s' ->. right. left.
Qed.

Lemma Form_or_fail_exits s :
  wp partial Form_or_fail (fun _ s' => State s' ∈ exits GATHER (Token_alive s)) s.
Proof.
  assert (Hop : forall s', wp partial back_to_op (fun _ s' => State s' = OP) s').
  { intros s'. by apply (moves_to _ _ _ OP back_to_op_moves). }
  unfold Form_or_fail. do 9 wp_step. apply wp_intro. intros [n i] s1 _.
  destruct (Token_alive s); cbn [exits andb].
  - wp_step; [wp_step|].
    + eapply wp_mono; [apply Hop|]. intros [] s' ->. right. left.
    + eapply wp_mono; [by apply (moves_to _ _ _ FORM Create_form1_moves)|]. intros [] s' ->. left.
    + eapply wp_mono; [apply Hop|]. intros [] s' ->. right. left.
  - wp_step.
    + eapply wp_mono; [by apply (moves_to _ _ _ FORM Create_form1_moves)|]. intros [] s' ->. left.
    + do 2 wp_step. wp_step. apply wp_intro. intros m s2 _. do 2 wp_step. wp_step.
      apply wp_intro. intros [] s3 _. wp_step. apply wp_intro. intros t s4 _.
      eapply wp_mono; [by apply (moves_to _ _ _ GATHER Shift_to_gather_moves)|].
      intros [] s' ->. right. left.
Qed.

(** C10. No state is a dead end: in every state a daemon reaches, a timer is armed
    that takes it to another state (or, from GATHER without a token, starts the
    search for a membership again). *)
Theorem timer_ends_state (s : St) : reachable s ->
  timer_armed (ending (State s)) (armed s) = true /\
  wp partial (run_timer (ending (State s))) (fun _ s' =>
    State s' ∈ exits (State s) (Token_alive s)) (fire (ending (State s)) s).
Proof.
  intros [Ha Ht]%reachable_fits. cbn in Ha, Ht. rewrite Ht. split; [by destruct (State s)|].
  assert (Hal : Token_alive (fire (ending (State s)) s) = Token_alive s) by done. revert Hal.
  generalize (fire (ending (State s)) s). intros s0 <-.
  assert (Hone : forall (m : M St unit) F, moves m F -> (forall x, m_state (F x) = SEG) ->
    wp partial m (fun _ s' => State s' ∈ [SEG]) s0).
  { intros m F Hm HF. eapply wp_mono; [by apply (moves_to _ _ _ SEG Hm)|].
    intros [] s' ->. left. }
  destruct (State s); cbn [ending run_timer exits];
    first [ apply (Hone _ _ Memb_token_loss_moves lost_state)
          | by apply (Hone _ _ Shift_to_seg_moves)
          | apply Gather_or_represented_exits | apply Form_or_fail_exits ].
Qed.
End Runs.

(** A start, and the first timer. *)
Definition demo_start : St := demo_state demo_conf demo_a.
Definition no_init : M St unit := mret tt.
Definition no_reload : M St bool := mret false.

#[export] Instance demo_timers : SessionTimers demo_session.
Proof. apply Recorder_timers. Qed.

Lemma demo_run : exists s s', Prot_init no_init demo_start = Ok tt s /\
  run_timer no_reload Gather_or_represented_event (fire Gather_or_represented_event s) = Ok tt s' /\
  State s = SEG /\ armed s = timers_of SEG false /\ State s' = GATHER /\
  armed s' = timers_of GATHER false.
Proof.
  assert (H : ran (Prot_init no_init) demo_start (fun _ s =>
    (ran (run_timer no_reload Gather_or_represented_event) (fire Gather_or_represented_event s)
       (fun _ s' => (State s', armed s')), State s, armed s)) =
    Some (Some (GATHER, timers_of GATHER false), SEG, timers_of SEG false)).
  { vm_compute. reflexivity. }
  apply ran_Some in H as ([] & s & E & [= H1 H2 H3]). symmetry in H1.
  apply ran_Some in H1 as ([] & s' & E' & [= H4 H5]). exists s, s'. by split_and!.
Qed.
Lemma demo_reachable s : Prot_init no_init demo_start = Ok tt s -> reachable no_init no_reload s.
Proof. intros E. exists s. split; [|done]. exists demo_start. split; [reflexivity|exact E]. Qed.

Example timers_follow_state_witness : exists s', reachable no_init no_reload s' /\
  State s' = GATHER /\ armed s' = timers_of (State s') (Token_alive s') /\
  alive_in (State s') (Token_alive s') = true.
Proof.
  destruct demo_run as (s & s' & E & E' & _ & Ht & HG & _).
  assert (Hr : reachable no_init no_reload s').
  { exists s. split; [exists demo_start; split; [reflexivity|exact E]|].
    apply rtc_once, (step_timer _ Gather_or_represented_event); [by rewrite Ht|exact E']. }
  exists s'. split; [exact Hr|]. split; [exact HG|].
  apply (timers_follow_state no_init no_reload); [apply frame_ret|apply frame_ret|exact Hr].
Defined.

Example states_follow_diagram_witness : exists s s', step no_reload s s' /\
  State s = SEG /\ State s' = GATHER /\ edge (State s) (State s') = true.
Proof.
  destruct demo_run as (s & s' & E & E' & HS & Ht & HG & _).
  assert (Hs : step no_reload s s').
  { apply (step_timer _ Gather_or_represented_event); [by rewrite Ht|exact E']. }
  exists s, s'. split; [exact Hs|]. split; [exact HS|]. split; [exact HG|].
  apply (states_follow_diagram no_init no_reload); [apply frame_ret|apply frame_ret| |exact Hs].
  by apply demo_reachable.
Defined.

Example timer_ends_state_witness : exists s, reachable no_init no_reload s /\
  timer_armed (ending (State s)) (armed s) = true /\
  wp partial (run_timer no_reload (ending (State s))) (fun _ s' =>
    State s' ∈ exits (State s) (Token_alive s)) (fire (ending (State s)) s).
Proof.
  destruct demo_run as (s & s' & E & _). exists s.
  assert (Hr : reachable no_init no_reload s) by (by apply demo_reachable).
  split; [exact Hr|]. apply (timer_ends_state no_init no_reload);
    [apply frame_ret|apply frame_ret|exact Hr].
Defined.
