(* ===== verification/SetsProps.v ===== *)
(** * Members and representatives: what the sets are

    [Insert_member] keeps a set, [Insert_rep] one entry per representative and
    a candidate only for a segment without one, [Smallest_member] and
    [Sort_members] follow the order of the configuration. *)

From stdpp Require Import sorting.
From S2P Require Import Prelude NetTypes Configuration State MembSets Demo.

(** ** Arrays *)

Lemma arr_get_nth {A} (l : list A) i x : 0 <= i -> l !! Z.to_nat i = Some x -> arr_get l i = Some x.
Proof. intros. unfold arr_get. by destruct (Z.ltb_spec i 0); [lia|]. Qed.
Lemma arr_set_nth {A} (l : list A) i x :
  0 <= i < Z.of_nat (length l) -> arr_set l i x = Some (<[Z.to_nat i := x]> l).
Proof.
  intros. unfold arr_set. destruct (Z.ltb_spec i 0); [lia|].
  by destruct (Z.leb_spec (Z.of_nat (length l)) i); [lia|].
Qed.
Lemma first_n_insert {A} n (l : list A) x : 0 <= n < Z.of_nat (length l) ->
  first_n (Z.succ n) (<[Z.to_nat n := x]> l) = first_n n l ++ [x].
Proof.
  intros. unfold first_n. rewrite Z2Nat.inj_succ by lia.
  rewrite (take_S_r _ _ x) by (rewrite list_lookup_insert_eq; [done|lia]).
  by rewrite take_insert_ge by lia.
Qed.
Lemma length_first_n {A} n (l : list A) : 0 <= n <= Z.of_nat (length l) ->
  Z.of_nat (length (first_n n l)) = n.
Proof. intros. unfold first_n. rewrite length_take. lia. Qed.
Lemma first_n_lookup {A} n (l : list A) i : (Z.of_nat i < n) -> first_n n l !! i = l !! i.
Proof. intros. unfold first_n. apply lookup_take_lt. lia. Qed.

(** ** Members *)

Record wf_members (m : members_info) : Prop := {
  wm_length : Z.of_nat (length (members m)) = MAX_PROCS_RING;
  wm_num : 0 <= num_members m <= MAX_PROCS_RING;
  wm_set : NoDup (live m) }.

(** [Insert_member] adds an element to the set unless it is there, or the array
    is full; 1 says that it was added.  It stays a set within its array. *)
Theorem Insert_member_set (m : members_info) (pid : Z) : wf_members m ->
  wp total (Insert_member m pid) (fun r _ =>
    wf_members r.2 /\ num_pending r.2 = num_pending m /\
    (r.1 = 1 /\ (pid ∉ live m) /\ num_members m < MAX_PROCS_RING /\ live r.2 = live m ++ [pid] \/
     r.1 = 0 /\ (pid ∈ live m \/ num_members m = MAX_PROCS_RING) /\ r.2 = m)) tt.
Proof.
  intros [Hl Hn Hd]. unfold Insert_member. repeat wp_step.
  - apply bool_decide_eq_true in H. cbn. split_and!; [by split|done|]. right. auto.
  - apply Z.eqb_eq in H0. cbn. split_and!; [by split|done|]. right. auto.
  - apply bool_decide_eq_false in H. apply Z.eqb_neq in H0. unfold aset. wp_step; [|wp_step].
    + rewrite arr_set_nth in H1 by lia. done.
    + rewrite arr_set_nth in H1 by lia. injection H1 as <-.
      assert (Hlive : live (m <| members := <[Z.to_nat (num_members m) := pid]> (members m) |>
        <| num_members ::= Z.succ |>) = live m ++ [pid]).
      { unfold live. rec_simpl_in_goal. apply first_n_insert. lia. }
      cbn [fst snd]. split_and!; [|done|left; split_and!; [done|done|lia|done]].
      split; rec_simpl_in_goal; [by rewrite length_insert|lia|].
      rewrite Hlive. apply NoDup_app. split_and!; [done| |apply NoDup_singleton].
      intros x Hx ->%list_elem_of_singleton. done.
Qed.

Example Insert_member_set_witness :
  wp total (Insert_member (mk_members_info 2 0 ([1; 2] ++ replicate 126 0)) 3) (fun r _ =>
    r.1 = 1 /\ live r.2 = [1; 2; 3]) tt.
Proof.
  eapply wp_mono; [apply Insert_member_set|].
  - split; [vm_compute; reflexivity|vm_compute; split; discriminate|].
    apply (bool_decide_unpack _). vm_compute. exact I.
  - intros r _ (_ & _ & [(H1 & _ & _ & H2)|(_ & [H|H] & _)]).
    + split; [exact H1|exact H2].
    + exfalso. revert H. apply (bool_decide_unpack (_ ∉ _)). vm_compute. exact I.
    + discriminate H.
Defined.

(** ** Representatives *)

Section Reps.
Context {L : SpuLib} (cn : configuration).

(** A daemon of the configuration, in its segment, of one of the three kinds. *)
Definition rep_known (e : rep_info) : Prop :=
  (rep_type e = POTENTIAL_REP \/ rep_type e = SEG_REP \/ rep_type e = RING_REP) /\
  exists i p, Conf_proc_by_id_in_conf cn (rep_proc_id e) = Some (i, p) /\
    rep_seg_index e = seg_index p.

(** Every daemon at most once, and a candidate alone in its segment. *)
Definition reps_set (l : list rep_info) : Prop :=
  Forall rep_known l /\ NoDup (map rep_proc_id l) /\
  forall i j e e', l !! i = Some e -> l !! j = Some e' -> rep_type e = POTENTIAL_REP ->
    rep_seg_index e = rep_seg_index e' -> i = j.

Record wf_reps (r : reps_info) : Prop := {
  wr_length : Z.of_nat (length (reps r)) = MAX_REPS;
  wr_num : 0 <= num_reps r <= MAX_REPS;
  wr_set : reps_set (live_reps r) }.

(** The entry that stands for a representative. *)
Definition stands_for (rep e : rep_info) : Prop :=
  if rep_type rep =? POTENTIAL_REP then rep_seg_index e = rep_seg_index rep
  else rep_proc_id e = rep_proc_id rep /\ rep_type e = rep_type rep.

Lemma rep_known_seg e e' : rep_known e -> rep_known e' -> rep_proc_id e = rep_proc_id e' ->
  rep_seg_index e = rep_seg_index e'.
Proof.
  intros (_ & i & p & Hp & ->) (_ & i' & p' & Hp' & ->) E. congruence.
Qed.

Lemma reps_set_replace l i e e' : reps_set l -> l !! i = Some e -> rep_known e' ->
  rep_type e' <> POTENTIAL_REP -> rep_seg_index e' = rep_seg_index e ->
  (rep_proc_id e' = rep_proc_id e \/ rep_type e = POTENTIAL_REP) ->
  reps_set (<[i := e']> l).
Proof.
  intros (HF & HN & HP) Hi He' Ht Hs Hor.
  assert (Hlt : (i < length l)%nat) by (by eapply lookup_lt_Some).
  assert (Hother : forall j x, i <> j -> l !! j = Some x -> rep_proc_id x <> rep_proc_id e').
  { intros j x Hij Hj E. rewrite Forall_lookup in HF. destruct Hor as [Hp|Hp].
    - apply Hij. rewrite NoDup_alt in HN. apply (HN i j (rep_proc_id x)).
      + rewrite list_lookup_fmap, Hi. cbn. congruence.
      + by rewrite list_lookup_fmap, Hj.
    - apply Hij. apply (HP i j e x); [done..|]. rewrite <-Hs. symmetry.
      by apply rep_known_seg; [apply (HF j)|..]. }
  split_and!.
  - by apply Forall_insert.
  - rewrite NoDup_alt. intros j k p. rewrite !list_lookup_fmap.
    destruct (decide (i = j)) as [<-|Hj]; [rewrite list_lookup_insert_eq by done|
      rewrite list_lookup_insert_ne by done]; cbn.
    + destruct (decide (i = k)) as [<-|Hk]; [done|]. rewrite list_lookup_insert_ne by done.
      destruct (l !! k) as [x|] eqn:Ek; [|done]. intros [= <-] [= E]. by edestruct Hother.
    + destruct (l !! j) as [x|] eqn:Ej; [|done]. intros [= <-].
      destruct (decide (i = k)) as [<-|Hk]; [rewrite list_lookup_insert_eq by done|
        rewrite list_lookup_insert_ne by done]; cbn.
      * intros [= E]. by edestruct Hother.
      * intros E. rewrite NoDup_alt in HN. apply (HN j k (rep_proc_id x)); rewrite list_lookup_fmap;
          [by rewrite Ej|done].
  - intros j k x y Hj Hk Hx Hxy.
    destruct (decide (i = j)) as [<-|Hij].
    { rewrite list_lookup_insert_eq in Hj by done. injection Hj as <-. done. }
    rewrite list_lookup_insert_ne in Hj by done.
    destruct (decide (i = k)) as [<-|Hik].
    + rewrite list_lookup_insert_eq in Hk by done. injection Hk as <-.
      apply (HP j i x e); [done..|]. congruence.
    + rewrite list_lookup_insert_ne in Hk by done. by apply (HP j k x y).
Qed.

Lemma reps_set_append l e : reps_set l -> rep_known e -> rep_proc_id e ∉ map rep_proc_id l ->
  Forall (fun x => rep_seg_index x = rep_seg_index e ->
    rep_type x <> POTENTIAL_REP /\ rep_type e <> POTENTIAL_REP) l ->
  reps_set (l ++ [e]).
Proof.
  intros (HF & HN & HP) He Hn Hs. split_and!.
  - apply Forall_app. by split; [|constructor].
  - rewrite map_app. apply NoDup_app. split_and!; [done| |apply NoDup_singleton].
    by intros p Hp ->%list_elem_of_singleton.
  - rewrite Forall_lookup in Hs.
    assert (Hcase : forall j x, (l ++ [e]) !! j = Some x -> l !! j = Some x \/ j = length l /\ x = e).
    { intros j x. rewrite lookup_app. destruct (l !! j) as [y|] eqn:E; [by left|].
      apply lookup_ge_None in E. destruct (j - length l)%nat eqn:Ej; [|done].
      intros [= <-]. right. split; [lia|done]. }
    intros i j x y [Hi|[-> ->]]%Hcase [Hj|[-> ->]]%Hcase Hx Hxy; [by apply (HP i j x y)|..].
    + by destruct (Hs i x Hi Hxy).
    + by destruct (Hs j y Hj (eq_sym Hxy)).
    + done.
Qed.

(** What the loops of [Insert_rep] for a representative of kind [t] find. *)
Definition inserted (t : Z) (p : proc) (l : list rep_info) (o : option (Z * list rep_info)) : Prop :=
  match o with
  | Some (v, l') => exists i e, l !! i = Some e /\ rep_seg_index e = seg_index p /\
      (v = 0 /\ l' = l /\ rep_type e = t /\ rep_proc_id e = id p \/
       v = 1 /\ exists e', l' = <[i := e']> l /\ rep_type e' = t /\ rep_proc_id e' = id p /\
         rep_seg_index e' = rep_seg_index e /\
         (rep_proc_id e' = rep_proc_id e \/ rep_type e = POTENTIAL_REP))
  | None => Forall (fun e => rep_seg_index e = seg_index p -> rep_type e <> POTENTIAL_REP /\
      (rep_type e = SEG_REP \/ rep_type e = RING_REP -> rep_proc_id e <> id p)) l
  end.

Lemma inserted_next t p e l o : inserted t p l o ->
  (rep_seg_index e = seg_index p -> rep_type e <> POTENTIAL_REP /\
    (rep_type e = SEG_REP \/ rep_type e = RING_REP -> rep_proc_id e <> id p)) ->
  inserted t p (e :: l)
    (match o with Some (v, l'') => Some (v, e :: l'') | None => None end).
Proof.
  intros Ho He. destruct o as [[v l']|]; cbn in *; [|by constructor].
  destruct Ho as (i & x & Hi & Hs & [(-> & -> & H)|(-> & e' & -> & H)]); exists (S i), x.
  - split_and!; [done..|]. by left.
  - split_and!; [done..|]. right. split; [done|]. by exists e'.
Qed.

Ltac here := exists O; eexists; split; [reflexivity|].
Lemma insert_seg_rep_spec p l : inserted SEG_REP p l (insert_seg_rep p l).
Proof.
  unfold POTENTIAL_REP, SEG_REP, RING_REP in *.
  induction l as [|e l IH]; cbn [insert_seg_rep]; [constructor|].
  unfold POTENTIAL_REP, SEG_REP, RING_REP in *.
  destruct (Z.eqb_spec (rep_seg_index e) (seg_index p)) as [Hs|Hs]; [|by apply inserted_next].
  destruct (Z.eqb_spec (rep_type e) 0) as [H0|H0].
  { here. split; [done|]. right. split; [done|]. eexists; split; [reflexivity|]. rec_simpl_in_goal. auto. }
  destruct (Z.eqb_spec (rep_type e) 1) as [H1|H1].
  { destruct (Z.eqb_spec (rep_proc_id e) (id p)) as [Hp|Hp].
    - here. split; [done|]. by left.
    - apply inserted_next; [done|]. intros _. split; [done|]. done. }
  destruct (Z.eqb_spec (rep_type e) 2) as [H2|H2]; cbn [andb].
  - destruct (Z.eqb_spec (rep_proc_id e) (id p)) as [Hp|Hp].
    + here. split; [done|]. right. split; [done|]. eexists; split; [reflexivity|]. rec_simpl_in_goal. auto.
    + apply inserted_next; [done|]. intros _. by split.
  - apply inserted_next; [done|]. intros _. split; [done|]. by intros [].
Qed.

Lemma insert_ring_rep_spec p l : inserted RING_REP p l (insert_ring_rep p l).
Proof.
  unfold POTENTIAL_REP, SEG_REP, RING_REP in *.
  induction l as [|e l IH]; cbn [insert_ring_rep]; [constructor|].
  unfold POTENTIAL_REP, SEG_REP, RING_REP in *.
  destruct (Z.eqb_spec (rep_seg_index e) (seg_index p)) as [Hs|Hs]; [|by apply inserted_next].
  destruct (Z.eqb_spec (rep_type e) 0) as [H0|H0].
  { here. split; [done|]. right. split; [done|]. eexists; split; [reflexivity|]. rec_simpl_in_goal. auto. }
  destruct (Z.eqb_spec (rep_type e) 1) as [H1|H1].
  { destruct (Z.eqb_spec (rep_proc_id e) (id p)) as [Hp|Hp].
    - here. split; [done|]. right. split; [done|]. eexists; split; [reflexivity|]. rec_simpl_in_goal. auto.
    - apply inserted_next; [done|]. intros _. by split. }
  destruct (Z.eqb_spec (rep_type e) 2) as [H2|H2]; cbn [andb].
  - destruct (Z.eqb_spec (rep_proc_id e) (id p)) as [Hp|Hp].
    + here. split; [done|]. by left.
    + apply inserted_next; [done|]. intros _. by split.
  - apply inserted_next; [done|]. intros _. split; [done|]. by intros [].
Qed.

Lemma live_write r l : wf_reps r -> length l = length (live_reps r) ->
  let r' := r <| reps := l ++ drop (length l) (reps r) |> in
  live_reps r' = l /\ Z.of_nat (length (reps r')) = MAX_REPS.
Proof.
  intros [Hl Hn _] Hlen r'. unfold live_reps in *. pose proof (length_first_n (num_reps r) (reps r)).
  unfold r'. rec_simpl_in_goal. split.
  - unfold first_n. apply take_app_length'. lia.
  - rewrite length_app, length_drop. lia.
Qed.
Lemma live_same r : wf_reps r ->
  r <| reps := live_reps r ++ drop (length (live_reps r)) (reps r) |> = r.
Proof.
  intros [Hl Hn _]. pose proof (length_first_n (num_reps r) (reps r)).
  assert (length (live_reps r) = Z.to_nat (num_reps r)) as -> by (unfold live_reps; lia).
  unfold live_reps, first_n. rewrite take_drop. by destruct r.
Qed.

(** What [Insert_rep] promises of its result. *)
Definition rep_inserted (r : reps_info) (rep : rep_info) (x : Z * reps_info) : Prop :=
  wf_reps x.2 /\ (x.1 = 0 -> x.2 = r) /\
  (num_reps r = MAX_REPS \/ exists e, e ∈ live_reps x.2 /\ stands_for rep e) /\
  (forall e, e ∈ live_reps r -> exists e', e' ∈ live_reps x.2 /\
     rep_seg_index e' = rep_seg_index e).

Section Insert.
Context (r : reps_info) (rep : rep_info) (Hr : wf_reps r) (Hk : rep_known rep).

Lemma rep_kept e : e ∈ live_reps r -> stands_for rep e -> rep_inserted r rep (0, r).
Proof.
  intros He Hst. split_and!; [done|done|right; by exists e|]. intros x Hx. by exists x.
Qed.

Lemma rep_written p o l i : Conf_proc_by_id_in_conf cn (rep_proc_id rep) = Some (i, p) ->
  inserted (rep_type rep) p (live_reps r) (Some (o, l)) -> rep_type rep <> POTENTIAL_REP ->
  rep_inserted r rep (o, r <| reps := l ++ drop (length l) (reps r) |>).
Proof.
  intros Hp (j & e & Hj & He & Hc) Hnp. pose proof Hr as [_ Hn Hs].
  pose proof (find_index_Some _ _ _ _ Hp) as (_ & _ & Hid%Z.eqb_eq & _).
  assert (Hst : forall x, rep_proc_id x = id p -> rep_type x = rep_type rep -> stands_for rep x).
  { intros x Hx Ht. unfold stands_for. destruct (Z.eqb_spec (rep_type rep) POTENTIAL_REP); [done|].
    by rewrite Hx, Hid. }
  destruct Hc as [(-> & -> & H1 & H2)|(-> & e' & -> & Ht & Hp' & Hs' & Hor)].
  { rewrite live_same by done. apply (rep_kept e); [by eapply list_elem_of_lookup_2|auto]. }
  assert (Hlt : (j < length (live_reps r))%nat) by (by eapply lookup_lt_Some).
  destruct (live_write r (<[j:=e']> (live_reps r)) Hr) as [HL HLen]; [by rewrite length_insert|].
  assert (Hin : e' ∈ <[j:=e']> (live_reps r))
    by (by apply list_elem_of_lookup_2 with j, list_lookup_insert_eq).
  split_and!; cbn [fst snd]; [|done| |].
  - split; [exact HLen|exact Hn|]. rewrite HL. apply (reps_set_replace _ _ e); try done; [|congruence].
    split; [rewrite Ht; apply Hk|]. exists i, p. by rewrite Hp', Hid, Hs'.
  - right. exists e'. rewrite HL. auto.
  - rewrite HL. intros x [k Hkx]%list_elem_of_lookup. destruct (decide (j = k)) as [<-|Hjk].
    + exists e'. split; [done|congruence].
    + exists x. split; [|done]. apply list_elem_of_lookup_2 with k. by rewrite list_lookup_insert_ne.
Qed.

Lemma rep_appended : num_reps r <> MAX_REPS -> rep_proc_id rep ∉ map rep_proc_id (live_reps r) ->
  Forall (fun x => rep_seg_index x = rep_seg_index rep ->
    rep_type x <> POTENTIAL_REP /\ rep_type rep <> POTENTIAL_REP) (live_reps r) ->
  wp total (rs ← aset (reps r) (num_reps r) rep;
    mret (1, r <| reps := rs |> <| num_reps ::= Z.succ |>)) (fun x _ => rep_inserted r rep x) tt.
Proof.
  intros Hn' Hni HF. pose proof Hr as [Hl Hn Hs]. unfold aset. wp_step.
  rewrite arr_set_nth by lia. wp_step; [discriminate|]. injection H as <-.
  set (rs := <[Z.to_nat (num_reps r) := rep]> (reps r)).
  assert (HL : live_reps (r <| reps := rs |> <| num_reps ::= Z.succ |>) = live_reps r ++ [rep]).
  { unfold live_reps. rec_simpl_in_goal. apply first_n_insert. lia. }
  wp_step. split_and!; cbn [fst snd]; [|done| |].
  - split; rec_simpl_in_goal; [unfold rs; by rewrite length_insert|lia|]. rewrite HL.
    by apply reps_set_append.
  - right. exists rep. rewrite HL. split; [apply elem_of_app; right; by left|].
    unfold stands_for. by destruct (Z.eqb_spec (rep_type rep) POTENTIAL_REP).
  - intros e He. exists e. rewrite HL. split; [apply elem_of_app; by left|done].
Qed.
End Insert.

(** C33. [Insert_rep] keeps the set: every daemon stands once in it, a candidate
    (POTENTIAL_REP) only while no representative of its segment is known.  After
    it the representative is there (for a candidate: one of its segment),
    unless the array is full, and no segment lost its representative. *)
Theorem Insert_rep_set (r : reps_info) (rep : rep_info) : wf_reps r -> rep_known rep ->
  wp total (Insert_rep cn r rep) (fun x _ => rep_inserted r rep x) tt.
Proof.
  intros Hr Hk. pose proof Hk as (Ht & i & p & Hp & Hseg).
  pose proof (find_index_Some _ _ _ _ Hp) as (_ & _ & Hid%Z.eqb_eq & _).
  pose proof Hr as [Hl Hn (HF & _ & _)].
  assert (Hnew : Forall (fun e => rep_seg_index e = seg_index p -> rep_type e <> POTENTIAL_REP /\
      (rep_type e = SEG_REP \/ rep_type e = RING_REP -> rep_proc_id e <> id p)) (live_reps r) ->
    rep_proc_id rep ∉ map rep_proc_id (live_reps r)).
  { intros HN Hin. apply list_elem_of_In, in_map_iff in Hin as (e & He & Hin%list_elem_of_In).
    rewrite list.Forall_forall in HF, HN. pose proof (HF e Hin) as Hke.
    assert (Hse : rep_seg_index e = seg_index p) by (rewrite (rep_known_seg e rep); done).
    destruct (HN e Hin Hse) as [H0 H1]. apply H1; [|congruence]. destruct Hke as [[|[|]] _]; tauto. }
  assert (Hnone : rep_proc_id rep ∉ map rep_proc_id (live_reps r) ->
    Forall (fun x => rep_seg_index x = rep_seg_index rep ->
      rep_type x <> POTENTIAL_REP /\ rep_type rep <> POTENTIAL_REP) (live_reps r) ->
    wp total (if num_reps r =? MAX_REPS then mret (0, r) else
          rs ← aset (reps r) (num_reps r) rep;
          mret (1, r <| reps := rs |> <| num_reps ::= Z.succ |>))
      (fun x _ => rep_inserted r rep x) tt).
  { intros Hni Hall. wp_step; [wp_step; bools_to_props|bools_to_props; by apply rep_appended].
    split_and!; [done|done|by left|intros e He; by exists e]. }
  assert (Hrep : forall t o, inserted t p (live_reps r) o -> rep_type rep = t -> t <> POTENTIAL_REP ->
    wp total (match o with
      | Some (v, l) => mret (v, r <| reps := l ++ drop (length l) (reps r) |>)
      | None => if num_reps r =? MAX_REPS then mret (0, r) else
          rs ← aset (reps r) (num_reps r) rep;
          mret (1, r <| reps := rs |> <| num_reps ::= Z.succ |>) end)
      (fun x _ => rep_inserted r rep x) tt).
  { intros t o Ho <- Hnp. destruct o as [[v l]|]; [wp_step; by eapply rep_written|].
    apply Hnone; [by apply Hnew|].
    eapply Forall_impl; [exact Ho|]. cbn. intros e He Hse. rewrite Hseg in Hse. split; [|done].
    by apply He. }
  unfold Insert_rep. wp_step. rewrite Hp. wp_step; [discriminate|]. injection H as <-.
  wp_step. wp_step; [wp_step|wp_step; [wp_step|wp_step; [wp_step|wp_step]]]; bools_to_props.
  - destruct (existsb _ _) eqn:E.
    + apply existsb_exists in E as (e & He%list_elem_of_In & Hse%Z.eqb_eq).
      wp_step. cbn [fst snd]. rewrite live_same by done. apply (rep_kept r rep Hr e); [done|].
      unfold stands_for. rewrite H, Z.eqb_refl. congruence.
    + assert (HN : Forall (fun e => rep_seg_index e <> seg_index p) (live_reps r)).
      { apply list.Forall_forall. intros e He Hse.
        assert (existsb (fun x => rep_seg_index x =? seg_index p) (live_reps r) = true); [|congruence].
        apply existsb_exists. exists e. split; [by apply list_elem_of_In|by apply Z.eqb_eq]. }
      apply Hnone.
      * apply Hnew. eapply Forall_impl; [exact HN|]. by intros e He Hse.
      * eapply Forall_impl; [exact HN|]. cbn. rewrite <-Hseg. by intros e He Hse.
  - by apply (Hrep SEG_REP); [apply insert_seg_rep_spec|..].
  - by apply (Hrep RING_REP); [apply insert_ring_rep_spec|..].
  - destruct Ht as [|[|]]; done.
Qed.
End Reps.

(** Daemon 3 stood in as the candidate of its segment; it becomes its
    representative. *)
Definition demo_known_reps : reps_info :=
  mk_reps_info 2 0 ([mk_rep_info 1 RING_REP 0; mk_rep_info 3 POTENTIAL_REP 1] ++
    replicate 23 (mk_rep_info 0 0 0)).

Lemma demo_reps_wf : wf_reps demo_conf demo_known_reps.
Proof.
  split; [vm_compute; reflexivity|vm_compute; split; discriminate|]. split_and!.
  - constructor; [|constructor; [|constructor]].
    + split; [by right; right|]. by exists 0, demo_a.
    + split; [by left|]. by exists 2, demo_c.
  - apply (bool_decide_unpack _). vm_compute. exact I.
  - intros [|[|?]] [|[|?]] e e' [= <-] [= <-]; done.
Qed.

Example Insert_rep_set_witness :
  wp total (Insert_rep demo_conf demo_known_reps (mk_rep_info 3 SEG_REP 1)) (fun x _ =>
    wf_reps demo_conf x.2 /\ exists e, e ∈ live_reps x.2 /\ rep_proc_id e = 3 /\
      rep_type e = SEG_REP) tt.
Proof.
  eapply wp_mono; [apply (Insert_rep_set demo_conf); [exact demo_reps_wf|]|].
  - split; [by right; left|]. by exists 2, demo_c.
  - intros x _ (Hwf & _ & [H|(e & He & Hs)] & _); [discriminate H|].
    split; [exact Hwf|]. exists e. split; [exact He|exact Hs].
Defined.

(** ** The order of the members *)

Section Order.
Context {L : SpuLib} (cn : configuration).

(** The place of a daemon: its segment, and its index there. *)
Definition place (pid : Z) : Z * Z :=
  match Conf_proc_by_id_in_conf cn pid with
  | Some (_, p) => (seg_index p, index_in_seg p) | None => (0, 0) end.
Definition not_after (a b : Z) : Prop :=
  (place a).1 < (place b).1 \/ (place a).1 = (place b).1 /\ (place a).2 <= (place b).2.
Definition known (pid : Z) : Prop := Conf_proc_by_id_in_conf cn pid <> None.

#[local] Instance not_after_trans : Transitive not_after.
Proof. intros a b c. unfold not_after. lia. Qed.
#[local] Instance not_after_refl : Reflexive not_after.
Proof. intros a. unfold not_after. lia. Qed.

Lemma proc_before_place a b i j p q :
  Conf_proc_by_id_in_conf cn a = Some (i, p) -> Conf_proc_by_id_in_conf cn b = Some (j, q) ->
  if proc_before p q then not_after a b else not_after b a.
Proof.
  intros Ha Hb. unfold not_after, place, proc_before. rewrite Ha, Hb. cbn.
  destruct (Z.ltb_spec (seg_index p) (seg_index q)); cbn [orb]; [lia|].
  destruct (Z.eqb_spec (seg_index p) (seg_index q)); cbn [andb]; [|lia].
  destruct (Z.ltb_spec (index_in_seg p) (index_in_seg q)); lia.
Qed.

Lemma lookup_live m i : 0 <= num_members m <= Z.of_nat (length (members m)) ->
  0 <= i < num_members m -> exists x, members m !! Z.to_nat i = Some x /\ x ∈ live m.
Proof.
  intros Hn Hi. destruct (lookup_lt_is_Some_2 (members m) (Z.to_nat i)) as [x Hx]; [lia|].
  exists x. split; [done|]. apply list_elem_of_lookup_2 with (Z.to_nat i).
  unfold live. rewrite first_n_lookup by lia. done.
Qed.

Lemma Smallest_member_spec m :
  0 < num_members m <= Z.of_nat (length (members m)) -> Forall known (live m) ->
  wp total (Smallest_member cn m) (fun r _ =>
    0 <= r.2 < num_members m /\ members m !! Z.to_nat r.2 = Some r.1 /\
    Forall (not_after r.1) (live m)) tt.
Proof.
  intros Hn HF. rewrite list.Forall_forall in HF.
  assert (Hget : forall i, 0 <= i < num_members m -> exists x j p,
    aget (members m) i = mret x /\ members m !! Z.to_nat i = Some x /\
    Conf_proc_by_id_in_conf cn x = Some (j, p)).
  { intros i Hi. destruct (lookup_live m i) as (x & Hx & Hin); [lia|lia|].
    specialize (HF x Hin). unfold known in HF.
    destruct (Conf_proc_by_id_in_conf cn x) as [[j p]|] eqn:E; [|done]. exists x, j, p.
    split_and!; [|done|done]. unfold aget. by rewrite (arr_get_nth _ i x) by (lia || done). }
  unfold Smallest_member. destruct (Hget 0) as (x0 & j0 & p0 & -> & Hx0 & Hp0); [lia|].
  do 3 wp_step. rewrite Hp0. wp_step; [discriminate|]. injection H as <-. wp_step.
  apply wp_for_fold with (I := fun i (c : Z * proc) _ => 0 <= c.1 < i /\ i <= num_members m /\
    exists x j, members m !! Z.to_nat c.1 = Some x /\ Conf_proc_by_id_in_conf cn x = Some (j, c.2) /\
      forall k y, 0 <= k < i -> members m !! Z.to_nat k = Some y -> not_after x y).
  - lia.
  - cbn. split_and!; [lia|lia|lia|]. exists x0, j0. split_and!; [done|done|].
    intros k y Hk Hy. assert (k = 0) as -> by lia. assert (y = x0) as -> by (cbn in *; congruence).
    done.
  - intros i [c pc] [] Hi (Hc & Hle & x & j & Hx & Hpx & Hmin). cbn [fst snd] in *.
    destruct (Hget i) as (y & k & q & -> & Hy & Hq); [lia|]. do 3 wp_step. rewrite Hq.
    wp_step; [discriminate|]. injection H as <-. wp_step.
    pose proof (proc_before_place y x _ _ _ _ Hq Hpx) as Hb.
    destruct (proc_before q pc); cbn [fst snd]; (split; [lia|]; split; [lia|]).
    + exists y, k. split_and!; [done|done|]. intros l z Hl Hz.
      destruct (Z.eq_dec l i) as [->|]; [by replace z with y by congruence|].
      transitivity x; [done|]. apply (Hmin l); [lia|done].
    + exists x, j. split_and!; [done|done|]. intros l z Hl Hz.
      destruct (Z.eq_dec l i) as [->|]; [by replace z with y by congruence|].
      apply (Hmin l); [lia|done].
  - intros [c pc] [] (Hc & _ & x & j & Hx & _ & Hmin). cbn [fst snd] in *. wp_step.
    unfold aget. rewrite (arr_get_nth _ c x) by (lia || done). wp_step; [discriminate|].
    injection H as <-. wp_step. cbn. split_and!; [lia|lia|done|].
    apply list.Forall_forall. intros y [k Hk]%list_elem_of_lookup. unfold live, first_n in Hk.
    apply lookup_take_Some in Hk as [Hk Hlt]. apply (Hmin (Z.of_nat k)); [lia|].
    by rewrite Nat2Z.id.
Qed.

(** The last element takes the place of the one removed. *)
Lemma swap_remove (l : list Z) k i v z : (i <= k)%nat ->
  l !! i = Some v -> l !! k = Some z -> v :: take k (<[i := z]> l) ≡ₚ take (S k) l.
Proof.
  intros Hi Hv Hz. rewrite (take_S_r _ _ _ Hz).
  destruct (decide (i = k)) as [->|Hne].
  - rewrite take_insert_ge by lia. replace z with v by congruence. apply Permutation_cons_append.
  - assert (Hlt : (i < length (take k l))%nat).
    { apply lookup_lt_Some in Hz. rewrite length_take. lia. }
    assert (Ht : take k l !! i = Some v) by (rewrite lookup_take_lt; [done|lia]).
    rewrite take_insert_lt by lia. rewrite insert_take_drop by done.
    rewrite <-(take_drop_middle (take k l) i v Ht) at 3. solve_Permutation.
Qed.

(** Place [i] of the loop of [Sort_members]: the first [i] places hold the
    smallest members in order, the rest waits in [temp]. *)
Record sorting (m0 : members_info) (i : Z) (m temp : members_info) : Prop := {
  so_length : length (members m) = length (members m0) /\ length (members temp) = length (members m0);
  so_num : num_members m = num_members m0 /\ num_pending m = num_pending m0;
  so_temp : num_members temp = num_members m0 - i;
  so_sorted : StronglySorted not_after (first_n i (members m));
  so_below : Forall (fun a => Forall (not_after a) (live temp)) (first_n i (members m));
  so_perm : first_n i (members m) ++ live temp ≡ₚ live m0 }.

Lemma sorting_step m0 i m temp v idx z : sorting m0 i m temp ->
  0 <= i < num_members m0 -> num_members m0 <= Z.of_nat (length (members m0)) ->
  0 <= idx < num_members temp -> members temp !! Z.to_nat idx = Some v ->
  members temp !! Z.to_nat (num_members temp - 1) = Some z ->
  Forall (not_after v) (live temp) ->
  sorting m0 (i + 1) (m <| members := <[Z.to_nat i := v]> (members m) |>)
    (temp <| num_members := num_members temp - 1 |> <| members := <[Z.to_nat idx := z]> (members temp) |>).
Proof.
  intros [[Hl Hlt] Hnum Ht Hs Hb Hp] Hi Hn Hidx Hv Hz Hmin.
  set (temp' := temp <| num_members := _ |> <| members := _ |>).
  assert (Hperm : v :: live temp' ≡ₚ live temp).
  { unfold temp', live, first_n. rec_simpl_in_goal.
    rewrite (swap_remove (members temp) _ _ v z) by (done || lia).
    by replace (S _) with (Z.to_nat (num_members temp)) by lia. }
  assert (Hvl : Forall (not_after v) (live temp')).
  { rewrite <-Hperm in Hmin. by apply Forall_cons in Hmin as [_ ?]. }
  assert (Hfirst : first_n (i + 1) (<[Z.to_nat i := v]> (members m)) = first_n i (members m) ++ [v]).
  { rewrite <-first_n_insert by lia. by replace (Z.succ i) with (i + 1) by lia. }
  split; unfold temp'; rec_simpl_in_goal; fold temp'; rewrite ?length_insert, ?Hfirst; try done.
  - lia.
  - apply StronglySorted_snoc; [done|]. eapply Forall_impl; [exact Hb|]. cbn. intros a Ha.
    rewrite <-Hperm in Ha. by apply Forall_cons in Ha as [? _].
  - apply Forall_app. split; [|by constructor]. eapply Forall_impl; [exact Hb|]. cbn. intros a Ha.
    rewrite <-Hperm in Ha. by apply Forall_cons in Ha as [_ ?].
  - rewrite <-Hp, <-Hperm. by rewrite <-app_assoc.
Qed.

(** [Sort_members] puts the members in the order of the configuration - by
    segment, then by place in the segment - and loses none. *)
Theorem Sort_members_sorted (m : members_info) :
  0 <= num_members m <= Z.of_nat (length (members m)) -> Forall known (live m) ->
  wp total (Sort_members cn m) (fun m' _ =>
    live m' ≡ₚ live m /\ StronglySorted not_after (live m') /\
    num_members m' = num_members m /\ num_pending m' = num_pending m) tt.
Proof.
  intros Hn HF. unfold Sort_members. wp_step.
  apply wp_for_fold with (I := fun i (x : members_info * members_info) _ => 0 <= i <= num_members m /\
    sorting m i x.1 x.2); [lia| | |].
  - split; [lia|]. cbn [fst snd].
    split; change (first_n 0 (members m)) with (@nil Z); first [done | constructor | lia].
  - intros i [m' temp] [] Hi [_ Hs]. cbn [fst snd] in Hs.
    pose proof (so_length _ _ _ _ Hs) as [Hl Hlt]. pose proof (so_temp _ _ _ _ Hs) as Ht.
    wp_step. eapply wp_mono; [apply Smallest_member_spec; [lia|]|].
    { pose proof (so_perm _ _ _ _ Hs) as Hp. rewrite <-Hp in HF. by apply Forall_app in HF as [_ ?]. }
    intros [v idx] [] (Hidx & Hv & Hmin). cbn [fst snd] in *.
    destruct (lookup_live temp (num_members temp - 1)) as (z & Hz & _); [lia|lia|].
    unfold aget, aset. wp_step. rewrite (arr_get_nth _ _ _ (proj1 Hidx) Hv). wp_step; [discriminate|].
    injection H as <-. wp_step. rewrite arr_set_nth by lia. wp_step; [discriminate|]. injection H as <-.
    wp_step. rewrite (arr_get_nth _ (num_members temp - 1) z) by (lia || done). wp_step; [discriminate|].
    injection H as <-. wp_step. rewrite arr_set_nth by lia. wp_step; [discriminate|]. injection H as <-.
    wp_step. split; [lia|]. cbn [fst snd]. apply sorting_step; try done; lia.
  - intros [m' temp] [] [_ Hs]. wp_step. cbn [fst snd] in *.
    replace (num_members m - 1 + 1) with (num_members m) in Hs by lia.
    destruct Hs as [_ [Hnum Hpen] Ht Hsort _ Hp].
    assert (Hlive : live m' = first_n (num_members m) (members m')) by (unfold live; by rewrite Hnum).
    rewrite Hlive. split_and!; try done. rewrite <-Hp.
    assert (live temp = []) as ->; [|by rewrite app_nil_r].
    unfold live, first_n. by replace (Z.to_nat (num_members temp)) with O by lia.
Qed.
End Order.

Example Sort_members_sorted_witness :
  wp total (Sort_members demo_conf (mk_members_info 3 0 ([3; 2; 1] ++ replicate 125 0))) (fun m' _ =>
    live m' ≡ₚ [3; 2; 1] /\ StronglySorted (not_after demo_conf) (live m')) tt.
Proof.
  eapply wp_mono; [apply (Sort_members_sorted demo_conf)|].
  - vm_compute. split; discriminate.
  - change (Forall (known demo_conf) [3; 2; 1]).
    apply Forall_cons_2; [|apply Forall_cons_2; [|apply Forall_cons_2; [|apply Forall_nil_2]]];
      discriminate.
  - intros m' _ (H1 & H2 & _). split; [exact H1|exact H2].
Defined.

Example Sort_members_run :
  match Sort_members demo_conf (mk_members_info 3 0 ([3; 2; 1] ++ replicate 125 0)) tt with
  | Ok m _ => live m | Fail _ => [] end = [1; 2; 3].
Proof. vm_compute. reflexivity. Qed.
