(* ===== verification/Stdutil.v ===== *)
(** * Ordered containers

    groups.c keeps its groups, their daemons and their members in skip lists of
    libstdutil, which is not in the repository.  A skip list is seen as the
    sequence an iterator goes through from [stdskl_begin] to the end, an iterator
    as a position in it; [Stdutil] has the calls that search and insert, and
    [StdutilLaws] what their documentation promises on a sequence that is sorted.
    What is inserted where an equal key is already present is left open.

    An element is a pointer to an object whose first field is its key; writing
    the object through the pointer changes the element where it stands. *)

From S2P Require Import Prelude.
From Stdlib Require Import Sorted.

(** A C comparison function: the sign of the result counts. *)
Class KeyOrder {K} (cmp : K -> K -> Z) : Prop := {
  cmp_refl x : cmp x x = 0;
  cmp_anti x y : cmp x y < 0 <-> 0 < cmp y x;
  cmp_trans x y z : cmp x y <= 0 -> cmp y z <= 0 -> cmp x z <= 0
}.

Section Order.
Context {K : Type} (cmp : K -> K -> Z) `{!KeyOrder cmp}.

Lemma cmp_sym0 x y : cmp x y = 0 -> cmp y x = 0.
Proof. pose proof (cmp_anti x y). pose proof (cmp_anti y x). lia. Qed.
Lemma cmp_eq_l x y z : cmp x y = 0 -> (cmp x z < 0 <-> cmp y z < 0).
Proof.
  intros H. pose proof (cmp_sym0 _ _ H).
  pose proof (cmp_anti x z). pose proof (cmp_anti y z).
  pose proof (cmp_trans z x y). pose proof (cmp_trans z y x). lia.
Qed.
Lemma cmp_eq_r x y z : cmp x y = 0 -> (cmp z x < 0 <-> cmp z y < 0).
Proof.
  intros H. pose proof (cmp_sym0 _ _ H).
  pose proof (cmp_anti z x). pose proof (cmp_anti z y).
  pose proof (cmp_trans x y z). pose proof (cmp_trans y x z). lia.
Qed.
Lemma cmp_lt_trans x y z : cmp x y < 0 -> cmp y z < 0 -> cmp x z < 0.
Proof.
  intros H1 H2. pose proof (cmp_trans x y z). pose proof (cmp_anti x z).
  pose proof (cmp_anti y z). pose proof (cmp_anti x y).
  pose proof (cmp_trans z x y). pose proof (cmp_anti z y). pose proof (cmp_sym0 x z). lia.
Qed.
End Order.

Class Stdutil := {
  (** [stdskl_put(&l, NULL, &x, NULL, STDFALSE)], and the same with a hint *)
  stdskl_put : forall {K A}, (K -> K -> Z) -> (A -> K) -> A -> list A -> list A;
  (** [stdskl_find(&l, &it, &k)]: [None] is the end of the list *)
  stdskl_find : forall {K A}, (K -> K -> Z) -> (A -> K) -> K -> list A -> option nat;
  (** [stdskl_insert_seq(&l, .., b, e, STDTRUE)] *)
  stdskl_insert_seq : forall {K A}, (K -> K -> Z) -> (A -> K) -> list A -> list A -> list A
}.

(** ** The reference: a sorted list with one element for a key *)

Section Sorted.
Context {K A : Type} (cmp : K -> K -> Z) (key : A -> K).

Definition before (x y : A) : Prop := cmp (key x) (key y) < 0.
Definition skl_sorted : list A -> Prop := StronglySorted before.

(** No element has the key [k]. *)
Definition fresh (k : K) (l : list A) : Prop := Forall (fun y => cmp k (key y) <> 0) l.

Fixpoint skl_insert (x : A) (l : list A) : list A :=
  match l with
  | [] => [x]
  | y :: l' => if cmp (key x) (key y) <? 0 then x :: l else y :: skl_insert x l'
  end.

Fixpoint skl_find (k : K) (l : list A) : option nat :=
  match l with
  | [] => None
  | y :: l' => if cmp k (key y) =? 0 then Some O else S <$> skl_find k l'
  end.

Lemma skl_insert_perm x l : skl_insert x l ≡ₚ x :: l.
Proof.
  induction l as [|y l IH]; cbn; [done|]. destruct (_ <? _); [done|].
  rewrite IH. apply Permutation_swap.
Qed.

Lemma skl_find_Some k l i :
  skl_find k l = Some i -> exists y, l !! i = Some y /\ cmp k (key y) = 0.
Proof.
  revert i. induction l as [|y l IH]; intros i; cbn; [done|].
  destruct (Z.eqb_spec (cmp k (key y)) 0).
  - intros [= <-]. by exists y.
  - destruct (skl_find k l) as [j|]; [|done]. cbn. intros [= <-]. by apply IH.
Qed.

Lemma skl_find_None k l : skl_find k l = None <-> fresh k l.
Proof.
  unfold fresh. induction l as [|y l IH]; cbn; [by split|].
  rewrite Forall_cons, <- IH. destruct (Z.eqb_spec (cmp k (key y)) 0).
  - split; [done|]. intros [H _]. done.
  - destruct (skl_find k l); cbn; split; try done; by intros [_ ?].
Qed.

Context `{!KeyOrder cmp}.

Lemma skl_insert_sorted x l :
  skl_sorted l -> fresh (key x) l -> skl_sorted (skl_insert x l).
Proof.
  intros Hs Hf. induction Hs as [|y l Hs IH Hall]; cbn.
  { repeat constructor. }
  apply Forall_cons in Hf as [Hne Hf].
  destruct (Z.ltb_spec (cmp (key x) (key y)) 0) as [Hlt|Hge].
  - constructor; [by constructor|]. constructor; [done|].
    eapply Forall_impl; [apply Hall|]. intros z Hz. unfold before in *.
    by eapply cmp_lt_trans.
  - constructor; [by apply IH|]. rewrite skl_insert_perm. constructor; [|done].
    unfold before. apply (cmp_anti (key y) (key x)). lia.
Qed.

(** In a sorted list a key is found where it is. *)
Lemma skl_find_lookup l i y k :
  skl_sorted l -> l !! i = Some y -> cmp k (key y) = 0 -> skl_find k l = Some i.
Proof.
  intros Hs. revert i. induction Hs as [|z l Hs IH Hall]; intros i Hi Hk; [done|].
  cbn. destruct i as [|i]; cbn in Hi.
  - injection Hi as ->. by rewrite Hk.
  - rewrite (IH i Hi Hk). cbn. destruct (Z.eqb_spec (cmp k (key z)) 0) as [Hz|]; [exfalso|done].
    rewrite Forall_lookup in Hall. specialize (Hall i y Hi). unfold before in Hall.
    apply (cmp_eq_l cmp _ _ (key y) (cmp_sym0 cmp _ _ Hz)) in Hall. lia.
Qed.

Lemma skl_sorted_delete l i : skl_sorted l -> skl_sorted (delete i l).
Proof.
  unfold skl_sorted. intros Hs. revert i.
  induction Hs as [|z l Hs IH Hall]; intros [|i]; cbn; [constructor|constructor|done|].
  constructor; [apply IH|]. by apply Forall_delete.
Qed.

(** An element rewritten with the same key. *)
Lemma skl_sorted_alter l i f :
  (forall y, l !! i = Some y -> cmp (key y) (key (f y)) = 0) ->
  skl_sorted l -> skl_sorted (alter f i l).
Proof.
  unfold skl_sorted. intros Hf Hs. revert i Hf.
  induction Hs as [|z l Hs IH Hall]; intros [|i] Hf; cbn; [constructor|constructor| |].
  - constructor; [done|]. eapply Forall_impl; [apply Hall|]. intros y Hy. unfold before in *.
    by apply (cmp_eq_l cmp _ _ (key y) (Hf z eq_refl)).
  - constructor; [by apply IH|]. apply Forall_lookup. intros j y.
    destruct (decide (j = i)) as [->|Hj].
    + rewrite list_lookup_alter_eq. destruct (l !! i) as [w|] eqn:Hw; [|done].
      intros [= <-]. rewrite Forall_lookup in Hall. specialize (Hall i w Hw). unfold before in *.
      by apply (cmp_eq_r cmp _ _ (key z) (Hf w Hw)).
    + rewrite list_lookup_alter_ne by done. rewrite Forall_lookup in Hall. apply Hall.
Qed.

Lemma skl_sorted_filter l (P : A -> Prop) `{!forall x, Decision (P x)} :
  skl_sorted l -> skl_sorted (filter P l).
Proof.
  unfold skl_sorted. intros Hs. induction Hs as [|z l Hs IH Hall]; [constructor|].
  rewrite filter_cons. case_decide; [|done]. constructor; [done|].
  rewrite Forall_forall in *. intros x [_ Hx]%list_elem_of_filter. by apply Hall.
Qed.
End Sorted.

Class StdutilLaws (U : Stdutil) : Prop := {
  put_fresh K A (cmp : K -> K -> Z) `{!KeyOrder cmp} (key : A -> K) x l :
    skl_sorted cmp key l -> fresh cmp key (key x) l ->
    stdskl_put cmp key x l = skl_insert cmp key x l;
  find_sorted K A (cmp : K -> K -> Z) `{!KeyOrder cmp} (key : A -> K) k l :
    skl_sorted cmp key l -> stdskl_find cmp key k l = skl_find cmp key k l;
  insert_seq_sorted K A (cmp : K -> K -> Z) `{!KeyOrder cmp} (key : A -> K) l :
    skl_sorted cmp key l -> stdskl_insert_seq cmp key l [] = l
}.

(** ** Sorted lists are such containers. *)

#[export] Instance list_stdutil : Stdutil := {|
  stdskl_put K A cmp key x l := skl_insert cmp key x l;
  stdskl_find K A cmp key k l := skl_find cmp key k l;
  stdskl_insert_seq K A cmp key seq l := foldl (fun l x => skl_insert cmp key x l) l seq |}.

Lemma insert_seq_nil {K A} (cmp : K -> K -> Z) (key : A -> K) `{!KeyOrder cmp} l acc :
  skl_sorted cmp key (acc ++ l) ->
  foldl (fun l x => skl_insert cmp key x l) acc l = acc ++ l.
Proof.
  revert acc. induction l as [|x l IH]; intros acc Hs; cbn; [by rewrite app_nil_r|].
  assert (skl_insert cmp key x acc = acc ++ [x]) as ->.
  { clear IH. induction acc as [|y acc IH]; cbn in *; [done|].
    inversion Hs as [|?? Hs' Hall]; subst. rewrite Forall_app in Hall.
    destruct Hall as [_ Hx]. apply Forall_cons in Hx as [Hyx _]. unfold before in Hyx.
    apply (cmp_anti (key y) (key x)) in Hyx.
    destruct (Z.ltb_spec (cmp (key x) (key y)) 0); [lia|]. by rewrite IH. }
  rewrite IH; rewrite <- app_assoc; done.
Qed.

#[export] Instance list_stdutil_laws : StdutilLaws list_stdutil.
Proof.
  split; [done|done|]. intros K A cmp ? key l Hs. cbn. by apply (insert_seq_nil cmp key l []).
Qed.

(** ** Names: null-terminated strings in a buffer *)

(** [strncmp(a, b, n)]; the bytes past the end of a buffer read as 0. *)
Fixpoint strncmp (n : nat) (a b : list Z) : Z :=
  match n with
  | O => 0
  | S n =>
      let x := default 0 (head a) in let y := default 0 (head b) in
      if negb (x =? y) then x - y else if x =? 0 then 0 else strncmp n (tail a) (tail b)
  end.

#[export] Instance strncmp_order n : KeyOrder (strncmp n).
Proof.
  split.
  - induction n as [|n IH]; intros x; cbn; [done|]. rewrite Z.eqb_refl. cbn.
    case_match; [done|]. apply IH.
  - induction n as [|n IH]; intros x y; cbn; [lia|].
    generalize (default 0 (head x)) (default 0 (head y)). intros a b.
    destruct (Z.eqb_spec a b) as [Hab|], (Z.eqb_spec b a); try lia; cbn; [|lia].
    rewrite Hab. destruct (b =? 0); [lia|apply IH].
  - induction n as [|n IH]; intros x y z; cbn; [lia|].
    generalize (default 0 (head x)) (default 0 (head y)) (default 0 (head z)). intros a b c.
    destruct (Z.eqb_spec a b) as [Hab|], (Z.eqb_spec b c) as [Hbc|], (Z.eqb_spec a c);
      cbn; try lia.
    rewrite Hab, Hbc. destruct (c =? 0); [lia|]. apply IH.
Qed.

(** Strings whose null is not among the bytes: no difference is equality. *)
Lemma strncmp_same n a b : 0 ∉ a -> 0 ∉ b -> (length a <= n)%nat -> (length b <= n)%nat ->
  strncmp n a b = 0 <-> a = b.
Proof.
  revert a b. induction n as [|n IH]; intros a b Ha Hb La Lb; cbn [strncmp].
  { destruct a, b; cbn in *; [done|lia|lia|lia]. }
  destruct a as [|x a], b as [|y b]; cbn [head tail default]; try done.
  - apply not_elem_of_cons in Hb as [Hy _]. split; [|done]. cbn -[Z.eqb Z.sub].
    destruct (Z.eqb_spec 0 y) as [|Hne]; cbn -[Z.eqb Z.sub]; [congruence|intros; exfalso; lia].
  - apply not_elem_of_cons in Ha as [Hx _]. split; [|done]. cbn -[Z.eqb Z.sub].
    destruct (Z.eqb_spec x 0) as [|Hne]; cbn -[Z.eqb Z.sub]; [congruence|intros; exfalso; lia].
  - apply not_elem_of_cons in Ha as [Hx Ha], Hb as [Hy Hb]. cbn -[Z.eqb Z.sub] in *.
    destruct (Z.eqb_spec x y) as [->|Hne]; cbn -[Z.eqb Z.sub]; [|split; [intros; exfalso; lia|congruence]].
    destruct (Z.eqb_spec y 0); [congruence|]. rewrite IH by (done || lia).
    split; [by intros ->|by intros [= ->]].
Qed.
