(* ===== verification/Message.v ===== *)
(** * Message objects: [message.c] and the message types of [sess_types.h]

    A message is a scatter of packet bodies; the first begins with the
    [message_header].  A buffer is the list of the bytes written in it.  The
    functions keep no state: they run in any state type. *)

From S2P Require Import Prelude NetTypes Configuration State Network.

(** ** Types *)

Definition UNRELIABLE_MESS : Z := 0x1.
Definition RELIABLE_MESS : Z := 0x2.
Definition FIFO_MESS : Z := 0x4.
Definition CAUSAL_MESS : Z := 0x8.
Definition AGREED_MESS : Z := 0x10.
Definition SAFE_MESS : Z := 0x20.
Definition SELF_DISCARD : Z := 0x40.
Definition REG_MEMB_MESS : Z := 0x1000.
Definition TRANSITION_MESS : Z := 0x2000.
Definition CAUSED_BY_JOIN : Z := 0x100.
Definition CAUSED_BY_LEAVE : Z := 0x200.
Definition CAUSED_BY_DISCONNECT : Z := 0x400.
Definition CAUSED_BY_NETWORK : Z := 0x800.
Definition JOIN_MESS : Z := 0x10000.
Definition LEAVE_MESS : Z := 0x20000.
Definition KILL_MESS : Z := 0x40000.
Definition GROUPS_MESS : Z := 0x80000.
Definition REJECT_MESS : Z := 0x400000.

Definition Is_unreliable_mess (t : Z) : bool := truth (Z.land t UNRELIABLE_MESS).
Definition Is_reliable_mess (t : Z) : bool := truth (Z.land t RELIABLE_MESS).
Definition Is_fifo_mess (t : Z) : bool := truth (Z.land t FIFO_MESS).
Definition Is_causal_mess (t : Z) : bool := truth (Z.land t CAUSAL_MESS).
Definition Is_agreed_mess (t : Z) : bool := truth (Z.land t AGREED_MESS).
Definition Is_safe_mess (t : Z) : bool := truth (Z.land t SAFE_MESS).
Definition Is_self_discard (t : Z) : bool := truth (Z.land t SELF_DISCARD).
Definition Is_join_mess (t : Z) : bool := truth (Z.land t JOIN_MESS).
Definition Is_leave_mess (t : Z) : bool := truth (Z.land t LEAVE_MESS).
Definition Is_kill_mess (t : Z) : bool := truth (Z.land t KILL_MESS).
Definition Is_groups_mess (t : Z) : bool := truth (Z.land t GROUPS_MESS).
Definition Is_reject_mess (t : Z) : bool := truth (Z.land t REJECT_MESS).

(** Which service of the protocol a message is sent with; -1 for none. *)
Definition Message_get_packet_type (t : Z) : Z :=
  if Is_unreliable_mess t then RELIABLE_TYPE else
  if Is_reliable_mess t then RELIABLE_TYPE else
  if Is_fifo_mess t then FIFO_TYPE else
  if Is_causal_mess t || Is_agreed_mess t then AGREED_TYPE else
  if Is_safe_mess t then SAFE_TYPE else
  if Is_join_mess t then AGREED_TYPE else
  if Is_leave_mess t then AGREED_TYPE else
  if Is_kill_mess t then AGREED_TYPE else -1.

Definition MAX_PROC_NAME : Z := 20.
Definition MAX_PRIVATE_NAME : Z := 10.
Definition MAX_GROUP_NAME : Z := 1 + MAX_PRIVATE_NAME + 1 + MAX_PROC_NAME.
Definition MAX_GROUPS_PER_MESSAGE : Z := 100.
Definition sizeof_message_header : Z := 48.
Definition sizeof_Temp_buf : Z := 100000.

(** ** C strings in buffers *)

(** The bytes before the terminating null. *)
Fixpoint cstr (b : list Z) : list Z :=
  match b with
  | [] => []
  | x :: b => if x =? 0 then [] else x :: cstr b
  end.

(** A name field of [MAX_GROUP_NAME] bytes. *)
Definition name_field (b : list Z) : list Z := resize (Z.to_nat MAX_GROUP_NAME) 0 b.

(** [strcpy] into a name field that was cleared; a longer string overruns it. *)
Definition strcpy_name (src : list Z) : option (list Z) :=
  if Z.of_nat (length (cstr src)) <? MAX_GROUP_NAME then Some (name_field (cstr src)) else None.

(** The bytes of a [string], and back. *)
Definition str_bytes (s : string) : list Z :=
  map (fun a => Z.of_nat (Ascii.nat_of_ascii a)) (String.list_ascii_of_string s).

(** [strcmp(a, b)] of two C strings without their nulls. *)
Definition str_eqb (a b : list Z) : bool := bool_decide (a = b).

(** ** The header *)

Record message_header := mk_message_header {
  mh_type : Z; private_group_name : list Z; num_groups : Z; hint : Z; data_len : Z }.

Definition eta_message_header (h : message_header) := mk_message_header (mh_type h)
  (private_group_name h) (num_groups h) (hint h) (data_len h).
#[export] Instance set_mh_type : Setter mh_type := ltac:(make_setter eta_message_header).
#[export] Instance set_private_group_name : Setter private_group_name :=
  ltac:(make_setter eta_message_header).
#[export] Instance set_num_groups : Setter num_groups := ltac:(make_setter eta_message_header).
#[export] Instance set_hint : Setter hint := ltac:(make_setter eta_message_header).
#[export] Instance set_data_len : Setter data_len := ltac:(make_setter eta_message_header).

Definition get_message_header (b : list Z) : message_header :=
  mk_message_header (get_i32 b 0) (buf_get b 4 MAX_GROUP_NAME)
    (get_i32 b 36) (get_i32 b 40) (get_i32 b 44).
Definition message_header_bytes (h : message_header) : list Z :=
  bytes32 (mh_type h) ++ name_field (private_group_name h) ++
  bytes32 (num_groups h) ++ bytes32 (hint h) ++ bytes32 (data_len h).
Definition put_message_header (b : list Z) (h : message_header) : list Z :=
  buf_put b 0 (message_header_bytes h).

Definition Flip_mess (h : message_header) : message_header :=
  h <| mh_type ::= fun x => i32 (Flip_int32 x) |>
    <| num_groups ::= fun x => i32 (Flip_int32 x) |>
    <| data_len ::= fun x => i32 (Flip_int32 x) |>.

Section Message.
Context {L : SpuLib} {S : Type}.
Implicit Types (msg : scatter).

(** The first element of a message; reading it when there is none is undefined. *)
Definition element0 msg : M S element := or_fail Undefined (msg !! O).

Definition Message_get_message_header msg : M S message_header :=
  e ← element0 msg; mret (get_message_header (e_buf e)).

(** A header written through the pointer [Message_get_message_header] gives. *)
Definition set_message_header msg (h : message_header) : M S scatter :=
  e ← element0 msg;
  mret (<[O := mk_element (e_len e) (put_message_header (e_buf e) h)]> msg).

Definition Message_new_message : scatter := [mk_element sizeof_message_header []].

Definition created_header (mess_type : Z) (sender_name : list Z) : message_header :=
  mk_message_header (i32 (Set_endian mess_type)) (name_field (cstr sender_name)) 0
    (i32 (Set_endian 0)) 0.
Definition Message_create_message (mess_type : Z) (sender_name : list Z) : M S scatter :=
  set_message_header Message_new_message (created_header mess_type sender_name).

Definition Message_endian_correct_message_header msg : M S scatter :=
  h ← Message_get_message_header msg;
  if Same_endian (mh_type h) then mret msg else set_message_header msg (Flip_mess h).

(** Where the data starts, as the bytes from there; [Message_get_first_group] is
    the same but for the old type at the head of a rejected message. *)
Definition Message_get_first_data_ptr msg : M S (list Z) :=
  h ← Message_get_message_header msg;
  if Is_reject_mess (mh_type h) then
    e ← or_fail Undefined (msg !! 1%nat); mret (e_buf e)
  else
    e ← element0 msg; mret (drop (Z.to_nat sizeof_message_header) (e_buf e)).
Definition Message_get_first_data_len msg : M S Z :=
  h ← Message_get_message_header msg;
  if Is_reject_mess (mh_type h) then mret 0
  else e ← element0 msg; mret (e_len e - sizeof_message_header).
Definition Message_get_first_group msg : M S (list Z) :=
  h ← Message_get_message_header msg;
  if Is_reject_mess (mh_type h) then
    e ← or_fail Undefined (msg !! 1%nat); mret (drop 4 (e_buf e))
  else
    e ← element0 msg; mret (drop (Z.to_nat sizeof_message_header) (e_buf e)).

(** One step of gathering the groups array of more than one element. *)
Definition gather_step (groups_bytes : Z) (e : element) (temp : list Z) : M S (list Z) :=
  let num_bytes := Z.of_nat (length temp) in
  if negb (num_bytes <? groups_bytes) then mret temp else
  let n := Z.min (groups_bytes - num_bytes) (e_len e) in
  undef_if (sizeof_Temp_buf <? num_bytes + n);;
  mret (temp ++ buf_get (e_buf e) 0 n).

(** The groups array, as the bytes from its first. *)
Definition Message_get_groups_array msg : M S (list Z) :=
  h ← Message_get_message_header msg;
  let '(start, first) :=
    if Is_reject_mess (mh_type h) then (4, 1%nat) else (sizeof_message_header, O) in
  let groups_bytes := start + num_groups h * MAX_GROUP_NAME in
  e ← or_fail Undefined (msg !! first);
  if e_len e <? groups_bytes then
    temp ← for_fold (drop first msg) [] (gather_step groups_bytes);
    fatal_if (negb (Z.of_nat (length temp) =? groups_bytes));;
    mret temp
  else mret (drop (Z.to_nat start) (e_buf e)).

(** The old type and the groups go to a new element 1, the sender is added to the
    groups, or put in the place of the last when there is no room. *)
Definition Message_add_oldtype_to_reject msg (old_type : Z) : M S scatter :=
  h ← Message_get_message_header msg;
  e ← element0 msg;
  undef_if (MAX_SCATTER_ELEMENTS <=? Z.of_nat (length msg));;
  let groups := num_groups h * MAX_GROUP_NAME in
  undef_if ((num_groups h <? 0) || (e_len e <? sizeof_message_header + groups));;
  let rest := e_len e - (sizeof_message_header + groups) in
  let more := num_groups h <? MAX_GROUPS_PER_MESSAGE in
  let at_sender := 4 + (if more then groups else groups - MAX_GROUP_NAME) in
  let buf := bytes32 old_type ++ buf_get (e_buf e) sizeof_message_header groups in
  let buf := buf_put buf at_sender (private_group_name h) in
  let buf := buf_put buf (at_sender + MAX_GROUP_NAME)
    (buf_get (e_buf e) (sizeof_message_header + groups) rest) in
  let e1 := mk_element (at_sender + MAX_GROUP_NAME + rest) buf in
  let h := if more then h <| num_groups ::= Z.succ |> else h in
  mret (mk_element sizeof_message_header (put_message_header (e_buf e) h) :: e1 :: tail msg).

(** [num_bytes] bytes of [buf] after the header of a message of one element. *)
Definition Message_Buffer_to_Message_Fragments msg (buf : list Z) (num_bytes : Z) : M S scatter :=
  let n := (num_bytes + sizeof_message_header - 1) / sizeof_packet_body + 1 in
  fatal_if (MAX_SCATTER_ELEMENTS <? n);;
  e ← element0 msg;
  let first := Z.min num_bytes (sizeof_packet_body - sizeof_message_header) in
  let e := mk_element (e_len e + first)
    (buf_put (e_buf e) sizeof_message_header (buf_get buf 0 first)) in
  '(els, _) ← for_fold (zrange 1 (n - 1)) ([e], first) (fun _ '(els, copied) =>
    let b := Z.min (num_bytes - copied) sizeof_packet_body in
    mret (els ++ [mk_element b (buf_get buf copied b)], copied + b));
  mret els.

(** Where in a message the next byte to send or receive is; in [in_mess_head] in its
    header.  [total_bytes] of the data were received. *)
Record location := mk_location {
  loc_element : Z; loc_byte : Z; in_mess_head : Z; total_bytes : Z }.
Definition Message_reset_current_location : location := mk_location 0 0 0 0.
Definition Message_set_location_begin_body (w : location) : location :=
  mk_location (loc_element w) (loc_byte w) 0 (total_bytes w).

Fixpoint current_location (msg : scatter) (i len : Z) : Z * Z :=
  match msg with
  | [] => (i, len)
  | e :: msg => if len <? e_len e then (i, len) else current_location msg (i + 1) (len - e_len e)
  end.
Definition Message_calculate_current_location msg (len_sent : Z) (w : location) : location :=
  let '(i, len) := current_location msg 0 len_sent in mk_location i len 0 (total_bytes w).

(** The lengths of a message that was read: all elements but the last are full.  When
    the bytes end with an element, the code writes the length after the last. *)
Definition Message_element_len_fixup msg : M S scatter :=
  h ← Message_get_message_header msg;
  let total_size := data_len h + MAX_GROUP_NAME * num_groups h + sizeof_message_header in
  let sum_size := sizeof_packet_body * (Z.of_nat (length msg) - 1) in
  let last := total_size / sizeof_packet_body in
  let set_len (i : nat) len (msg : scatter) := alter (fun e => mk_element len (e_buf e)) i msg in
  if (0 <=? total_size) && (total_size <? sizeof_packet_body) then
    fatal_if (negb (last =? 0));; mret (set_len O total_size msg)
  else
    undef_if ((last <? 0) || (MAX_SCATTER_ELEMENTS <=? last));;
    mret (set_len (Z.to_nat last) (total_size - sum_size) (set_len O sizeof_packet_body msg)).

(** The elements that [len] bytes fill, and the message with new ones instead. *)
Definition Message_dup_and_reset_old_message msg (len : Z) : M S (scatter * scatter) :=
  let n := Z.to_nat (if len <=? 0 then 0 else (len - 1) / sizeof_packet_body + 1) in
  undef_if (Z.of_nat (length msg) <? Z.of_nat n);;
  let dup := imap (fun i e => mk_element
    (Z.min (len - Z.of_nat i * sizeof_packet_body) sizeof_packet_body) (e_buf e)) (take n msg) in
  mret (dup, replicate n (mk_element sizeof_packet_body []) ++ drop n msg).

Definition Message_copy_message msg : scatter :=
  map (fun e => mk_element (e_len e) (buf_get (e_buf e) 0 (e_len e))) msg.

Definition Message_add_scat_element msg : M S scatter :=
  fatal_if (negb (Z.of_nat (length msg) <? MAX_SCATTER_ELEMENTS));;
  mret (msg ++ [mk_element sizeof_packet_body []]).
Definition Message_remove_scat_element msg : M S scatter :=
  fatal_if (negb (0 <? Z.of_nat (length msg)));;
  mret (take (length msg - 1) msg).
End Message.
