(* ===== verification/SessState.v ===== *)
(** * The state of the session layer: session.c and groups.c

    One record holds the file-scope variables of the two files; it is what
    [sess_state] stands for ([session_ext]).  The linked lists are lists: the
    sessions sorted by name, the chains of the hash table by mailbox and the free
    list hold indices into [Sessions], whose entries never written are
    [no_session].  The counts kept beside a list ([num_mess], the sizes of the
    synced set and of the containers) are its length; [num_members] of a group
    is kept apart, as in the code.  Of the address of a session is kept what is
    used of it: the IPv4 address, when it has one.  The policy of a session is the
    record of its functions; [None] are the null pointers of a session that has
    not been given one.  The tables of acm.c and of the authentication methods
    are here too. *)

From S2P Require Import Prelude NetTypes Configuration State Message Stdutil.

(** ** Groups *)

Record group_id := mk_group_id {
  gid_memb_id : membership_id;
  gid_index : Z
}.

Definition eta_group_id (s : group_id) := mk_group_id (gid_memb_id s) (gid_index s).
#[export] Instance set_gid_memb_id : Setter gid_memb_id := ltac:(make_setter eta_group_id).
#[export] Instance set_gid_index : Setter gid_index := ltac:(make_setter eta_group_id).
#[export] Instance group_id_eq_dec : EqDecision group_id.
Proof. solve_decision. Defined.

(** Names are fields of [MAX_GROUP_NAME] bytes; a member is its name. *)
Record daemon_members := mk_daemon_members {
  dm_proc_id : Z;
  dm_memb_id : membership_id;
  MembersList : list (list Z)
}.

Definition eta_daemon_members (s : daemon_members) := mk_daemon_members (dm_proc_id s)
  (dm_memb_id s) (MembersList s).
#[export] Instance set_dm_proc_id : Setter dm_proc_id := ltac:(make_setter eta_daemon_members).
#[export] Instance set_dm_memb_id : Setter dm_memb_id := ltac:(make_setter eta_daemon_members).
#[export] Instance set_MembersList : Setter MembersList := ltac:(make_setter eta_daemon_members).

Record group := mk_group {
  g_name : list Z;
  grp_id : group_id;
  changed : bool;
  g_num_members : Z;
  DaemonsList : list daemon_members;
  mboxes : list Z
}.

Definition eta_group (s : group) := mk_group (g_name s) (grp_id s) (changed s)
  (g_num_members s) (DaemonsList s) (mboxes s).
#[export] Instance set_g_name : Setter g_name := ltac:(make_setter eta_group).
#[export] Instance set_grp_id : Setter grp_id := ltac:(make_setter eta_group).
#[export] Instance set_changed : Setter changed := ltac:(make_setter eta_group).
#[export] Instance set_g_num_members : Setter g_num_members := ltac:(make_setter eta_group).
#[export] Instance set_DaemonsList : Setter DaemonsList := ltac:(make_setter eta_group).
#[export] Instance set_mboxes : Setter mboxes := ltac:(make_setter eta_group).

(** The messages of one synced set; [Gathered] itself has only [complete]. *)
Record groups_message_link := mk_groups_message_link {
  gl_rep_proc_id : Z;
  gl_complete : bool;
  gl_messages : list scatter
}.

Definition eta_groups_message_link (s : groups_message_link) := mk_groups_message_link
  (gl_rep_proc_id s) (gl_complete s) (gl_messages s).
#[export] Instance set_gl_rep_proc_id : Setter gl_rep_proc_id := ltac:(make_setter eta_groups_message_link).
#[export] Instance set_gl_complete : Setter gl_complete := ltac:(make_setter eta_groups_message_link).
#[export] Instance set_gl_messages : Setter gl_messages := ltac:(make_setter eta_groups_message_link).

Inductive groups_state := GOP | GTRANS | GGATHER | GGT.
#[export] Instance groups_state_eq_dec : EqDecision groups_state.
Proof. solve_decision. Defined.
Definition groups_state_code (g : groups_state) : Z :=
  match g with GOP => 1 | GTRANS => 2 | GGATHER => 3 | GGT => 4 end.

Definition unknown_memb_id : membership_id := mk_membership_id (-1) (-1).
Definition Is_unknown_memb_id (m : membership_id) : bool := m_proc_id m =? -1.
Definition Is_partitioned_daemon (d : daemon_members) : bool := Is_unknown_memb_id (dm_memb_id d).
Definition Is_established_daemon (d : daemon_members) : bool := negb (Is_partitioned_daemon d).

(** ** Sessions *)

Definition MEMB_SESSION : Z := 0x1.
Definition OP_SESSION : Z := 0x10.
Definition PRE_AUTH_SESSION : Z := 0x100.
Definition Is_memb_session (status : Z) : bool := truth (Z.land status MEMB_SESSION).
Definition Is_op_session (status : Z) : bool := truth (Z.land status OP_SESSION).
Definition Clear_op_session (status : Z) : Z := Z.land status (Z.lnot OP_SESSION).
Definition Is_preauth_session (status : Z) : bool := truth (Z.land status PRE_AUTH_SESSION).

(** acm.h: a policy's decisions. *)
Record acp_ops := mk_acp_ops {
  open_connection : list Z -> bool;
  open_monitor : list Z -> bool;
  join_group : list Z -> list Z -> bool;
  leave_group : list Z -> list Z -> bool;
  p2p_send : list Z -> list (list Z) -> Z -> Z -> bool;
  mcast_send : list Z -> list (list Z) -> Z -> Z -> bool
}.
Record acp_info := mk_acp_info { acp_name : list Z; acp_info_ops : acp_ops }.

(** acp-permit.c *)
Definition Permit_ops : acp_ops := {|
  open_connection _ := true; open_monitor _ := true; join_group _ _ := true;
  leave_group _ _ := true; p2p_send _ _ _ _ := true; mcast_send _ _ _ _ := true |}.

(** The methods of authentication, by their table of functions: auth-null.c,
    auth-ip.c and auth-pword.c. *)
Inductive auth_ops := NULL_ops | IP_ops | PWORD_ops.
Record auth_info := mk_auth_info {
  auth_name : list Z; enabled : bool; required : bool; auth_info_ops : auth_ops }.

Record session := mk_session {
  ses_name : list Z;
  ses_status : Z;
  ses_mbox : Z;
  ses_read : location;
  ses_read_mess : option scatter;
  ses_write : location;
  ses_queue : list scatter;
  lib_version : list Z;
  ses_addr : option Z;
  ses_priority : Z;
  ses_acp_ops : option acp_ops
}.

Definition eta_session (s : session) := mk_session (ses_name s) (ses_status s)
  (ses_mbox s) (ses_read s) (ses_read_mess s) (ses_write s) (ses_queue s)
  (lib_version s) (ses_addr s) (ses_priority s) (ses_acp_ops s).
#[export] Instance set_ses_name : Setter ses_name := ltac:(make_setter eta_session).
#[export] Instance set_ses_status : Setter ses_status := ltac:(make_setter eta_session).
#[export] Instance set_ses_mbox : Setter ses_mbox := ltac:(make_setter eta_session).
#[export] Instance set_ses_read : Setter ses_read := ltac:(make_setter eta_session).
#[export] Instance set_ses_read_mess : Setter ses_read_mess := ltac:(make_setter eta_session).
#[export] Instance set_ses_write : Setter ses_write := ltac:(make_setter eta_session).
#[export] Instance set_ses_queue : Setter ses_queue := ltac:(make_setter eta_session).
#[export] Instance set_lib_version : Setter lib_version := ltac:(make_setter eta_session).
#[export] Instance set_ses_addr : Setter ses_addr := ltac:(make_setter eta_session).
#[export] Instance set_ses_priority : Setter ses_priority := ltac:(make_setter eta_session).
#[export] Instance set_ses_acp_ops : Setter ses_acp_ops := ltac:(make_setter eta_session).

Definition no_session : session :=
  mk_session [] 0 0 (mk_location 0 0 0 0) None (mk_location 0 0 0 0) [] [0; 0; 0] None 0 None.
#[export] Instance session_inhabited : Inhabited session := populate no_session.

(** ** The state *)

Section Sess.
Context {L : SpuLib}.

Record sess_st := mk_sess_st {
  (* configuration.c *)
  MaxSessionMessages : Z;
  (* sess_body.h, session.c *)
  Num_sessions : Z;
  Sessions : gmap Z session;
  Sessions_sorted : list Z;
  Sessions_hash : gmap Z (list Z);
  Sessions_free : list Z;
  Session_threshold : priority;
  Protocol_threshold : priority;
  gs_num_sessions : Z;
  gs_message_delivered : Z;
  (* groups.c *)
  Num_groups : Z;
  gs_num_groups : Z;
  Cn_active : configuration;
  Gstate : groups_state;
  Trans_memb : configuration;
  G_Trans_memb_id : membership_id;
  Reg_memb : configuration;
  Reg_memb_id : membership_id;
  Groups_bufs : list (list Z);
  Groups_bufs_fresh : bool;
  Num_mess_gathered : Z;
  Num_daemons_gathered : Z;
  Gathered_complete : bool;
  Gathered : list groups_message_link;
  GroupsList : list group;
  MySyncedSet : list Z;
  (* session.c: the sockets connections come in by *)
  Accept_inet_mbox : list Z;
  Accept_unix_mbox : Z;
  (* acm.c *)
  Auth_Methods : list auth_info;
  ACP_Methods : list acp_info;
  AccessControlPolicy : Z;
  (* auth-ip.c, auth-pword.c *)
  Allow_Rules : list (Z * Z);
  IP_File_Loaded : bool;
  Users : list (list Z * list Z)
}.

Definition eta_sess_st (s : sess_st) := mk_sess_st (MaxSessionMessages s)
  (Num_sessions s) (Sessions s) (Sessions_sorted s) (Sessions_hash s) (Sessions_free s)
  (Session_threshold s) (Protocol_threshold s) (gs_num_sessions s)
  (gs_message_delivered s) (Num_groups s) (gs_num_groups s) (Cn_active s) (Gstate s)
  (Trans_memb s) (G_Trans_memb_id s) (Reg_memb s) (Reg_memb_id s) (Groups_bufs s)
  (Groups_bufs_fresh s) (Num_mess_gathered s) (Num_daemons_gathered s)
  (Gathered_complete s) (Gathered s) (GroupsList s) (MySyncedSet s)
  (Accept_inet_mbox s) (Accept_unix_mbox s) (Auth_Methods s) (ACP_Methods s) (AccessControlPolicy s)
  (Allow_Rules s) (IP_File_Loaded s) (Users s).
#[export] Instance set_MaxSessionMessages : Setter MaxSessionMessages := ltac:(make_setter eta_sess_st).
#[export] Instance set_Num_sessions : Setter Num_sessions := ltac:(make_setter eta_sess_st).
#[export] Instance set_Sessions : Setter Sessions := ltac:(make_setter eta_sess_st).
#[export] Instance set_Sessions_sorted : Setter Sessions_sorted := ltac:(make_setter eta_sess_st).
#[export] Instance set_Sessions_hash : Setter Sessions_hash := ltac:(make_setter eta_sess_st).
#[export] Instance set_Sessions_free : Setter Sessions_free := ltac:(make_setter eta_sess_st).
#[export] Instance set_Session_threshold : Setter Session_threshold := ltac:(make_setter eta_sess_st).
#[export] Instance set_Protocol_threshold : Setter Protocol_threshold := ltac:(make_setter eta_sess_st).
#[export] Instance set_gs_num_sessions : Setter gs_num_sessions := ltac:(make_setter eta_sess_st).
#[export] Instance set_gs_message_delivered : Setter gs_message_delivered := ltac:(make_setter eta_sess_st).
#[export] Instance set_Num_groups : Setter Num_groups := ltac:(make_setter eta_sess_st).
#[export] Instance set_gs_num_groups : Setter gs_num_groups := ltac:(make_setter eta_sess_st).
#[export] Instance set_Cn_active : Setter Cn_active := ltac:(make_setter eta_sess_st).
#[export] Instance set_Gstate : Setter Gstate := ltac:(make_setter eta_sess_st).
#[export] Instance set_Trans_memb : Setter Trans_memb := ltac:(make_setter eta_sess_st).
#[export] Instance set_G_Trans_memb_id : Setter G_Trans_memb_id := ltac:(make_setter eta_sess_st).
#[export] Instance set_Reg_memb : Setter Reg_memb := ltac:(make_setter eta_sess_st).
#[export] Instance set_Reg_memb_id : Setter Reg_memb_id := ltac:(make_setter eta_sess_st).
#[export] Instance set_Groups_bufs : Setter Groups_bufs := ltac:(make_setter eta_sess_st).
#[export] Instance set_Groups_bufs_fresh : Setter Groups_bufs_fresh := ltac:(make_setter eta_sess_st).
#[export] Instance set_Num_mess_gathered : Setter Num_mess_gathered := ltac:(make_setter eta_sess_st).
#[export] Instance set_Num_daemons_gathered : Setter Num_daemons_gathered := ltac:(make_setter eta_sess_st).
#[export] Instance set_Gathered_complete : Setter Gathered_complete := ltac:(make_setter eta_sess_st).
#[export] Instance set_Gathered : Setter Gathered := ltac:(make_setter eta_sess_st).
#[export] Instance set_GroupsList : Setter GroupsList := ltac:(make_setter eta_sess_st).
#[export] Instance set_MySyncedSet : Setter MySyncedSet := ltac:(make_setter eta_sess_st).
#[export] Instance set_Accept_inet_mbox : Setter Accept_inet_mbox := ltac:(make_setter eta_sess_st).
#[export] Instance set_Accept_unix_mbox : Setter Accept_unix_mbox := ltac:(make_setter eta_sess_st).
#[export] Instance set_Auth_Methods : Setter Auth_Methods := ltac:(make_setter eta_sess_st).
#[export] Instance set_ACP_Methods : Setter ACP_Methods := ltac:(make_setter eta_sess_st).
#[export] Instance set_AccessControlPolicy : Setter AccessControlPolicy := ltac:(make_setter eta_sess_st).
#[export] Instance set_Allow_Rules : Setter Allow_Rules := ltac:(make_setter eta_sess_st).
#[export] Instance set_IP_File_Loaded : Setter IP_File_Loaded := ltac:(make_setter eta_sess_st).
#[export] Instance set_Users : Setter Users := ltac:(make_setter eta_sess_st).
End Sess.

#[export] Existing Instances set_MaxSessionMessages set_Num_sessions set_Sessions
  set_Sessions_sorted set_Sessions_hash set_Sessions_free set_Session_threshold
  set_Protocol_threshold set_gs_num_sessions set_gs_message_delivered set_Num_groups
  set_gs_num_groups set_Cn_active set_Gstate set_Trans_memb set_G_Trans_memb_id
  set_Reg_memb set_Reg_memb_id set_Groups_bufs set_Groups_bufs_fresh
  set_Num_mess_gathered set_Num_daemons_gathered set_Gathered_complete set_Gathered
  set_GroupsList set_MySyncedSet set_Accept_inet_mbox set_Accept_unix_mbox set_Auth_Methods
  set_ACP_Methods set_AccessControlPolicy set_Allow_Rules set_IP_File_Loaded set_Users.

(** The values the calls to the outside return, and [MAX_SESSIONS], which
    libspread-util's limit on file descriptors gives. *)
Class SessLib {L : SpuLib} := {
  returns : list (call_ spu_addr) -> Z;
  (** the bytes a [recv] has put in the buffer, and the IPv4 address [accept] gives *)
  received : list (call_ spu_addr) -> list Z;
  accepted : list (call_ spu_addr) -> option Z;
  (** [crypt(3)]: of a password and a salt *)
  crypt : list Z -> list Z -> list Z;
  MAX_SESSIONS : Z
}.

#[export] Instance session_ext {L : SpuLib} {R : SessLib} : Ext :=
  {| ext_ret := returns; sess_state := sess_st |}.

Section Access.
Context {L : SpuLib} {R : SessLib}.

(** Reading and writing the session layer's part of the state. *)
Definition sess (s : St) : sess_st := Sess s.
Definition with_sess (f : sess_st -> sess_st) (s : St) : St := s <| Sess ::= f |>.
Definition gget {A} (f : sess_st -> A) : M St A := gets (fun s => f (sess s)).
Definition gset (f : sess_st -> sess_st) : M St unit := modify (with_sess f).

Definition session_at (x : sess_st) (ses : Z) : session := Sessions x !!! ses.
(** [Sessions[ses]]: an index outside the array is undefined. *)
Definition get_session (ses : Z) : M St session :=
  undef_if ((ses <? 0) || (MAX_SESSIONS <? ses));;
  gget (fun x => session_at x ses).
Definition update_session (ses : Z) (f : session -> session) : M St unit :=
  undef_if ((ses <? 0) || (MAX_SESSIONS <? ses));;
  gset (fun x => x <| Sessions := <[ses := f (session_at x ses)]> (Sessions x) |>).
End Access.

(** One step of symbolic execution, reads and writes of this state included. *)
Ltac g_step :=
  lazymatch goal with
  | |- wp _ (gget _) _ _ => apply wp_gets
  | |- wp _ (gset _) _ _ => apply wp_modify
  | _ => wp_step
  end.
