(* ===== verification/Sessions.v ===== *)
(** * Sessions: the table of sessions and the messages to clients

    The parts of [session.c] below the groups: the table of sessions (the array,
    its free list, the list sorted by name, the hash table by mailbox), the
    thresholds, and the queue of messages each client has not read
    ([Sess_write], [Sess_badger], [Sess_kill]).  What [send] and [ioctl] return
    is the outside's; a message that is linked to several sessions is not
    written again, so that a copy and the message itself are one value. *)

From S2P Require Import Prelude NetTypes Configuration State Network SessionLayer Delivery Send.
From S2P Require Import Message Stdutil SessState.

Section Sessions.
Context {L : SpuLib} {R : SessLib}.

(** ** The table *)

Definition SESSION_FD_HASH_SIZE : Z := 256.

(** The exclusive or of the four bytes of the mailbox. *)
Definition hash_mbox (mbox : Z) : Z :=
  Z.lxor (Z.lxor (byte_at mbox 0) (byte_at mbox 1)) (Z.lxor (byte_at mbox 2) (byte_at mbox 3)).

Definition Sess_init_sessions : M St unit :=
  gset (fun x => x <| Sessions_hash := ∅ |> <| Sessions_sorted := [] |>
    <| Sessions_free := rev (zrange 0 (MAX_SESSIONS - 1)) |>).

Definition chain (x : sess_st) (h : Z) : list Z := default [] (Sessions_hash x !! h).

Definition Sess_hash_session (ses : Z) : M St unit :=
  s ← get_session ses;
  let h := hash_mbox (ses_mbox s) in
  gset (fun x => x <| Sessions_hash := <[h := ses :: chain x h]> (Sessions_hash x) |>).

(** A session that is not in its chain: the code runs into a null pointer. *)
Definition Sess_unhash_session (ses : Z) : M St unit :=
  s ← get_session ses;
  let h := hash_mbox (ses_mbox s) in
  l ← gget (fun x => chain x h);
  '(i, _) ← or_fail Undefined (list_find (fun j => j = ses) l);
  gset (fun x => x <| Sessions_hash := <[h := delete i l]> (Sessions_hash x) |>).

Definition Sess_get_free_session : M St Z :=
  l ← gget Sessions_free;
  match l with
  | [] => undefined
  | ses :: l => gset (fun x => x <| Sessions_free := l |>);; mret ses
  end.

(** A copy of the session [template] enters the sorted list before [before], or
    at its end. *)
Definition Sess_insert_new_session (before : option Z) (template : session) : M St Z :=
  ses ← Sess_get_free_session;
  update_session ses (fun _ => template);;
  match before with
  | None => gset (fun x => x <| Sessions_sorted ::= fun l => l ++ [ses] |>)
  | Some w =>
      l ← gget Sessions_sorted;
      '(i, _) ← or_fail Undefined (list_find (fun j => j = w) l);
      gset (fun x => x <| Sessions_sorted := take i l ++ ses :: drop i l |>)
  end;;
  mret ses.

Definition Sess_remove_session (ses : Z) : M St unit :=
  l ← gget Sessions_sorted;
  '(i, _) ← or_fail Undefined (list_find (fun j => j = ses) l);
  gset (fun x => x <| Sessions_sorted := delete i l |>);;
  s ← get_session ses;
  ext_do (close (ses_mbox s));;
  update_session ses (fun s => s <| ses_mbox := -1 |>);;
  gset (fun x => x <| Sessions_free ::= cons ses |>).

Definition Sess_get_session_index (mbox : Z) (s : St) : Z :=
  match list_find (fun j => ses_mbox (session_at (sess s) j) = mbox)
          (chain (sess s) (hash_mbox mbox)) with
  | Some (_, j) => j
  | None => -1
  end.

(** The sorted list is left at the first name that is larger. *)
Fixpoint find_name (x : sess_st) (name : list Z) (l : list Z) : Z :=
  match l with
  | [] => -1
  | j :: l =>
      let nm := ses_name (session_at x j) in
      let ret := strncmp (S (length nm + length name)) nm name in
      if ret <? 0 then find_name x name l else if ret =? 0 then j else -1
  end.
Definition Sess_get_session (name : list Z) (s : St) : Z :=
  find_name (sess s) name (Sessions_sorted (sess s)).

(** ** The thresholds *)

Definition priority_rank (p : priority) : Z :=
  match p with LOW_PRIORITY => 0 | MEDIUM_PRIORITY => 1 | HIGH_PRIORITY => 2 end.

Definition Sess_set_active_threshold : M St unit :=
  p ← gget Protocol_threshold;
  q ← gget Session_threshold;
  ext_do (E_set_active_threshold (if priority_rank q <? priority_rank p then p else q)).

#[export] Instance session_levels : UserLevels := {|
  Sess_block_users_level :=
    p ← gget Protocol_threshold;
    when (priority_rank p <? priority_rank MEDIUM_PRIORITY)
      (gset (fun x => x <| Protocol_threshold := MEDIUM_PRIORITY |>);; Sess_set_active_threshold);
  Sess_unblock_users_level :=
    p ← gget Protocol_threshold;
    when (priority_rank LOW_PRIORITY <? priority_rank p)
      (gset (fun x => x <| Protocol_threshold := LOW_PRIORITY |>);; Sess_set_active_threshold) |}.

(** ** Ending a session *)

Definition Sess_clear_session (ses : Z) : M St unit :=
  update_session ses (fun s => s <| ses_queue := [] |> <| ses_read_mess := None |>
    <| ses_read := mk_location 0 0 1 0 |> <| ses_write := Message_reset_current_location |>
    <| ses_status ::= Clear_op_session |>);;
  s ← get_session ses;
  e_dequeue (Sess_badger_TO (ses_mbox s));;
  ext_do (E_detach_fd (ses_mbox s) READ_FD);;
  ext_do (E_detach_fd (ses_mbox s) EXCEPT_FD);;
  ext_do (E_detach_fd (ses_mbox s) WRITE_FD).

(** [Prot_Create_Down_Link]: none for the type -1, which its callers do not check. *)
Definition Prot_Create_Down_Link (type : Z) (mess : scatter) : M St down_link :=
  undef_if (type =? -1);; mret (mk_down_link type mess).

(** ["#%s#%s"], cut to [MAX_GROUP_NAME] bytes. *)
Definition private_send_group (private_name proc_name : list Z) : list Z :=
  take (Z.to_nat MAX_GROUP_NAME - 1) ([35] ++ private_name ++ [35] ++ proc_name).

(** A session that is already killed is reported, and killed again. *)
Definition Sess_kill (mbox : Z) : M St unit :=
  ses ← gets (Sess_get_session_index mbox);
  if (ses <? 0) || (MAX_SESSIONS <=? ses) then mret tt else
  s ← get_session ses;
  fatal_if (negb (Is_op_session (ses_status s)) && Is_preauth_session (ses_status s));;
  my ← gets My;
  kill_mess ← Message_create_message (Z.lor KILL_MESS SAFE_MESS)
    (private_send_group (ses_name s) (str_bytes (name my)));
  kill_head ← Message_get_message_header kill_mess;
  down ← Prot_Create_Down_Link (Message_get_packet_type (mh_type kill_head)) kill_mess;
  Prot_new_message down;;
  s ← get_session ses;
  ext_do (Log_sess_disconnect (ses_mbox s) (Z.of_nat (length (ses_queue s))));;
  Sess_clear_session ses.

(** ** Messages to a client *)

Definition Badger_timeout : sp_time := mk_sp_time 0 100000.

Definition sent (ret : Z) : Z := if 0 <? ret then ret else 0.

(** [send] the elements one after the other, as long as each goes whole: the bytes sent. *)
Fixpoint send_elements (mbox : Z) (els : scatter) (len_sent : Z) : M St Z :=
  match els with
  | [] => mret len_sent
  | e :: els =>
      ret ← ext_call (send mbox (buf_get (e_buf e) 0 (e_len e)));
      if ret =? e_len e then send_elements mbox els (len_sent + sent ret)
      else mret (len_sent + sent ret)
  end.

(** The header, the first data, and the other elements, without blocking. *)
Definition send_message (mbox : Z) (msg : scatter) : M St Z :=
  e0 ← element0 msg;
  ext_do (ioctl_FIONBIO mbox true);;
  ret ← ext_call (send mbox (buf_get (e_buf e0) 0 sizeof_message_header));
  len_sent ← (
    if negb (ret =? sizeof_message_header) then mret (sent ret) else
    data ← Message_get_first_data_ptr msg;
    len ← Message_get_first_data_len msg;
    ret1 ← ext_call (send mbox (buf_get data 0 len));
    if negb (ret1 =? len) then mret (sent ret + sent ret1)
    else send_elements mbox (tail msg) (sent ret + sent ret1));
  ext_do (ioctl_FIONBIO mbox false);;
  mret len_sent.

Definition total_len (msg : scatter) : Z := foldr (fun e n => e_len e + n) 0 msg.

(** The elements of the first message that are left, [from] a byte of the first of
    them: where it stopped, and whether all went. *)
Fixpoint badger_elements (mbox : Z) (els : scatter) (i from : Z) : M St (Z * Z * bool) :=
  match els with
  | [] => mret (i, from, true)
  | e :: els =>
      let n := e_len e - from in
      ret ← ext_call (send mbox (buf_get (e_buf e) from n));
      if ret =? n then badger_elements mbox els (i + 1) 0
      else mret (i, from + sent ret, false)
  end.

(** One message: the rest of a header that is on its way alone, then the
    elements from the current one; whether more can be written. *)
Definition badger_message (mbox ses : Z) (msg : scatter) : M St bool :=
  s ← get_session ses;
  able ← (
    if in_mess_head (ses_write s) =? 1 then
      e0 ← element0 msg;
      let from := loc_byte (ses_write s) in
      let n := sizeof_message_header - from in
      ret ← ext_call (send mbox (buf_get (e_buf e0) from n));
      if ret =? n then
        update_session ses (fun s => s <| ses_write ::= fun w =>
          mk_location (loc_element w) (loc_byte w) 0 (total_bytes w) |>);; mret true
      else
        update_session ses (fun s => s <| ses_write ::= fun w =>
          mk_location (loc_element w) (from + sent ret) (in_mess_head w) (total_bytes w) |>);; mret false
    else mret true);
  if negb able then mret false else
  s ← get_session ses;
  let w := ses_write s in
  undef_if (loc_element w <? 0);;
  '(i, from, able) ← badger_elements mbox (drop (Z.to_nat (loc_element w)) msg)
    (loc_element w) (loc_byte w);
  update_session ses (fun s => s <| ses_write := mk_location i from (in_mess_head w) (total_bytes w) |>);;
  mret able.

(** The first message goes: the others follow, until one does not go whole. *)
Fixpoint badger_queue (mbox ses : Z) (queue : list scatter) : M St unit :=
  match queue with
  | [] => mret tt
  | msg :: queue =>
      able ← badger_message mbox ses msg;
      if able : bool then
        update_session ses (fun s => s <| ses_queue := queue |>
          <| ses_write := Message_reset_current_location |>);;
        badger_queue mbox ses queue
      else mret tt
  end.

Definition do_badger (mbox : Z) : M St unit :=
  let no_work := e_dequeue (Sess_badger_TO mbox);; ext_do (E_detach_fd mbox WRITE_FD) in
  ses ← gets (Sess_get_session_index mbox);
  if (ses <? 0) || (MAX_SESSIONS <=? ses) then no_work else
  s ← get_session ses;
  if negb (Is_op_session (ses_status s)) || bool_decide (ses_queue s = []) then no_work else
  ext_do (ioctl_FIONBIO mbox true);;
  badger_queue mbox ses (ses_queue s);;
  ext_do (ioctl_FIONBIO mbox false);;
  s ← get_session ses;
  if bool_decide (ses_queue s <> []) then
    ext_do (E_queue (Sess_badger_TO mbox) Badger_timeout);;
    ext_do (E_attach_fd mbox Sess_badger_FD LOW_PRIORITY)
  else no_work.

(** [needed] counts the sessions the message is linked to. *)
Definition Sess_write (ses : Z) (msg : scatter) (needed : Z) : M St Z :=
  s ← get_session ses;
  if negb (Is_op_session (ses_status s)) then mret needed else
  max ← gget MaxSessionMessages;
  if max <=? Z.of_nat (length (ses_queue s)) then Sess_kill (ses_mbox s);; mret needed else
  when (bool_decide (ses_queue s <> [])) (do_badger (ses_mbox s));;
  s ← get_session ses;
  len_sent ← (if bool_decide (ses_queue s = []) then send_message (ses_mbox s) msg else mret 0);
  if total_len msg <=? len_sent then mret needed else
  s ← get_session ses;
  (if bool_decide (ses_queue s = []) then
     update_session ses (fun s => s <| ses_write ::= Message_calculate_current_location msg len_sent |>
       <| ses_queue := [msg] |>);;
     ext_do (E_queue (Sess_badger_TO (ses_mbox s)) Badger_timeout);;
     ext_do (E_attach_fd (ses_mbox s) Sess_badger_FD LOW_PRIORITY)
   else update_session ses (fun s => s <| ses_queue ::= fun q => q ++ [msg] |>));;
  mret (needed + 1).
End Sessions.

#[export] Existing Instance session_levels.
