(* ===== verification/Acm.v ===== *)
(** * Access control: acm.c and the methods of authentication

    The registered methods and policies, what a connection must pass, and the tables
    of the methods: the rules of auth-ip.c and the users of auth-pword.c.  The files
    these are read from are in AccessFiles.v.  Names are C strings; a client's choice of
    methods is an array of names of [MAX_AUTH_NAME] bytes. *)

From S2P Require Import Prelude NetTypes Configuration State Message Stdutil SessState.

Definition MAX_AUTH_METHODS : Z := 3.
Definition MAX_AUTH_NAME : Z := 30.
Definition MAX_AUTH_LIST_LEN : Z := MAX_AUTH_METHODS * MAX_AUTH_NAME.

(** [strncmp(a, b, n)] finds no difference. *)
Definition same_name (n : Z) (a b : list Z) : bool := strncmp (Z.to_nat n) a b =? 0.

Section Acm.
Context {L : SpuLib} {R : SessLib}.

(** ** Methods and policies *)

Definition acm_authname_to_type (auth_nm : list Z) (x : sess_st) : Z :=
  index_or_minus1 (find_index (fun a => same_name MAX_AUTH_NAME (auth_name a) auth_nm) (Auth_Methods x)).
Definition acm_acpname_to_type (nm : list Z) (x : sess_st) : Z :=
  index_or_minus1 (find_index (fun a => same_name MAX_AUTH_NAME (acp_name a) nm) (ACP_Methods x)).

(** [Auth_Methods[type]], for a type that was found. *)
Definition auth_method (type : Z) (x : sess_st) : option auth_info :=
  if type <? 0 then None else Auth_Methods x !! Z.to_nat type.

Definition Acm_auth_add_method (nm : list Z) (ops : auth_ops) : M St bool :=
  l ← gget Auth_Methods;
  if Z.of_nat (length l) =? MAX_AUTH_METHODS then mret false else
  gset (fun x => x <| Auth_Methods := l ++ [mk_auth_info nm false false ops] |>);; mret true.
Definition null_init : M St unit :=
  ok ← Acm_auth_add_method (str_bytes "NULL") NULL_ops; fatal_if (negb ok).

(** [Acm_auth_set_enabled], [Acm_auth_set_disabled] and [Acm_auth_set_required]. *)
Definition set_method (f : auth_info -> auth_info) (nm : list Z) : M St bool :=
  t ← gget (acm_authname_to_type nm);
  if t =? -1 then mret false else
  gset (fun x => x <| Auth_Methods ::= alter f (Z.to_nat t) |>);; mret true.
Definition Acm_auth_set_enabled : list Z -> M St bool :=
  set_method (fun a => mk_auth_info (auth_name a) true (required a) (auth_info_ops a)).
Definition Acm_auth_set_disabled : list Z -> M St bool :=
  set_method (fun a => mk_auth_info (auth_name a) false (required a) (auth_info_ops a)).
Definition Acm_auth_set_required : list Z -> M St bool :=
  set_method (fun a => mk_auth_info (auth_name a) (enabled a) true (auth_info_ops a)).

Definition Acm_auth_query_allowed (nm : list Z) (x : sess_st) : bool :=
  match auth_method (acm_authname_to_type nm x) x with Some a => enabled a | None => false end.

(** The function that a method authenticates with; none for a number that no
    method has. *)
Definition Acm_auth_get_auth_client_connection (authid : Z) : M St (option auth_ops) :=
  fatal_if ((authid <? 0) || (MAX_AUTH_METHODS <=? authid));;
  a ← gget (auth_method authid); mret (auth_info_ops <$> a).
Definition Acm_auth_get_auth_client_connection_byname (nm : list Z) : M St (option auth_ops) :=
  t ← gget (acm_authname_to_type nm);
  if t =? -1 then mret None else Acm_auth_get_auth_client_connection t.

(** The enabled methods, each with a space after it. *)
Definition Acm_auth_get_allowed_list : M St (list Z) :=
  l ← gget Auth_Methods;
  let s := concat (map (fun a => cstr (auth_name a) ++ [32]) (filter (fun a => enabled a = true) l)) in
  undef_if (MAX_AUTH_LIST_LEN <=? Z.of_nat (length s));; mret s.

Definition Acm_acp_add_method (nm : list Z) (ops : acp_ops) : M St bool :=
  l ← gget ACP_Methods;
  if Z.of_nat (length l) =? MAX_AUTH_METHODS then mret false else
  gset (fun x => x <| ACP_Methods := l ++ [mk_acp_info nm ops] |>);; mret true.
Definition permit_init : M St unit :=
  ok ← Acm_acp_add_method (str_bytes "PERMIT") Permit_ops; fatal_if (negb ok).
Definition Acm_acp_query_allowed (nm : list Z) (x : sess_st) : bool :=
  negb (acm_acpname_to_type nm x =? -1).
Definition Acm_acp_set_policy (nm : list Z) : M St bool :=
  ok ← gget (Acm_acp_query_allowed nm);
  if negb ok then mret false else
  gset (fun x => x <| AccessControlPolicy := acm_acpname_to_type nm x |>);; mret true.
Definition Acm_acp_fill_ops_byname (nm : list Z) (x : sess_st) : option acp_ops :=
  let t := acm_acpname_to_type nm x in
  if t =? -1 then None else acp_info_ops <$> ACP_Methods x !! Z.to_nat t.
(** The functions of the policy in force. *)
Definition Acm_acp_fill_ops : M St acp_ops :=
  i ← gget AccessControlPolicy;
  l ← gget ACP_Methods;
  fatal_if ((i <? 0) || (Z.of_nat (length l) <=? i));;
  a ← or_fail Undefined (l !! Z.to_nat i); mret (acp_info_ops a).

Definition Acm_init : M St unit :=
  _ ← Acm_auth_set_enabled (str_bytes "NULL");
  ok ← Acm_acp_set_policy (str_bytes "PERMIT"); fatal_if (negb ok).

(** ** The checks of one connection *)

Definition Acm_auth_create_sess_info_forIP (mbox : Z) (x : sess_st) : session_auth_info :=
  mk_session_auth_info mbox [acm_authname_to_type (str_bytes "IP") x] [].

(** The methods a client asks for, up to the empty name; the code does not look at
    the end of the array.  A method that is not enabled is left out. *)
Fixpoint requested_methods (n : nat) (names : list Z) : M St (list Z) :=
  match n with
  | O => undefined
  | S n =>
      if default 0 (names !! O) =? 0 then mret [] else
      t ← gget (acm_authname_to_type names);
      a ← gget (auth_method t);
      a ← or_fail Undefined a;
      rest ← requested_methods n (drop (Z.to_nat MAX_AUTH_NAME) names);
      mret (if enabled a then t :: rest else rest)
  end.

(** The methods that are required and not there yet, in their order. *)
Definition missing_methods (methods : list Z) (x : sess_st) : list Z :=
  filter (fun i => i ∉ methods) (map fst (filter (fun ia => required ia.2 = true)
    (imap (fun i a => (Z.of_nat i, a)) (Auth_Methods x)))).

Definition Acm_auth_create_sess_info (mbox : Z) (names : list Z) : M St (option session_auth_info) :=
  l ← requested_methods (Z.to_nat MAX_AUTH_METHODS) names;
  if bool_decide (l = []) then mret None else
  more ← gget (missing_methods l);
  undef_if (MAX_AUTH_METHODS <? Z.of_nat (length (l ++ more)));;
  mret (Some (mk_session_auth_info mbox (l ++ more) [])).

(** ** auth-ip.c *)

Definition insert_ip_rule (net_address prefix : Z) : M St unit :=
  gset (fun x => x <| Allow_Rules ::= cons (net_address, prefix) |>).

(** [~0 << (32 - prefix)]; a shift by 32 or more has no value. *)
Definition ip_mask (prefix : Z) : Z := u32 (Z.shiftl (-1) (32 - prefix)).
Definition rule_matches (client_ip : Z) (rule : Z * Z) : bool :=
  fst rule =? Z.land client_ip (ip_mask (snd rule)).
Fixpoint ip_allowed (client_ip : Z) (rules : list (Z * Z)) : M St bool :=
  match rules with
  | [] => mret false
  | rule :: rules =>
      undef_if ((snd rule <=? 0) || (32 <? snd rule));;
      if rule_matches client_ip rule then mret true else ip_allowed client_ip rules
  end.

(** ** auth-pword.c *)

Definition MAX_PWORD_USERNAME : Z := 32.
Definition MAX_PWORD_PASSWORD : Z := 8.
Definition MAX_PWORD_CRYPTPASSWORD : Z := 13.

Definition insert_user (username crypt_password : list Z) : M St unit :=
  gset (fun x => x <| Users ::= cons (buf_get username 0 MAX_PWORD_USERNAME,
    buf_get crypt_password 0 MAX_PWORD_CRYPTPASSWORD) |>).

(** The first user that was inserted has no pointer to a next one: a search that
    does not end before it follows whatever is there. *)
Fixpoint find_user (username : list Z) (users : list (list Z * list Z)) : M St (list Z * list Z) :=
  match users with
  | [] => undefined
  | u :: users =>
      if same_name MAX_PWORD_USERNAME username (fst u) then mret u else find_user username users
  end.
Definition lookup_user (username : list Z) : M St (option (list Z * list Z)) :=
  l ← gget Users;
  if bool_decide (l = []) then mret None else u ← find_user username l; mret (Some u).

Definition check_password (username clear_password : list Z) : M St bool :=
  u ← lookup_user username;
  match u with
  | None => mret false
  | Some (_, crypt_pass) =>
      mret (same_name 13 (crypt clear_password (take 2 crypt_pass)) crypt_pass)
  end.
End Acm.
