(* ===== verification/SessAuth.v ===== *)
(** * Connections: the accepting and authenticating half of session.c

    A connection is accepted into [Sessions[MAX_SESSIONS]]; when the client has
    written its version and name, or after a second, [Sess_accept_continue] reads
    them without blocking and gives the session a place in the table, not yet
    authorized.  The methods of authentication run one after the other, each
    reporting to [Sess_session_report_auth_result], which calls the next; the one
    by password waits for the client.  At the end the session is authorized or
    denied.  What [recv] puts in a buffer, [accept] knows of an address and
    [getsockopt] gives is the outside's. *)

From S2P Require Import Prelude NetTypes Configuration State Network SessionLayer Delivery Send.
From S2P Require Import Message Stdutil SessState Sessions Acm.
From Stdlib Require Import DecimalString.

Definition SP_MAJOR_VERSION : Z := 5.
Definition SP_MINOR_VERSION : Z := 0.
Definition SP_PATCH_VERSION : Z := 1.
Definition ACCEPT_SESSION : Z := 1.
Definition REJECT_QUOTA : Z := -3.
Definition REJECT_ILLEGAL_NAME : Z := -5.
Definition REJECT_NOT_UNIQUE : Z := -6.
Definition REJECT_VERSION : Z := -7.
Definition REJECT_AUTH : Z := -9.

Definition Set_memb_session (status : Z) : Z := Z.lor status MEMB_SESSION.
Definition Clear_memb_session (status : Z) : Z := Z.land status (Z.lnot MEMB_SESSION).
Definition Set_op_session (status : Z) : Z := Z.lor status OP_SESSION.
Definition Set_preauth_session (status : Z) : Z := Z.lor status PRE_AUTH_SESSION.
Definition Clear_preauth_session (status : Z) : Z := Z.land status (Z.lnot PRE_AUTH_SESSION).

(** A [char] of a buffer of bytes, as an [int]. *)
Definition schar (x : Z) : Z := (x + 128) mod 256 - 128.

(** The digits of an [unsigned int]. *)
Definition decimal (n : Z) : list Z := str_bytes (NilZero.string_of_uint (N.to_uint (Z.to_N n))).

Section SessAuth.
Context {L : SpuLib} {R : SessLib}.

(** ** Sockets *)

(** [send] of one [char]; what it returns is not looked at. *)
Definition send_byte (mbox c : Z) : M St unit := ext_do (send mbox [c mod 256]).

(** [recv] of at most [n] bytes: what it returns and the bytes in the buffer; an
    answer longer than the buffer is undefined. *)
Definition recv_bytes (mbox n : Z) : M St (Z * list Z) :=
  ret ← ext_call (recv mbox n);
  undef_if (n <? ret);;
  b ← gets (fun s => resize (Z.to_nat ret) 0 (received (trace s)));
  mret (ret, b).

Definition Sess_attach_accept : M St unit :=
  l ← gget Accept_inet_mbox;
  for_each l (fun fd =>
    ext_do (E_attach_fd fd (Sess_accept_fd false) LOW_PRIORITY);;
    ext_do (E_attach_fd fd (Sess_accept_fd false) LOW_PRIORITY));;
  fd ← gget Accept_unix_mbox;
  ext_do (E_attach_fd fd (Sess_accept_fd true) LOW_PRIORITY).
Definition Sess_detach_accept : M St unit :=
  l ← gget Accept_inet_mbox;
  for_each l (fun fd => ext_do (E_detach_fd fd READ_FD);; ext_do (E_detach_fd fd EXCEPT_FD));;
  fd ← gget Accept_unix_mbox;
  ext_do (E_detach_fd fd READ_FD).

(** ** The end of the authentication *)

Definition Sess_session_denied (ses : Z) : M St unit :=
  s ← get_session ses;
  fatal_if (negb (Is_preauth_session (ses_status s)));;
  send_byte (ses_mbox s) REJECT_AUTH;;
  Sess_unhash_session ses;;
  Sess_remove_session ses;;
  gset (fun x => x <| Num_sessions ::= Z.pred |>);;
  gset (fun x => x <| gs_num_sessions := i16 (Num_sessions x) |>).

(** [major*10000 + minor*100 + patch] *)
Definition version_number (v : list Z) : Z :=
  default 0 (v !! 0%nat) * 10000 + default 0 (v !! 1%nat) * 100 + default 0 (v !! 2%nat).

Definition Sess_session_authorized (ses : Z) : M St unit :=
  s ← get_session ses;
  fatal_if (negb (Is_preauth_session (ses_status s)));;
  update_session ses (fun s => s <| ses_queue := [] |>);;
  let mbox := ses_mbox s in
  send_byte mbox ACCEPT_SESSION;;
  send_byte mbox SP_MAJOR_VERSION;;
  send_byte mbox SP_MINOR_VERSION;;
  when (31500 <=? version_number (lib_version s)) (send_byte mbox SP_PATCH_VERSION);;
  my ← gets My;
  let private_group_name := private_send_group (ses_name s) (str_bytes (name my)) in
  send_byte mbox (Z.of_nat (length private_group_name));;
  ext_do (send mbox private_group_name);;
  ext_do (E_attach_fd mbox Sess_read_fd LOW_PRIORITY);;
  ext_do (E_attach_fd mbox Sess_read_fd LOW_PRIORITY);;
  update_session ses (fun s =>
    s <| ses_status ::= fun st => Clear_preauth_session (Set_op_session st) |>
      <| ses_read := mk_location 0 0 1 0 |> <| ses_write := Message_reset_current_location |>);;
  ext_do (Log_sess_connect mbox (ses_name s)).

(** ** The methods *)

(** What a method does with a connection; [report] is
    [Sess_session_report_auth_result] of it. *)
Definition null_auth_client_connection (report : bool -> M St unit) : M St unit := report true.

Definition ip_auth_client_connection (mbox : Z) (report : bool -> M St unit) : M St unit :=
  loaded ← gget IP_File_Loaded;
  if negb loaded then report false else
  ses ← gets (Sess_get_session_index mbox);
  s ← get_session ses;
  allowed ← match ses_addr s with
    | Some client_ip => rules ← gget Allow_Rules; ip_allowed client_ip rules
    | None => mret false
    end;
  report allowed.

Definition pword_auth_client_connection (info : session_auth_info) : M St unit :=
  ext_do (E_attach_fd (sa_mbox info) (auth_client_conn_read_fd info) LOW_PRIORITY);;
  ext_do (E_attach_fd (sa_mbox info) (auth_client_conn_read_fd info) LOW_PRIORITY).

Definition auth_open (m : auth_ops) (info : session_auth_info) (report : bool -> M St unit) : M St unit :=
  match m with
  | NULL_ops => null_auth_client_connection report
  | IP_ops => ip_auth_client_connection (sa_mbox info) report
  | PWORD_ops => pword_auth_client_connection info
  end.

(** The end of the last check. *)
Definition Sess_auth_decision (ses : Z) (info : session_auth_info) : M St unit :=
  if negb (forallb (fun b => b) (required_auth_results info)) then Sess_session_denied ses else
  s ← get_session ses;
  ops ← or_fail Undefined (ses_acp_ops s);
  if negb (open_connection ops (ses_name s)) then Sess_session_denied ses
  else Sess_session_authorized ses.

(** One method has said [authenticated]; the fuel is the number of methods that are left. *)
Fixpoint report_auth_result (fuel : nat) (info : session_auth_info) (authenticated : bool) : M St unit :=
  match fuel with
  | O => fail OutOfFuel
  | S fuel =>
      ses ← gets (Sess_get_session_index (sa_mbox info));
      if (ses <? 0) || (MAX_SESSIONS <=? ses) then mret tt else
      let info := mk_session_auth_info (sa_mbox info) (required_auth_methods info)
        (required_auth_results info ++ [authenticated]) in
      match required_auth_methods info !! length (required_auth_results info) with
      | Some authid =>
          a ← Acm_auth_get_auth_client_connection authid;
          match a with
          | None => Sess_session_denied ses
          | Some m => auth_open m info (report_auth_result fuel info)
          end
      | None => Sess_auth_decision ses info
      end
  end.
Definition auth_fuel (info : session_auth_info) : nat :=
  S (length (required_auth_methods info) - length (required_auth_results info)).
Definition Sess_session_report_auth_result (info : session_auth_info) (authenticated : bool) : M St unit :=
  report_auth_result (auth_fuel info) info authenticated.
Definition open_auth (m : auth_ops) (info : session_auth_info) : M St unit :=
  auth_open m info (Sess_session_report_auth_result info).

(** The password method has the client's answer, or the loss of it. *)
Definition auth_client_conn_read (mbox : Z) (info : session_auth_info) : M St unit :=
  ext_do (E_detach_fd mbox READ_FD);;
  ext_do (E_detach_fd mbox EXCEPT_FD);;
  '(ret, username) ← recv_bytes mbox MAX_PWORD_USERNAME;
  if ret <? MAX_PWORD_USERNAME then
    ext_do (ioctl_FIONBIO mbox false);; Sess_session_report_auth_result info false else
  '(ret, clear_password) ← recv_bytes mbox MAX_PWORD_PASSWORD;
  if ret <? MAX_PWORD_PASSWORD then
    ext_do (ioctl_FIONBIO mbox false);; Sess_session_report_auth_result info false else
  ext_do (ioctl_FIONBIO mbox false);;
  ok ← check_password username (cstr clear_password);
  send_byte mbox (if ok : bool then 1 else 0);;
  Sess_session_report_auth_result info ok.

(** The client's methods are all allowed; the code does not look at the end of the array. *)
Fixpoint methods_allowed (n : nat) (names : list Z) : M St bool :=
  match n with
  | O => undefined
  | S n =>
      if default 0 (names !! O) =? 0 then mret true else
      ok ← gget (Acm_auth_query_allowed names);
      if negb ok then mret false else methods_allowed n (drop (Z.to_nat MAX_AUTH_NAME) names)
  end.

Definition Sess_recv_client_auth (mbox : Z) : M St unit :=
  ses ← gets (Sess_get_session_index mbox);
  if (ses <? 0) || (MAX_SESSIONS <=? ses) then mret tt else
  s ← get_session ses;
  fatal_if (negb (Is_preauth_session (ses_status s)));;
  ext_do (E_detach_fd mbox READ_FD);;
  ext_do (E_detach_fd mbox EXCEPT_FD);;
  ext_do (ioctl_FIONBIO mbox true);;
  '(ret, auth_nm) ← recv_bytes mbox MAX_AUTH_LIST_LEN;
  if ret <? MAX_AUTH_LIST_LEN then Sess_session_denied ses else
  ext_do (ioctl_FIONBIO mbox false);;
  ok ← methods_allowed (Z.to_nat MAX_AUTH_METHODS) auth_nm;
  if negb ok then Sess_session_denied ses else
  ops ← Acm_acp_fill_ops;
  update_session ses (fun s => s <| ses_acp_ops := Some ops |>);;
  info ← Acm_auth_create_sess_info mbox auth_nm;
  match info with
  | None => Sess_session_denied ses
  | Some info =>
      authid ← or_fail Undefined (required_auth_methods info !! O);
      a ← Acm_auth_get_auth_client_connection authid;
      match a with
      | None => Sess_session_denied ses
      | Some m => open_auth m info
      end
  end.
End SessAuth.
