(* ===== verification/SessAccept.v ===== *)
(** * Accepting a connection: [Sess_accept] and [Sess_accept_continue]

    Both work on [Sessions[MAX_SESSIONS]].  A client that gives no name gets a
    random one; the code draws until it is new, here at most [name_tries] times. *)

From S2P Require Import Prelude NetTypes Configuration State Network SessionLayer Delivery Send.
From S2P Require Import Message Stdutil SessState Sessions Acm SessAuth.

Section SessAccept.
Context {L : SpuLib} {R : SessLib}.

Definition new_session : M St session := get_session MAX_SESSIONS.
Definition set_new_session (f : session -> session) : M St unit := update_session MAX_SESSIONS f.

(** Buffers of 10, 15, .. 200 kB, as long as they are granted; [getsockopt] returns
    here what it writes. *)
Definition grow_buffers (mbox : Z) : M St unit :=
  _ ← for_break (map (fun k => 10 + 5 * k) (zrange 0 38)) (fun i =>
    ret ← ext_call (setsockopt mbox SO_SNDBUF (1024 * i));
    if ret <? 0 then mret false else
    ret ← ext_call (setsockopt mbox SO_RCVBUF (1024 * i));
    if ret <? 0 then mret false else
    on ← ext_call (getsockopt mbox SO_SNDBUF);
    if on <? i * 1024 then mret false else
    on ← ext_call (getsockopt mbox SO_RCVBUF);
    if on <? i * 1024 then mret false else mret true);
  mret tt.

Definition accept_delay : sp_time := mk_sp_time 1 0.

Definition Sess_accept (fd : Z) (is_unix : bool) : M St unit :=
  mbox ← ext_call (accept fd is_unix);
  addr ← gets (fun s => if is_unix then None else accepted (trace s));
  set_new_session (fun s => s <| ses_mbox := mbox |> <| ses_addr := addr |>);;
  if mbox =? -1 then mret tt else
  n ← gget Num_sessions;
  if MAX_SESSIONS <=? n then
    send_byte mbox REJECT_QUOTA;; ext_do (close mbox)
  else
  i ← gets (Sess_get_session_index mbox);
  when (negb (i =? -1))
    (s ← get_session i; fatal_if ((ses_mbox s =? mbox) && Is_op_session (ses_status s)));;
  grow_buffers mbox;;
  when (negb is_unix)
    (ext_do (setsockopt mbox TCP_NODELAY 1);; ext_do (setsockopt mbox SO_KEEPALIVE 1));;
  Sess_detach_accept;;
  ext_do (E_attach_fd mbox Sess_accept_continue_fd LOW_PRIORITY);;
  ext_do (E_attach_fd mbox Sess_accept_continue_fd LOW_PRIORITY);;
  ext_do (E_queue Sess_accept_continue2 accept_delay).

(** ** The name *)

(** The scan of the sorted list: where the name would go in, and whether it is new. *)
Fixpoint name_place (x : sess_st) (nm : list Z) (l : list Z) : option Z * bool :=
  match l with
  | [] => (None, true)
  | j :: l =>
      let other := ses_name (session_at x j) in
      let ret := strncmp (S (length nm + length other)) nm other in
      if ret <=? 0 then (Some j, negb (ret =? 0)) else name_place x nm l
  end.

Definition legal_private_name (nm : list Z) : bool :=
  forallb (fun c => (35 <? schar c) && (schar c <=? 126)) nm.

(** ["r%u-%u"] of a number drawn, cut to [MAX_PRIVATE_NAME] bytes with the null. *)
Definition random_name (r mbox : Z) : list Z :=
  take (Z.to_nat MAX_PRIVATE_NAME - 1)
    ([114] ++ decimal (9999 * r / 2147483648) ++ [45] ++ decimal (u32 mbox)).

Definition name_tries : nat := 1000.
Definition draw_name (mbox : Z) : M St (option Z) :=
  while_fuel name_tries (fun _ : unit =>
    r ← ext_call get_rand;
    let nm := random_name r mbox in
    set_new_session (fun s => s <| ses_name := nm |>);;
    '(place, unique) ← gget (fun x => name_place x nm (Sessions_sorted x));
    mret (if unique : bool then inr place else inl tt)) tt.

(** The client is sent [response], and the connection ends. *)
Definition reject_new (mbox response : Z) : M St (option (option Z)) :=
  send_byte mbox response;; ext_do (close mbox);; mret None.

(** The name the client gives, when it is legal and new: its place. *)
Definition read_name (mbox name_len : Z) : M St (option (option Z)) :=
  '(ret, priv_user_name) ← recv_bytes mbox MAX_PRIVATE_NAME;
  if ret <? 0 then ext_do (close mbox);; mret None else
  if negb (ret =? name_len) then reject_new mbox REJECT_ILLEGAL_NAME else
  set_new_session (fun s => s <| ses_name := priv_user_name |>);;
  if negb (legal_private_name priv_user_name) then reject_new mbox REJECT_ILLEGAL_NAME else
  '(place, unique) ← gget (fun x => name_place x priv_user_name (Sessions_sorted x));
  if negb unique then reject_new mbox REJECT_NOT_UNIQUE else mret (Some place).

(** ** The connect message *)

(** The version the client's library has, when it is one the daemon takes. *)
Definition read_version (mbox : Z) : M St (option (list Z)) :=
  '(ret, v) ← recv_bytes mbox 2;
  if negb (ret =? 2) then ext_do (close mbox);; mret None else
  let v := map schar v in
  v ← (if 31400 <? version_number v then
         '(ret, p) ← recv_bytes mbox 1;
         if negb (ret =? 1) then ext_do (close mbox);; mret None
         else mret (Some (v ++ map schar p))
       else mret (Some (v ++ [0])));
  match v with
  | None => mret None
  | Some v =>
      if version_number v <? 30100 then _ ← reject_new mbox REJECT_VERSION; mret None
      else mret (Some v)
  end.

(** The session with its place in the table: the ways its connection is authenticated. *)
Definition start_auth (ses : Z) : M St unit :=
  s ← get_session ses;
  if version_number (lib_version s) <? 31600 then
    ops ← Acm_acp_fill_ops;
    update_session ses (fun s => s <| ses_acp_ops := Some ops |>);;
    ip ← gget (Acm_auth_query_allowed (str_bytes "IP"));
    if ip : bool then
      info ← gget (Acm_auth_create_sess_info_forIP (ses_mbox s));
      a ← Acm_auth_get_auth_client_connection_byname (str_bytes "IP");
      m ← or_fail Undefined a;
      open_auth m info
    else
    null ← gget (Acm_auth_query_allowed (str_bytes "NULL"));
    if null : bool then Sess_session_authorized ses else Sess_session_denied ses
  else
  allowed_auth_list ← Acm_auth_get_allowed_list;
  send_byte (ses_mbox s) (Z.of_nat (length allowed_auth_list));;
  ext_do (send (ses_mbox s) allowed_auth_list);;
  if bool_decide (allowed_auth_list = []) then Sess_session_denied ses else
  ext_do (E_attach_fd (ses_mbox s) Sess_recv_client_auth_fd LOW_PRIORITY);;
  ext_do (E_attach_fd (ses_mbox s) Sess_recv_client_auth_fd LOW_PRIORITY).

(** The new session enters the table. *)
Definition enter_session (place : option Z) : M St Z :=
  s ← new_session;
  ses ← Sess_insert_new_session place s;
  gset (fun x => x <| Num_sessions ::= Z.succ |>);;
  gset (fun x => x <| gs_num_sessions := i16 (Num_sessions x) |>);;
  update_session ses (fun s => s <| ses_status ::= Set_preauth_session |>);;
  Sess_hash_session ses;;
  mret ses.

Definition C_accept_continue : M St unit :=
  s ← new_session;
  let mbox := ses_mbox s in
  e_dequeue Sess_accept_continue2;;
  ext_do (E_detach_fd mbox READ_FD);;
  ext_do (E_detach_fd mbox EXCEPT_FD);;
  Sess_attach_accept;;
  ext_do (ioctl_FIONBIO mbox true);;
  version ← read_version mbox;
  match version with
  | None => mret tt
  | Some v =>
      set_new_session (fun s => s <| lib_version := v |>);;
      '(ret, conn) ← recv_bytes mbox 2;
      if negb (ret =? 2) then ext_do (close mbox) else
      let conn0 := schar (default 0 (conn !! 0%nat)) in
      let name_len := schar (default 0 (conn !! 1%nat)) in
      set_new_session (fun s => s
        <| ses_status ::= (if Z.rem conn0 2 =? 1 then Set_memb_session else Clear_memb_session) |>
        <| ses_priority := Z.quot conn0 16 |>);;
      if (MAX_PRIVATE_NAME <? name_len) || (name_len <? 0) then
        _ ← reject_new mbox REJECT_ILLEGAL_NAME; mret tt
      else
      set_new_session (fun s => s <| ses_name := [] |>);;
      named ← (if name_len =? 0 then place ← draw_name mbox; mret (Some place)
               else read_name mbox name_len);
      match named with
      | None => mret tt
      | Some place =>
          ext_do (ioctl_FIONBIO mbox false);;
          ses ← enter_session place;
          start_auth ses
      end
  end.
End SessAccept.
