(* ===== verification/Groups.v ===== *)
(** * Groups: the data and its updates ([groups.c])

    The comparison functions, the searches, the removal of members, daemons and
    groups, and the synced set.  A [group *] is the group of that name in
    [GroupsList]: a function that changes the group it is given returns the new
    group, and [store_group] writes it where the pointer points.  What only
    prints, and [G_compute_group_mask] (empty in this version of the protocol),
    is left out. *)

From S2P Require Import Prelude NetTypes Configuration State Network SessionLayer Delivery Send Stdutil.
From S2P Require Import Message SessState Sessions.

(** ** Comparisons *)

Section Compare.
Context {L : SpuLib}.

Definition G_compare_nameptr (a b : list Z) : Z := strncmp (Z.to_nat MAX_GROUP_NAME) a b.

(** Active daemons first, in the order of the configuration; then by address. *)
Definition G_compare_proc_ids_by_conf_internal (config : configuration) (a b : Z) : Z :=
  let ia := index_or_minus1 (Conf_proc_by_id_in_conf config a) in
  let ib := index_or_minus1 (Conf_proc_by_id_in_conf config b) in
  if (-1 <? ia) && (-1 <? ib) then ia - ib else
  if (ia <? 0) && (ib <? 0) then
    if u32 a =? u32 b then 0 else if u32 a <? u32 b then -1 else 1
  else if ia <? 0 then 1 else if ib <? 0 then -1 else ia - ib.

(** The differences are stored in an [int]. *)
Definition G_compare_memb_ids (m1 m2 : membership_id) : Z :=
  match Is_unknown_memb_id m1, Is_unknown_memb_id m2 with
  | true, true => 0
  | true, false => 1
  | false, true => -1
  | false, false =>
      if negb (m_proc_id m1 =? m_proc_id m2) then i32 (m_proc_id m1 - m_proc_id m2) else
      if negb (m_time m1 =? m_time m2) then i32 (m_time m1 - m_time m2) else 0
  end.

Definition G_compare_daemon_vs_set (config : configuration) (da db : daemon_members) : Z :=
  let cmp := G_compare_memb_ids (dm_memb_id da) (dm_memb_id db) in
  if cmp =? 0 then G_compare_proc_ids_by_conf_internal config (dm_proc_id da) (dm_proc_id db)
  else cmp.
End Compare.

Section Groups.
Context {L : SpuLib} {R : SessLib} {U : Stdutil}.

(** [G_compare_proc_ids_by_conf]: by the active configuration. *)
Definition G_compare_proc_ids_by_conf (x : sess_st) : Z -> Z -> Z :=
  G_compare_proc_ids_by_conf_internal (Cn_active x).

Definition find_daemon (cn : configuration) (proc_id : Z) (l : list daemon_members) : option nat :=
  stdskl_find (G_compare_proc_ids_by_conf_internal cn) dm_proc_id proc_id l.
Definition put_daemon (cn : configuration) (d : daemon_members) (l : list daemon_members)
  : list daemon_members :=
  stdskl_put (G_compare_proc_ids_by_conf_internal cn) dm_proc_id d l.
Definition find_member (name : list Z) (l : list (list Z)) : option nat :=
  stdskl_find G_compare_nameptr (fun n => n) name l.
Definition put_member (name : list Z) (l : list (list Z)) : list (list Z) :=
  stdskl_put G_compare_nameptr (fun n => n) name l.
Definition find_group (name : list Z) (l : list group) : option nat :=
  stdskl_find G_compare_nameptr g_name name l.

Definition G_get_group (group_name : list Z) (s : St) : option group :=
  i ← find_group group_name (GroupsList (sess s)); GroupsList (sess s) !! i.
Definition G_get_daemon (cn : configuration) (grp : group) (proc_id : Z) : option daemon_members :=
  i ← find_daemon cn proc_id (DaemonsList grp); DaemonsList grp !! i.
Definition G_get_member (dmn : daemon_members) (private_group_name : list Z) : option (list Z) :=
  i ← find_member private_group_name (MembersList dmn); MembersList dmn !! i.

Definition G_get_num_local (group_name : list Z) (s : St) : Z :=
  match G_get_group group_name s with
  | Some grp => Z.of_nat (length (mboxes grp))
  | None => 0
  end.

(** Writing an object through its pointer. *)
Definition put_back {A} (same : A -> bool) (x : A) (l : list A) : list A :=
  map (fun y => if same y then x else y) l.
Definition store_group (grp : group) : M St unit :=
  gset (fun x => x <| GroupsList ::=
    put_back (fun g => bool_decide (g_name g = g_name grp)) grp |>).
Definition store_daemon (dmn : daemon_members) (grp : group) : group :=
  grp <| DaemonsList ::= put_back (fun d => dm_proc_id d =? dm_proc_id dmn) dmn |>.

(** The group a pointer points to. *)
Definition group_ref (name : list Z) : M St group :=
  l ← gget GroupsList;
  '(_, g) ← or_fail Undefined (list_find (fun g => g_name g = name) l);
  mret g.

(** [for] all groups: the iterator is advanced before the body, which may remove
    the group at hand and no other. *)
Definition for_groups (body : group -> M St unit) : M St unit :=
  l ← gget GroupsList;
  for_each (map g_name l) (fun name => g ← group_ref name; body g).

(** ** Removals *)

Definition G_remove_daemon (cn : configuration) (grp : group) (dmn : daemon_members)
  : M St group :=
  i ← or_fail Fatal (find_daemon cn (dm_proc_id dmn) (DaemonsList grp));
  mret (grp <| DaemonsList ::= delete i |>
    <| g_num_members ::= fun n => n - Z.of_nat (length (MembersList dmn)) |>).

Definition set_num_groups_by (f : Z -> Z) : M St unit :=
  gset (fun x => x <| Num_groups ::= f |>);;
  gset (fun x => x <| gs_num_groups := i16 (Num_groups x) |>).

Definition G_remove_group (grp : group) : M St unit :=
  fatal_if (negb (bool_decide (DaemonsList grp = [])));;
  fatal_if (negb (bool_decide (mboxes grp = [])));;
  l ← gget GroupsList;
  i ← or_fail Fatal (find_group (g_name grp) l);
  gset (fun x => x <| GroupsList := delete i l |>);;
  set_num_groups_by Z.pred.

(** The last mailbox goes to the place of the one removed. *)
Definition G_remove_mailbox (grp : group) (m : Z) : M St group :=
  '(i, _) ← or_fail Fatal (list_find (fun m' => m' = m) (mboxes grp));
  last ← or_fail Undefined (last (mboxes grp));
  mret (grp <| mboxes ::= fun l => take (length l - 1) (<[i := last]> l) |>).

Definition G_update_daemon_memb_ids (grp : group) : group :=
  grp <| DaemonsList ::= map (fun d =>
    if Is_established_daemon d then d <| dm_memb_id := gid_memb_id (grp_id grp) |> else d) |>.

(** Is this daemon to be eliminated? *)
Definition to_eliminate (x : sess_st) (d : daemon_members) : bool :=
  match Gstate x with
  | GGT => Conf_id_in_conf (Trans_memb x) (dm_proc_id d) =? -1
  | _ => Is_partitioned_daemon d
  end.

(** The group, and whether it changed. *)
Definition G_eliminate_partitioned_daemons_status (grp : group) : M St (group * bool) :=
  for_fold (DaemonsList grp) (grp, false) (fun d '(grp, group_changed) =>
    needed ← gget (fun x => to_eliminate x d);
    cn ← gget Cn_active;
    if needed : bool then grp ← G_remove_daemon cn grp d; mret (grp, true)
    else mret (grp, group_changed)).
Definition G_eliminate_partitioned_daemons (grp : group) : M St group :=
  '(grp, _) ← G_eliminate_partitioned_daemons_status grp; mret grp.

Definition G_check_if_changed_by_cascade (grp : group) (s : St) : bool :=
  existsb (fun d => Conf_id_in_conf (Trans_memb (sess s)) (dm_proc_id d) =? -1)
    (DaemonsList grp).

(** ** The synced set *)

(** The first of the set is its leader; an empty set has none. *)
Definition Is_synced_set_leader (proc_id : Z) : M St bool :=
  l ← gget MySyncedSet;
  p ← or_fail Undefined (l !! O);
  mret (proc_id =? p).

Definition conf_index (cn : configuration) (pid : Z) : Z :=
  index_or_minus1 (Conf_proc_by_id_in_conf cn pid).

(** The merge of two sets in the order of the configuration; a daemon that is not
    in it, or is in both sets, ends the process. *)
Fixpoint merge_sets (cn : configuration) (fuel : nat) (l r acc : list Z) : M St (list Z) :=
  match fuel with
  | O => fail OutOfFuel
  | S fuel =>
      if bool_decide (l = []) && bool_decide (r = []) then mret acc else
      let index_l := match l with [] => -1 | p :: _ => conf_index cn p end in
      let index_r := match r with [] => -1 | p :: _ => conf_index cn p end in
      fatal_if (negb (bool_decide (l = [])) && (index_l =? -1));;
      fatal_if (negb (bool_decide (r = [])) && (index_r =? -1));;
      let push := undef_if (MAX_PROCS_RING <=? Z.of_nat (length acc)) in
      if ((index_l <? index_r) && negb (index_l =? -1)) || (index_r =? -1) then
        p ← or_fail Undefined (l !! O); push;; merge_sets cn fuel (tail l) r (acc ++ [p])
      else if ((index_r <? index_l) && negb (index_r =? -1)) || (index_l =? -1) then
        p ← or_fail Undefined (r !! O); push;; merge_sets cn fuel l (tail r) (acc ++ [p])
      else fatal
  end.

Definition G_add_to_synced_set (sset : list Z) : M St unit :=
  l ← gget MySyncedSet;
  cn ← gets Config;
  t ← merge_sets cn (S (length l + length sset)) l sset [];
  gset (fun x => x <| MySyncedSet := t |>).

(** The members of [s] in the membership, and whether some were not. *)
Definition G_update_synced_set_status (s : list Z) (memb : configuration) : list Z * bool :=
  let s' := filter (fun p => 0 <= Conf_id_in_conf memb p) s in
  (s', negb (Z.of_nat (length s') =? Z.of_nat (length s))).
Definition G_update_synced_set (s : list Z) (memb : configuration) : list Z :=
  fst (G_update_synced_set_status s memb).
End Groups.

(** * Groups: the messages to the members ([groups.c])

    The membership messages a group's local members get: on a join, a leave or a
    disconnection ([G_send_lightweight_memb]), after a change of the network
    ([G_send_heavyweight_memb]), and the transitional signal
    ([G_send_trans_memb]).  A buffer that is written in sequence is the list of
    the bytes written; more than [Mess_buf] holds is undefined. *)

Section Build.
Context {L : SpuLib} {R : SessLib} {U : Stdutil}.

Definition MAX_MESSAGE_BODY_LEN : Z := MAX_SCATTER_ELEMENTS * (MAX_PACKET_SIZE - 32).
Definition sizeof_group_id : Z := 12.

Definition membership_id_bytes (m : membership_id) : list Z :=
  bytes32 (m_proc_id m) ++ bytes32 (m_time m).
Definition group_id_bytes (g : group_id) : list Z :=
  membership_id_bytes (gid_memb_id g) ++ bytes32 (gid_index g).

(** The members, by daemon and by name, and the group id. *)
Definition memb_header (grp : group) (caused : Z) : message_header :=
  mk_message_header (Z.lor (i32 (Set_endian REG_MEMB_MESS)) caused) (g_name grp)
    (g_num_members grp) (i32 (Set_endian 0)) sizeof_group_id.
Definition daemon_names (d : daemon_members) : list Z := concat (map name_field (MembersList d)).
Definition memb_buf (grp : group) : list Z :=
  concat (map daemon_names (DaemonsList grp)) ++ group_id_bytes (grp_id grp).
Definition G_build_memb_buf (grp : group) (caused : Z) : message_header * list Z :=
  (memb_header grp caused, memb_buf grp).

(** The region of the virtual synchrony sets as it is filled: the set at hand (its
    membership, size and place), the place of the daemon's own set, and whether
    the joiner was met. *)
Record vs_build := mk_vs_build {
  vs_region : list Z; num_vs_sets : Z; vs_memb_id : membership_id; vs_size : Z; vs_at : Z;
  vs_local : Z; found_joiner : bool }.
Definition no_vs : vs_build := mk_vs_build [] 0 unknown_memb_id 0 0 0 false.

Definition vs_member (joiner : option (list Z)) (name : list Z) (v : vs_build) : vs_build :=
  let is_joiner := match joiner with Some j => bool_decide (cstr j = cstr name) | None => false end in
  if negb (found_joiner v) && is_joiner then
    mk_vs_build (vs_region v) (num_vs_sets v) (vs_memb_id v) (vs_size v) (vs_at v) (vs_local v) true
  else
    mk_vs_build (vs_region v ++ name_field name) (num_vs_sets v) (vs_memb_id v) (vs_size v + 1)
      (vs_at v) (vs_local v) (found_joiner v).

(** A new set for another membership; partitioned daemons are alone in theirs. *)
Definition vs_open (d : daemon_members) (v : vs_build) : vs_build :=
  if Is_unknown_memb_id (vs_memb_id v) || negb (Memb_is_equal (vs_memb_id v) (dm_memb_id d)) then
    mk_vs_build (vs_region v ++ bytes32 0) (num_vs_sets v + 1) (dm_memb_id d) 0
      (Z.of_nat (length (vs_region v))) (vs_local v) (found_joiner v)
  else v.

Definition vs_daemon (my_id : Z) (joiner : option (list Z)) (d : daemon_members) (v : vs_build)
  : M St vs_build :=
  let v := vs_open d v in
  let mine := dm_proc_id d =? my_id in
  fatal_if (mine && negb (vs_local v =? 0));;
  let v := if mine then mk_vs_build (vs_region v) (num_vs_sets v) (vs_memb_id v) (vs_size v)
    (vs_at v) (vs_at v) (found_joiner v) else v in
  let v := foldl (fun v name => vs_member joiner name v) v (MembersList d) in
  mret (mk_vs_build (put_i32 (vs_region v) (vs_at v) (vs_size v)) (num_vs_sets v) (vs_memb_id v)
    (vs_size v) (vs_at v) (vs_local v) (found_joiner v)).

(** The daemons by membership, then by daemon. *)
Definition vs_order (cn : configuration) (l : list daemon_members) : list daemon_members :=
  foldl (fun t d => stdskl_put (G_compare_daemon_vs_set cn) (fun d => d) d t) [] l.

Definition G_build_memb_vs_buf (grp : group) (caused : Z) (joiner : option (list Z))
  : M St (message_header * list Z) :=
  let '(h, buf) := G_build_memb_buf grp caused in
  cn ← gget Cn_active;
  my ← gets My;
  v ← for_fold (vs_order cn (DaemonsList grp)) no_vs (vs_daemon (id my) joiner);
  v ← match joiner with
      | None => mret v
      | Some j =>
          fatal_if (negb (found_joiner v));;
          mret (mk_vs_build (vs_region v ++ bytes32 1 ++ name_field j) (num_vs_sets v + 1)
            (vs_memb_id v) 1 (vs_at v) (vs_local v) true)
      end;
  let buf := buf ++ bytes32 (num_vs_sets v) ++ bytes32 (vs_local v) ++ vs_region v in
  undef_if (MAX_MESSAGE_BODY_LEN <? Z.of_nat (length buf));;
  mret (h <| data_len ::= Z.add (8 + Z.of_nat (length (vs_region v))) |>, buf).

(** A new message with a header and what follows it. *)
Definition message_of (h : message_header) (buf : list Z) : M St scatter :=
  msg ← set_message_header Message_new_message h;
  Message_Buffer_to_Message_Fragments msg buf (Z.of_nat (length buf)).

(** To the local members who asked for membership messages. *)
Definition write_member (msg : scatter) (mbox needed : Z) : M St Z :=
  ses ← gets (Sess_get_session_index mbox);
  s ← get_session ses;
  if Is_memb_session (ses_status s) then Sess_write ses msg needed else mret needed.

(** One virtual synchrony set, of the member that caused the change. *)
Definition lightweight_buf (grp : group) (private_group_name : list Z) : list Z :=
  memb_buf grp ++ bytes32 1 ++ bytes32 0 ++ bytes32 1 ++ name_field private_group_name.
Definition G_send_lightweight_memb (grp : group) (caused : Z) (private_group_name : list Z)
  : M St unit :=
  let '(h, _) := G_build_memb_buf grp caused in
  let buf := lightweight_buf grp private_group_name in
  undef_if (MAX_MESSAGE_BODY_LEN <? Z.of_nat (length buf));;
  msg ← message_of (h <| data_len ::= Z.add (3 * 4 + MAX_GROUP_NAME) |>) buf;
  _ ← for_fold (mboxes grp) 0 (write_member msg);
  mret tt.

Definition self_leave_header (grp : group) : message_header :=
  mk_message_header (i32 (Set_endian CAUSED_BY_LEAVE)) (g_name grp) 0 (i32 (Set_endian 0)) 0.
Definition G_send_self_leave (grp : group) (ses : Z) : M St unit :=
  msg ← message_of (self_leave_header grp) [];
  s ← get_session ses;
  when (Is_memb_session (ses_status s)) (_ ← Sess_write ses msg 0; mret tt).

(** The joiner's own copy says that its set is the last. *)
Definition joiner_buf (h : message_header) (buf : list Z) : list Z :=
  put_i32 buf (num_groups h * MAX_GROUP_NAME + sizeof_group_id + 4)
    (data_len h - (4 + MAX_GROUP_NAME) - (sizeof_group_id + 2 * 4)).
Definition G_send_heavyweight_join (grp : group) (joiner : option (list Z)) (new_mbox : Z)
  : M St unit :=
  '(h, buf) ← G_build_memb_vs_buf grp CAUSED_BY_NETWORK joiner;
  msg ← message_of h buf;
  _ ← for_fold (mboxes grp) 0 (fun mbox needed =>
    if negb (bool_decide (joiner = None)) && (new_mbox =? mbox) then mret needed
    else write_member msg mbox needed);
  when (negb (new_mbox =? -1))
    (joiner_msg ← message_of h (joiner_buf h buf);
     _ ← write_member joiner_msg new_mbox 0;
     mret tt).
Definition G_send_heavyweight_memb (grp : group) : M St unit :=
  G_send_heavyweight_join grp None (-1).

Definition G_build_trans_mess (grp : group) : M St scatter :=
  msg ← Message_create_message TRANSITION_MESS (g_name grp);
  h ← Message_get_message_header msg;
  msg ← set_message_header msg (h <| data_len := sizeof_group_id |>);
  e ← element0 msg;
  mret (<[O := mk_element (sizeof_message_header + sizeof_group_id)
    (buf_put (e_buf e) sizeof_message_header (group_id_bytes (grp_id grp)))]> msg).
Definition G_send_trans_memb (grp : group) : M St unit :=
  msg ← G_build_trans_mess grp;
  _ ← for_fold (mboxes grp) 0 (write_member msg);
  mret tt.
End Build.
