(* ===== verification/GroupsMess.v ===== *)
(** * Groups: the state exchange ([groups.c])

    After a change of the network the representative of each synced set sends what
    its daemons know of the groups in one or more GROUPS messages; the others add
    it to their own list.  [G_build_groups_buf] writes one buffer, [G_mess_to_groups]
    reads one message.  The two iterators that [G_build_groups_buf] keeps between
    calls are the groups left, and the daemons left of the first of them.  Reading a
    message past its end is undefined. *)

From S2P Require Import Prelude NetTypes Configuration State Network SessionLayer Delivery Send.
From S2P Require Import Message Stdutil SessState Sessions Groups.

Section Exchange.
Context {L : SpuLib} {R : SessLib} {U : Stdutil}.

Definition GROUPS_BUF_SIZE : Z := 100000.
Definition GROUPS_BUF_PREAMBLE_SIZE : Z := 8 + 1.
Definition GROUPS_BUF_GROUP_INFO_SIZE : Z := MAX_GROUP_NAME + sizeof_group_id + 2 + 2.
Definition GROUPS_BUF_DAEMON_INFO_SIZE : Z := 4 + 8 + 2.
Definition MAX_LOCAL_GROUP_MEMBERS : Z :=
  (GROUPS_BUF_SIZE - GROUPS_BUF_PREAMBLE_SIZE - GROUPS_BUF_GROUP_INFO_SIZE
   - GROUPS_BUF_DAEMON_INFO_SIZE) / MAX_GROUP_NAME.

(** ** Writing *)

Definition flag_of (c : bool) : Z := if c then 1 else 0.

(** The membership written for a daemon is that of the group's id. *)
Definition daemon_bytes (grp : group) (d : daemon_members) : list Z :=
  bytes32 (dm_proc_id d) ++ membership_id_bytes (gid_memb_id (grp_id grp)) ++
  bytes16 (Z.of_nat (length (MembersList d))) ++ daemon_names d.
Definition group_bytes (grp : group) (dmns : list daemon_members) : list Z :=
  name_field (g_name grp) ++ group_id_bytes (grp_id grp) ++ bytes16 (flag_of (changed grp)) ++
  bytes16 (Z.of_nat (length dmns)) ++ concat (map (daemon_bytes grp) dmns).

Definition daemon_size (d : daemon_members) : Z :=
  GROUPS_BUF_DAEMON_INFO_SIZE + Z.of_nat (length (MembersList d)) * MAX_GROUP_NAME.

(** The daemons that fit after [num_bytes] bytes, and those left. *)
Fixpoint fit_daemons (num_bytes : Z) (l : list daemon_members)
  : list daemon_members * list daemon_members :=
  match l with
  | [] => ([], [])
  | d :: l' =>
      if GROUPS_BUF_SIZE - num_bytes <? daemon_size d + sizeof_message_header then ([], l)
      else let '(w, rest) := fit_daemons (num_bytes + daemon_size d) l' in (d :: w, rest)
  end.

(** The iterator at the first daemon of the first group left. *)
Definition first_daemons (l : list group) : list daemon_members :=
  match l with g :: _ => DaemonsList g | [] => [] end.

(** The bytes of the groups that fit, and what is left: a group may go on in the
    next buffer, a daemon of a group does not. *)
Fixpoint fill_groups (num_bytes : Z) (l : list group) (dmns : list daemon_members)
  : list Z * (list group * list daemon_members) :=
  match l with
  | [] => ([], ([], []))
  | grp :: l' =>
      if GROUPS_BUF_SIZE - num_bytes <? GROUPS_BUF_GROUP_INFO_SIZE + sizeof_message_header
      then ([], (l, dmns)) else
      let '(w, rest) := fit_daemons (num_bytes + GROUPS_BUF_GROUP_INFO_SIZE) dmns in
      let bytes := group_bytes grp w in
      match rest with
      | _ :: _ => (bytes, (l, rest))
      | [] =>
          let '(bytes', it) :=
            fill_groups (num_bytes + Z.of_nat (length bytes)) l' (first_daemons l') in
          (bytes ++ bytes', it)
      end
  end.

Definition preamble (x : sess_st) (first_time : bool) : list Z :=
  membership_id_bytes (Reg_memb_id x) ++
  if first_time then [1] ++ bytes32 (Z.of_nat (length (MySyncedSet x))) ++
                     concat (map bytes32 (MySyncedSet x))
  else [0].

Definition G_build_groups_buf (x : sess_st) (first_time : bool)
    (it : list group * list daemon_members) : list Z * (list group * list daemon_members) :=
  let pre := preamble x first_time in
  let it := if first_time then (GroupsList x, first_daemons (GroupsList x)) else it in
  let '(bytes, it) := fill_groups (Z.of_nat (length pre)) it.1 it.2 in
  (pre ++ bytes, it).

(** The buffers, the last one first, until no group is left.  Every buffer after the
    first holds a daemon or ends a group, when each daemon fits in a buffer. *)
Definition bufs_fuel (l : list group) : nat :=
  S (S (list_sum (map (fun g => S (length (DaemonsList g))) l))).
Fixpoint build_bufs (x : sess_st) (fuel : nat) (first_time : bool)
    (it : list group * list daemon_members) (bufs : list (list Z)) : M St (list (list Z)) :=
  match fuel with
  | O => fail OutOfFuel
  | S fuel =>
      let '(buf, it) := G_build_groups_buf x first_time it in
      match it.1 with
      | [] => mret (buf :: bufs)
      | _ => build_bufs x fuel false it (buf :: bufs)
      end
  end.
Definition G_build_new_groups_bufs : M St unit :=
  x ← gets sess;
  bufs ← build_bufs x (bufs_fuel (GroupsList x)) true ([], []) (Groups_bufs x);
  gset (fun x => x <| Groups_bufs := bufs |>).

Definition G_stamp_groups_bufs : M St unit :=
  gset (fun x => x <| Groups_bufs ::=
    map (fun b => buf_put b 0 (membership_id_bytes (Reg_memb_id x))) |>).

Definition G_discard_groups_bufs : M St unit := gset (fun x => x <| Groups_bufs := [] |>).

(** The name of the daemon, the last four bytes of the field taken by the size of
    the synced set. *)
Definition groups_msg_hdr (my_name : list Z) (synced : Z) (groups_bytes : Z) : message_header :=
  mk_message_header (i32 (Set_endian GROUPS_MESS))
    (buf_put (name_field my_name) (MAX_GROUP_NAME - 4) (bytes32 synced)) 0
    (i32 (Set_endian 0)) groups_bytes.

Definition send_groups_buf (service : Z) (buf : list Z) : M St unit :=
  my ← gets My;
  synced ← gget (fun x => Z.of_nat (length (MySyncedSet x)));
  let h := groups_msg_hdr (str_bytes (name my)) synced (Z.of_nat (length buf)) in
  let h := h <| mh_type ::= fun t => Z.lor t service |> in
  msg ← message_of h buf;
  down ← Prot_Create_Down_Link (Message_get_packet_type (mh_type h)) msg;
  Prot_new_message down.
(** All but the last are sent RELIABLE, the last AGREED. *)
Fixpoint send_groups_bufs (bufs : list (list Z)) : M St unit :=
  match bufs with
  | [] => mret tt
  | [buf] => send_groups_buf AGREED_MESS buf
  | buf :: bufs => send_groups_buf RELIABLE_MESS buf;; send_groups_bufs bufs
  end.
Definition G_send_groups_messages : M St unit :=
  bufs ← gget Groups_bufs; send_groups_bufs bufs.

(** ** Reading *)

(** Fields of a buffer at an offset, in the byte order of the sender. *)
Definition rd_bytes (b : list Z) (off n : Z) : M St (list Z) :=
  undef_if (Z.of_nat (length b) <? off + n);; mret (buf_get b off n).
Definition rd32 (b : list Z) (same : bool) (off : Z) : M St Z :=
  undef_if (Z.of_nat (length b) <? off + 4);;
  mret (if same then get_i32 b off else i32 (Flip_int32 (get_i32 b off))).
Definition rd16 (b : list Z) (same : bool) (off : Z) : M St Z :=
  undef_if (Z.of_nat (length b) <? off + 2);;
  mret (if same then u16 (get_i16 b off) else u16 (Flip_int16 (u16 (get_i16 b off)))).
Definition rd_memb_id (b : list Z) (same : bool) (off : Z) : M St membership_id :=
  p ← rd32 b same off; t ← rd32 b same (off + 4); mret (mk_membership_id p t).

(** The synced set, in the first message of a representative. *)
Definition rd_synced_set (b : list Z) (same : bool) (off : Z) : M St (list Z * Z) :=
  size ← rd32 b same off;
  undef_if ((size <? 0) || (MAX_PROCS_RING <? size));;
  ids ← for_fold (zrange 0 (size - 1)) [] (fun i ids =>
    p ← rd32 b same (off + 4 + 4 * i); mret (ids ++ [p]));
  mret (ids, off + 4 + 4 * size).

(** The group of that name, or a new one. *)
Definition get_or_create (b : list Z) (same : bool) (off : Z) : M St group :=
  name ← rd_bytes b off MAX_GROUP_NAME;
  old ← gets (G_get_group name);
  match old with
  | Some grp => mret grp
  | None =>
      nm ← or_fail Undefined (strcpy_name name);
      m ← rd_memb_id b same (off + MAX_GROUP_NAME);
      i ← rd32 b same (off + MAX_GROUP_NAME + 8);
      let grp := mk_group nm (mk_group_id m i) false 0 [] [] in
      gset (fun x => x <| GroupsList ::= stdskl_put G_compare_nameptr g_name grp |>);;
      set_num_groups_by Z.succ;;
      mret grp
  end.

Definition rd_members (b : list Z) (off num_memb : Z) : M St (list (list Z)) :=
  for_fold (zrange 0 (num_memb - 1)) [] (fun j l =>
    name ← rd_bytes b (off + MAX_GROUP_NAME * j) MAX_GROUP_NAME; mret (put_member name l)).

(** One daemon of a group: it is added to the group's. *)
Definition rd_daemon (b : list Z) (same : bool) (x : group * Z) : M St (group * Z) :=
  let '(grp, off) := x in
  pid ← rd32 b same off;
  m ← rd_memb_id b same (off + 4);
  num_memb ← rd16 b same (off + 12);
  l ← rd_members b (off + GROUPS_BUF_DAEMON_INFO_SIZE) num_memb;
  cn ← gget Cn_active;
  let grp := grp <| DaemonsList ::= put_daemon cn (mk_daemon_members pid m l) |>
    <| changed ::= fun c => c || negb (Memb_is_equal m (gid_memb_id (grp_id grp))) |>
    <| g_num_members ::= Z.add num_memb |> in
  mret (grp, off + GROUPS_BUF_DAEMON_INFO_SIZE + MAX_GROUP_NAME * num_memb).

Definition rd_group (b : list Z) (same : bool) (off : Z) : M St Z :=
  grp ← get_or_create b same off;
  let off := off + MAX_GROUP_NAME + sizeof_group_id in
  sent_group_changed ← rd16 b true off;
  let grp := if negb (sent_group_changed =? 0) then grp <| changed := true |> else grp in
  num_dmns ← rd16 b same (off + 2);
  '(grp, off) ← for_fold (zrange 0 (num_dmns - 1)) (grp, off + 4) (fun _ => rd_daemon b same);
  store_group grp;;
  mret off.

(** All the bytes of a message. *)
Definition message_bytes (msg : scatter) : list Z :=
  concat (map (fun e => buf_get (e_buf e) 0 (e_len e)) msg).

(** [sset] is the caller's variable: not written by a later message. *)
Definition G_mess_to_groups (msg : scatter) (sset : option (list Z)) : M St (option (list Z)) :=
  let b := message_bytes msg in
  undef_if (sizeof_Temp_buf <? Z.of_nat (length b));;
  h ← Message_get_message_header msg;
  let same := Same_endian (mh_type h) in
  let off := sizeof_message_header + 8 in
  flag ← rd_bytes b off 1;
  '(sset, off) ← (if bool_decide (flag = [1]) then
    '(ids, off) ← rd_synced_set b same (off + 1); mret (Some ids, off)
    else mret (sset, off + 1));
  while_fuel (S (length b)) (fun off =>
    if off <? Z.of_nat (length b) then off ← rd_group b same off; mret (inl off)
    else mret (inr sset)) off.
End Exchange.
