(* ===== verification/GroupsHandle.v ===== *)
(** * Groups: the handlers ([groups.c])

    [G_init], the reload of the configuration, the memberships the protocol
    delivers, the joins, leaves and disconnections, and the GROUPS messages, in
    the four states of the groups algorithm. *)

From S2P Require Import Prelude NetTypes Configuration State Network SessionLayer Delivery Send.
From S2P Require Import Message Stdutil SessState Sessions Groups GroupsMess.

Section Handle.
Context {L : SpuLib} {R : SessLib} {U : Stdutil}.

Definition set_gstate (g : groups_state) : M St unit :=
  gset (fun x => x <| Gstate := g |>);;
  modify (fun s => s <| gs_gstate := groups_state_code g |>).

Definition G_shift_to_GOP : M St unit :=
  set_gstate GOP;; Prot_set_delivery_threshold UNRELIABLE_TYPE.

(** [Conf_config_copy( Conf_ref(), &Cn_active )] *)
Definition copy_active_conf : M St unit :=
  cn ← gets Config;
  cn' ← or_fail Fatal (Conf_config_copy cn);
  gset (fun x => x <| Cn_active := cn' |>).

Definition G_init : M St unit :=
  my ← gets My;
  gset (fun x => x <| Num_groups := 0 |> <| gs_num_groups := 0 |> <| MySyncedSet := [id my] |>
    <| GroupsList := [] |> <| Groups_bufs := [] |> <| Groups_bufs_fresh := false |>
    <| Num_mess_gathered := 0 |> <| Num_daemons_gathered := 0 |>
    <| Gathered_complete := false |> <| Gathered := [] |>);;
  copy_active_conf;;
  G_shift_to_GOP.

(** The daemons of each group in the order of the new configuration: put one by one
    in a new list, which then becomes the group's. *)
Definition reload_daemons (interim : configuration) (grp : group) : list daemon_members :=
  foldl (fun t d => put_daemon interim d t) [] (DaemonsList grp).
Definition reinsert_daemons (active : configuration) (tmp : list daemon_members)
  : list daemon_members :=
  stdskl_insert_seq (G_compare_proc_ids_by_conf_internal active) dm_proc_id tmp [].
Definition G_signal_conf_reload : M St unit :=
  interim ← gets Config;
  tmps ← gget (fun x => map (reload_daemons interim) (GroupsList x));
  copy_active_conf;;
  gset (fun x => x <| GroupsList := zip_with (fun grp tmp =>
    grp <| DaemonsList := reinsert_daemons (Cn_active x) tmp |>) (GroupsList x) tmps |>).

(** ** Private group names *)

Definition legal_char (c : Z) : bool := (35 <? c) && (c <=? 126).

(** The name before the second number sign and the one after it; [None] is
    [ILLEGAL_GROUP]. *)
Definition split_names (n : list Z) : option (list Z * list Z) :=
  '(i, _) ← list_find (fun c => c = 35) n;
  Some (take i n, drop (S i) n).
Definition G_private_to_names {S} (private_group_name : list Z) : M S (option (list Z * list Z)) :=
  undef_if (negb (bool_decide (0 ∈ tail private_group_name)));;
  mret (
    '(prvn, pn) ← split_names (cstr (tail private_group_name));
    let priv_name_len := Z.of_nat (length prvn) in
    let proc_name_len := Z.of_nat (length pn) in
    if negb (default 0 (private_group_name !! O) =? 35) || (MAX_PRIVATE_NAME <? priv_name_len) ||
       (priv_name_len <? 1) || (MAX_PROC_NAME <=? proc_name_len) || (proc_name_len <? 1) then None
    else if forallb legal_char prvn && forallb legal_char pn then Some (prvn, pn) else None).

(** [Conf_proc_by_name] of the running configuration. *)
Definition proc_by_name (nm : list Z) (s : St) : option (Z * proc) :=
  find_index (fun p => str_eqb (str_bytes (name p)) nm) (allprocs (Config s)).
(** The daemon of a private group.  When the name is illegal the handlers go on
    with arrays nothing was written in. *)
Definition names_of (private_group_name : list Z) : M St (list Z * list Z) :=
  r ← G_private_to_names private_group_name; or_fail Undefined r.

(** ** Joins *)

Definition in_group_states (g : groups_state) : bool :=
  match g with GOP | GTRANS => true | _ => false end.

Definition get_or_new_group (group_name : list Z) : M St group :=
  old ← gets (G_get_group group_name);
  match old with
  | Some grp => mret grp
  | None =>
      nm ← or_fail Undefined (strcpy_name group_name);
      m ← gget (fun x => match Gstate x with GOP => Reg_memb_id x | _ => G_Trans_memb_id x end);
      let grp := mk_group nm (mk_group_id m 0) false 0 [] [] in
      gset (fun x => x <| GroupsList ::= stdskl_put G_compare_nameptr g_name grp |>);;
      set_num_groups_by Z.succ;;
      mret grp
  end.

(** A daemon that is not in the transitional membership is partitioned. *)
Definition new_daemon (x : sess_st) (grp : group) (pid : Z) : daemon_members :=
  let here := match Gstate x with GOP => true | _ => negb (Conf_id_in_conf (Trans_memb x) pid =? -1) end in
  mk_daemon_members pid (if here then gid_memb_id (grp_id grp) else unknown_memb_id) [].
Definition get_or_new_daemon (grp : group) (pid : Z) : M St (group * daemon_members) :=
  x ← gets sess;
  match G_get_daemon (Cn_active x) grp pid with
  | Some dmn => mret (grp, dmn)
  | None =>
      let dmn := new_daemon x grp pid in
      mret (grp <| DaemonsList ::= put_daemon (Cn_active x) dmn |>, dmn)
  end.

(** The mailbox of a local joiner, -1 for another. *)
Definition joiner_mbox (dmn : daemon_members) (private_name : list Z) : M St Z :=
  my ← gets My;
  if negb (dm_proc_id dmn =? id my) then mret (-1) else
  ses ← gets (Sess_get_session private_name);
  fatal_if (ses <? 0);;
  s ← get_session ses;
  mret (ses_mbox s).

Definition add_member (grp : group) (dmn : daemon_members) (nm : list Z) : group * daemon_members :=
  let dmn := dmn <| MembersList ::= put_member nm |> in
  (store_daemon dmn grp <| g_num_members ::= Z.succ |>
     <| grp_id ::= fun g => mk_group_id (gid_memb_id g) (gid_index g + 1) |>, dmn).

Definition notify_join (grp : group) (nm : list Z) (new_mbox : Z) : M St unit :=
  when (bool_decide (mboxes grp <> []))
    (if changed grp then
       G_send_heavyweight_join grp (Some nm) new_mbox;; G_send_trans_memb grp
     else G_send_lightweight_memb grp CAUSED_BY_JOIN nm).

Definition do_join (private_group_name group_name private_name : list Z) (pid : Z) : M St unit :=
  grp ← get_or_new_group group_name;
  '(grp, dmn) ← get_or_new_daemon grp pid;
  store_group grp;;
  match G_get_member dmn private_group_name with
  | Some _ => mret tt
  | None =>
      nm ← or_fail Undefined (strcpy_name private_group_name);
      let '(grp, dmn) := add_member grp dmn nm in
      new_mbox ← joiner_mbox dmn private_name;
      my ← gets My;
      let grp := if dm_proc_id dmn =? id my then grp <| mboxes ::= fun l => l ++ [new_mbox] |>
                 else grp in
      let grp := if Is_partitioned_daemon dmn then grp <| changed := true |> else grp in
      store_group grp;;
      notify_join grp nm new_mbox
  end.

Definition G_handle_join (private_group_name group_name : list Z) : M St unit :=
  g ← gget Gstate;
  if negb (in_group_states g) then fatal else
  '(private_name, proc_name) ← names_of private_group_name;
  p ← gets (proc_by_name proc_name);
  match p with
  | None => mret tt
  | Some (_, p) => do_join private_group_name group_name private_name (id p)
  end.

(** ** Leaves and disconnections *)

Definition bump_index (grp : group) : group :=
  grp <| grp_id ::= fun g => mk_group_id (gid_memb_id g) (gid_index g + 1) |>.

(** The member leaves its daemon; a daemon without members leaves the group. *)
Definition extract_member (cn : configuration) (grp : group) (dmn : daemon_members) (nm : list Z)
  : M St group :=
  i ← or_fail Fatal (find_member nm (MembersList dmn));
  let dmn := dmn <| MembersList ::= delete i |> in
  let grp := store_daemon dmn grp <| g_num_members ::= Z.pred |> in
  if bool_decide (MembersList dmn = []) then G_remove_daemon cn grp dmn else mret grp.

Definition notify_departure (grp : group) (caused : Z) (nm : list Z) : M St unit :=
  when (bool_decide (mboxes grp <> []))
    (if changed grp then G_send_heavyweight_memb grp;; G_send_trans_memb grp
     else G_send_lightweight_memb grp caused nm).

(** What is left of the group: nothing, or a group with its next id. *)
Definition after_departure (grp : group) (caused : Z) (nm : list Z) : M St unit :=
  store_group grp;;
  if g_num_members grp =? 0 then G_remove_group grp else
  let grp := bump_index grp in
  store_group grp;;
  notify_departure grp caused nm.

Definition session_mbox (ses : Z) : M St Z := s ← get_session ses; mret (ses_mbox s).

Definition do_leave (private_group_name group_name private_name : list Z) (pid : Z) : M St unit :=
  old ← gets (G_get_group group_name);
  match old with
  | None => mret tt
  | Some grp =>
      cn ← gget Cn_active;
      match G_get_daemon cn grp pid with
      | None => mret tt
      | Some dmn =>
          match G_get_member dmn private_group_name with
          | None => mret tt
          | Some nm =>
              my ← gets My;
              grp ← (if pid =? id my then
                ses ← gets (Sess_get_session private_name);
                fatal_if (ses <? 0);;
                G_send_self_leave grp ses;;
                mbox ← session_mbox ses;
                G_remove_mailbox grp mbox
                else mret grp);
              grp ← extract_member cn grp dmn nm;
              after_departure grp CAUSED_BY_LEAVE nm
          end
      end
  end.

Definition G_handle_leave (private_group_name group_name : list Z) : M St unit :=
  g ← gget Gstate;
  if negb (in_group_states g) then fatal else
  '(private_name, proc_name) ← names_of private_group_name;
  p ← gets (proc_by_name proc_name);
  match p with
  | None => mret tt
  | Some (_, p) => do_leave private_group_name group_name private_name (id p)
  end.

(** One group of a member that is gone; [ses] is its session, if it was local. *)
Definition kill_in_group (private_group_name : list Z) (pid ses : Z) (grp : group) : M St unit :=
  cn ← gget Cn_active;
  match G_get_daemon cn grp pid with
  | None => mret tt
  | Some dmn =>
      match G_get_member dmn private_group_name with
      | None => mret tt
      | Some nm =>
          my ← gets My;
          grp ← (if pid =? id my then mbox ← session_mbox ses; G_remove_mailbox grp mbox
                 else mret grp);
          grp ← extract_member cn grp dmn nm;
          after_departure grp CAUSED_BY_DISCONNECT nm
      end
  end.

Definition G_handle_kill (private_group_name : list Z) : M St unit :=
  g ← gget Gstate;
  if negb (in_group_states g) then fatal else
  '(private_name, proc_name) ← names_of private_group_name;
  p ← gets (proc_by_name proc_name);
  match p with
  | None => mret tt
  | Some (_, p) =>
      my ← gets My;
      ses ← (if id p =? id my then gets (Sess_get_session private_name) else mret (-1));
      for_groups (kill_in_group private_group_name (id p) ses)
  end.
End Handle.
