(* ===== verification/GroupsMemb.v ===== *)
(** * Groups: memberships and the end of the state exchange ([groups.c])

    [G_handle_trans_memb], [G_handle_reg_memb] and [G_handle_groups]: how the
    groups follow the configuration the protocol delivers.  GOP is the regular
    state; GTRANS follows a transitional membership; in GGATHER the GROUPS
    messages are awaited; GGT is GGATHER after another transitional membership. *)

From S2P Require Import Prelude NetTypes Configuration State Network SessionLayer Delivery Send.
From S2P Require Import Message Stdutil SessState Sessions Groups GroupsMess GroupsHandle.

Section Memb.
Context {L : SpuLib} {R : SessLib} {U : Stdutil}.

(** ** Transitional memberships *)

(** Daemons that are not in the membership are marked; whether there were some. *)
Definition mark_partitioned (memb : configuration) (grp : group) : group * bool :=
  let out d := Conf_id_in_conf memb (dm_proc_id d) =? -1 in
  (grp <| DaemonsList ::= map (fun d => if out d then d <| dm_memb_id := unknown_memb_id |> else d) |>,
   existsb out (DaemonsList grp)).

(** The id of a group in a new membership. *)
Definition new_group_id (m : membership_id) (grp : group) : group :=
  grp <| grp_id := mk_group_id m 1 |>.

Definition trans_in_gop (grp : group) : M St unit :=
  memb ← gget Trans_memb;
  let '(grp, group_changed) := mark_partitioned memb grp in
  store_group grp;;
  when group_changed
    (when (bool_decide (mboxes grp <> [])) (G_send_trans_memb grp);;
     m ← gget G_Trans_memb_id;
     store_group (G_update_daemon_memb_ids (new_group_id m grp <| changed := true |>))).

Definition trans_in_ggather (grp : group) : M St unit :=
  group_changed ← gets (G_check_if_changed_by_cascade grp);
  when group_changed (store_group (grp <| changed := true |>)).

Definition save_trans (memb : configuration) (m : membership_id) : M St unit :=
  gset (fun x => x <| Trans_memb := memb |> <| G_Trans_memb_id := m |>).

Definition G_handle_trans_memb (memb : configuration) (m : membership_id) : M St unit :=
  g ← gget Gstate;
  match g with
  | GOP =>
      save_trans memb m;;
      for_groups trans_in_gop;;
      set_gstate GTRANS;;
      gset (fun x => x <| MySyncedSet ::= fun l => G_update_synced_set l (Trans_memb x) |>)
  | GGATHER =>
      save_trans memb m;;
      for_groups trans_in_ggather;;
      set_gstate GGT
  | GTRANS | GGT => fatal
  end.

(** ** Regular memberships *)

Definition save_reg (memb : configuration) (m : membership_id) : M St unit :=
  gset (fun x => x <| Reg_memb := memb |> <| Reg_memb_id := m |>).

(** A changed group without its partitioned daemons, if there is a member left. *)
Definition eliminate_or_remove (grp : group) (k : group -> M St unit) : M St unit :=
  grp ← G_eliminate_partitioned_daemons grp;
  store_group grp;;
  if g_num_members grp =? 0 then G_remove_group grp else k grp.

(** Members only left: no state exchange is needed. *)
Definition reg_subtractive (grp : group) : M St unit :=
  when (changed grp)
    (eliminate_or_remove grp (fun grp =>
       m ← gget Reg_memb_id;
       let grp := G_update_daemon_memb_ids (new_group_id m grp <| changed := false |>) in
       store_group grp;;
       when (bool_decide (mboxes grp <> [])) (G_send_heavyweight_memb grp))).
Definition reg_eliminate (grp : group) : M St unit :=
  when (changed grp) (eliminate_or_remove grp (fun _ => mret tt)).

Definition send_if_leader (prepare : M St unit) : M St unit :=
  my ← gets My;
  leader ← Is_synced_set_leader (id my);
  when leader (prepare;; G_send_groups_messages).
Definition new_bufs : M St unit :=
  G_build_new_groups_bufs;; gset (fun x => x <| Groups_bufs_fresh := true |>).

Definition start_gather : M St unit :=
  gset (fun x => x <| Session_threshold := MEDIUM_PRIORITY |>);;
  Sess_set_active_threshold;;
  Prot_set_down_queue GROUPS_DOWNQUEUE;;
  Prot_set_delivery_threshold AGREED_TYPE;;
  send_if_leader new_bufs;;
  set_gstate GGATHER.

Definition reg_in_gtrans : M St unit :=
  t ← gget (fun x => Conf_num_procs (Trans_memb x));
  r ← gget (fun x => Conf_num_procs (Reg_memb x));
  if t =? r then for_groups reg_subtractive;; G_shift_to_GOP
  else for_groups reg_eliminate;; start_gather.

(** The messages of one synced set, when [take] holds; then its synced set joins
    ours.  A set none of whose messages had it was not filled. *)
Definition take_messages (take_it : bool) (l : groups_message_link) (sset : option (list Z))
  : M St (option (list Z)) :=
  if negb take_it then mret sset else
  sset ← for_fold (gl_messages l) sset (fun msg sset =>
    sset ← G_mess_to_groups msg sset;
    gset (fun x => x <| Groups_bufs_fresh := false |>);; mret sset);
  ids ← or_fail Undefined sset;
  G_add_to_synced_set ids;;
  mret sset.
Definition take_gathered (take_it : groups_message_link -> bool) : M St unit :=
  l ← gget Gathered;
  _ ← for_fold l None (fun gl => take_messages (take_it gl) gl);
  gset (fun x => x <| Gathered := [] |>).

Definition cascade_eliminate (grp : group) : M St unit :=
  '(grp, group_changed) ← G_eliminate_partitioned_daemons_status grp;
  store_group grp;;
  when group_changed
    (gset (fun x => x <| Groups_bufs_fresh := false |>);;
     if g_num_members grp =? 0 then G_remove_group grp
     else store_group (grp <| changed := true |>)).

Definition refresh_bufs : M St unit :=
  fresh ← gget Groups_bufs_fresh;
  if fresh : bool then G_stamp_groups_bufs else G_discard_groups_bufs;; new_bufs.

Definition reset_gathered : M St unit :=
  gset (fun x => x <| Gathered_complete := false |> <| Num_mess_gathered := 0 |>
    <| Num_daemons_gathered := 0 |>).

Definition reg_in_ggt : M St unit :=
  complete ← gget Gathered_complete;
  take_gathered (fun gl => complete && gl_complete gl);;
  for_groups cascade_eliminate;;
  l ← gget MySyncedSet;
  memb ← gget Trans_memb;
  let '(l', synced_set_changed) := G_update_synced_set_status l memb in
  gset (fun x => x <| MySyncedSet := l' |>);;
  when synced_set_changed (gset (fun x => x <| Groups_bufs_fresh := false |>));;
  reset_gathered;;
  send_if_leader refresh_bufs;;
  set_gstate GGATHER.

Definition G_handle_reg_memb (memb : configuration) (m : membership_id) : M St unit :=
  g ← gget Gstate;
  match g with
  | GTRANS => save_reg memb m;; reg_in_gtrans
  | GGT => save_reg memb m;; reg_in_ggt
  | GOP | GGATHER => fatal
  end.

(** ** GROUPS messages *)

Definition finish_group (grp : group) : M St unit :=
  when (changed grp)
    (m ← gget Reg_memb_id;
     let grp := new_group_id m grp <| changed := false |> in
     store_group grp;;
     when (bool_decide (mboxes grp <> [])) (G_send_heavyweight_memb grp);;
     store_group (G_update_daemon_memb_ids grp)).

(** The messages of every set are taken here, and what they hold is not in the
    buffers: [Groups_bufs_fresh] is cleared at the end. *)
Definition G_compute_and_notify : M St unit :=
  take_gathered (fun _ => true);;
  for_groups finish_group;;
  reset_gathered;;
  G_discard_groups_bufs;;
  gset (fun x => x <| Groups_bufs_fresh := false |>).

(** The list of messages of a representative, a new one in front. *)
Definition gather (rep : Z) (msg : scatter) (complete : bool) (l : list groups_message_link)
  : list groups_message_link :=
  match list_find (fun gl => gl_rep_proc_id gl = rep) l with
  | Some (i, gl) => <[i := mk_groups_message_link rep (gl_complete gl || complete)
                          (msg :: gl_messages gl)]> l
  | None => mk_groups_message_link rep complete [msg] :: l
  end.

(** The last message a representative sends carries the size of its set. *)
Definition daemons_represented (h : message_header) : Z :=
  let n := get_i32 (private_group_name h) (MAX_GROUP_NAME - 4) in
  if Same_endian (mh_type h) then n else i32 (Flip_int32 n).
Definition note_gathered (h : message_header) : M St unit :=
  gset (fun x => x <| Num_mess_gathered ::= Z.succ |>);;
  when (Is_agreed_mess (mh_type h))
    (gset (fun x => x <| Num_daemons_gathered ::= fun n => i32 (n + daemons_represented h) |>)).

(** A message of our own representative is counted, and not kept. *)
Definition gather_message (h : message_header) (rep : Z) (msg : scatter) : M St unit :=
  mine ← Is_synced_set_leader rep;
  let complete := Is_agreed_mess (mh_type h) in
  (if mine : bool then when complete (gset (fun x => x <| Gathered_complete := true |>))
   else gset (fun x => x <| Gathered ::= gather rep msg complete |>));;
  note_gathered h.

Definition end_gather : M St unit :=
  Prot_set_down_queue NORMAL_DOWNQUEUE;;
  gset (fun x => x <| Session_threshold := LOW_PRIORITY |>);;
  Sess_set_active_threshold;;
  G_compute_and_notify;;
  g ← gget Gstate;
  G_shift_to_GOP;;
  if bool_decide (g = GGATHER) then mret tt else
  memb ← gget Trans_memb;
  m ← gget G_Trans_memb_id;
  G_handle_trans_memb memb m.

Definition G_handle_groups (msg : scatter) : M St unit :=
  g ← gget Gstate;
  if in_group_states g then fatal else
  h ← Message_get_message_header msg;
  data ← Message_get_first_data_ptr msg;
  let m := mk_membership_id (get_i32 data 0) (get_i32 data 4) in
  let m := if Same_endian (mh_type h) then m else flip_memb_id m in
  reg ← gget Reg_memb_id;
  if negb (Memb_is_equal m reg) then mret tt else
  p ← gets (proc_by_name (cstr (private_group_name h)));
  match p with
  | None => mret tt
  | Some (_, p) =>
      gather_message h (id p) msg;;
      n ← gget Num_daemons_gathered;
      all ← gget (fun x => Conf_num_procs (Reg_memb x));
      if negb (n =? all) then mret tt else end_gather
  end.
End Memb.
