(* ===== verification/SessionC.v ===== *)
(** * Delivery to the sessions: the top of [session.c]

    [Sess_deliver_message] sends a message where its groups say; joins, leaves,
    disconnections and GROUPS messages go to the groups.  [Session_c] is the
    session layer the daemon has: session.c and groups.c behind the interface the
    protocol was modelled against. *)

From S2P Require Import Prelude NetTypes Configuration State Network SessionLayer Delivery Send.
From S2P Require Import Message Stdutil SessState Sessions Groups GroupsMess.
From S2P Require Import GroupsHandle GroupsMemb Acm SessAuth SessAccept.

Section SessionC.
Context {L : SpuLib} {R : SessLib} {U : Stdutil}.

(** ** Groups to sessions *)

(** The local mailboxes of one target; [None] when there is no such group here. *)
Definition target_mboxes (target : list Z) : M St (option (list Z)) :=
  if negb (default 0 (target !! O) =? 35) then
    old ← gets (G_get_group target);
    match old with
    | None => mret None
    | Some grp =>
        g ← gget Gstate;
        fatal_if (negb (in_group_states g));;
        mret (Some (mboxes grp))
    end
  else
    r ← G_private_to_names target;
    match r with
    | None => mret None
    | Some (private_name, proc_name) =>
        my ← gets My;
        ses ← gets (Sess_get_session private_name);
        if negb (str_eqb (str_bytes (name my)) proc_name) || (ses <? 0) then mret None
        else s ← get_session ses; mret (Some [ses_mbox s])
    end.

Definition target_at (target_groups : list Z) (i : Z) : list Z :=
  buf_get target_groups (MAX_GROUP_NAME * i) MAX_GROUP_NAME.

(** The mailboxes of one more target: all of them when there were none, else those
    that are not there yet (the mailboxes of one group are different). *)
Definition add_mboxes (acc lit : list Z) : M St (list Z) :=
  let acc' := match acc with
    | [] => lit
    | _ => acc ++ filter (fun m => m ∉ acc) lit
    end in
  undef_if (MAX_SESSIONS <? Z.of_nat (length acc'));; mret acc'.

Definition G_analize_groups (num_groups : Z) (target_groups : list Z) : M St (list Z) :=
  mbox ← (
    if num_groups =? 1 then
      r ← target_mboxes (target_at target_groups 0); mret (default [] r)
    else for_fold (zrange 0 (num_groups - 1)) [] (fun i acc =>
      r ← target_mboxes (target_at target_groups i);
      match r with None => mret acc | Some lit => add_mboxes acc lit end));
  gets (fun s => map (fun m => Sess_get_session_index m s) mbox).

(** ** Delivery *)

Definition Sess_handle_join (msg : scatter) : M St unit :=
  h ← Message_get_message_header msg;
  group_name ← Message_get_first_group msg;
  G_handle_join (private_group_name h) (buf_get group_name 0 MAX_GROUP_NAME).

Definition Sess_handle_leave (msg : scatter) : M St unit :=
  h ← Message_get_message_header msg;
  group_name ← Message_get_first_group msg;
  G_handle_leave (private_group_name h) (buf_get group_name 0 MAX_GROUP_NAME).

Definition delete_session (ses : Z) : M St unit :=
  s ← get_session ses;
  fatal_if (Is_op_session (ses_status s));;
  Sess_unhash_session ses;;
  Sess_remove_session ses;;
  gset (fun x => x <| Num_sessions ::= Z.pred |>);;
  gset (fun x => x <| gs_num_sessions := i16 (Num_sessions x) |>).

Definition Sess_handle_kill (msg : scatter) : M St unit :=
  h ← Message_get_message_header msg;
  r ← G_private_to_names (private_group_name h);
  '(private_name, proc_name) ← or_fail Fatal r;
  G_handle_kill (private_group_name h);;
  my ← gets My;
  when (str_eqb (str_bytes (name my)) proc_name)
    (ses ← gets (Sess_get_session private_name);
     when (0 <=? ses) (delete_session ses)).

(** The sessions a regular or rejected message goes to. *)
Definition target_sessions (h : message_header) (msg : scatter) : M St (list Z) :=
  if Is_reject_mess (mh_type h) then
    '(private_name, _) ← names_of (private_group_name h);
    ses ← gets (Sess_get_session private_name);
    mret [ses]
  else
    target_groups ← Message_get_groups_array msg;
    G_analize_groups (num_groups h) target_groups.

(** The session of the sender, if it is here and wants its message discarded. *)
Definition source_session (h : message_header) (targets : list Z) : M St Z :=
  if bool_decide (targets <> []) && Is_self_discard (mh_type h) then
    '(private_name, proc_name) ← names_of (private_group_name h);
    my ← gets My;
    if str_eqb (str_bytes (name my)) proc_name then gets (Sess_get_session private_name)
    else mret (-1)
  else mret (-1).

Definition deliver_regular (msg : scatter) : M St unit :=
  gset (fun x => x <| gs_message_delivered ::= Z.succ |>);;
  h ← Message_get_message_header msg;
  let h := h <| mh_type ::= Set_endian |> in
  msg ← set_message_header msg h;
  targets ← target_sessions h msg;
  source_ses ← source_session h targets;
  _ ← for_fold targets 0 (fun ses needed =>
    if source_ses =? ses then mret needed else Sess_write ses msg needed);
  mret tt.

Definition C_deliver_message (msg : scatter) : M St unit :=
  msg ← Message_endian_correct_message_header msg;
  h ← Message_get_message_header msg;
  if Is_join_mess (mh_type h) then Sess_handle_join msg else
  if Is_leave_mess (mh_type h) then Sess_handle_leave msg else
  if Is_kill_mess (mh_type h) then Sess_handle_kill msg else
  if Is_groups_mess (mh_type h) then G_handle_groups msg else
  deliver_regular msg.

Definition Session_c : SessionLayer := {|
  user_levels := session_levels;
  Sess_deliver_message := C_deliver_message;
  Sess_deliver_trans_memb := G_handle_trans_memb;
  Sess_deliver_reg_memb := G_handle_reg_memb;
  Sess_signal_conf_reload := G_signal_conf_reload;
  Sess_badger := do_badger;
  Sess_accept_continue := C_accept_continue |}.
End SessionC.
