(* ===== verification/SessRead.v ===== *)
(** * Reading a client's messages: [Sess_read] of session.c

    The header comes first, then the groups and the data, each [recv] without
    blocking; what has come of a message is in [ses_read_mess], and [ses_read] says
    where it goes on.  A message that is complete is checked against the policy
    of the session, and queued to the protocol - or goes back to its sender as
    rejected. *)

From S2P Require Import Prelude NetTypes Configuration State Network SessionLayer Delivery Send.
From S2P Require Import Message Stdutil SessState Sessions Acm SessAuth SessAccept.
From S2P Require Import Groups GroupsMess GroupsHandle SessionC.

Definition REGULAR_MESS : Z := 0x3f.
Definition NOT_REGULAR_MESS : Z := 0x00ffff00.
Definition Is_only_regular_mess (t : Z) : bool :=
  truth (Z.land t REGULAR_MESS) && negb (truth (Z.land t NOT_REGULAR_MESS)).

(** The bits [first_index .. last_index - 1] that are set. *)
Definition count_bits_set (field first_index last_index : Z) : Z :=
  foldr (fun i n => (if Z.testbit field i then 1 else 0) + n) 0
    (zrange first_index (last_index - 1)).

Section SessRead.
Context {L : SpuLib} {R : SessLib} {U : Stdutil}.

(** ** The header *)

(** [None] for a header that is refused; the last byte of its name is cleared. *)
Definition Sess_validate_read_header (ses : Z) (h : message_header) : M St (option message_header) :=
  let type_bits := count_bits_set (mh_type h) 0 6 in
  let memb_bits := count_bits_set (mh_type h) 16 19 in
  if (1 <? type_bits) || (1 <? memb_bits) || negb (type_bits + memb_bits =? 1) then mret None else
  let h := h <| private_group_name ::= fun nm => <[Z.to_nat (MAX_GROUP_NAME - 1) := 0]> nm |> in
  r ← G_private_to_names (private_group_name h);
  match r with
  | None => mret None
  | Some (private_name, proc_name) =>
      my ← gets My;
      if negb (same_name MAX_PROC_NAME proc_name (str_bytes (name my))) then mret None else
      s ← get_session ses;
      if negb (same_name MAX_PRIVATE_NAME private_name (ses_name s)) then mret None else
      if (num_groups h <? 0) || (MAX_GROUPS_PER_MESSAGE <? num_groups h) then mret None else
      if truth (Z.land (u32 (hint h)) (Z.lnot (Z.lor 0x80000080 0x00ffff00))) then mret None else
      if (data_len h <? 0) || (MAX_MESSAGE_BODY_LEN <? data_len h) then mret None else
      if MAX_MESSAGE_BODY_LEN - sizeof_message_header <? data_len h + MAX_GROUP_NAME * num_groups h
      then mret None else mret (Some h)
  end.

(** ** The bytes *)

Definition EINTR : Z := 4.
Definition EAGAIN : Z := 11.

(** A [recv] that gave nothing: whether the client may be asked again. *)
Definition try_again (ret : Z) : M St bool :=
  if negb (ret =? -1) then mret false else
  e ← ext_call sock_errno; mret ((e =? EINTR) || (e =? EAGAIN)).

(** The session's socket blocks again; a session that is gone has mailbox -1. *)
Definition set_blocking (ses : Z) : M St unit :=
  s ← get_session ses; ext_do (ioctl_FIONBIO (ses_mbox s) false).

Definition read_lost (mbox ses ret : Z) : M St unit :=
  again ← try_again ret;
  when (negb again) (Sess_kill mbox);;
  set_blocking ses.

(** The message being read. *)
Definition reading (ses : Z) : M St scatter :=
  s ← get_session ses; or_fail Undefined (ses_read_mess s).
Definition set_reading (ses : Z) (msg : scatter) : M St unit :=
  update_session ses (fun s => s <| ses_read_mess := Some msg |>).
Definition put_element (i : Z) (at_byte : Z) (b : list Z) (msg : scatter) : scatter :=
  alter (fun e => mk_element (e_len e) (buf_put (e_buf e) at_byte b)) (Z.to_nat i) msg.

(** [recv] of at most [n] bytes into an element of the message. *)
Definition recv_element (mbox ses i at_byte n : Z) : M St Z :=
  '(ret, b) ← recv_bytes mbox n;
  when (0 <? ret) (msg ← reading ses; set_reading ses (put_element i at_byte b msg));;
  mret ret.

Definition advance (ses : Z) (f : location -> location) : M St unit :=
  update_session ses (fun s => s <| ses_read ::= f |>).

(** The header as the daemon reads it, in its own endianness; whether it is valid. *)
Definition accept_header (mbox ses : Z) : M St bool :=
  msg ← reading ses;
  h ← Message_get_message_header msg;
  let h := if Same_endian (mh_type h) then h else Flip_mess h in
  let h := h <| mh_type ::= fun t => i32 (Set_endian t) |> in
  r ← Sess_validate_read_header ses h;
  match r with
  | None => Sess_kill mbox;; mret false
  | Some h => msg ← set_message_header msg h; set_reading ses msg;; mret true
  end.

(** What is left of the header; whether it is complete and valid. *)
Definition read_header (mbox ses : Z) : M St bool :=
  s ← get_session ses;
  let len := loc_byte (ses_read s) in
  let remain := sizeof_message_header - len in
  ret ← recv_element mbox ses 0 len remain;
  if ret =? remain then
    advance ses (fun w => Message_set_location_begin_body
      (mk_location (loc_element w) (loc_byte w + ret) (in_mess_head w) (total_bytes w)));;
    set_blocking ses;;
    accept_header mbox ses
  else if 0 <? ret then
    advance ses (fun w =>
      mk_location (loc_element w) (loc_byte w + ret) (in_mess_head w) (total_bytes w));;
    set_blocking ses;; mret false
  else read_lost mbox ses ret;; mret false.

(** One [recv] of the body, [remain] bytes of which are missing: how many are then, or
    that it goes on later. *)
Definition read_step (mbox ses remain : Z) : M St (Z + bool) :=
  if remain <=? 0 then mret (inr true) else
  s ← get_session ses;
  let packet_index := loc_element (ses_read s) in
  let byte_index := loc_byte (ses_read s) in
  msg ← reading ses;
  when (Z.of_nat (length msg) <=? packet_index)
    (fatal_if (negb (byte_index =? 0));;
     msg ← Message_add_scat_element msg; set_reading ses msg);;
  let to_read := Z.min (sizeof_packet_body - byte_index) remain in
  ret ← recv_element mbox ses packet_index byte_index to_read;
  if ret =? to_read then
    advance ses (fun w =>
      mk_location (loc_element w + 1) 0 (in_mess_head w) (total_bytes w + ret));;
    mret (inl (remain - ret))
  else if 0 <? ret then
    advance ses (fun w =>
      mk_location (loc_element w) (loc_byte w + ret) (in_mess_head w) (total_bytes w + ret));;
    set_blocking ses;; mret (inr false)
  else read_lost mbox ses ret;; mret (inr false).

Definition read_body (mbox ses : Z) : M St bool :=
  ext_do (ioctl_FIONBIO mbox true);;
  msg ← reading ses;
  h ← Message_get_message_header msg;
  s ← get_session ses;
  let remain := data_len h + MAX_GROUP_NAME * num_groups h - total_bytes (ses_read s) in
  while_fuel (S (Z.to_nat remain)) (read_step mbox ses) remain.

(** ** The policy *)

Definition Sess_get_p2p_dests (num_groups : Z) (groups : list Z) : list (list Z) :=
  filter (fun g => default 0 (g !! O) = 35)
    (map (target_at groups) (zrange 0 (num_groups - 1))).

Definition Sess_create_reject_message (msg : scatter) : M St scatter :=
  h ← Message_get_message_header msg;
  let old_type := mh_type h in
  let t := Set_endian REJECT_MESS in
  let t := if Is_self_discard old_type then Z.lor t SELF_DISCARD else t in
  msg ← set_message_header msg (h <| mh_type := i32 t |>);
  Message_add_oldtype_to_reject msg old_type.

(** The message goes back, with the type [t]. *)
Definition reject (msg : scatter) (t : Z) : M St unit :=
  h ← Message_get_message_header msg;
  msg ← set_message_header msg (h <| mh_type := t |>);
  msg ← Sess_create_reject_message msg;
  C_deliver_message msg.

Definition first_group (msg : scatter) : M St (list Z) :=
  g ← Message_get_first_group msg; mret (buf_get g 0 MAX_GROUP_NAME).
Definition refused_leave (ops : acp_ops) (h : message_header) (msg : scatter) : M St bool :=
  if negb (Is_leave_mess (mh_type h)) then mret false else
  g ← first_group msg; mret (negb (leave_group ops (private_group_name h) g)).
Definition refused_join (ops : acp_ops) (h : message_header) (msg : scatter) : M St bool :=
  if negb (Is_join_mess (mh_type h)) then mret false else
  g ← first_group msg;
  local ← gets (G_get_num_local g);
  mret ((local =? MAX_LOCAL_GROUP_MEMBERS) || negb (join_group ops (private_group_name h) g)).
Definition refused_send (ops : acp_ops) (h : message_header) (msg : scatter) : M St bool :=
  if negb (Is_only_regular_mess (mh_type h)) then mret false else
  groups ← Message_get_groups_array msg;
  let n := num_groups h in
  let dests := Sess_get_p2p_dests n groups in
  let hint16 := i16 (Z.land (Z.shiftr (hint h) 8) 0x0000ffff) in
  let t := mh_type h in
  let user := private_group_name h in
  mret ((bool_decide (dests <> []) && negb (p2p_send ops user dests t hint16)) ||
    ((Z.of_nat (length dests) <? n) &&
     negb (mcast_send ops user (map (target_at groups) (zrange 0 (n - 1))) t hint16))).

(** [Some t] is a message that is refused, with the type it is then given. *)
Definition access_check (ses : Z) (msg : scatter) : M St (option Z) :=
  h ← Message_get_message_header msg;
  let t := mh_type h in
  s ← get_session ses;
  ops ← or_fail Undefined (ses_acp_ops s);
  no ← refused_leave ops h msg;
  if no : bool then mret (Some (Z.lor (Z.land t (Z.lnot LEAVE_MESS)) CAUSED_BY_LEAVE)) else
  no ← refused_join ops h msg;
  if no : bool then mret (Some (Z.lor (Z.land t (Z.lnot JOIN_MESS)) CAUSED_BY_JOIN)) else
  no ← refused_send ops h msg;
  mret (if no : bool then Some t else None).

(** ** The message *)

(** The message goes to the protocol; a disconnection ends the session here already.
    [Message_kill_mess_fixup], called for one, changes nothing. *)
Definition queue_message (mbox ses : Z) (msg : scatter) : M St unit :=
  h ← Message_get_message_header msg;
  let type := Message_get_packet_type (mh_type h) in
  if type =? -1 then Sess_kill mbox else
  down ← Prot_Create_Down_Link type msg;
  when (Is_kill_mess (mh_type h))
    (s ← get_session ses;
     ext_do (Log_sess_disconnect (ses_mbox s) (Z.of_nat (length (ses_queue s))));;
     Sess_clear_session ses);;
  Prot_new_message down.

(** What becomes of a message that is whole. *)
Definition submit_message (mbox ses : Z) (msg : scatter) : M St unit :=
  refused ← access_check ses msg;
  match refused with
  | Some t => reject msg t
  | None => queue_message mbox ses msg
  end.

Definition message_read (mbox ses : Z) : M St unit :=
  set_blocking ses;;
  msg ← reading ses;
  update_session ses (fun s => s <| ses_read := mk_location 0 0 1 0 |> <| ses_read_mess := None |>);;
  msg ← Message_element_len_fixup msg;
  submit_message mbox ses msg.

Definition Sess_read (mbox : Z) : M St unit :=
  ses ← gets (Sess_get_session_index mbox);
  if (ses <? 0) || (MAX_SESSIONS <=? ses) then mret tt else
  s ← get_session ses;
  when (bool_decide (ses_read_mess s = None)) (set_reading ses Message_new_message);;
  ext_do (ioctl_FIONBIO mbox true);;
  ok ← (if in_mess_head (ses_read s) =? 1 then read_header mbox ses else mret true);
  if negb ok then mret tt else
  complete ← read_body mbox ses;
  when complete (message_read mbox ses).
End SessRead.
