(* ===== verification/SessFrames.v ===== *)
(** * What the session layer leaves alone

    Writing to clients changes neither the protocol ([lower]) nor the groups
    ([groups_part]) and the state of their algorithm ([gate]); the groups' handlers change the groups, and the protocol only
    through its down queues, the delivery threshold and the token that is
    hurried. *)

From S2P Require Import Prelude NetTypes Configuration State Network SessionLayer Delivery Send Machine.
From S2P Require Import Stdutil Message SessState Sessions Acm SessAuth SessAccept Groups.
From S2P Require Import GroupsMess GroupsHandle GroupsMemb SessionC.

Section Frames.
Context {L : SpuLib} {R : SessLib} {U : Stdutil}.

(** The variables of groups.c. *)
Definition groups_part (x : sess_st) :=
  ((Num_groups x, gs_num_groups x, Cn_active x, GroupsList x, MySyncedSet x),
   (Gstate x, Trans_memb x, G_Trans_memb_id x, Reg_memb x, Reg_memb_id x),
   (Groups_bufs x, Groups_bufs_fresh x, Num_mess_gathered x, Num_daemons_gathered x,
    Gathered_complete x, Gathered x)).
(** What goes with the state of the groups algorithm: the delivery threshold, the
    down queue in use, and the threshold on the clients' events. *)
Definition gate (s : St) := (Gstate (sess s), gs_gstate s, Prot_delivery_threshold s,
  Down_queue_ptr s, Session_threshold (sess s)).

(** What the table of sessions has of the session [j]; all of it is there when each
    [j] below [MAX_SESSIONS] has it.  [None] looks at nothing. *)
Definition table_of (x : sess_st) (j : Z) :=
  ((Num_sessions x, Sessions_sorted x, Sessions_hash x, Sessions_free x),
   (ses_name (session_at x j), ses_mbox (session_at x j))).
Definition slot (o : option Z) (s : St) := (fun j => table_of (sess s) j) <$> o.

(** What the handlers leave alone: the protocol and the membership's timers; what all
    but the changes of state leave alone; and what a write to a client leaves alone:
    the groups as well.  All but the end of a session leave its slot alone. *)
Definition below_at o (s : St) := (lower s, armed s, slot o s).
Definition beside_at o (s : St) := (lower s, armed s, gate s, slot o s).
Definition above_at o (s : St) := (lower s, armed s, gate s, groups_part (sess s), slot o s).

(** Calls that arm no timer of the membership. *)
Lemma frame_call_above o c : (forall t, arm t c = t) -> frame (above_at o) (ext_call c).
Proof.
  intros H s a s' [= _ <-]. unfold above_at, armed. rec_simpl_in_goal. rewrite foldl_app.
  cbn [foldl]. by rewrite H.
Qed.
Lemma frame_do_above o c : (forall t, arm t c = t) -> frame (above_at o) (ext_do c).
Proof. intros H. apply frame_bind; [by apply frame_call_above|]. intros. apply frame_ret. Qed.
Lemma frame_queue_above o e t : (forall x, set_timer e true x = x) -> frame (above_at o) (e_queue e t).
Proof. intros H. apply frame_bind; [apply frame_gets|]. intros. by apply frame_do_above. Qed.
Lemma beside_of_above {A} o (m : M St A) : frame (above_at o) m -> frame (beside_at o) m.
Proof. apply (frame_compose (above_at o) (fun t => (t.1.1, t.2))). Qed.
Lemma below_of_beside {A} o (m : M St A) : frame (beside_at o) m -> frame (below_at o) m.
Proof. apply (frame_compose (beside_at o) (fun t => (t.1.1, t.2))). Qed.
Lemma below_of_above {A} o (m : M St A) : frame (above_at o) m -> frame (below_at o) m.
Proof. intros H. by apply below_of_beside, beside_of_above. Qed.
Lemma gate_of_beside {A} o (m : M St A) : frame (beside_at o) m -> frame gate m.
Proof. apply (frame_compose (beside_at o) (fun t => t.1.2)). Qed.
Lemma groups_of_above {A} o (m : M St A) :
  frame (above_at o) m -> frame (fun s => groups_part (sess s)) m.
Proof. apply (frame_compose (above_at o) (fun t => t.1.2)). Qed.
Lemma slot_of_below {A} o (m : M St A) : frame (below_at o) m -> frame (slot o) m.
Proof. apply (frame_compose (below_at o) (fun t => t.2)). Qed.

(** An update that is none of the slot looked at. *)
Lemma slot_update o ses g :
  o <> Some ses \/ (forall x, ses_name (g x) = ses_name x /\ ses_mbox (g x) = ses_mbox x) ->
  frame (above_at o) (update_session ses g).
Proof.
  intros H. unfold update_session, gset. apply frame_bind; [apply frame_undef_if|]. intros _.
  apply frame_modify. intros s. unfold above_at. f_equal.
  destruct o as [j|]; [|done]. cbn [slot fmap option_fmap option_map]. f_equal.
  unfold table_of. f_equal. unfold session_at, sess, with_sess. rec_simpl_in_goal.
  destruct (decide (j = ses)) as [->|Hj]; [|by rewrite lookup_total_insert_ne].
  rewrite lookup_total_insert_eq.
  destruct H as [[]|H]; [done|].
  match goal with |- (ses_name (g ?x), _) = _ => by destruct (H x) as [-> ->] end.
Qed.
End Frames.

Abbreviation above := (above_at None).
Abbreviation beside := (beside_at None).
Abbreviation below_groups := (below_at None).

#[export] Hint Extern 1 (frame (above_at _) (gget _)) => apply frame_gets : frame.
#[export] Hint Extern 1 (frame (beside_at _) (gget _)) => apply frame_gets : frame.
#[export] Hint Extern 1 (frame (below_at _) (gget _)) => apply frame_gets : frame.
#[export] Hint Extern 1 (frame (above_at _) (gset _)) => apply frame_modify; reflexivity : frame.
#[export] Hint Extern 1 (frame (beside_at _) (gset _)) => apply frame_modify; reflexivity : frame.
#[export] Hint Extern 1 (frame (below_at _) (gset _)) => apply frame_modify; reflexivity : frame.
#[export] Hint Extern 1 (frame (above_at _) (ext_call _)) => apply frame_call_above; by intros [] : frame.
#[export] Hint Extern 1 (frame (above_at _) (ext_do _)) => apply frame_do_above; by intros [] : frame.
#[export] Hint Extern 1 (frame (above_at _) (e_dequeue _)) => apply frame_do_above; by intros [] : frame.
#[export] Hint Extern 1 (frame (above_at _) (e_queue _ _)) => apply frame_queue_above; by intros [] : frame.

#[export] Hint Extern 1 (frame (above_at _) (update_session _ _)) =>
  apply slot_update; first [by right | by left] : frame.

Section Writes.
Context {L : SpuLib} {R : SessLib} {U : Stdutil} (o : option Z).

(** ** Messages keep no state. *)

Lemma element0_frame {T} (f : St -> T) m : frame f (element0 m).
Proof. unfold element0. solve_frame. Qed.
Hint Resolve element0_frame : frame.
Lemma get_header_frame {T} (f : St -> T) m : frame f (Message_get_message_header m).
Proof. unfold Message_get_message_header. solve_frame. Qed.
Lemma set_header_frame {T} (f : St -> T) m h : frame f (set_message_header m h).
Proof. unfold set_message_header. solve_frame. Qed.
Hint Resolve get_header_frame set_header_frame : frame.
Lemma create_message_frame {T} (f : St -> T) t n : frame f (Message_create_message t n).
Proof. apply set_header_frame. Qed.
Lemma endian_correct_frame {T} (f : St -> T) m :
  frame f (Message_endian_correct_message_header m).
Proof. unfold Message_endian_correct_message_header. solve_frame. Qed.
Lemma first_data_frame {T} (f : St -> T) m : frame f (Message_get_first_data_ptr m).
Proof. unfold Message_get_first_data_ptr. solve_frame. Qed.
Lemma first_len_frame {T} (f : St -> T) m : frame f (Message_get_first_data_len m).
Proof. unfold Message_get_first_data_len. solve_frame. Qed.
Lemma first_group_frame {T} (f : St -> T) m : frame f (Message_get_first_group m).
Proof. unfold Message_get_first_group. solve_frame. Qed.
Lemma groups_array_frame {T} (f : St -> T) m : frame f (Message_get_groups_array m).
Proof. unfold Message_get_groups_array, gather_step. solve_frame. Qed.
Lemma fragments_frame {T} (f : St -> T) m b n :
  frame f (Message_Buffer_to_Message_Fragments m b n).
Proof. unfold Message_Buffer_to_Message_Fragments. solve_frame. Qed.
Lemma private_names_frame {T} (f : St -> T) n : frame f (G_private_to_names n).
Proof. unfold G_private_to_names. solve_frame. Qed.
Hint Resolve create_message_frame endian_correct_frame first_data_frame first_len_frame
  first_group_frame groups_array_frame fragments_frame private_names_frame : frame.

(** ** Sessions *)

Lemma get_session_above ses : frame (above_at o) (get_session ses).
Proof. unfold get_session. solve_frame. Qed.
Hint Resolve get_session_above : frame.
Lemma set_active_above : frame (above_at o) Sess_set_active_threshold.
Proof. unfold Sess_set_active_threshold. solve_frame. Qed.
Hint Resolve set_active_above : frame.
Lemma block_above : frame (above_at o) Sess_block_users_level.
Proof. cbn. solve_frame. Qed.
Lemma unblock_above : frame (above_at o) Sess_unblock_users_level.
Proof. cbn. solve_frame. Qed.
Hint Resolve block_above unblock_above : frame.
Lemma clear_session_above ses : frame (above_at o) (Sess_clear_session ses).
Proof. unfold Sess_clear_session. solve_frame. Qed.

Lemma Net_ucast_above p h els : frame (above_at o) (Net_ucast p h els).
Proof. unfold Net_ucast. solve_frame. Qed.
Lemma resend_last_token_above : frame (above_at o) resend_last_token.
Proof. unfold resend_last_token, Net_send_token, check_token_len. solve_frame. Qed.
Lemma I_lead_above : frame (above_at o) I_lead.
Proof. unfold I_lead, leader_of. solve_frame. Qed.
Hint Resolve Net_ucast_above resend_last_token_above I_lead_above : frame.
Lemma Handle_hurry_above h : frame (above_at o) (Handle_hurry h).
Proof. unfold Handle_hurry, Prot_token_hurry. solve_frame. Qed.
Hint Resolve Handle_hurry_above clear_session_above : frame.
Lemma Prot_new_message_above l : frame (above_at o) (Prot_new_message l).
Proof.
  unfold Prot_new_message, send_hurry, get_down_queue, set_down_queue, leader_of. solve_frame.
Qed.
Hint Resolve Prot_new_message_above : frame.
Lemma Sess_kill_above m : frame (above_at o) (Sess_kill m).
Proof. unfold Sess_kill, Prot_Create_Down_Link. solve_frame. Qed.
Lemma send_elements_above m els n : frame (above_at o) (send_elements m els n).
Proof. revert n. induction els; intros n; cbn [send_elements]; solve_frame. Qed.
Hint Resolve Sess_kill_above send_elements_above : frame.
Lemma send_message_above m msg : frame (above_at o) (send_message m msg).
Proof. unfold send_message. solve_frame. Qed.
Lemma badger_elements_above m els i n : frame (above_at o) (badger_elements m els i n).
Proof. revert i n. induction els; intros i n; cbn [badger_elements]; solve_frame. Qed.
Hint Resolve send_message_above badger_elements_above : frame.
Lemma badger_message_above m ses msg : frame (above_at o) (badger_message m ses msg).
Proof. unfold badger_message. solve_frame. Qed.
Hint Resolve badger_message_above : frame.
Lemma badger_queue_above m ses q : frame (above_at o) (badger_queue m ses q).
Proof. induction q; cbn [badger_queue]; solve_frame. Qed.
Hint Resolve badger_queue_above : frame.
Lemma do_badger_above m : frame (above_at o) (do_badger m).
Proof. unfold do_badger. solve_frame. Qed.
Hint Resolve do_badger_above : frame.
Lemma Sess_write_above ses msg n : frame (above_at o) (Sess_write ses msg n).
Proof. unfold Sess_write. solve_frame. Qed.
Hint Resolve Sess_write_above : frame.

(** ** Messages to the members *)

Lemma message_of_above h b : frame (above_at o) (message_of h b).
Proof. unfold message_of. solve_frame. Qed.
Lemma write_member_above msg mbox n : frame (above_at o) (write_member msg mbox n).
Proof. unfold write_member. solve_frame. Qed.
Hint Resolve message_of_above write_member_above : frame.
Lemma lightweight_above grp c n : frame (above_at o) (G_send_lightweight_memb grp c n).
Proof. unfold G_send_lightweight_memb. solve_frame. Qed.
Lemma self_leave_above grp ses : frame (above_at o) (G_send_self_leave grp ses).
Proof. unfold G_send_self_leave. solve_frame. Qed.
Lemma build_vs_above grp c j : frame (above_at o) (G_build_memb_vs_buf grp c j).
Proof. unfold G_build_memb_vs_buf, vs_daemon. solve_frame. Qed.
Hint Resolve build_vs_above : frame.
Lemma heavyweight_above grp j m : frame (above_at o) (G_send_heavyweight_join grp j m).
Proof. unfold G_send_heavyweight_join. solve_frame. Qed.
Lemma send_trans_above grp : frame (above_at o) (G_send_trans_memb grp).
Proof. unfold G_send_trans_memb, G_build_trans_mess. solve_frame. Qed.
Hint Resolve lightweight_above self_leave_above heavyweight_above send_trans_above : frame.
Lemma heavyweight_memb_above grp : frame (above_at o) (G_send_heavyweight_memb grp).
Proof. apply heavyweight_above. Qed.
Lemma send_bufs_above l : frame (above_at o) (send_groups_bufs l).
Proof.
  induction l as [|b [|b' l] IH]; cbn [send_groups_bufs];
    unfold send_groups_buf, Prot_Create_Down_Link in *; solve_frame.
Qed.
End Writes.

#[export] Hint Resolve element0_frame get_header_frame set_header_frame create_message_frame
  endian_correct_frame first_data_frame first_len_frame first_group_frame groups_array_frame
  fragments_frame private_names_frame : frame.
#[export] Hint Resolve get_session_above set_active_above block_above
  unblock_above clear_session_above Prot_new_message_above Sess_kill_above do_badger_above Sess_write_above lightweight_above
  self_leave_above heavyweight_above heavyweight_memb_above send_trans_above send_bufs_above
  : frame.

(** * What accepting and authenticating a connection leaves alone

    The protocol, the membership's timers and the groups: a connection changes only
    the table of sessions, and what comes before its entry only the session it is
    accepted into. *)

Section AuthFrames.
Context {L : SpuLib} {R : SessLib} (o : option Z).

(** ** acm.c reads its tables. *)

Lemma client_connection_above i : frame (above_at o) (Acm_auth_get_auth_client_connection i).
Proof. unfold Acm_auth_get_auth_client_connection. solve_frame. Qed.
Lemma fill_ops_above : frame (above_at o) Acm_acp_fill_ops.
Proof. unfold Acm_acp_fill_ops. solve_frame. Qed.
Lemma allowed_list_above : frame (above_at o) Acm_auth_get_allowed_list.
Proof. unfold Acm_auth_get_allowed_list. solve_frame. Qed.
Lemma requested_above n names : frame (above_at o) (requested_methods n names).
Proof. revert names. induction n; intros names; cbn [requested_methods]; solve_frame. Qed.
Lemma methods_allowed_above n names : frame (above_at o) (methods_allowed n names).
Proof. revert names. induction n; intros names; cbn [methods_allowed]; solve_frame. Qed.
Lemma ip_allowed_above ip rules : frame (above_at o) (ip_allowed ip rules).
Proof. induction rules; cbn [ip_allowed]; solve_frame. Qed.
Lemma find_user_above nm users : frame (above_at o) (find_user nm users).
Proof. induction users; cbn [find_user]; solve_frame. Qed.
Hint Resolve client_connection_above fill_ops_above allowed_list_above requested_above methods_allowed_above ip_allowed_above find_user_above : frame.
Lemma create_sess_info_above m names : frame (above_at o) (Acm_auth_create_sess_info m names).
Proof. unfold Acm_auth_create_sess_info. solve_frame. Qed.
Lemma by_name_above nm : frame (above_at o) (Acm_auth_get_auth_client_connection_byname nm).
Proof. unfold Acm_auth_get_auth_client_connection_byname. solve_frame. Qed.
Hint Resolve create_sess_info_above by_name_above : frame.
Lemma check_password_above u p : frame (above_at o) (check_password u p).
Proof. unfold check_password, lookup_user. solve_frame. Qed.

(** ** Sockets, and what comes before a session *)

Lemma recv_bytes_above m n : frame (above_at o) (recv_bytes m n).
Proof. unfold recv_bytes. solve_frame. Qed.
Lemma send_byte_above m c : frame (above_at o) (send_byte m c).
Proof. unfold send_byte. solve_frame. Qed.
Hint Resolve recv_bytes_above send_byte_above : frame.
Lemma authorized_above ses : frame (above_at o) (Sess_session_authorized ses).
Proof. unfold Sess_session_authorized. solve_frame. Qed.
Lemma attach_accept_above : frame (above_at o) Sess_attach_accept.
Proof. unfold Sess_attach_accept. solve_frame. Qed.
Lemma detach_accept_above : frame (above_at o) Sess_detach_accept.
Proof. unfold Sess_detach_accept. solve_frame. Qed.
Lemma grow_buffers_above m : frame (above_at o) (grow_buffers m).
Proof. unfold grow_buffers. solve_frame. Qed.
Hint Resolve authorized_above attach_accept_above detach_accept_above grow_buffers_above : frame.
Lemma Sess_accept_above fd u : o <> Some MAX_SESSIONS ->
  frame (above_at o) (Sess_accept fd u).
Proof. intros Hnew. unfold Sess_accept, set_new_session. solve_frame. Qed.
Lemma draw_name_above m : o <> Some MAX_SESSIONS ->
  frame (above_at o) (draw_name m).
Proof. intros Hnew. unfold draw_name, set_new_session. solve_frame. Qed.
Lemma read_name_above m n : o <> Some MAX_SESSIONS ->
  frame (above_at o) (read_name m n).
Proof. intros Hnew. unfold read_name, set_new_session, reject_new. solve_frame. Qed.
Lemma read_version_above m : frame (above_at o) (read_version m).
Proof. unfold read_version, reject_new. solve_frame. Qed.
End AuthFrames.

#[export] Hint Resolve client_connection_above fill_ops_above allowed_list_above
  requested_above methods_allowed_above ip_allowed_above find_user_above
  create_sess_info_above by_name_above check_password_above recv_bytes_above
  send_byte_above authorized_above attach_accept_above detach_accept_above
  grow_buffers_above Sess_accept_above draw_name_above read_name_above read_version_above : frame.

#[export] Hint Extern 1 (None <> Some _) => discriminate : frame.

Section Entering.
Context {L : SpuLib} {R : SessLib}.

(** ** The table of sessions *)

Lemma unhash_above ses : frame above (Sess_unhash_session ses).
Proof. unfold Sess_unhash_session. solve_frame. Qed.
Lemma remove_session_above ses : frame above (Sess_remove_session ses).
Proof. unfold Sess_remove_session. solve_frame. Qed.
Lemma hash_above ses : frame above (Sess_hash_session ses).
Proof. unfold Sess_hash_session. solve_frame. Qed.
Lemma insert_session_above w t : frame above (Sess_insert_new_session w t).
Proof. unfold Sess_insert_new_session, Sess_get_free_session. solve_frame. Qed.
Hint Resolve unhash_above remove_session_above hash_above insert_session_above : frame.
Lemma denied_above ses : frame above (Sess_session_denied ses).
Proof. unfold Sess_session_denied. solve_frame. Qed.
Hint Resolve denied_above : frame.

(** ** Authentication *)

Lemma auth_open_above m info report :
  (forall b, frame above (report b)) -> frame above (auth_open m info report).
Proof.
  intros Hr. destruct m; cbn; [apply Hr| |unfold pword_auth_client_connection; solve_frame].
  unfold ip_auth_client_connection. repeat first [apply Hr | solve [eauto 2 with frame nocore] | frame_step].
Qed.
Lemma auth_decision_above ses info : frame above (Sess_auth_decision ses info).
Proof. unfold Sess_auth_decision. solve_frame. Qed.
Hint Resolve auth_open_above auth_decision_above : frame.
Lemma report_result_above n info b : frame above (report_auth_result n info b).
Proof. revert info b. induction n; intros info b; cbn [report_auth_result]; solve_frame. Qed.
Lemma open_auth_above m info : frame above (open_auth m info).
Proof. apply auth_open_above. intros b. apply report_result_above. Qed.
Hint Resolve report_result_above open_auth_above : frame.
Lemma auth_read_above mbox info : frame above (auth_client_conn_read mbox info).
Proof. unfold auth_client_conn_read, Sess_session_report_auth_result. solve_frame. Qed.
Lemma recv_client_auth_above mbox : frame above (Sess_recv_client_auth mbox).
Proof. unfold Sess_recv_client_auth. solve_frame. Qed.

(** ** Accepting *)

Lemma start_auth_above ses : frame above (start_auth ses).
Proof. unfold start_auth. solve_frame. Qed.
Lemma enter_session_above w : frame above (enter_session w).
Proof. unfold enter_session, new_session. solve_frame. Qed.
Hint Resolve start_auth_above enter_session_above : frame.
Lemma accept_continue_above : frame above C_accept_continue.
Proof. unfold C_accept_continue, new_session, set_new_session, reject_new. solve_frame. Qed.
End Entering.

#[export] Hint Resolve accept_continue_above recv_client_auth_above auth_read_above : frame.
