(* ===== verification/HandlerFrames.v ===== *)
(** * The groups' handlers leave the protocol alone

    Whatever the groups do, the packets, the sequence numbers, the membership, the
    configuration and the membership's timers stay: the session layer the daemon
    has keeps the laws the protocol relies on. *)

From S2P Require Import Prelude NetTypes Configuration State Network SessionLayer Delivery Send.
From S2P Require Import Message Stdutil SessState Sessions Groups GroupsMess.
From S2P Require Import GroupsHandle GroupsMemb SessionC Machine SessFrames.

#[export] Hint Extern 1 (frame (beside_at _) (ext_do _)) =>
  apply beside_of_above, frame_do_above; by intros [] : frame.
#[export] Hint Extern 1 (frame (beside_at _) (ext_call _)) =>
  apply beside_of_above, frame_call_above; by intros [] : frame.
#[export] Hint Extern 1 (frame (beside_at _) (e_dequeue _)) =>
  apply beside_of_above, frame_do_above; by intros [] : frame.
(** What leaves more alone leaves the protocol alone. *)
#[export] Hint Extern 3 (frame (below_at _) _) =>
  apply below_of_beside; solve [eauto 1 with frame nocore] : frame.
#[export] Hint Extern 1 (frame (beside_at _) (update_session _ _)) =>
  apply beside_of_above, slot_update; first [by right | by left] : frame.

Section Below.
Context {L : SpuLib} {R : SessLib} {U : Stdutil} (sl : option Z).

Lemma get_session_beside ses : frame (beside_at sl) (get_session ses).
Proof. apply beside_of_above, get_session_above. Qed.
Lemma Sess_write_beside ses m n : frame (beside_at sl) (Sess_write ses m n).
Proof. apply beside_of_above, Sess_write_above. Qed.
Lemma lightweight_beside grp c n : frame (beside_at sl) (G_send_lightweight_memb grp c n).
Proof. apply beside_of_above, lightweight_above. Qed.
Lemma self_leave_beside grp ses : frame (beside_at sl) (G_send_self_leave grp ses).
Proof. apply beside_of_above, self_leave_above. Qed.
Lemma heavyweight_beside grp j m : frame (beside_at sl) (G_send_heavyweight_join grp j m).
Proof. apply beside_of_above, heavyweight_above. Qed.
Lemma heavyweight_memb_beside grp : frame (beside_at sl) (G_send_heavyweight_memb grp).
Proof. apply beside_of_above, heavyweight_memb_above. Qed.
Lemma send_trans_beside grp : frame (beside_at sl) (G_send_trans_memb grp).
Proof. apply beside_of_above, send_trans_above. Qed.
Lemma send_bufs_beside l : frame (beside_at sl) (send_groups_bufs l).
Proof. apply beside_of_above, send_bufs_above. Qed.
Lemma set_active_beside : frame (beside_at sl) Sess_set_active_threshold.
Proof. apply beside_of_above, set_active_above. Qed.
Hint Resolve get_session_beside Sess_write_beside lightweight_beside
  self_leave_beside heavyweight_beside heavyweight_memb_beside send_trans_beside send_bufs_beside
  set_active_beside : frame.

Lemma group_ref_beside n : frame (beside_at sl) (group_ref n).
Proof. unfold group_ref. solve_frame. Qed.
Lemma store_group_beside g : frame (beside_at sl) (store_group g).
Proof. unfold store_group. solve_frame. Qed.
Hint Resolve group_ref_beside store_group_beside : frame.
Lemma for_groups_beside b : (forall g, frame (beside_at sl) (b g)) -> frame (beside_at sl) (for_groups b).
Proof. intros H. unfold for_groups. solve_frame. Qed.
Lemma set_num_groups_beside f : frame (beside_at sl) (set_num_groups_by f).
Proof. unfold set_num_groups_by. solve_frame. Qed.
Lemma remove_daemon_beside cn g d : frame (beside_at sl) (G_remove_daemon cn g d).
Proof. unfold G_remove_daemon. solve_frame. Qed.
Hint Resolve set_num_groups_beside remove_daemon_beside : frame.
Lemma remove_group_beside g : frame (beside_at sl) (G_remove_group g).
Proof. unfold G_remove_group. solve_frame. Qed.
Lemma remove_mailbox_beside g m : frame (beside_at sl) (G_remove_mailbox g m).
Proof. unfold G_remove_mailbox. solve_frame. Qed.
Lemma eliminate_status_beside g : frame (beside_at sl) (G_eliminate_partitioned_daemons_status g).
Proof. unfold G_eliminate_partitioned_daemons_status. solve_frame. Qed.
Hint Resolve remove_group_beside remove_mailbox_beside eliminate_status_beside : frame.
Lemma synced_leader_beside p : frame (beside_at sl) (Is_synced_set_leader p).
Proof. unfold Is_synced_set_leader. solve_frame. Qed.
Lemma merge_sets_beside cn n l r acc : frame (beside_at sl) (merge_sets cn n l r acc).
Proof.
  revert l r acc. induction n as [|n IH]; intros l r acc; cbn [merge_sets]; [apply frame_fail|].
  solve_frame; apply IH.
Qed.
Hint Resolve synced_leader_beside merge_sets_beside : frame.
Lemma add_synced_beside l : frame (beside_at sl) (G_add_to_synced_set l).
Proof. unfold G_add_to_synced_set. solve_frame. Qed.
Hint Resolve add_synced_beside : frame.

(** ** The state exchange *)

Lemma build_bufs_beside x n b it l : frame (beside_at sl) (build_bufs x n b it l).
Proof.
  revert b it l. induction n as [|n IH]; intros b it l; cbn [build_bufs]; [apply frame_fail|].
  destruct (G_build_groups_buf x b it) as [buf it']. destruct it'.1; [apply frame_ret|apply IH].
Qed.
Hint Resolve build_bufs_beside : frame.
Lemma rd_bytes_beside b o n : frame (beside_at sl) (rd_bytes b o n).
Proof. unfold rd_bytes. solve_frame. Qed.
Lemma rd32_beside b c o : frame (beside_at sl) (rd32 b c o).
Proof. unfold rd32. solve_frame. Qed.
Lemma rd16_beside b c o : frame (beside_at sl) (rd16 b c o).
Proof. unfold rd16. solve_frame. Qed.
Hint Resolve rd_bytes_beside rd32_beside rd16_beside : frame.
Lemma rd_memb_id_beside b c o : frame (beside_at sl) (rd_memb_id b c o).
Proof. unfold rd_memb_id. solve_frame. Qed.
Hint Resolve rd_memb_id_beside : frame.
Lemma get_or_create_beside b c o : frame (beside_at sl) (get_or_create b c o).
Proof. unfold get_or_create. solve_frame. Qed.
Hint Resolve get_or_create_beside : frame.
Lemma rd_daemon_beside b c x : frame (beside_at sl) (rd_daemon b c x).
Proof. unfold rd_daemon, rd_members. solve_frame. Qed.
Hint Resolve rd_daemon_beside : frame.
Lemma rd_group_beside b c o : frame (beside_at sl) (rd_group b c o).
Proof. unfold rd_group. solve_frame. Qed.
Hint Resolve rd_group_beside : frame.
Lemma mess_to_groups_beside m ss : frame (beside_at sl) (G_mess_to_groups m ss).
Proof. unfold G_mess_to_groups, rd_synced_set. solve_frame. Qed.
Hint Resolve mess_to_groups_beside : frame.

(** ** Joins, leaves, disconnections *)

Lemma set_gstate_below g : frame (below_at sl) (set_gstate g).
Proof. unfold set_gstate. solve_frame. Qed.
Lemma threshold_below t : frame (below_at sl) (Prot_set_delivery_threshold t).
Proof. unfold Prot_set_delivery_threshold. solve_frame. Qed.
Lemma set_down_queue_below q : frame (below_at sl) (Prot_set_down_queue q).
Proof. by apply frame_modify. Qed.
Hint Resolve set_gstate_below threshold_below set_down_queue_below : frame.
Lemma shift_to_GOP_below : frame (below_at sl) G_shift_to_GOP.
Proof. unfold G_shift_to_GOP. solve_frame. Qed.
Lemma conf_reload_beside : frame (beside_at sl) G_signal_conf_reload.
Proof. unfold G_signal_conf_reload, copy_active_conf. solve_frame. Qed.
Lemma names_of_beside n : frame (beside_at sl) (names_of n).
Proof. unfold names_of. solve_frame. Qed.
Hint Resolve shift_to_GOP_below names_of_beside : frame.
Lemma notify_join_beside g n m : frame (beside_at sl) (notify_join g n m).
Proof. unfold notify_join. solve_frame. Qed.
Lemma joiner_mbox_beside d n : frame (beside_at sl) (joiner_mbox d n).
Proof. unfold joiner_mbox. solve_frame. Qed.
Lemma get_or_new_group_beside n : frame (beside_at sl) (get_or_new_group n).
Proof. unfold get_or_new_group. solve_frame. Qed.
Lemma get_or_new_daemon_beside g p : frame (beside_at sl) (get_or_new_daemon g p).
Proof. unfold get_or_new_daemon. solve_frame. Qed.
Hint Resolve notify_join_beside joiner_mbox_beside get_or_new_group_beside
  get_or_new_daemon_beside : frame.
Lemma handle_join_beside p g : frame (beside_at sl) (G_handle_join p g).
Proof. unfold G_handle_join, do_join. solve_frame. Qed.
Lemma after_departure_beside g c n : frame (beside_at sl) (after_departure g c n).
Proof. unfold after_departure, notify_departure. solve_frame. Qed.
Lemma extract_member_beside cn g d n : frame (beside_at sl) (extract_member cn g d n).
Proof. unfold extract_member. solve_frame. Qed.
Hint Resolve after_departure_beside extract_member_beside : frame.
Lemma handle_leave_beside p g : frame (beside_at sl) (G_handle_leave p g).
Proof. unfold G_handle_leave, do_leave, session_mbox. solve_frame. Qed.
Lemma handle_kill_beside p : frame (beside_at sl) (G_handle_kill p).
Proof.
  unfold G_handle_kill. solve_frame. apply for_groups_beside. intros g.
  unfold kill_in_group, session_mbox. solve_frame.
Qed.
Hint Resolve handle_join_beside handle_leave_beside handle_kill_beside : frame.

(** ** Memberships *)

Lemma trans_groups_beside : frame (beside_at sl) (for_groups trans_in_gop).
Proof. apply for_groups_beside. intros g. unfold trans_in_gop. solve_frame. Qed.
Lemma trans_gather_beside : frame (beside_at sl) (for_groups trans_in_ggather).
Proof. apply for_groups_beside. intros g. unfold trans_in_ggather. solve_frame. Qed.
Hint Resolve trans_groups_beside trans_gather_beside : frame.
Lemma handle_trans_below c m : frame (below_at sl) (G_handle_trans_memb c m).
Proof. unfold G_handle_trans_memb, save_trans. solve_frame. Qed.
Hint Resolve handle_trans_below : frame.
Lemma eliminate_or_remove_beside g k : (forall g, frame (beside_at sl) (k g)) ->
  frame (beside_at sl) (eliminate_or_remove g k).
Proof.
  intros H. unfold eliminate_or_remove, G_eliminate_partitioned_daemons.
  repeat first [solve [eauto 2 with frame nocore]|apply H|frame_step].
Qed.
Lemma build_new_beside : frame (beside_at sl) G_build_new_groups_bufs.
Proof. unfold G_build_new_groups_bufs. solve_frame. Qed.
Hint Resolve build_new_beside : frame.
Lemma send_if_leader_beside m : frame (beside_at sl) m -> frame (beside_at sl) (send_if_leader m).
Proof.
  intros H. unfold send_if_leader, G_send_groups_messages.
  repeat first [solve [eauto 2 with frame nocore]|apply H|frame_step].
Qed.
Lemma new_bufs_beside : frame (beside_at sl) new_bufs.
Proof. unfold new_bufs. solve_frame. Qed.
Hint Resolve new_bufs_beside : frame.
Lemma refresh_bufs_beside : frame (beside_at sl) refresh_bufs.
Proof. unfold refresh_bufs, G_stamp_groups_bufs, G_discard_groups_bufs. solve_frame. Qed.
Hint Resolve refresh_bufs_beside : frame.
Lemma send_new_beside : frame (beside_at sl) (send_if_leader new_bufs).
Proof. apply send_if_leader_beside, new_bufs_beside. Qed.
Lemma send_refreshed_beside : frame (beside_at sl) (send_if_leader refresh_bufs).
Proof. apply send_if_leader_beside, refresh_bufs_beside. Qed.
Lemma reg_subtractive_beside : frame (beside_at sl) (for_groups reg_subtractive).
Proof.
  apply for_groups_beside. intros g. unfold reg_subtractive. frame_step.
  apply eliminate_or_remove_beside. intros. solve_frame.
Qed.
Lemma reg_eliminate_beside : frame (beside_at sl) (for_groups reg_eliminate).
Proof.
  apply for_groups_beside. intros g. unfold reg_eliminate. frame_step.
  apply eliminate_or_remove_beside. intros. solve_frame.
Qed.
Lemma cascade_beside : frame (beside_at sl) (for_groups cascade_eliminate).
Proof. apply for_groups_beside. intros g. unfold cascade_eliminate. solve_frame. Qed.
Hint Resolve send_new_beside send_refreshed_beside reg_subtractive_beside reg_eliminate_beside
  cascade_beside : frame.
Lemma reg_in_gtrans_below : frame (below_at sl) reg_in_gtrans.
Proof. unfold reg_in_gtrans, start_gather. solve_frame. Qed.
Lemma take_gathered_beside f : frame (beside_at sl) (take_gathered f).
Proof. unfold take_gathered, take_messages. solve_frame. Qed.
Lemma reset_gathered_beside : frame (beside_at sl) reset_gathered.
Proof. unfold reset_gathered. solve_frame. Qed.
Hint Resolve take_gathered_beside reset_gathered_beside : frame.
Lemma reg_in_ggt_below : frame (below_at sl) reg_in_ggt.
Proof. unfold reg_in_ggt. solve_frame. Qed.
Hint Resolve reg_in_gtrans_below reg_in_ggt_below : frame.
Lemma handle_reg_below c m : frame (below_at sl) (G_handle_reg_memb c m).
Proof. unfold G_handle_reg_memb, save_reg. solve_frame. Qed.
Lemma compute_and_notify_beside : frame (beside_at sl) G_compute_and_notify.
Proof.
  unfold G_compute_and_notify, G_discard_groups_bufs. solve_frame.
  apply for_groups_beside. intros g. unfold finish_group. solve_frame.
Qed.
Hint Resolve compute_and_notify_beside : frame.
Lemma gather_message_beside h r m : frame (beside_at sl) (gather_message h r m).
Proof. unfold gather_message, note_gathered. solve_frame. Qed.
Hint Resolve gather_message_beside : frame.
Lemma handle_groups_below m : frame (below_at sl) (G_handle_groups m).
Proof.
  unfold G_handle_groups, end_gather. solve_frame.
Qed.
Hint Resolve handle_groups_below : frame.

(** ** Delivery *)

Lemma handle_join_mess_beside m : frame (beside_at sl) (Sess_handle_join m).
Proof. unfold Sess_handle_join. solve_frame. Qed.
Lemma handle_leave_mess_beside m : frame (beside_at sl) (Sess_handle_leave m).
Proof. unfold Sess_handle_leave. solve_frame. Qed.
Lemma target_mboxes_beside t : frame (beside_at sl) (target_mboxes t).
Proof. unfold target_mboxes. solve_frame. Qed.
Hint Resolve handle_join_mess_beside handle_leave_mess_beside target_mboxes_beside : frame.
Lemma deliver_regular_beside m : frame (beside_at sl) (deliver_regular m).
Proof.
  unfold deliver_regular, target_sessions, source_session, G_analize_groups, add_mboxes.
  solve_frame.
Qed.
Hint Resolve deliver_regular_beside : frame.
End Below.

#[export] Hint Resolve get_session_beside names_of_beside handle_join_mess_beside handle_leave_mess_beside handle_kill_beside
  handle_groups_below deliver_regular_beside : frame.

(** ** The end of a session *)

Section Deletion.
Context {L : SpuLib} {R : SessLib} {U : Stdutil}.

Lemma remove_session_beside ses : frame beside (Sess_remove_session ses).
Proof. apply beside_of_above, remove_session_above. Qed.
Lemma unhash_beside ses : frame beside (Sess_unhash_session ses).
Proof. apply beside_of_above, unhash_above. Qed.
Hint Resolve remove_session_beside unhash_beside : frame.
Lemma handle_kill_mess_beside m : frame beside (Sess_handle_kill m).
Proof. unfold Sess_handle_kill, delete_session. solve_frame. Qed.
Hint Resolve handle_kill_mess_beside : frame.
Lemma deliver_message_below m : frame below_groups (C_deliver_message m).
Proof. unfold C_deliver_message. solve_frame. Qed.

(** The timers of the membership are its own. *)
Lemma Session_c_timers : SessionTimers Session_c.
Proof.
  assert (Ht : forall A (m : M St A), frame below_groups m -> frame armed m).
  { intros A m. apply (frame_compose below_groups (fun t => t.1.2)). }
  assert (Hl : forall A (m : M St A), frame below_groups m -> frame lower m).
  { intros A m. apply (frame_compose below_groups (fun t => t.1.1)). }
  split; intros; [apply Ht..| | |].
  - apply deliver_message_below.
  - apply handle_trans_below.
  - apply handle_reg_below.
  - apply below_of_above, block_above.
  - apply below_of_above, unblock_above.
  - apply upcall_mach; [apply Hl|apply Ht]; apply below_of_beside, conf_reload_beside.
  - apply upcall_mach; [apply Hl|apply Ht]; apply below_of_above, do_badger_above.
  - apply upcall_mach; [apply Hl|apply Ht]; apply below_of_above, accept_continue_above.
Qed.
End Deletion.
