(* ===== verification/HandlerStops.v ===== *)
(** * Delivering a message ends

    The loops of the session layer and of the groups run out: the merge of two
    synced sets, the reading of a GROUPS message.  With the frames of
    HandlerFrames.v, the session layer the daemon has keeps the protocol's laws,
    and every theorem on the protocol holds for it. *)

From S2P Require Import Prelude NetTypes Configuration State Network SessionLayer Delivery Send.
From S2P Require Import Message Stdutil SessState Sessions Groups GroupsMess.
From S2P Require Import GroupsHandle GroupsMemb SessionC Machine SessFrames.
From S2P Require Import HandlerFrames MachineRuns Protocol Token DeliveryFacts.

#[export] Hint Extern 1 (stops (gget _)) => apply stops_gets : stops.
#[export] Hint Extern 1 (stops (gset _)) => apply stops_modify : stops.

Section Stops.
Context {L : SpuLib} {R : SessLib} {U : Stdutil}.

Lemma element0_stops m : stops (S:=St) (element0 m).
Proof. unfold element0. solve_stops. Qed.
Hint Resolve element0_stops : stops.
Lemma get_header_stops m : stops (S:=St) (Message_get_message_header m).
Proof. unfold Message_get_message_header. solve_stops. Qed.
Lemma set_header_stops m h : stops (S:=St) (set_message_header m h).
Proof. unfold set_message_header. solve_stops. Qed.
Hint Resolve get_header_stops set_header_stops : stops.
Lemma create_message_stops t n : stops (S:=St) (Message_create_message t n).
Proof. apply set_header_stops. Qed.
Lemma endian_correct_stops m : stops (S:=St) (Message_endian_correct_message_header m).
Proof. unfold Message_endian_correct_message_header. solve_stops. Qed.
Lemma first_data_stops m : stops (S:=St) (Message_get_first_data_ptr m).
Proof. unfold Message_get_first_data_ptr. solve_stops. Qed.
Lemma first_len_stops m : stops (S:=St) (Message_get_first_data_len m).
Proof. unfold Message_get_first_data_len. solve_stops. Qed.
Lemma first_group_stops m : stops (S:=St) (Message_get_first_group m).
Proof. unfold Message_get_first_group. solve_stops. Qed.
Lemma groups_array_stops m : stops (S:=St) (Message_get_groups_array m).
Proof. unfold Message_get_groups_array, gather_step. solve_stops. Qed.
Lemma fragments_stops m b n : stops (S:=St) (Message_Buffer_to_Message_Fragments m b n).
Proof. unfold Message_Buffer_to_Message_Fragments. solve_stops. Qed.
Lemma private_names_stops n : stops (S:=St) (G_private_to_names n).
Proof. unfold G_private_to_names. solve_stops. Qed.
Hint Resolve create_message_stops endian_correct_stops first_data_stops first_len_stops
  first_group_stops groups_array_stops fragments_stops private_names_stops : stops.

(** ** Sessions *)

Lemma get_session_stops ses : stops (get_session ses).
Proof. unfold get_session. solve_stops. Qed.
Lemma update_session_stops ses g : stops (update_session ses g).
Proof. unfold update_session. solve_stops. Qed.
Lemma set_active_stops : stops Sess_set_active_threshold.
Proof. unfold Sess_set_active_threshold. solve_stops. Qed.
Hint Resolve get_session_stops update_session_stops set_active_stops : stops.
Lemma block_stops : stops Sess_block_users_level.
Proof. cbn. solve_stops. Qed.
Lemma unblock_stops : stops Sess_unblock_users_level.
Proof. cbn. solve_stops. Qed.
Lemma clear_session_stops ses : stops (Sess_clear_session ses).
Proof. unfold Sess_clear_session. solve_stops. Qed.
Lemma Net_ucast_stops p h els : stops (Net_ucast p h els).
Proof. unfold Net_ucast. solve_stops. Qed.
Lemma resend_stops : stops resend_last_token.
Proof. unfold resend_last_token, Net_send_token, check_token_len. solve_stops. Qed.
Hint Resolve block_stops unblock_stops clear_session_stops Net_ucast_stops resend_stops
  I_lead_stops : stops.
Lemma Handle_hurry_stops h : stops (Handle_hurry h).
Proof. unfold Handle_hurry, Prot_token_hurry. solve_stops. Qed.
Hint Resolve Handle_hurry_stops : stops.
Lemma Prot_new_message_stops l : stops (Prot_new_message l).
Proof.
  unfold Prot_new_message, send_hurry, get_down_queue, set_down_queue, leader_of. solve_stops.
Qed.
Hint Resolve Prot_new_message_stops : stops.
Lemma Sess_kill_stops m : stops (Sess_kill m).
Proof. unfold Sess_kill, Prot_Create_Down_Link. solve_stops. Qed.
Lemma send_elements_stops m els n : stops (send_elements m els n).
Proof. revert n. induction els; intros n; cbn [send_elements]; solve_stops. Qed.
Lemma badger_elements_stops m els i n : stops (badger_elements m els i n).
Proof. revert i n. induction els; intros i n; cbn [badger_elements]; solve_stops. Qed.
Hint Resolve Sess_kill_stops send_elements_stops badger_elements_stops : stops.
Lemma badger_message_stops m ses msg : stops (badger_message m ses msg).
Proof. unfold badger_message. solve_stops. Qed.
Hint Resolve badger_message_stops : stops.
Lemma badger_queue_stops m ses q : stops (badger_queue m ses q).
Proof. induction q; cbn [badger_queue]; solve_stops. Qed.
Hint Resolve badger_queue_stops : stops.
Lemma do_badger_stops m : stops (do_badger m).
Proof. unfold do_badger. solve_stops. Qed.
Hint Resolve do_badger_stops : stops.
Lemma Sess_write_stops ses msg n : stops (Sess_write ses msg n).
Proof. unfold Sess_write, send_message. solve_stops. Qed.
Hint Resolve Sess_write_stops : stops.

(** ** Messages to the members *)

Lemma message_of_stops h b : stops (message_of h b).
Proof. unfold message_of. solve_stops. Qed.
Lemma write_member_stops msg mbox n : stops (write_member msg mbox n).
Proof. unfold write_member. solve_stops. Qed.
Hint Resolve message_of_stops write_member_stops : stops.
Lemma lightweight_stops grp c n : stops (G_send_lightweight_memb grp c n).
Proof. unfold G_send_lightweight_memb. solve_stops. Qed.
Lemma self_leave_stops grp ses : stops (G_send_self_leave grp ses).
Proof. unfold G_send_self_leave. solve_stops. Qed.
Lemma build_vs_stops grp c j : stops (G_build_memb_vs_buf grp c j).
Proof. unfold G_build_memb_vs_buf, vs_daemon. solve_stops. Qed.
Hint Resolve build_vs_stops : stops.
Lemma heavyweight_stops grp j m : stops (G_send_heavyweight_join grp j m).
Proof. unfold G_send_heavyweight_join. solve_stops. Qed.
Lemma send_trans_stops grp : stops (G_send_trans_memb grp).
Proof. unfold G_send_trans_memb, G_build_trans_mess. solve_stops. Qed.
Hint Resolve lightweight_stops self_leave_stops heavyweight_stops send_trans_stops : stops.
Lemma heavyweight_memb_stops grp : stops (G_send_heavyweight_memb grp).
Proof. apply heavyweight_stops. Qed.
Hint Resolve heavyweight_memb_stops : stops.

(** ** Groups *)

Lemma group_ref_stops n : stops (group_ref n).
Proof. unfold group_ref. solve_stops. Qed.
Lemma store_group_stops g : stops (store_group g).
Proof. unfold store_group. solve_stops. Qed.
Lemma set_num_groups_stops f : stops (set_num_groups_by f).
Proof. unfold set_num_groups_by. solve_stops. Qed.
Lemma remove_daemon_stops cn g d : stops (G_remove_daemon cn g d).
Proof. unfold G_remove_daemon. solve_stops. Qed.
Hint Resolve group_ref_stops store_group_stops set_num_groups_stops remove_daemon_stops : stops.
Lemma for_groups_stops b : (forall g, stops (b g)) -> stops (for_groups b).
Proof. intros H. unfold for_groups. solve_stops. Qed.
Lemma remove_group_stops g : stops (G_remove_group g).
Proof. unfold G_remove_group. solve_stops. Qed.
Lemma remove_mailbox_stops g m : stops (G_remove_mailbox g m).
Proof. unfold G_remove_mailbox. solve_stops. Qed.
Lemma synced_leader_stops p : stops (Is_synced_set_leader p).
Proof. unfold Is_synced_set_leader. solve_stops. Qed.
Hint Resolve remove_group_stops remove_mailbox_stops synced_leader_stops : stops.

(** One element less in every round. *)
Lemma merge_sets_stops cn n l r acc :
  (length l + length r < n)%nat -> stops (merge_sets cn n l r acc).
Proof.
  revert l r acc. induction n as [|n IH]; intros l r acc Hn; [lia|]. intros s. cbn [merge_sets].
  wp_step; [by wp_step|]. wp_step. wp_step; [done|]. wp_step. wp_step; [done|].
  wp_step; [|wp_step; [|by wp_step]].
  - wp_step. wp_step; [done|]. wp_step. wp_step; [done|]. apply IH. destruct l; cbn in *; [done|lia].
  - wp_step. wp_step; [done|]. wp_step. wp_step; [done|]. apply IH. destruct r; cbn in *; [done|lia].
Qed.
Lemma add_synced_stops l : stops (G_add_to_synced_set l).
Proof. unfold G_add_to_synced_set. solve_stops. apply merge_sets_stops. lia. Qed.
Hint Resolve add_synced_stops : stops.

(** ** The state exchange *)

Lemma rd_bytes_stops b o n : stops (rd_bytes b o n).
Proof. unfold rd_bytes. solve_stops. Qed.
Lemma rd32_stops b c o : stops (rd32 b c o).
Proof. unfold rd32. solve_stops. Qed.
Lemma rd16_stops b c o : stops (rd16 b c o).
Proof. unfold rd16. solve_stops. Qed.
Hint Resolve rd_bytes_stops rd32_stops rd16_stops : stops.
Lemma rd_memb_id_stops b c o : stops (rd_memb_id b c o).
Proof. unfold rd_memb_id. solve_stops. Qed.
Hint Resolve rd_memb_id_stops : stops.
Lemma get_or_create_stops b c o : stops (get_or_create b c o).
Proof. unfold get_or_create. solve_stops. Qed.
Hint Resolve get_or_create_stops : stops.

Lemma rd16_nonneg (c : bool) x y : 0 <= (if c then u16 x else u16 y).
Proof. pose proof (u16_range x). pose proof (u16_range y). destruct c; lia. Qed.

(** Reading a daemon, or a group, goes forward. *)
Lemma rd_daemon_forward b c x s :
  wp ends (rd_daemon b c x) (fun y _ => x.2 <= y.2) s.
Proof.
  destruct x as [grp off]. unfold rd_daemon. cbn [snd].
  wp_step. eapply wp_mono; [apply rd32_stops|]. intros pid s1 _.
  wp_step. eapply wp_mono; [apply rd_memb_id_stops|]. intros m s2 _.
  wp_step. eapply wp_mono with (Q := fun n _ => 0 <= n).
  { unfold rd16. wp_step. wp_step; [done|]. wp_step. apply rd16_nonneg. }
  intros n s3 Hn. wp_step. eapply wp_mono with (Q := fun _ _ => True).
  { unfold rd_members. match goal with |- wp _ ?m _ _ => assert (Hs : stops m) by solve_stops end.
    apply Hs. }
  intros l s4 _. wp_step. apply wp_gets. wp_step. cbn [snd].
  unfold GROUPS_BUF_DAEMON_INFO_SIZE, MAX_GROUP_NAME, MAX_PRIVATE_NAME, MAX_PROC_NAME. lia.
Qed.
Lemma rd_group_forward b c off s : wp ends (rd_group b c off) (fun off' _ => off < off') s.
Proof.
  unfold rd_group. wp_step. eapply wp_mono; [apply get_or_create_stops|]. intros grp s1 _.
  wp_step. eapply wp_mono; [apply rd16_stops|]. intros ch s2 _.
  wp_step. eapply wp_mono with (Q := fun n _ => 0 <= n).
  { unfold rd16. wp_step. wp_step; [done|]. wp_step. apply rd16_nonneg. }
  intros n s3 Hn. wp_step.
  eapply wp_for_fold with (I := fun _ x _ => off < x.2).
  - lia.
  - cbn [snd]. unfold sizeof_group_id, MAX_GROUP_NAME, MAX_PRIVATE_NAME, MAX_PROC_NAME. lia.
  - intros i x s4 _ Hx. eapply wp_mono; [apply rd_daemon_forward|]. intros y s5 Hy. cbn in Hy. lia.
  - intros [grp' off'] s4 Hx. wp_step. by repeat wp_step.
Qed.
Lemma rd_synced_forward b c off s : wp ends (rd_synced_set b c off) (fun y _ => off <= y.2) s.
Proof.
  unfold rd_synced_set. wp_step. eapply wp_mono; [apply rd32_stops|]. intros n s1 _.
  wp_step. wp_step; [done|]. wp_step. eapply wp_mono with (Q := fun _ _ => True).
  { match goal with |- wp _ ?m _ _ => assert (Hs : stops m) by solve_stops end. apply Hs. }
  intros l s2 _. wp_step. cbn [snd]. blia.
Qed.
Lemma rd_groups_stops b c (ss : option (list Z)) off : 0 <= off ->
  stops (while_fuel (Datatypes.S (length b)) (fun off =>
    if off <? Z.of_nat (length b) then off ← rd_group b c off; mret (inl off)
    else mret (inr ss)) off).
Proof.
  intros Hoff s. apply wp_while with (I := fun off _ => 0 <= off)
    (mu := fun off => Z.max 0 (Z.of_nat (length b) - off)); [lia|done|].
  intros off1 s1 H1. wp_step; [|by wp_step]. bools_to_props.
  wp_step. eapply wp_mono; [apply rd_group_forward|]. intros off2 s2 H2. wp_step.
  cbn in H1, H2 |- *. lia.
Qed.
Lemma mess_to_groups_stops m ss : stops (G_mess_to_groups m ss).
Proof.
  intros s. unfold G_mess_to_groups. wp_step. wp_step; [done|].
  wp_step. eapply wp_mono; [apply get_header_stops|]. intros h s1 _.
  wp_step. eapply wp_mono; [apply rd_bytes_stops|]. intros flag s2 _.
  wp_step. eapply wp_mono with (Q := fun x _ => 0 <= x.2).
  - wp_step; [|wp_step; cbn [snd]; unfold sizeof_message_header; lia].
    wp_step. eapply wp_mono; [apply rd_synced_forward|]. intros [ids off] s3 Ho. cbn [snd] in Ho.
    wp_step. cbn [snd]. unfold sizeof_message_header in Ho. lia.
  - intros [ss' off] s3 Ho. by apply rd_groups_stops.
Qed.
Hint Resolve mess_to_groups_stops : stops.

(** ** The handlers that a message calls *)

Lemma set_gstate_stops g : stops (set_gstate g).
Proof. unfold set_gstate. solve_stops. Qed.
Lemma threshold_stops t : stops (Prot_set_delivery_threshold t).
Proof. unfold Prot_set_delivery_threshold. solve_stops. Qed.
Lemma set_down_queue_stops q : stops (Prot_set_down_queue q).
Proof. apply stops_modify. Qed.
Hint Resolve set_gstate_stops threshold_stops set_down_queue_stops : stops.
Lemma shift_to_GOP_stops : stops G_shift_to_GOP.
Proof. unfold G_shift_to_GOP. solve_stops. Qed.
Lemma names_of_stops n : stops (names_of n).
Proof. unfold names_of. solve_stops. Qed.
Hint Resolve shift_to_GOP_stops names_of_stops : stops.
Lemma joiner_mbox_stops d n : stops (joiner_mbox d n).
Proof. unfold joiner_mbox. solve_stops. Qed.
Lemma get_or_new_group_stops n : stops (get_or_new_group n).
Proof. unfold get_or_new_group. solve_stops. Qed.
Lemma get_or_new_daemon_stops g p : stops (get_or_new_daemon g p).
Proof. unfold get_or_new_daemon. solve_stops. Qed.
Hint Resolve joiner_mbox_stops get_or_new_group_stops get_or_new_daemon_stops : stops.
Lemma handle_join_stops p g : stops (G_handle_join p g).
Proof. unfold G_handle_join, do_join, notify_join. solve_stops. Qed.
Lemma after_departure_stops g c n : stops (after_departure g c n).
Proof. unfold after_departure, notify_departure. solve_stops. Qed.
Lemma extract_member_stops cn g d n : stops (extract_member cn g d n).
Proof. unfold extract_member. solve_stops. Qed.
Hint Resolve handle_join_stops after_departure_stops extract_member_stops : stops.
Lemma handle_leave_stops p g : stops (G_handle_leave p g).
Proof. unfold G_handle_leave, do_leave, session_mbox. solve_stops. Qed.
Lemma handle_kill_stops p : stops (G_handle_kill p).
Proof.
  unfold G_handle_kill. solve_stops. apply for_groups_stops. intros g.
  unfold kill_in_group, session_mbox. solve_stops.
Qed.
Lemma handle_trans_stops c m : stops (G_handle_trans_memb c m).
Proof.
  unfold G_handle_trans_memb, save_trans.
  solve_stops; apply for_groups_stops; intros g;
    unfold trans_in_gop, trans_in_ggather; solve_stops.
Qed.
Lemma take_gathered_stops f : stops (take_gathered f).
Proof. unfold take_gathered, take_messages. solve_stops. Qed.
Hint Resolve handle_leave_stops handle_kill_stops handle_trans_stops take_gathered_stops : stops.
Lemma compute_and_notify_stops : stops G_compute_and_notify.
Proof.
  unfold G_compute_and_notify, G_discard_groups_bufs, reset_gathered. solve_stops.
  apply for_groups_stops. intros g. unfold finish_group. solve_stops.
Qed.
Hint Resolve compute_and_notify_stops : stops.
Lemma handle_groups_stops m : stops (G_handle_groups m).
Proof. unfold G_handle_groups, gather_message, note_gathered, end_gather. solve_stops. Qed.
Hint Resolve handle_groups_stops : stops.

Lemma delete_session_stops ses : stops (delete_session ses).
Proof. unfold delete_session, Sess_remove_session, Sess_unhash_session. solve_stops. Qed.
Lemma target_mboxes_stops t : stops (target_mboxes t).
Proof. unfold target_mboxes. solve_stops. Qed.
Hint Resolve delete_session_stops target_mboxes_stops : stops.
Lemma deliver_regular_stops m : stops (deliver_regular m).
Proof.
  unfold deliver_regular, target_sessions, source_session, G_analize_groups, add_mboxes.
  solve_stops.
Qed.
Hint Resolve deliver_regular_stops : stops.
Lemma deliver_message_stops m : stops (C_deliver_message m).
Proof.
  unfold C_deliver_message, Sess_handle_join, Sess_handle_leave, Sess_handle_kill. solve_stops.
Qed.
End Stops.

(** ** The laws *)

Section Laws.
Context {L : SpuLib} {R : SessLib} {U : Stdutil}.

Lemma lower_of_below {A} (m : M St A) : frame below_groups m -> frame lower m.
Proof. apply (frame_compose below_groups (fun t => t.1.1)). Qed.

Lemma Session_c_laws : SessionLaws Session_c.
Proof.
  split; intros.
  - intros s. apply wp_stops_frame with (f := lower); [apply deliver_message_stops| |done].
    apply lower_of_below, deliver_message_below.
  - apply lower_of_below, handle_trans_below.
  - apply lower_of_below, handle_reg_below.
  - apply lower_of_below, below_of_above, block_above.
  - intros s. apply wp_stops_frame with (f := lower); [apply unblock_stops| |done].
    apply lower_of_below, below_of_above, unblock_above.
  - apply frame_wp. cbn. unfold Sess_set_active_threshold, gget, gset. solve_frame.
Qed.
End Laws.
