(* ===== verification/SklFacts.v ===== *)
(** * Updates of sorted lists by key

    [adjust k f l] does to the element with the key [k] what [f] says, of the
    element or of its absence; it is what searching, inserting, writing through a
    pointer and erasing come to.  Its elements are those of other keys and what [f]
    gives. *)

From S2P Require Import Prelude Stdutil.
From Stdlib Require Import Sorted.

Section Adjust.
Context {K A : Type} (cmp : K -> K -> Z) (key : A -> K) `{!KeyOrder cmp}.
Implicit Types (l : list A) (f : option A -> option A).

Definition lookup_key (k : K) l : option A := i ← skl_find cmp key k l; l !! i.

Definition adjust (k : K) f l : list A :=
  match skl_find cmp key k l with
  | Some i =>
      match f (l !! i) with Some y => <[i := y]> l | None => delete i l end
  | None => match f None with Some y => skl_insert cmp key y l | None => l end
  end.

Lemma skl_sorted_lookup l i j x y :
  skl_sorted cmp key l -> l !! i = Some x -> l !! j = Some y -> cmp (key x) (key y) = 0 -> i = j.
Proof.
  intros Hs Hi Hj E.
  pose proof (skl_find_lookup cmp key l j y (key x) Hs Hj E) as H1.
  pose proof (skl_find_lookup cmp key l i x (key x) Hs Hi (cmp_refl _)) as H2. congruence.
Qed.

Lemma lookup_key_Some l k y : skl_sorted cmp key l ->
  lookup_key k l = Some y <-> y ∈ l /\ cmp k (key y) = 0.
Proof.
  intros Hs. unfold lookup_key. split.
  - destruct (skl_find cmp key k l) as [i|] eqn:E; [|done]. cbn. intros Hi.
    apply skl_find_Some in E as (z & Hz & Ez). replace y with z by congruence.
    split; [by eapply list_elem_of_lookup_2|done].
  - intros [(i & Hi)%list_elem_of_lookup E]. by rewrite (skl_find_lookup cmp key l i y k Hs Hi E).
Qed.
Lemma lookup_key_None l k : lookup_key k l = None <-> fresh cmp key k l.
Proof.
  unfold lookup_key. rewrite <-(skl_find_None cmp key).
  destruct (skl_find cmp key k l) as [i|] eqn:E; [|done]. cbn. split; [|done].
  apply skl_find_Some in E as (z & Hz & _). congruence.
Qed.

Lemma sorted_lookup_lt l i j x y : skl_sorted cmp key l ->
  l !! i = Some x -> l !! j = Some y -> (i < j)%nat -> cmp (key x) (key y) < 0.
Proof.
  unfold skl_sorted. intros Hs. revert i j. induction Hs as [|z l Hs IH Hall]; intros i j Hi Hj Hij.
  { done. }
  destruct i as [|i], j as [|j]; try lia; cbn in Hi, Hj.
  - injection Hi as ->. rewrite Forall_lookup in Hall. by apply (Hall j).
  - apply (IH i j Hi Hj). lia.
Qed.

(** The keys [f] may give. *)
Definition keeps_key (k : K) f l : Prop :=
  forall y, f (lookup_key k l) = Some y -> cmp k (key y) = 0.

Lemma adjust_sorted k f l :
  skl_sorted cmp key l -> keeps_key k f l -> skl_sorted cmp key (adjust k f l).
Proof.
  intros Hs Hk. unfold adjust, keeps_key, lookup_key in *.
  destruct (skl_find cmp key k l) as [i|] eqn:E; cbn in Hk.
  - destruct (skl_find_Some _ _ _ _ _ E) as (z & Hz & Ez).
    destruct (f (l !! i)) as [y|] eqn:Ef; [|by apply skl_sorted_delete].
    specialize (Hk y eq_refl).
    replace (<[i := y]> l) with (alter (fun _ => y) i l).
    + apply skl_sorted_alter; [done| |done]. intros w Hw. replace w with z by congruence.
      apply (cmp_sym0 cmp) in Ez. pose proof (cmp_trans (cmp:=cmp) (key z) k (key y)).
      pose proof (cmp_trans (cmp:=cmp) (key y) k (key z)). apply (cmp_sym0 cmp) in Hk as Hk'.
      apply (cmp_sym0 cmp) in Ez as Ez'. pose proof (cmp_anti (cmp:=cmp) (key y) (key z)).
      pose proof (cmp_anti (cmp:=cmp) (key z) (key y)). lia.
    + apply list_eq. intros j. destruct (decide (j = i)) as [->|Hj].
      * rewrite list_lookup_alter_eq, list_lookup_insert_eq by (by eapply lookup_lt_Some).
        by rewrite Hz.
      * by rewrite list_lookup_alter_ne, list_lookup_insert_ne.
  - destruct (f None) as [y|] eqn:Ef; [|done]. specialize (Hk y eq_refl).
    apply skl_insert_sorted; [done..|]. apply skl_find_None in E. unfold fresh in *.
    eapply Forall_impl; [apply E|]. intros w Hw Hy. apply Hw.
    pose proof (cmp_trans (cmp:=cmp) k (key y) (key w)).
    pose proof (cmp_trans (cmp:=cmp) (key w) (key y) k). apply (cmp_sym0 cmp) in Hk as Hk'.
    apply (cmp_sym0 cmp) in Hy as Hy'. pose proof (cmp_anti (cmp:=cmp) k (key w)).
    pose proof (cmp_anti (cmp:=cmp) (key w) k). lia.
Qed.

Lemma elem_of_delete_iff l i y : y ∈ delete i l <-> exists j, j <> i /\ l !! j = Some y.
Proof.
  rewrite list_elem_of_lookup. split.
  - intros [j Hj]. destruct (decide (j < i)%nat) as [Hlt|Hge].
    + rewrite list_lookup_delete_lt in Hj by done. exists j. split; [lia|done].
    + rewrite list_lookup_delete_ge in Hj by lia. exists (S j). split; [lia|done].
  - intros (j & Hne & Hj). destruct (decide (j < i)%nat) as [Hlt|Hge].
    + exists j. by rewrite list_lookup_delete_lt.
    + exists (pred j). rewrite list_lookup_delete_ge by lia. by replace (S (pred j)) with j by lia.
Qed.
Lemma elem_of_insert_iff l i x y : (i < length l)%nat ->
  y ∈ <[i := x]> l <-> y = x \/ exists j, j <> i /\ l !! j = Some y.
Proof.
  intros Hi. rewrite list_elem_of_lookup. split.
  - intros [j Hj]. destruct (decide (j = i)) as [->|Hne].
    + rewrite list_lookup_insert_eq in Hj by done. left. congruence.
    + rewrite list_lookup_insert_ne in Hj by done. right. by exists j.
  - intros [->|(j & Hne & Hj)].
    + exists i. by rewrite list_lookup_insert_eq.
    + exists j. by rewrite list_lookup_insert_ne.
Qed.

Lemma elem_of_adjust k f l y : skl_sorted cmp key l ->
  y ∈ adjust k f l <-> (y ∈ l /\ cmp k (key y) <> 0) \/ f (lookup_key k l) = Some y.
Proof.
  intros Hs. unfold adjust. destruct (skl_find cmp key k l) as [i|] eqn:E.
  - assert (lookup_key k l = l !! i) as Hl by (unfold lookup_key; by rewrite E).
    destruct (skl_find_Some _ _ _ _ _ E) as (z & Hz & Ez). rewrite Hl.
    assert (Hoth : (exists j, j <> i /\ l !! j = Some y) <-> y ∈ l /\ cmp k (key y) <> 0).
    { rewrite list_elem_of_lookup. split.
      - intros (j & Hne & Hj). split; [by exists j|]. intros E0. apply Hne.
        pose proof (skl_find_lookup cmp key l j y k Hs Hj E0). congruence.
      - intros [(j & Hj) Hne]. exists j. split; [|done]. intros ->. congruence. }
    destruct (f (l !! i)) as [x|].
    + rewrite elem_of_insert_iff by (by eapply lookup_lt_Some). rewrite Hoth. split.
      * intros [->|H]; [by right|by left].
      * intros [H|[= ->]]; [by right|by left].
    + rewrite elem_of_delete_iff, Hoth. split; [by left|by intros [?|?]].
  - assert (lookup_key k l = None) as Hl by (unfold lookup_key; by rewrite E). rewrite Hl.
    apply skl_find_None in E. unfold fresh in E. rewrite Forall_forall in E.
    assert (Hin : y ∈ l <-> y ∈ l /\ cmp k (key y) <> 0).
    { split; [|by intros [? _]]. intros Hy. split; [done|by apply E]. }
    destruct (f None) as [x|].
    + rewrite skl_insert_perm, elem_of_cons, <-Hin. split.
      * intros [->|H]; [by right|by left].
      * intros [H|[= ->]]; [by right|by left].
    + rewrite <-Hin. split; [by left|by intros [?|?]].
Qed.

Lemma cmp0_l k k' x : cmp k k' = 0 -> cmp k x = 0 <-> cmp k' x = 0.
Proof.
  intros E. pose proof (cmp_sym0 cmp _ _ E). pose proof (cmp_eq_l cmp k k' x E).
  pose proof (cmp_eq_r cmp k k' x E). pose proof (cmp_anti (cmp:=cmp) x k).
  pose proof (cmp_anti (cmp:=cmp) x k'). lia.
Qed.

(** Looking a key up after an update. *)
Lemma lookup_key_adjust k f l k' : skl_sorted cmp key l -> keeps_key k f l ->
  lookup_key k' (adjust k f l) =
    if cmp k' k =? 0 then f (lookup_key k l) else lookup_key k' l.
Proof.
  intros Hs Hk. pose proof (adjust_sorted k f l Hs Hk) as Hs'.
  apply option_eq. intros y. rewrite lookup_key_Some, elem_of_adjust by done.
  destruct (Z.eqb_spec (cmp k' k) 0) as [E|E].
  - split.
    + intros [[[_ Hn]|H] H2]; [|done]. by apply (cmp0_l _ _ _ E) in H2.
    + intros H. split; [by right|]. apply (cmp0_l _ _ _ E). by apply Hk.
  - rewrite lookup_key_Some by done. split.
    + intros [[[H1 _]|H] H2]; [done|]. exfalso. apply Hk in H. apply E.
      apply (cmp_sym0 cmp) in H2, H. pose proof (cmp0_l _ _ k' H). apply (cmp_sym0 cmp). tauto.
    + intros [H1 H2]. split; [|done]. left. split; [done|]. intros H. apply E.
      apply (cmp_sym0 cmp). apply (cmp_sym0 cmp) in H, H2. by apply (cmp0_l _ _ k' H).
Qed.
Lemma lookup_key_eq k k' l : cmp k k' = 0 -> lookup_key k l = lookup_key k' l.
Proof.
  intros E. unfold lookup_key. assert (skl_find cmp key k l = skl_find cmp key k' l) as ->; [|done].
  induction l as [|y l IH]; cbn; [done|]. rewrite IH.
  pose proof (cmp0_l k k' (key y) E).
  destruct (Z.eqb_spec (cmp k (key y)) 0), (Z.eqb_spec (cmp k' (key y)) 0); tauto.
Qed.

(** Writing the object of an element through its pointer, after an update that left
    the element there. *)
Lemma put_back_insert (same : A -> bool) x x' l :
  same x = true -> Forall (fun y => same y = false) l -> key x' = key x ->
  map (fun y => if same y then x' else y) (skl_insert cmp key x l) = skl_insert cmp key x' l.
Proof.
  intros Hx Hl Ek. assert (Hid : map (fun y => if same y then x' else y) l = l).
  { induction Hl as [|y l Hy Hl IH]; cbn; [done|]. by rewrite Hy, IH. }
  revert Hid. induction Hl as [|y l Hy Hl IH]; cbn; intros Hid; [by rewrite Hx|].
  rewrite Ek. injection Hid as Hy' Hid. destruct (_ <? _); cbn; rewrite ?Hx, Hy, ?IH, ?Hid by done; done.
Qed.
Lemma put_back_lookup (same : A -> bool) i x x' l :
  l !! i = Some x -> same x = true -> (forall j y, l !! j = Some y -> same y = true -> j = i) ->
  map (fun y => if same y then x' else y) l = <[i := x']> l.
Proof.
  intros Hi Hx Hsame. apply list_eq. intros j. rewrite list_lookup_fmap.
  destruct (decide (j = i)) as [->|Hj].
  - rewrite Hi, list_lookup_insert_eq by (by eapply lookup_lt_Some). cbn. by rewrite Hx.
  - rewrite list_lookup_insert_ne by done. destruct (l !! j) as [y|] eqn:E; [|done]. cbn.
    destruct (same y) eqn:Hy; [|done]. exfalso. by apply Hj, (Hsame j y).
Qed.
Lemma put_back_adjust (same : A -> bool) k x x' l :
  skl_sorted cmp key l -> cmp k (key x) = 0 -> key x' = key x -> same x = true ->
  (forall y, same y = true -> cmp (key x) (key y) = 0) ->
  map (fun y => if same y then x' else y) (adjust k (fun _ => Some x) l) =
    adjust k (fun _ => Some x') l.
Proof.
  intros Hs Hk Ek Hx Hsame. unfold adjust. destruct (skl_find cmp key k l) as [i|] eqn:E.
  - destruct (skl_find_Some _ _ _ _ _ E) as (z & Hz & Ez).
    rewrite (put_back_lookup same i x x' (<[i := x]> l)).
    + by rewrite list_insert_insert_eq.
    + apply list_lookup_insert_eq. by eapply lookup_lt_Some.
    + done.
    + intros j y Hj Hy. destruct (decide (j = i)) as [->|Hne]; [done|].
      rewrite list_lookup_insert_ne in Hj by done. exfalso. apply Hne.
      apply (skl_sorted_lookup l j i y z Hs Hj Hz).
      apply (cmp_sym0 cmp), (cmp0_l (key z) (key x)); [|by apply Hsame].
      apply (cmp_sym0 cmp) in Hk. apply (cmp_sym0 cmp). by apply (cmp0_l (key x) k).
  - apply put_back_insert; [done| |done]. apply skl_find_None in E. unfold fresh in E.
    eapply Forall_impl; [apply E|]. intros y Hy. apply not_true_is_false. intros Hs'.
    apply Hy, (cmp0_l k (key x)); [done|]. by apply Hsame.
Qed.
Lemma adjust_same k x l : lookup_key k l = Some x -> adjust k (fun _ => Some x) l = l.
Proof.
  unfold adjust, lookup_key. destruct (skl_find cmp key k l) as [i|]; [|done]. cbn. intros Hi.
  by apply list_insert_id.
Qed.
Lemma adjust_ext k f f' l : f (lookup_key k l) = f' (lookup_key k l) -> adjust k f l = adjust k f' l.
Proof.
  unfold adjust, lookup_key. destruct (skl_find cmp key k l) as [i|]; cbn; by intros ->.
Qed.

Lemma adjust_key_eq k k' f l : cmp k k' = 0 -> adjust k f l = adjust k' f l.
Proof.
  intros E. unfold adjust. assert (skl_find cmp key k l = skl_find cmp key k' l) as ->; [|done].
  induction l as [|y l IH]; cbn; [done|]. rewrite IH.
  pose proof (cmp0_l k k' (key y) E).
  destruct (Z.eqb_spec (cmp k (key y)) 0), (Z.eqb_spec (cmp k' (key y)) 0); tauto.
Qed.
(** Erasing an element that was just written. *)
Lemma adjust_erase_written k x y l : skl_sorted cmp key l ->
  lookup_key k l = Some y -> cmp k (key x) = 0 ->
  adjust k (fun _ => None) (adjust k (fun _ => Some x) l) = adjust k (fun _ => None) l.
Proof.
  intros Hs Hy Hk. pose proof (adjust_sorted k (fun _ => Some x) l Hs) as Hs'.
  assert (Hkeep : keeps_key k (fun _ => Some x) l) by (by intros z [= <-]). specialize (Hs' Hkeep).
  revert Hs'. unfold lookup_key in Hy. unfold adjust at 2 4.
  destruct (skl_find cmp key k l) as [i|] eqn:E; [|done]. cbn in Hy. intros Hs'.
  unfold adjust in Hs' |- *. rewrite E in *.
  rewrite (skl_find_lookup cmp key (<[i := x]> l) i x k Hs'); [|
    apply list_lookup_insert_eq; by eapply lookup_lt_Some|done].
  clear. revert i. induction l as [|z l IH]; intros [|i]; cbn; [done..|]. f_equal. apply IH.
Qed.
Lemma adjust_None_length k y l : lookup_key k l = Some y ->
  Z.of_nat (length (adjust k (fun _ => None) l)) = Z.of_nat (length l) - 1.
Proof.
  unfold lookup_key, adjust. destruct (skl_find cmp key k l) as [i|] eqn:E; [|done]. cbn. intros Hi.
  apply lookup_lt_Some in Hi as Hlt. rewrite (length_delete l i) by (by exists y). lia.
Qed.

(** The sum of a measure over the elements. *)
Definition zsum (g : A -> Z) l : Z := foldr (fun x n => g x + n) 0 l.
Lemma zsum_app g l l' : zsum g (l ++ l') = zsum g l + zsum g l'.
Proof. unfold zsum. induction l; cbn in *; lia. Qed.
Lemma zsum_perm g l l' : l ≡ₚ l' -> zsum g l = zsum g l'.
Proof. unfold zsum. induction 1; cbn in *; lia. Qed.
Lemma zsum_delete g l i x : l !! i = Some x -> zsum g (delete i l) = zsum g l - g x.
Proof. intros H. rewrite (zsum_perm g l (x :: delete i l)) by (by apply delete_Permutation). unfold zsum. cbn. lia. Qed.
Lemma zsum_insert g l i x y : l !! i = Some x -> zsum g (<[i := y]> l) = zsum g l - g x + g y.
Proof.
  unfold zsum. revert i. induction l as [|z l IH]; intros [|i] H; [done..| |].
  - cbn in *. injection H as ->. lia.
  - change (<[Datatypes.S i:=y]> (z :: l)) with (z :: <[i:=y]> l). cbn in H.
    pose proof (IH i H) as E. cbn. rewrite E. lia.
Qed.
Lemma zsum_adjust g k f l :
  zsum g (adjust k f l) = zsum g l - from_option g 0 (lookup_key k l)
    + from_option g 0 (f (lookup_key k l)).
Proof.
  unfold adjust, lookup_key. destruct (skl_find cmp key k l) as [i|] eqn:E; cbn.
  - destruct (skl_find_Some _ _ _ _ _ E) as (z & Hz & _). rewrite Hz. cbn.
    destruct (f (Some z)) as [y|]; cbn.
    + by apply zsum_insert.
    + rewrite (zsum_delete g l i z Hz). lia.
  - destruct (f None) as [y|]; cbn; [|lia].
    rewrite (zsum_perm g _ _ (skl_insert_perm cmp key y l)). unfold zsum. cbn. lia.
Qed.
End Adjust.
