(* ===== verification/GroupsOrder.v ===== *)
(** * The orders of the groups ([groups.c])

    The comparison functions the skip lists are built with are orders, as the lists
    need; the one on membership ids only while the ids are close together. *)

From S2P Require Import Prelude NetTypes Configuration State Message Stdutil SklFacts SessState.
From S2P Require Import Sessions Groups Demo.

Section Orders.
Context {L : SpuLib}.

#[export] Instance nameptr_order : KeyOrder G_compare_nameptr.
Proof. apply strncmp_order. Qed.

Lemma find_index_range {A} (P : A -> bool) l i x : find_index P l = Some (i, x) -> 0 <= i.
Proof.
  revert i x. induction l as [|y l IH]; intros i x; cbn; [done|].
  destruct (P y); [by intros [= <- _]|].
  destruct (find_index P l) as [[j z]|]; [|done]. intros [= <- <-]. pose proof (IH j z eq_refl). lia.
Qed.
Lemma find_index_P {A} (P : A -> bool) l i x : find_index P l = Some (i, x) -> P x = true.
Proof.
  revert i x. induction l as [|y l IH]; intros i x; cbn; [done|].
  destruct (P y) eqn:E; [by intros [= _ <-]|].
  destruct (find_index P l) as [[j z]|] eqn:Ej; [|done]. intros [= _ <-]. by apply (IH j).
Qed.
Lemma find_index_same {A} (P Q : A -> bool) l i x y :
  find_index P l = Some (i, x) -> find_index Q l = Some (i, y) -> x = y.
Proof.
  revert i x y. induction l as [|z l IH]; intros i x y; cbn; [done|].
  destruct (P z), (Q z).
  - congruence.
  - destruct (find_index Q l) as [[j w]|] eqn:E; [|done]. intros [= <- _] [= Hj _].
    pose proof (find_index_range _ _ _ _ E). lia.
  - destruct (find_index P l) as [[j w]|] eqn:E; [|done]. intros [= Hj _] [= <- _].
    pose proof (find_index_range _ _ _ _ E). lia.
  - destruct (find_index P l) as [[j w]|] eqn:E; [|done].
    destruct (find_index Q l) as [[k v]|] eqn:E'; [|done]. intros [= <- <-] [= Hk <-].
    apply (IH j); [done|]. by replace j with k by lia.
Qed.

(** The index of a daemon in the configuration, -1 when it is not in it. *)
Lemma conf_index_cases cn a :
  -1 <= conf_index cn a /\ (forall b, 0 <= conf_index cn a -> conf_index cn a = conf_index cn b -> a = b).
Proof.
  unfold conf_index, Conf_proc_by_id_in_conf. destruct (find_index _ _) as [[i p]|] eqn:E; cbn.
  - pose proof (find_index_range _ _ _ _ E). split; [lia|]. intros b _ Hb.
    destruct (find_index (fun p => id p =? b) _) as [[j q]|] eqn:E'; cbn in Hb; [|lia]. subst j.
    pose proof (find_index_same _ _ _ _ _ _ E E') as ->.
    apply find_index_P in E, E'. lia.
  - split; [lia|]. intros b Hb. lia.
Qed.

Lemma proc_ids_cmp cn a b :
  G_compare_proc_ids_by_conf_internal cn a b =
  (let ia := conf_index cn a in let ib := conf_index cn b in
   if (0 <=? ia) && (0 <=? ib) then ia - ib else if 0 <=? ia then -1 else if 0 <=? ib then 1 else
   if u32 a =? u32 b then 0 else if u32 a <? u32 b then -1 else 1).
Proof.
  unfold G_compare_proc_ids_by_conf_internal. fold (conf_index cn a) (conf_index cn b). cbn zeta.
  pose proof (conf_index_cases cn a) as [Ha _]. pose proof (conf_index_cases cn b) as [Hb _].
  destruct (Z.ltb_spec (-1) (conf_index cn a)), (Z.ltb_spec (-1) (conf_index cn b)),
    (Z.ltb_spec (conf_index cn a) 0), (Z.ltb_spec (conf_index cn b) 0),
    (Z.leb_spec 0 (conf_index cn a)), (Z.leb_spec 0 (conf_index cn b)); cbn; lia.
Qed.

#[export] Instance proc_ids_order cn : KeyOrder (G_compare_proc_ids_by_conf_internal cn).
Proof.
  assert (Hd : forall a, -1 <= conf_index cn a) by (intros a; apply conf_index_cases).
  split; intros; rewrite !proc_ids_cmp; cbn zeta.
  - rewrite Z.eqb_refl. pose proof (Hd x). destruct (0 <=? conf_index cn x); cbn; lia.
  - pose proof (Hd x). pose proof (Hd y). revert H H0.
    generalize (conf_index cn x) (conf_index cn y) (u32 x) (u32 y). intros i j a b Hi Hj.
    destruct (Z.leb_spec 0 i), (Z.leb_spec 0 j); cbn; try lia.
    destruct (Z.eqb_spec a b), (Z.eqb_spec b a), (Z.ltb_spec a b), (Z.ltb_spec b a); lia.
  - revert H H0. rewrite !proc_ids_cmp. cbn zeta.
    pose proof (Hd x). pose proof (Hd y). pose proof (Hd z). revert H H0 H1.
    generalize (conf_index cn x) (conf_index cn y) (conf_index cn z) (u32 x) (u32 y) (u32 z).
    intros i j k a b c Hi Hj Hk.
    destruct (Z.leb_spec 0 i), (Z.leb_spec 0 j), (Z.leb_spec 0 k); cbn; try lia.
    destruct (Z.eqb_spec a b), (Z.eqb_spec b c), (Z.eqb_spec a c), (Z.ltb_spec a b),
      (Z.ltb_spec b c), (Z.ltb_spec a c); lia.
Qed.

Lemma u32_inj a b : is_i32 a -> is_i32 b -> u32 a = u32 b -> a = b.
Proof. intros Ha Hb E. rewrite <-(i32_id a), <-(i32_id b) by done. by rewrite <-(i32_u32 a), E, i32_u32. Qed.

Lemma proc_ids_cmp_0 cn a b : is_i32 a -> is_i32 b ->
  G_compare_proc_ids_by_conf_internal cn a b = 0 <-> a = b.
Proof.
  intros Ha Hb. split; [|intros ->; apply cmp_refl]. rewrite proc_ids_cmp. cbn zeta.
  destruct (conf_index_cases cn a) as [H1 H2].
  destruct (Z.leb_spec 0 (conf_index cn a)), (Z.leb_spec 0 (conf_index cn b)); cbn; try lia.
  - intros E. apply H2; lia.
  - destruct (Z.eqb_spec (u32 a) (u32 b)); [|destruct (u32 a <? u32 b); lia].
    intros _. by apply u32_inj.
Qed.

(** Membership ids whose differences an [int] can hold. *)
Definition close_ids (l : list membership_id) : Prop :=
  forall m n, m ∈ l -> n ∈ l ->
    is_i32 (m_proc_id m - m_proc_id n) /\ is_i32 (m_time m - m_time n).

(** The order of the daemons of a group, of a configuration: by place in it, then
    by address: it is a total order in which only equal ids are equal, whatever
    the configuration. *)
Lemma daemon_order_total (cn : configuration) (a b c : Z) :
  is_i32 a -> is_i32 b ->
  let cmp := G_compare_proc_ids_by_conf_internal cn in
  (cmp a b = 0 <-> a = b) /\ (cmp a b < 0 <-> 0 < cmp b a) /\
  (cmp a b <= 0 -> cmp b c <= 0 -> cmp a c <= 0) /\
  (0 <= conf_index cn a -> conf_index cn b = -1 -> cmp a b < 0).
Proof.
  intros Ha Hb cmp. repeat split.
  - by apply proc_ids_cmp_0.
  - intros ->. apply cmp_refl.
  - apply cmp_anti.
  - apply cmp_anti.
  - apply cmp_trans.
  - intros H1 H2. unfold cmp. rewrite proc_ids_cmp, H2. cbn zeta.
    destruct (Z.leb_spec 0 (conf_index cn a)); cbn; lia.
Qed.

(** The order of membership ids is one on any ids whose differences fit in an [int],
    and never a tie of different known ids. *)
Theorem memb_ids_order (l : list membership_id) (m n o : membership_id) :
  close_ids l -> m ∈ l -> n ∈ l -> o ∈ l ->
  let cmp := G_compare_memb_ids in
  (cmp m n < 0 <-> 0 < cmp n m) /\ (cmp m n <= 0 -> cmp n o <= 0 -> cmp m o <= 0) /\
  (cmp m n = 0 -> m = n \/ (Is_unknown_memb_id m = true /\ Is_unknown_memb_id n = true)).
Proof.
  intros Hc Hm Hn Ho cmp. unfold cmp, G_compare_memb_ids.
  pose proof (Hc m n Hm Hn) as [E1 E2]. pose proof (Hc n m Hn Hm) as [E3 E4].
  pose proof (Hc n o Hn Ho) as [E5 E6]. pose proof (Hc m o Hm Ho) as [E7 E8].
  rewrite !i32_id by done.
  assert (Hneg : forall a b, negb (a =? b) = true <-> a <> b) by (intros; lia).
  destruct m as [p t], n as [q u], o as [r v]; cbn in *.
  destruct (Is_unknown_memb_id (mk_membership_id p t)),
    (Is_unknown_memb_id (mk_membership_id q u)), (Is_unknown_memb_id (mk_membership_id r v));
    repeat split; try lia; try (intros; by right);
    destruct (Z.eqb_spec p q), (Z.eqb_spec q p), (Z.eqb_spec t u), (Z.eqb_spec u t);
    cbn; try lia; try (intros; left; congruence);
    destruct (Z.eqb_spec q r), (Z.eqb_spec p r), (Z.eqb_spec u v), (Z.eqb_spec t v); cbn; lia.
Qed.
End Orders.

Example daemon_order_total_witness :
  G_compare_proc_ids_by_conf_internal demo_conf 3 2 = 0 <-> 3 = 2.
Proof. apply (daemon_order_total demo_conf 3 2 0); vm_compute; split; congruence. Defined.

(** The daemons of the demonstration: addresses 1, 2 and 3. *)
Lemma memb_ids_order_witness :
  let l := [mk_membership_id 1 5; mk_membership_id 2 5; mk_membership_id 2 9] in
  close_ids l /\ G_compare_memb_ids (mk_membership_id 1 5) (mk_membership_id 2 9) <= 0.
Proof.
  cbn zeta. set (l := [_; _; _]). assert (H : close_ids l).
  { unfold close_ids, l. intros m n Hm Hn. rewrite !elem_of_cons, elem_of_nil in Hm, Hn.
    destruct Hm as [-> |[-> |[-> |[]]]], Hn as [-> |[-> |[-> |[]]]]; vm_compute; intuition congruence. }
  split; [exact H|].
  apply (memb_ids_order l (mk_membership_id 1 5) (mk_membership_id 2 5) (mk_membership_id 2 9) H);
    first [by (unfold l; set_solver)|vm_compute; congruence].
Defined.

(** Three daemons of far networks: the order goes round. *)
Definition far_id (a : Z) : membership_id := mk_membership_id (i32 a) 1.
Lemma memb_ids_cycle :
  let a := far_id 0x0a000001 in let b := far_id 0x60000001 in let c := far_id 0xc0000001 in
  0 < G_compare_memb_ids b a /\ G_compare_memb_ids b c < 0 /\ G_compare_memb_ids c a < 0.
Proof. vm_compute. repeat split. Qed.
