(* ===== verification/GroupsSpec.v ===== *)
(** * Who is in which group

    [in_group] reads the membership of the groups off the lists; [groups_ok] is the
    invariant of the lists: sorted, no daemon without members and no group without
    daemons, [num_members] the number of the members and [Num_groups] that of the
    groups.  The lemmas here say what the steps of the handlers do to the list of
    groups; they rest on the laws of the skip lists. *)

From S2P Require Import Prelude NetTypes Configuration State Network SessionLayer Delivery Send.
From S2P Require Import Message Stdutil SklFacts SessState Sessions Groups GroupsMess.
From S2P Require Import GroupsHandle GroupsMemb SessionC Machine SessFrames GroupsOrder.

Abbreviation cmp_name := G_compare_nameptr.
Abbreviation cmp_id := G_compare_proc_ids_by_conf_internal.

Section Spec.
Context {L : SpuLib}.
Implicit Types (cn : configuration) (grp : group) (d : daemon_members).

Definition same_name (a b : list Z) : bool := cmp_name a b =? 0.
Definition same_daemon cn (p q : Z) : bool := cmp_id cn p q =? 0.

Definition group_at (l : list group) (g : list Z) : option group := lookup_key cmp_name g_name g l.
Definition daemon_at cn grp (p : Z) : option daemon_members :=
  lookup_key (cmp_id cn) dm_proc_id p (DaemonsList grp).
Definition member_at d (m : list Z) : option (list Z) :=
  lookup_key cmp_name (fun n => n) m (MembersList d).

(** Is the member [m] of the daemon [p] in the group [g]? *)
Definition has_member cn (o : option daemon_members) (m : list Z) : bool :=
  match o with Some d => bool_decide (is_Some (member_at d m)) | None => false end.
Definition in_daemons cn (o : option group) (p : Z) (m : list Z) : bool :=
  match o with Some grp => has_member cn (daemon_at cn grp p) m | None => false end.
Definition in_group (x : sess_st) (g : list Z) (p : Z) (m : list Z) : bool :=
  in_daemons (Cn_active x) (group_at (GroupsList x) g) p m.

(** ** The invariant *)

Definition members_count d : Z := Z.of_nat (length (MembersList d)).
Record daemon_ok d : Prop := {
  dk_sorted : skl_sorted cmp_name (fun n => n) (MembersList d);
  dk_some : MembersList d <> [] }.
Record group_ok cn grp : Prop := {
  gk_sorted : skl_sorted (cmp_id cn) dm_proc_id (DaemonsList grp);
  gk_daemons : Forall daemon_ok (DaemonsList grp);
  gk_count : g_num_members grp = zsum members_count (DaemonsList grp) }.
Record groups_ok (x : sess_st) : Prop := {
  ok_sorted : skl_sorted cmp_name g_name (GroupsList x);
  ok_groups : Forall (fun grp => group_ok (Cn_active x) grp /\ DaemonsList grp <> []) (GroupsList x);
  ok_count : Num_groups x = Z.of_nat (length (GroupsList x)) }.

Lemma zsum_pos {A} (f : A -> Z) l : Forall (fun x => 0 < f x) l -> l <> [] -> 0 < zsum f l.
Proof.
  unfold zsum. induction 1 as [|x l Hx Hl IH]; [done|]. intros _. cbn.
  destruct l as [|y l]; cbn in *; [lia|]. specialize (IH ltac:(done)). lia.
Qed.
Lemma group_ok_empty cn grp : group_ok cn grp -> g_num_members grp = 0 <-> DaemonsList grp = [].
Proof.
  intros [_ Hd Hc]. rewrite Hc. split; [|by intros ->].
  intros E. destruct (decide (DaemonsList grp = [])) as [|Hne]; [done|]. exfalso.
  enough (0 < zsum members_count (DaemonsList grp)) by lia. apply zsum_pos; [|done].
  eapply Forall_impl; [apply Hd|]. intros d [_ Hm]. unfold members_count.
  destruct (MembersList d); [done|cbn; lia].
Qed.

Context {R : SessLib} {U : Stdutil} {HU : StdutilLaws U}.

(** ** Searches, by the laws of the skip lists *)

Lemma G_get_group_at name s : skl_sorted cmp_name g_name (GroupsList (sess s)) ->
  G_get_group name s = group_at (GroupsList (sess s)) name.
Proof.
  intros Hs. unfold G_get_group, find_group, group_at, lookup_key.
  by rewrite (find_sorted _ _ cmp_name g_name name _ Hs).
Qed.
Lemma G_get_daemon_at cn grp p : skl_sorted (cmp_id cn) dm_proc_id (DaemonsList grp) ->
  G_get_daemon cn grp p = daemon_at cn grp p.
Proof.
  intros Hs. unfold G_get_daemon, find_daemon, daemon_at, lookup_key.
  by rewrite (find_sorted _ _ (cmp_id cn) dm_proc_id p _ Hs).
Qed.
Lemma G_get_member_at d m : skl_sorted cmp_name (fun n => n) (MembersList d) ->
  G_get_member d m = member_at d m.
Proof.
  intros Hs. unfold G_get_member, find_member, member_at, lookup_key.
  by rewrite (find_sorted _ _ cmp_name (fun n => n) m _ Hs).
Qed.

Lemma adjust_put {K A} (cmp : K -> K -> Z) (key : A -> K) `{!KeyOrder cmp} k x l :
  skl_sorted cmp key l -> lookup_key cmp key k l = None -> cmp k (key x) = 0 ->
  stdskl_put cmp key x l = adjust cmp key k (fun _ => Some x) l.
Proof.
  intros Hs Hn Hk. assert (fresh cmp key (key x) l) as Hf.
  { apply lookup_key_None. by rewrite <-(lookup_key_eq cmp key k). }
  rewrite (put_fresh _ _ cmp key x l Hs Hf). unfold adjust.
  apply lookup_key_None, (skl_find_None cmp key) in Hn. by rewrite Hn.
Qed.
Lemma adjust_erase {K A} (cmp : K -> K -> Z) (key : A -> K) `{!KeyOrder cmp} k l i :
  skl_sorted cmp key l -> stdskl_find cmp key k l = Some i ->
  delete i l = adjust cmp key k (fun _ => None) l.
Proof.
  intros Hs Hf. rewrite (find_sorted _ _ cmp key k l Hs) in Hf. unfold adjust. by rewrite Hf.
Qed.

(** ** Reading the membership after an update *)

Lemma in_group_adjust x x' gn f g p m :
  skl_sorted cmp_name g_name (GroupsList x) -> Cn_active x' = Cn_active x ->
  keeps_key cmp_name g_name gn f (GroupsList x) ->
  GroupsList x' = adjust cmp_name g_name gn f (GroupsList x) ->
  in_group x' g p m =
    if same_name g gn then in_daemons (Cn_active x) (f (group_at (GroupsList x) gn)) p m
    else in_group x g p m.
Proof.
  intros Hs Hc Hk E. unfold in_group, group_at, same_name. rewrite Hc, E.
  rewrite (lookup_key_adjust cmp_name g_name gn f _ g Hs Hk). by destruct (_ =? _).
Qed.
Lemma in_group_same x g gn p m : same_name g gn = true ->
  in_group x g p m = in_daemons (Cn_active x) (group_at (GroupsList x) gn) p m.
Proof.
  intros E%Z.eqb_eq. unfold in_group, group_at. by rewrite (lookup_key_eq cmp_name g_name g gn).
Qed.

Lemma in_daemons_adjust cn grp grp' pid f p m :
  skl_sorted (cmp_id cn) dm_proc_id (DaemonsList grp) ->
  keeps_key (cmp_id cn) dm_proc_id pid f (DaemonsList grp) ->
  DaemonsList grp' = adjust (cmp_id cn) dm_proc_id pid f (DaemonsList grp) ->
  in_daemons cn (Some grp') p m =
    if same_daemon cn p pid then has_member cn (f (daemon_at cn grp pid)) m
    else in_daemons cn (Some grp) p m.
Proof.
  intros Hs Hk E. cbn. unfold daemon_at, same_daemon.
  rewrite E, (lookup_key_adjust (cmp_id cn) dm_proc_id pid f _ p Hs Hk).
  by destruct (_ =? _).
Qed.
Lemma in_daemons_same cn grp p pid m : same_daemon cn p pid = true ->
  in_daemons cn (Some grp) p m = has_member cn (daemon_at cn grp pid) m.
Proof.
  intros E%Z.eqb_eq. cbn. unfold daemon_at. by rewrite (lookup_key_eq (cmp_id cn) dm_proc_id p pid).
Qed.

Lemma has_member_adjust cn d d' nm f m :
  skl_sorted cmp_name (fun n => n) (MembersList d) ->
  keeps_key cmp_name (fun n => n) nm f (MembersList d) ->
  MembersList d' = adjust cmp_name (fun n => n) nm f (MembersList d) ->
  has_member cn (Some d') m =
    if same_name m nm then bool_decide (is_Some (f (member_at d nm))) else has_member cn (Some d) m.
Proof.
  intros Hs Hk E. cbn. unfold member_at, same_name.
  rewrite E, (lookup_key_adjust cmp_name (fun n => n) nm f _ m Hs Hk).
  by destruct (_ =? _).
Qed.
End Spec.
