(* ===== verification/GroupsDemo.v ===== *)
(** * A concrete session layer

    The daemon [demo_a] with two clients, "bob" and "al", and two groups: in "rooms" are
    both of them and "eve" of the daemon [demo_b], in "solo" is only bob.  Every
    [send] takes all the bytes. *)

From S2P Require Import Prelude NetTypes Configuration State Network SessionLayer Delivery Send Demo.
From S2P Require Import Message Stdutil SklFacts SessState Sessions Groups GroupsHandle Machine GroupsSpec.

#[export] Remove Hints demo_ext : typeclass_instances.

#[export] Instance demo_sess_lib : SessLib := {|
  returns tr := match last tr with Some (send _ b) => Z.of_nat (length b) | _ => 0 end;
  received _ := []; accepted _ := None; crypt p salt := salt ++ p; MAX_SESSIONS := 100 |}.

Definition demo_name (n : string) : list Z := name_field (str_bytes n).
Definition demo_acp : acp_ops := Permit_ops.
Definition demo_client (n : string) (mbox : Z) : session :=
  mk_session (str_bytes n) (Z.lor MEMB_SESSION OP_SESSION) mbox (mk_location 0 0 1 0) None
    (mk_location 0 0 0 0) [] [5; 0; 1] None 0 (Some demo_acp).

Definition demo_id : membership_id := mk_membership_id 1 1.
Definition rooms : group :=
  mk_group (demo_name "rooms") (mk_group_id demo_id 3) false 3
    [mk_daemon_members 1 demo_id [demo_name "#al#a"; demo_name "#bob#a"];
     mk_daemon_members 2 demo_id [demo_name "#eve#b"]] [8; 7].
Definition solo : group :=
  mk_group (demo_name "solo") (mk_group_id demo_id 1) false 1
    [mk_daemon_members 1 demo_id [demo_name "#bob#a"]] [7].

Definition demo_sess : sess_st := {|
  MaxSessionMessages := 1000; Num_sessions := 2;
  Sessions := list_to_map [(0, demo_client "al" 8); (1, demo_client "bob" 7)];
  Sessions_sorted := [0; 1]; Sessions_hash := list_to_map [(8, [0]); (7, [1])];
  Sessions_free := []; Session_threshold := LOW_PRIORITY; Protocol_threshold := LOW_PRIORITY;
  gs_num_sessions := 2; gs_message_delivered := 0; Num_groups := 2; gs_num_groups := 2;
  Cn_active := demo_conf; Gstate := GOP; Trans_memb := demo_conf; G_Trans_memb_id := demo_id;
  Reg_memb := demo_conf; Reg_memb_id := demo_id; Groups_bufs := []; Groups_bufs_fresh := false;
  Num_mess_gathered := 0; Num_daemons_gathered := 0; Gathered_complete := false; Gathered := [];
  GroupsList := [rooms; solo]; MySyncedSet := [1; 2; 3];
  Accept_inet_mbox := [3]; Accept_unix_mbox := 4;
  Auth_Methods := [mk_auth_info (str_bytes "NULL") true false NULL_ops;
    mk_auth_info (str_bytes "IP") true true IP_ops];
  ACP_Methods := [mk_acp_info (str_bytes "PERMIT") Permit_ops]; AccessControlPolicy := 0;
  Allow_Rules := [(0x7f000000, 8)]; IP_File_Loaded := true; Users := [] |}.

Definition demo_groups : St := demo_with demo_sess demo_conf demo_a.

Lemma demo_groups_ok : groups_ok (sess demo_groups).
Proof.
  split; [repeat constructor| |reflexivity].
  repeat first [apply Forall_cons; split | apply Forall_nil; exact I]; (split; [|done]);
    (split; [repeat constructor| |reflexivity]);
    repeat first [apply Forall_cons; split | apply Forall_nil; exact I];
    (split; [repeat constructor|done]).
Qed.

(** The members of the groups, by name. *)
Definition members_of (s : St) : list (list Z * list (list Z)) :=
  map (fun g => (cstr (g_name g), concat (map (fun d => map cstr (MembersList d)) (DaemonsList g))))
    (GroupsList (sess s)).
