(* ===== verification/GroupsJoin.v ===== *)
(** * Joining a group

    A join adds the member to the group, creating the group and the daemon's entry
    when they are new, and nothing else; a second join changes nothing. *)

From S2P Require Import Prelude NetTypes Configuration State Network SessionLayer Delivery Send.
From S2P Require Import Message Stdutil SklFacts SessState Sessions Groups GroupsMess.
From S2P Require Import GroupsHandle GroupsMemb SessionC Machine SessFrames GroupsOrder GroupsSpec.
From S2P Require Import HandlerFrames HandlerStops Demo GroupsDemo.

(** ** Names *)

Lemma strncmp_cstr n a k : strncmp n a (cstr a ++ replicate k 0) = 0.
Proof.
  assert (H0 : forall n k, strncmp n [] (replicate k 0) = 0).
  { clear. induction n as [|n IH]; intros k; [done|]. by destruct k. }
  revert a k. induction n as [|n IH]; intros a k; [done|].
  destruct a as [|x a]; [apply (H0 (Datatypes.S n))|]. cbn [cstr].
  destruct (Z.eqb_spec x 0) as [->|Hx]; [by destruct k|].
  cbn. rewrite Z.eqb_refl. cbn. destruct (x =? 0); [done|]. apply IH.
Qed.
Lemma strcpy_name_same src nm : strcpy_name src = Some nm -> G_compare_nameptr src nm = 0.
Proof.
  unfold strcpy_name. destruct (Z.ltb_spec (Z.of_nat (length (cstr src))) MAX_GROUP_NAME); [|done].
  intros [= <-]. unfold name_field. rewrite resize_ge by lia. apply strncmp_cstr.
Qed.

Section Join.
Context {L : SpuLib} {R : SessLib} {U : Stdutil} {HU : StdutilLaws U}.

(** The variables of groups.c other than the list of groups and its size. *)
Definition env (x : sess_st) :=
  ((Cn_active x, MySyncedSet x, Gstate x, Trans_memb x, G_Trans_memb_id x, Reg_memb x, Reg_memb_id x),
   (Groups_bufs x, Groups_bufs_fresh x, Num_mess_gathered x, Num_daemons_gathered x,
    Gathered_complete x, Gathered x)).
Definition roster (s : St) := (GroupsList (sess s), Num_groups (sess s), env (sess s)).

Lemma roster_above {A} (m : M St A) : frame above m -> frame roster m.
Proof.
  intros H s a s' E. pose proof (groups_of_above _ m H s a s' E) as Hg. cbn in Hg.
  unfold groups_part in Hg. unfold roster, env. congruence.
Qed.

(** A group in its place in the list. *)
Record placed (s0 : St) (gn : list Z) (grp : group) (s : St) : Prop := {
  pl_list : GroupsList (sess s) =
    adjust cmp_name g_name gn (fun _ => Some grp) (GroupsList (sess s0));
  pl_name : cmp_name gn (g_name grp) = 0;
  pl_num : Num_groups (sess s) = Z.of_nat (length (GroupsList (sess s)));
  pl_env : env (sess s) = env (sess s0) }.

Lemma placed_roster s0 gn grp s s' : placed s0 gn grp s -> roster s' = roster s -> placed s0 gn grp s'.
Proof.
  intros [] E. pose proof (f_equal (fun t => t.1.1) E) as H1. pose proof (f_equal (fun t => t.1.2) E) as H2.
  pose proof (f_equal snd E) as H3. cbn in H1, H2, H3. split; try done; congruence.
Qed.

Lemma adjust_length_store {K A} (cmp : K -> K -> Z) (key : A -> K) k x x' l :
  length (adjust cmp key k (fun _ => Some x) l) = length (adjust cmp key k (fun _ => Some x') l).
Proof.
  unfold adjust. destruct (skl_find cmp key k l); [by rewrite !length_insert|].
  pose proof (skl_insert_perm cmp key x l) as H1. pose proof (skl_insert_perm cmp key x' l) as H2.
  apply Permutation_length in H1, H2. cbn in *. congruence.
Qed.

(** [store_group] writes the group where its pointer points. *)
Lemma wp_store_placed E s0 gn grp grp' s (Q : unit -> St -> Prop) :
  skl_sorted cmp_name g_name (GroupsList (sess s0)) ->
  placed s0 gn grp s -> g_name grp' = g_name grp ->
  (forall s', placed s0 gn grp' s' -> Q tt s') -> wp E (store_group grp') Q s.
Proof.
  intros Hs [Hl Hn Hnum Henv] Ek HQ. unfold store_group. g_step. apply HQ.
  assert (Hput : put_back (fun g => bool_decide (g_name g = g_name grp')) grp' (GroupsList (sess s)) =
    adjust cmp_name g_name gn (fun _ => Some grp') (GroupsList (sess s0))).
  { unfold put_back. rewrite Hl. apply (put_back_adjust cmp_name g_name); [done|done|done| |].
    - apply bool_decide_eq_true. congruence.
    - intros y Hy%bool_decide_eq_true. rewrite Hy, Ek. apply cmp_refl. }
  split; [exact Hput|congruence| |exact Henv].
  change (Num_groups (sess s) = Z.of_nat (length (
    put_back (fun g => bool_decide (g_name g = g_name grp')) grp' (GroupsList (sess s))))).
  rewrite Hput, Hnum, Hl. f_equal. apply adjust_length_store.
Qed.

Lemma placed_found s gn grp : groups_ok (sess s) -> group_at (GroupsList (sess s)) gn = Some grp ->
  placed s gn grp s.
Proof.
  intros [Hs _ Hc] Hg. split; [|by apply (lookup_key_Some cmp_name g_name _ _ _ Hs) in Hg as [_ ?]|done|done].
  symmetry. by apply adjust_same.
Qed.

Lemma group_at_ok x gn grp : groups_ok x -> group_at (GroupsList x) gn = Some grp ->
  group_ok (Cn_active x) grp /\ DaemonsList grp <> [].
Proof.
  intros [Hs Hf _] Hg. apply (lookup_key_Some cmp_name g_name _ _ _ Hs) in Hg as [Hin _].
  rewrite Forall_forall in Hf. by apply Hf.
Qed.

Lemma wp_get_or_new_group gn s (Q : group -> St -> Prop) :
  groups_ok (sess s) ->
  (forall grp s', placed s gn grp s' -> group_ok (Cn_active (sess s)) grp ->
     (forall p m, in_daemons (Cn_active (sess s)) (Some grp) p m =
                  in_daemons (Cn_active (sess s)) (group_at (GroupsList (sess s)) gn) p m) ->
     Q grp s') ->
  wp partial (get_or_new_group gn) Q s.
Proof.
  intros Hok HQ. pose proof (ok_sorted _ Hok) as Hs. unfold get_or_new_group. wp_step. wp_step.
  rewrite G_get_group_at by done.
  destruct (group_at (GroupsList (sess s)) gn) as [grp|] eqn:Hg.
  { wp_step. apply HQ; [by apply placed_found|by eapply group_at_ok|done]. }
  wp_step. wp_step; [done|]. rename a into nm. apply strcpy_name_same in H as Hnm.
  g_step. g_step. set (m := match Gstate (sess s) with GOP => _ | _ => _ end).
  set (grp := mk_group nm _ false 0 [] []).
  do 3 g_step. unfold set_num_groups_by. do 4 g_step.
  apply HQ.
  - split; [|done| |done].
    + change (stdskl_put cmp_name g_name grp (GroupsList (sess s)) =
              adjust cmp_name g_name gn (fun _ => Some grp) (GroupsList (sess s))).
      exact (adjust_put cmp_name g_name gn grp _ Hs Hg Hnm).
    + change (Num_groups (sess s) + 1 =
              Z.of_nat (length (stdskl_put cmp_name g_name grp (GroupsList (sess s))))).
      assert (Hf : fresh cmp_name g_name (g_name grp) (GroupsList (sess s))).
      { apply lookup_key_None. rewrite <-(lookup_key_eq cmp_name g_name gn nm _ Hnm). exact Hg. }
      rewrite (put_fresh _ _ cmp_name g_name grp _ Hs Hf), (ok_count _ Hok).
      pose proof (skl_insert_perm cmp_name g_name grp (GroupsList (sess s))) as Hp.
      apply Permutation_length in Hp. rewrite Hp. cbn [length]. lia.
  - split; [constructor|constructor|done].
  - done.
Qed.

(** The daemon's entry in its group. *)
Record entered cn (grp0 : group) (pid : Z) (d : daemon_members) (grp : group) : Prop := {
  en_list : DaemonsList grp = adjust (cmp_id cn) dm_proc_id pid (fun _ => Some d) (DaemonsList grp0);
  en_id : cmp_id cn pid (dm_proc_id d) = 0;
  en_name : g_name grp = g_name grp0;
  en_count : g_num_members grp = g_num_members grp0 }.

Lemma get_or_new_daemon_spec grp pid s (Q : group * daemon_members -> St -> Prop) :
  let cn := Cn_active (sess s) in
  skl_sorted (cmp_id cn) dm_proc_id (DaemonsList grp) ->
  (forall grp' d, entered cn grp pid d grp' ->
     MembersList d = from_option MembersList [] (daemon_at cn grp pid) -> Q (grp', d) s) ->
  wp partial (get_or_new_daemon grp pid) Q s.
Proof.
  intros cn Hs HQ. unfold get_or_new_daemon. wp_step. apply wp_gets.
  rewrite G_get_daemon_at by done. fold cn.
  destruct (daemon_at cn grp pid) as [d|] eqn:Hd.
  - wp_step. apply HQ; [|done]. apply (lookup_key_Some (cmp_id cn) dm_proc_id _ _ _ Hs) in Hd as Hd'.
    split; [|apply Hd'|done|done]. symmetry. by apply adjust_same.
  - wp_step. set (d := new_daemon _ _ _). apply HQ; [|done].
    split; [|apply cmp_refl|done|done]. exact (adjust_put (cmp_id cn) dm_proc_id pid d _ Hs Hd (cmp_refl _)).
Qed.

(** ** The new state *)

Definition joined (gn pg : list Z) (pid : Z) (s s' : St) : Prop :=
  groups_ok (sess s') /\ env (sess s') = env (sess s) /\
  forall g q m, in_group (sess s') g q m =
    (same_name g gn && same_daemon (Cn_active (sess s)) q pid && same_name m pg)
      || in_group (sess s) g q m.

Definition old_members cn grp pid : list (list Z) := from_option MembersList [] (daemon_at cn grp pid).

Lemma old_members_sorted cn grp pid : group_ok cn grp ->
  skl_sorted cmp_name (fun n => n) (old_members cn grp pid).
Proof.
  intros [Hs Hd _]. unfold old_members. destruct (daemon_at cn grp pid) as [d|] eqn:E; [|constructor].
  apply (lookup_key_Some (cmp_id cn) dm_proc_id _ _ _ Hs) in E as [Hin _].
  rewrite Forall_forall in Hd. by apply Hd.
Qed.
Lemma has_member_old cn grp pid m :
  has_member cn (daemon_at cn grp pid) m =
  bool_decide (is_Some (lookup_key cmp_name (fun n => n) m (old_members cn grp pid))).
Proof. unfold old_members. by destruct (daemon_at cn grp pid). Qed.

(** The group [grpF] is [grp] with the member [pg] of the daemon [pid]. *)
Record joins cn grp pid pg jo_dmn jo_nm (grpF : group) : Prop := {
  jo_list : DaemonsList grpF =
    adjust (cmp_id cn) dm_proc_id pid (fun _ => Some jo_dmn) (DaemonsList grp);
  jo_id : cmp_id cn pid (dm_proc_id jo_dmn) = 0;
  jo_members : MembersList jo_dmn =
    adjust cmp_name (fun n => n) pg (fun _ => Some jo_nm) (old_members cn grp pid);
  jo_name : cmp_name pg jo_nm = 0;
  jo_count : g_num_members grpF = g_num_members grp +
    Z.of_nat (length (MembersList jo_dmn)) - Z.of_nat (length (old_members cn grp pid)) }.

Lemma joins_group_ok cn grp pid pg d nm grpF :
  group_ok cn grp -> joins cn grp pid pg d nm grpF ->
  group_ok cn grpF /\ DaemonsList grpF <> [].
Proof.
  intros Hok [Hl Hid Hm Hn Hc]. pose proof (old_members_sorted cn grp pid Hok) as Hos.
  destruct Hok as [Hs Hd Hcount].
  assert (Hin : d ∈ DaemonsList grpF).
  { rewrite Hl. apply (elem_of_adjust (cmp_id cn) dm_proc_id); [done|]. by right. }
  assert (Hmem : nm ∈ MembersList d).
  { rewrite Hm. apply (elem_of_adjust cmp_name (fun n => n)); [done|]. by right. }
  assert (Hdok : daemon_ok d).
  { split.
    - rewrite Hm. apply (adjust_sorted cmp_name (fun n => n)); [exact Hos|]. intros y [= <-]. exact Hn.
    - intros E. rewrite E in Hmem. by apply elem_of_nil in Hmem. }
  split; [split|].
  - rewrite Hl. apply (adjust_sorted (cmp_id cn) dm_proc_id); [exact Hs|]. intros y [= <-]. exact Hid.
  - apply Forall_forall. intros y. rewrite Hl.
    rewrite (elem_of_adjust (cmp_id cn) dm_proc_id) by done. rewrite Forall_forall in Hd.
    intros [[Hy _]|[= <-]]; [by apply Hd|done].
  - rewrite Hc, Hcount, Hl, (zsum_adjust (cmp_id cn) dm_proc_id members_count). cbn [from_option].
    unfold old_members, daemon_at.
    destruct (lookup_key (cmp_id cn) dm_proc_id pid (DaemonsList grp)) as [d0|]; cbn [from_option];
      unfold members_count; cbn [length]; lia.
  - intros E. rewrite E in Hin. by apply elem_of_nil in Hin.
Qed.

Lemma join_finish s s' gn pg pid grp d nm grpF :
  let cn := Cn_active (sess s) in
  groups_ok (sess s) -> group_ok cn grp ->
  (forall p m, in_daemons cn (Some grp) p m =
     in_daemons cn (group_at (GroupsList (sess s)) gn) p m) ->
  placed s gn grpF s' -> joins cn grp pid pg d nm grpF -> joined gn pg pid s s'.
Proof.
  intros cn Hok Hgok Hold [Hl Hn Hnum Henv] Hj.
  pose proof (joins_group_ok _ _ _ _ _ _ _ Hgok Hj) as HF.
  pose proof (old_members_sorted cn grp pid Hgok) as Hos.
  destruct Hok as [Hs Hf Hc]. destruct Hj as [Hjl Hjid Hjm Hjn _].
  assert (Hcn : Cn_active (sess s') = cn) by exact (f_equal (fun t => t.1.1.1.1.1.1.1) Henv).
  assert (Hkeep : keeps_key cmp_name g_name gn (fun _ => Some grpF) (GroupsList (sess s))).
  { intros y [= <-]. exact Hn. }
  split; [split|split; [done|]].
  - rewrite Hl. exact (adjust_sorted cmp_name g_name gn _ _ Hs Hkeep).
  - apply Forall_forall. intros y. rewrite Hl, Hcn.
    rewrite (elem_of_adjust cmp_name g_name) by done. rewrite Forall_forall in Hf.
    intros [[Hy _]|[= <-]]; [by apply Hf|done].
  - done.
  - intros g q m. fold cn.
    rewrite (in_group_adjust (sess s) (sess s') gn (fun _ => Some grpF) g q m Hs Hcn Hkeep Hl).
    destruct (same_name g gn) eqn:Eg; [|done]. fold cn.
    rewrite (in_group_same _ _ _ _ _ Eg). fold cn. rewrite <-Hold.
    rewrite (in_daemons_adjust cn grp grpF pid (fun _ => Some d) q m (gk_sorted _ _ Hgok)
               ltac:(intros y [= <-]; exact Hjid) Hjl).
    destruct (same_daemon cn q pid) eqn:Eq; [|done].
    rewrite (in_daemons_same _ _ _ _ _ Eq), has_member_old. cbn [has_member].
    unfold member_at. rewrite Hjm.
    rewrite (lookup_key_adjust cmp_name (fun n => n) pg (fun _ => Some nm) _ m Hos
               ltac:(intros y [= <-]; exact Hjn)).
    unfold same_name. by destruct (_ =? _).
Qed.

Lemma add_member_entered cn grp0 pid d grp nm d' grp' :
  skl_sorted (cmp_id cn) dm_proc_id (DaemonsList grp0) ->
  entered cn grp0 pid d grp -> add_member grp d nm = (grp', d') ->
  MembersList d' = put_member nm (MembersList d) /\ dm_proc_id d' = dm_proc_id d /\
  DaemonsList grp' = adjust (cmp_id cn) dm_proc_id pid (fun _ => Some d') (DaemonsList grp0) /\
  g_name grp' = g_name grp0 /\ g_num_members grp' = g_num_members grp0 + 1.
Proof.
  intros Hs [Hl Hid Hn Hc] [= <- <-]. repeat split; [|done|].
  - unfold store_daemon, put_back. rec_simpl_in_goal. rewrite Hl.
    apply (put_back_adjust (cmp_id cn) dm_proc_id); [done|done|done| |].
    + apply Z.eqb_refl.
    + intros y Hy%Z.eqb_eq. replace (dm_proc_id y) with (dm_proc_id d) by done. apply cmp_refl.
  - change (Z.succ (g_num_members grp) = g_num_members grp0 + 1). lia.
Qed.

Lemma wp_frame_roster {A} (m : M St A) (Q : A -> St -> Prop) s :
  frame roster m -> (forall a s', roster s' = roster s -> Q a s') -> wp partial m Q s.
Proof. intros Hf HQ. eapply wp_mono; [by apply (frame_wp roster)|]. intros a s' H. by apply HQ. Qed.

Lemma joiner_mbox_roster d n : frame roster (joiner_mbox d n).
Proof. apply roster_above. unfold joiner_mbox. solve_frame. Qed.
Lemma notify_join_roster g n m : frame roster (notify_join g n m).
Proof. apply roster_above. unfold notify_join. solve_frame. Qed.

Lemma put_member_adjust pg nm l :
  skl_sorted cmp_name (fun n => n) l -> lookup_key cmp_name (fun n => n) pg l = None ->
  cmp_name pg nm = 0 -> put_member nm l = adjust cmp_name (fun n => n) pg (fun _ => Some nm) l.
Proof. intros Hs Hn Hk. exact (adjust_put cmp_name (fun n => n) pg nm l Hs Hn Hk). Qed.

Lemma do_join_spec pg gn pn pid s : groups_ok (sess s) ->
  wp partial (do_join pg gn pn pid) (fun _ => joined gn pg pid s) s.
Proof.
  intros Hok. pose proof (ok_sorted _ Hok) as Hs. set (cn := Cn_active (sess s)).
  unfold do_join. wp_step. apply wp_get_or_new_group; [done|]. intros grp s1 Hp1 Hgok Hold.
  assert (Hcn : Cn_active (sess s1) = cn).
  { exact (f_equal (fun t => t.1.1.1.1.1.1.1) (pl_env _ _ _ _ Hp1)). }
  wp_step. apply get_or_new_daemon_spec; rewrite Hcn; [by apply gk_sorted|].
  intros grp1 d He Hmem. wp_step.
  eapply wp_store_placed; [done|exact Hp1|by apply en_name in He|]. intros s2 Hp2.
  pose proof (old_members_sorted cn grp pid Hgok) as Hos. fold (old_members cn grp pid) in Hmem.
  rewrite G_get_member_at by by rewrite Hmem. unfold member_at. rewrite Hmem.
  destruct (lookup_key _ _ pg _) as [nm|] eqn:Hnm.
  - wp_step. apply (join_finish s s2 gn pg pid grp d nm grp1); [done..|].
    apply (lookup_key_Some cmp_name (fun n => n) _ _ _ Hos) in Hnm as Hnm'. destruct He.
    split; [done|done| |apply Hnm'|rewrite Hmem; fold cn; lia].
    rewrite Hmem. symmetry. by apply adjust_same.
  - wp_step. wp_step; [done|]. rename a into nm. apply strcpy_name_same in H.
    destruct (add_member grp1 d nm) as [grp2 d2] eqn:Hadd.
    pose proof (add_member_entered cn grp pid d grp1 nm d2 grp2 (gk_sorted _ _ Hgok) He Hadd)
      as (Hm2 & Hid2 & Hl2 & Hn2 & Hc2).
    rewrite Hmem, (put_member_adjust pg nm _ Hos Hnm H) in Hm2.
    wp_step. apply wp_frame_roster; [apply joiner_mbox_roster|]. intros mb s3 E3.
    wp_step. wp_step. set (grp3 := if dm_proc_id d2 =? _ then _ else grp2).
    set (grp4 := if Is_partitioned_daemon d2 then _ else grp3). wp_step.
    assert (H4 : g_name grp4 = g_name grp2 /\ DaemonsList grp4 = DaemonsList grp2 /\
                 g_num_members grp4 = g_num_members grp2).
    { unfold grp4, grp3. by destruct (Is_partitioned_daemon d2), (dm_proc_id d2 =? _). }
    clearbody grp4. destruct H4 as (Hn4 & Hl4 & Hc4).
    eapply wp_store_placed; [done|by eapply placed_roster| |].
    { rewrite Hn4, Hn2. symmetry. by apply en_name in He. }
    intros s4 Hp4. apply wp_frame_roster; [apply notify_join_roster|]. intros [] s5 E5.
    apply (join_finish s s5 gn pg pid grp d2 nm grp4); [done..|by eapply placed_roster|].
    fold cn. split; [congruence|rewrite Hid2; by apply en_id in He|done|done|].
    rewrite Hc4, Hc2, Hm2.
    pose proof (zsum_adjust cmp_name (fun n => n) (fun _ => 1) pg (fun _ => Some nm)
      (old_members cn grp pid)) as Hz. rewrite Hnm in Hz. cbn [from_option] in Hz.
    assert (Hlen : forall l : list (list Z), zsum (fun _ => 1) l = Z.of_nat (length l)).
    { unfold zsum. induction l; cbn [foldr length]; lia. }
    rewrite !Hlen in Hz. fold cn. lia.
Qed.

(** A join, a leave or a disconnection of a member whose name is legal and whose daemon
    is known comes to the handler's own part. *)
Lemma wp_of_member pg pn procn i p s (K : list Z -> proc -> M St unit) (Q : unit -> St -> Prop) :
  G_private_to_names (S:=St) pg s = Ok (Some (pn, procn)) s ->
  proc_by_name procn s = Some (i, p) -> in_group_states (Gstate (sess s)) = true ->
  wp partial (K pn p) Q s ->
  wp partial (g ← gget Gstate;
    if negb (in_group_states g) then fatal else
    '(private_name, proc_name) ← names_of pg;
    p ← gets (proc_by_name proc_name);
    match p with None => mret tt | Some (_, p) => K private_name p end) Q s.
Proof.
  intros Hn Hp Hg HK. wp_step. g_step. rewrite Hg. cbn [negb].
  wp_step. apply (wp_eq _ _ (mret (pn, procn))).
  { unfold names_of, mbind, M_bind. by rewrite Hn. }
  wp_step. wp_step. wp_step. by rewrite Hp.
Qed.

(** C12. A join that is delivered - to any daemon, in the states that take joins - adds
    the member to the group, with the group and the daemon's entry if they are
    new, and changes no other membership; joining again changes no membership.  The
    lists stay sorted, with right counts and no empty entry. *)
Theorem G_handle_join_adds (pg gn pn procn : list Z) (i : Z) (p : proc) (s : St) :
  groups_ok (sess s) ->
  G_private_to_names (S:=St) pg s = Ok (Some (pn, procn)) s ->
  proc_by_name procn s = Some (i, p) -> in_group_states (Gstate (sess s)) = true ->
  wp ends (G_handle_join pg gn) (fun _ => joined gn pg (id p) s) s.
Proof.
  intros Hok Hn Hp Hg. apply wp_ends; [apply handle_join_stops|].
  apply (wp_of_member pg pn procn i p s (fun pn p => do_join pg gn pn (id p)) _ Hn Hp Hg).
  by apply do_join_spec.
Qed.
End Join.

(** The joiner is new to the group, and to the daemon's entry. *)
Example G_handle_join_adds_witness :
  groups_ok (sess demo_groups) /\
  wp ends (G_handle_join (demo_name "#al#a") (demo_name "solo"))
    (fun _ => joined (demo_name "solo") (demo_name "#al#a") (id demo_a) demo_groups) demo_groups.
Proof.
  split; [apply demo_groups_ok|].
  apply (G_handle_join_adds _ _ (str_bytes "al") (str_bytes "a") 0 demo_a);
    [apply demo_groups_ok|reflexivity..].
Defined.
Example G_handle_join_run :
  ran (G_handle_join (demo_name "#al#a") (demo_name "solo")) demo_groups (fun _ s => members_of s) =
  Some [(str_bytes "rooms", [str_bytes "#al#a"; str_bytes "#bob#a"; str_bytes "#eve#b"]);
        (str_bytes "solo", [str_bytes "#al#a"; str_bytes "#bob#a"])].
Proof. vm_compute. reflexivity. Qed.
