(* ===== verification/GroupsLeave.v ===== *)
(** * Leaving a group

    A leave takes the member out of the group, a disconnection takes it out of every
    group, and nothing else changes; a daemon's entry without members goes, and a
    group without daemons. *)

From S2P Require Import Prelude NetTypes Configuration State Network SessionLayer Delivery Send.
From S2P Require Import Message Stdutil SklFacts SessState Sessions Groups GroupsMess.
From S2P Require Import GroupsHandle GroupsMemb SessionC Machine SessFrames GroupsOrder GroupsSpec.
From S2P Require Import HandlerFrames HandlerStops Demo GroupsDemo GroupsJoin.

Section Leave.
Context {L : SpuLib} {R : SessLib} {U : Stdutil} {HU : StdutilLaws U}.

Definition is_member cn gn pid pg g q m : bool :=
  same_name g gn && same_daemon cn q pid && same_name m pg.

Definition removed (gn pg : list Z) (pid : Z) (s s' : St) : Prop :=
  groups_ok (sess s') /\ env (sess s') = env (sess s) /\
  forall g q m, in_group (sess s') g q m =
    in_group (sess s) g q m && negb (is_member (Cn_active (sess s)) gn pid pg g q m).

(** ** A member that is not there *)

Lemma in_group_cong x gn pid pg g q m :
  is_member (Cn_active x) gn pid pg g q m = true -> in_group x g q m = in_group x gn pid pg.
Proof.
  intros [[Eg Eq]%andb_true_iff Em]%andb_true_iff. rewrite (in_group_same x g gn q m Eg).
  unfold in_group, in_daemons. destruct (group_at _ gn) as [grp|]; [|done].
  apply Z.eqb_eq in Eq, Em. unfold daemon_at, has_member.
  rewrite (lookup_key_eq (cmp_id (Cn_active x)) dm_proc_id q pid _ Eq).
  destruct (lookup_key _ _ pid _) as [d|]; [|done]. unfold member_at.
  by rewrite (lookup_key_eq cmp_name (fun n => n) m pg _ Em).
Qed.
Lemma removed_absent gn pg pid s : groups_ok (sess s) -> in_group (sess s) gn pid pg = false ->
  removed gn pg pid s s.
Proof.
  intros Hok Hn. split; [done|split; [done|]]. intros g q m.
  destruct (is_member _ gn pid pg g q m) eqn:E; [|by rewrite andb_true_r].
  by rewrite (in_group_cong _ _ _ _ _ _ _ E), Hn.
Qed.

(** ** The group without the member *)

Definition others pg d : list (list Z) :=
  adjust cmp_name (fun n => n) pg (fun _ => None) (MembersList d).

(** [od] is the daemon's entry in [grpF], if it has one left. *)
Record leaves cn grp pid pg d (od : option daemon_members) (grpF : group) : Prop := {
  le_list : DaemonsList grpF = adjust (cmp_id cn) dm_proc_id pid (fun _ => od) (DaemonsList grp);
  le_left : from_option MembersList [] od = others pg d;
  le_some : forall d', od = Some d' -> cmp_id cn pid (dm_proc_id d') = 0 /\ MembersList d' <> [];
  le_name : g_name grpF = g_name grp;
  le_count : g_num_members grpF = g_num_members grp - 1 }.

Lemma others_sorted pg d : daemon_ok d -> skl_sorted cmp_name (fun n => n) (others pg d).
Proof. intros [Hs _]. by apply (adjust_sorted cmp_name (fun n => n)). Qed.
Lemma others_length pg d nm : member_at d pg = Some nm ->
  Z.of_nat (length (others pg d)) = members_count d - 1.
Proof. intros H. exact (adjust_None_length cmp_name (fun n => n) pg nm _ H). Qed.

Lemma daemon_at_ok cn grp pid d : group_ok cn grp -> daemon_at cn grp pid = Some d -> daemon_ok d.
Proof.
  intros [Hs Hf _] Hd. apply (lookup_key_Some (cmp_id cn) dm_proc_id _ _ _ Hs) in Hd as [Hin _].
  rewrite Forall_forall in Hf. by apply Hf.
Qed.

Lemma leaves_group_ok cn grp pid pg d nm od grpF :
  group_ok cn grp -> daemon_at cn grp pid = Some d -> member_at d pg = Some nm ->
  leaves cn grp pid pg d od grpF -> group_ok cn grpF.
Proof.
  intros Hok Hd Hm [Hl Hleft Hsome _ Hc]. pose proof (daemon_at_ok _ _ _ _ Hok Hd) as Hdok.
  destruct Hok as [Hs Hf Hcount].
  assert (Hod : forall d', od = Some d' -> daemon_ok d').
  { intros d' ->. cbn in Hleft. split; [rewrite Hleft; by apply others_sorted|by apply Hsome]. }
  split.
  - rewrite Hl. apply (adjust_sorted (cmp_id cn) dm_proc_id); [exact Hs|]. intros y ->. by apply Hsome.
  - apply Forall_forall. intros y. rewrite Hl.
    rewrite (elem_of_adjust (cmp_id cn) dm_proc_id) by done. rewrite Forall_forall in Hf.
    intros [[Hy _]|Hy]; [by apply Hf|by apply Hod].
  - rewrite Hc, Hcount, Hl, (zsum_adjust (cmp_id cn) dm_proc_id members_count).
    unfold daemon_at in Hd. rewrite Hd. cbn [from_option].
    pose proof (others_length pg d nm Hm) as Hlen. rewrite <-Hleft in Hlen.
    destruct od as [d'|]; cbn [from_option length] in *; unfold members_count in *; lia.
Qed.

Lemma leaves_members cn grp pid pg d od grpF q m :
  group_ok cn grp -> daemon_at cn grp pid = Some d -> leaves cn grp pid pg d od grpF ->
  in_daemons cn (Some grpF) q m =
    in_daemons cn (Some grp) q m && negb (same_daemon cn q pid && same_name m pg).
Proof.
  intros Hok Hd [Hl Hleft Hsome _ _].
  rewrite (in_daemons_adjust cn grp grpF pid (fun _ => od) q m (gk_sorted _ _ Hok)
             ltac:(intros y ->; by apply Hsome) Hl).
  destruct (same_daemon cn q pid) eqn:Eq; [|by rewrite andb_true_r].
  rewrite (in_daemons_same cn grp q pid m Eq), Hd. cbn [andb].
  replace (has_member cn od m) with
    (bool_decide (is_Some (lookup_key cmp_name (fun n => n) m (others pg d)))).
  - unfold others. rewrite (lookup_key_adjust cmp_name (fun n => n) pg (fun _ => None) _ m
      (dk_sorted _ (daemon_at_ok _ _ _ _ Hok Hd)) ltac:(by intros y)).
    unfold same_name. cbn. unfold member_at. destruct (_ =? _); cbn; [by rewrite andb_false_r|].
    by rewrite andb_true_r.
  - rewrite <-Hleft. by destruct od.
Qed.

(** The list of groups after the member left. *)
Lemma leave_finish s s' gn pid pg grp d nm od grpF og :
  let cn := Cn_active (sess s) in
  groups_ok (sess s) -> group_at (GroupsList (sess s)) gn = Some grp ->
  daemon_at cn grp pid = Some d -> member_at d pg = Some nm -> leaves cn grp pid pg d od grpF ->
  env (sess s') = env (sess s) ->
  GroupsList (sess s') = adjust cmp_name g_name gn (fun _ => og) (GroupsList (sess s)) ->
  Num_groups (sess s') = Z.of_nat (length (GroupsList (sess s'))) ->
  match og with
  | Some grp' => g_name grp' = g_name grpF /\ DaemonsList grp' = DaemonsList grpF /\
      g_num_members grp' = g_num_members grpF /\ DaemonsList grpF <> []
  | None => DaemonsList grpF = []
  end -> removed gn pg pid s s'.
Proof.
  intros cn Hok Hg Hd Hm Hle Henv Hl Hnum Hog.
  pose proof (group_at_ok _ _ _ Hok Hg) as [Hgok _]. pose proof (ok_sorted _ Hok) as Hs.
  pose proof (leaves_group_ok _ _ _ _ _ _ _ _ Hgok Hd Hm Hle) as HF.
  assert (Hcn : Cn_active (sess s') = cn) by exact (f_equal (fun t => t.1.1.1.1.1.1.1) Henv).
  assert (Hname : cmp_name gn (g_name grp) = 0).
  { by apply (lookup_key_Some cmp_name g_name _ _ _ Hs) in Hg as [_ ?]. }
  assert (Hkeep : keeps_key cmp_name g_name gn (fun _ => og) (GroupsList (sess s))).
  { intros y ->. destruct Hog as [-> _]. by rewrite (le_name _ _ _ _ _ _ _ Hle). }
  split; [split|split; [done|]].
  - rewrite Hl. exact (adjust_sorted cmp_name g_name gn _ _ Hs Hkeep).
  - apply Forall_forall. intros y. rewrite Hl, Hcn.
    rewrite (elem_of_adjust cmp_name g_name) by done. pose proof (ok_groups _ Hok) as Hf.
    rewrite Forall_forall in Hf. intros [[Hy _]| ->]; [by apply Hf|].
    destruct Hog as (_ & Hdl & Hc & Hne). rewrite Hdl. split; [|done].
    destruct HF as [H1 H2 H3]. split; rewrite ?Hdl, ?Hc; done.
  - done.
  - intros g q m. fold cn.
    rewrite (in_group_adjust (sess s) (sess s') gn (fun _ => og) g q m Hs Hcn Hkeep Hl).
    unfold is_member. destruct (same_name g gn) eqn:Eg; [|by rewrite andb_true_r].
    rewrite (in_group_same _ _ _ _ _ Eg), Hg. fold cn.
    rewrite andb_true_l. rewrite <-(leaves_members cn grp pid pg d od grpF q m Hgok Hd Hle).
    destruct og as [grp'|].
    + destruct Hog as (_ & Hdl & _). unfold in_daemons, daemon_at. by rewrite Hdl.
    + unfold in_daemons, daemon_at. by rewrite Hog.
Qed.

(** ** The steps of the code *)

Lemma extract_member_spec cn grp pid pg d nm s (Q : group -> St -> Prop) :
  group_ok cn grp -> daemon_at cn grp pid = Some d -> member_at d pg = Some nm ->
  (forall od grpF, leaves cn grp pid pg d od grpF -> Q grpF s) ->
  wp partial (extract_member cn grp d nm) Q s.
Proof.
  intros Hok Hd Hm HQ. pose proof (daemon_at_ok _ _ _ _ Hok Hd) as Hdok.
  pose proof (gk_sorted _ _ Hok) as Hs. pose proof (dk_sorted _ Hdok) as Hms.
  apply (lookup_key_Some (cmp_id cn) dm_proc_id _ _ _ Hs) in Hd as Hd'. destruct Hd' as [_ Hid].
  apply (lookup_key_Some cmp_name (fun n => n) _ _ _ Hms) in Hm as Hm'. destruct Hm' as [_ Hnm].
  unfold extract_member. wp_step. wp_step; [done|]. rename a into i.
  set (d' := d <| MembersList ::= delete i |>).
  assert (Hd'm : MembersList d' = others pg d).
  { change (delete i (MembersList d) = others pg d). unfold others.
    rewrite (adjust_key_eq cmp_name (fun n => n) pg nm _ _ Hnm).
    exact (adjust_erase cmp_name (fun n => n) nm _ i Hms H). }
  set (grp1 := store_daemon d' grp <| g_num_members ::= Z.pred |>).
  assert (Hl1 : DaemonsList grp1 = adjust (cmp_id cn) dm_proc_id pid (fun _ => Some d') (DaemonsList grp)).
  { change (put_back (fun y => dm_proc_id y =? dm_proc_id d') d' (DaemonsList grp) =
            adjust (cmp_id cn) dm_proc_id pid (fun _ => Some d') (DaemonsList grp)).
    rewrite <-(adjust_same (cmp_id cn) dm_proc_id pid d (DaemonsList grp)) at 1 by exact Hd.
    apply (put_back_adjust (cmp_id cn) dm_proc_id); [done|done|done|apply Z.eqb_refl|].
    intros y Hy%Z.eqb_eq. replace (dm_proc_id y) with (dm_proc_id d) by done. apply cmp_refl. }
  assert (Hc1 : g_num_members grp1 = g_num_members grp - 1).
  { change (Z.pred (g_num_members grp) = g_num_members grp - 1). lia. }
  case_bool_decide as He.
  - assert (Hs1 : skl_sorted (cmp_id cn) dm_proc_id (DaemonsList grp1)).
    { rewrite Hl1. apply (adjust_sorted (cmp_id cn) dm_proc_id); [exact Hs|]. intros y [= <-]. exact Hid. }
    unfold G_remove_daemon. wp_step. wp_step; [done|]. rename a into j. wp_step.
    apply (HQ None). split; [|by rewrite <-Hd'm, He|done|done|].
    + change (delete j (DaemonsList grp1) =
              adjust (cmp_id cn) dm_proc_id pid (fun _ => None) (DaemonsList grp)).
      rewrite (adjust_erase (cmp_id cn) dm_proc_id (dm_proc_id d') _ j Hs1 H0).
      rewrite <-(adjust_key_eq (cmp_id cn) dm_proc_id pid (dm_proc_id d') _ _ Hid), Hl1.
      exact (adjust_erase_written (cmp_id cn) dm_proc_id pid d' d _ Hs Hd Hid).
    + change (g_num_members grp1 - Z.of_nat (length (MembersList d')) = g_num_members grp - 1).
      rewrite He, Hc1. cbn. lia.
  - wp_step. apply (HQ (Some d')). split; [exact Hl1|exact Hd'm| |done|exact Hc1].
    intros y [= <-]. done.
Qed.

Lemma remove_mailbox_spec grp m s (Q : group -> St -> Prop) :
  (forall mb, Q (grp <| mboxes := mb |>) s) -> wp partial (G_remove_mailbox grp m) Q s.
Proof.
  intros HQ. unfold G_remove_mailbox. wp_step. wp_step; [done|]. destruct a as [i x].
  wp_step. wp_step; [done|]. wp_step.
  exact (HQ (take (length (mboxes grp) - 1) (<[i := a]> (mboxes grp)))).
Qed.

Lemma notify_departure_roster g c n : frame roster (notify_departure g c n).
Proof. apply roster_above. unfold notify_departure. solve_frame. Qed.

Lemma after_departure_spec s s1 gn pid pg grp d nm od grpF caused :
  let cn := Cn_active (sess s) in
  groups_ok (sess s) -> group_at (GroupsList (sess s)) gn = Some grp ->
  daemon_at cn grp pid = Some d -> member_at d pg = Some nm -> leaves cn grp pid pg d od grpF ->
  roster s1 = roster s ->
  wp partial (after_departure grpF caused nm) (fun _ => removed gn pg pid s) s1.
Proof.
  intros cn Hok Hg Hd Hm Hle Hr. pose proof (ok_sorted _ Hok) as Hs.
  pose proof (group_at_ok _ _ _ Hok Hg) as [Hgok _].
  pose proof (leaves_group_ok _ _ _ _ _ _ _ _ Hgok Hd Hm Hle) as HF.
  pose proof (le_name _ _ _ _ _ _ _ Hle) as Hname.
  unfold after_departure. wp_step.
  eapply wp_store_placed; [exact Hs| |exact Hname|].
  { eapply placed_roster; [by apply placed_found|exact Hr]. }
  intros s2 Hp2. destruct (Z.eqb_spec (g_num_members grpF) 0) as [H0|H0].
  - unfold G_remove_group. wp_step. apply wp_fatal_if; [done|]. intros Hd0%negb_false_iff.
    apply bool_decide_eq_true in Hd0. wp_step. apply wp_fatal_if; [done|]. intros _.
    g_step. g_step. wp_step. wp_step; [done|]. rename a into i.
    destruct Hp2 as [Hl2 Hn2 Hnum2 He2].
    assert (Hs2 : skl_sorted cmp_name g_name (GroupsList (sess s2))).
    { rewrite Hl2. apply (adjust_sorted cmp_name g_name); [exact Hs|]. intros y [= <-]. exact Hn2. }
    assert (Hdel : delete i (GroupsList (sess s2)) =
              adjust cmp_name g_name gn (fun _ => None) (GroupsList (sess s))).
    { rewrite (adjust_erase cmp_name g_name (g_name grpF) _ i Hs2 H).
      rewrite <-(adjust_key_eq cmp_name g_name gn (g_name grpF) _ _ Hn2), Hl2.
      exact (adjust_erase_written cmp_name g_name gn grpF grp _ Hs Hg Hn2). }
    g_step. g_step. unfold set_num_groups_by. do 3 g_step.
    eapply (leave_finish s _ gn pid pg grp d nm od grpF None Hok Hg Hd Hm Hle);
      [exact He2|exact Hdel| |exact Hd0].
    change (Z.pred (Num_groups (sess s2)) = Z.of_nat (length (delete i (GroupsList (sess s2))))).
    unfold find_group in H. rewrite (find_sorted _ _ cmp_name g_name _ _ Hs2) in H.
    apply skl_find_Some in H as (z & Hz & _). apply lookup_lt_Some in Hz as Hlt.
    rewrite Hnum2, (length_delete _ i) by (by exists z). lia.
  - wp_step. eapply wp_store_placed; [exact Hs|exact Hp2|done|]. intros s3 Hp3.
    apply wp_frame_roster; [apply notify_departure_roster|]. intros [] s4 E4.
    pose proof (placed_roster _ _ _ _ _ Hp3 E4) as [Hl4 Hn4 Hnum4 He4].
    eapply (leave_finish s s4 gn pid pg grp d nm od grpF (Some (bump_index grpF)) Hok Hg Hd Hm Hle);
      [exact He4|exact Hl4|exact Hnum4|]. repeat split; [].
    intros He. exact (H0 (proj2 (group_ok_empty cn grpF HF) He)).
Qed.

(** ** A leave *)

(** The mailbox of the group goes; its members do not. *)
Lemma leaves_mboxes cn grp mb pid pg d od grpF :
  leaves cn (grp <| mboxes := mb |>) pid pg d od grpF -> leaves cn grp pid pg d od grpF.
Proof. by intros []. Qed.
Lemma group_ok_mboxes cn grp mb : group_ok cn grp -> group_ok cn (grp <| mboxes := mb |>).
Proof. by intros []. Qed.

(** What is left to do when the mailbox is out. *)
Lemma depart_spec s s1 gn pid pg grp d nm mb caused :
  let cn := Cn_active (sess s) in
  groups_ok (sess s) -> group_at (GroupsList (sess s)) gn = Some grp ->
  daemon_at cn grp pid = Some d -> member_at d pg = Some nm -> roster s1 = roster s ->
  wp partial (grp ← extract_member cn (grp <| mboxes := mb |>) d nm; after_departure grp caused nm)
    (fun _ => removed gn pg pid s) s1.
Proof.
  intros cn Hok Hg Hd Hm Hr. pose proof (group_at_ok _ _ _ Hok Hg) as [Hgok _].
  wp_step. apply (extract_member_spec cn _ pid pg d nm); [by apply group_ok_mboxes|exact Hd|exact Hm|].
  intros od grpF Hle%leaves_mboxes.
  exact (after_departure_spec s s1 gn pid pg grp d nm od grpF caused Hok Hg Hd Hm Hle Hr).
Qed.

Lemma same_mboxes grp : grp = grp <| mboxes := mboxes grp |>.
Proof. by destruct grp. Qed.

Lemma self_leave_roster g ses : frame roster (G_send_self_leave g ses).
Proof. apply roster_above. unfold G_send_self_leave. solve_frame. Qed.
Lemma session_mbox_roster ses : frame roster (session_mbox ses).
Proof. apply roster_above. unfold session_mbox. solve_frame. Qed.

Lemma not_in_group x gn pid pg :
  (forall grp d nm, group_at (GroupsList x) gn = Some grp ->
     daemon_at (Cn_active x) grp pid = Some d -> member_at d pg = Some nm -> False) ->
  in_group x gn pid pg = false.
Proof.
  intros H. unfold in_group, in_daemons, has_member. destruct (group_at _ gn) as [grp|]; [|done].
  destruct (daemon_at _ grp pid) as [d|] eqn:Hd; [|done].
  destruct (member_at d pg) as [nm|] eqn:Hm; [|done]. by destruct (H grp d nm).
Qed.

Lemma do_leave_spec pg gn pn pid s : groups_ok (sess s) ->
  wp partial (do_leave pg gn pn pid) (fun _ => removed gn pg pid s) s.
Proof.
  intros Hok. pose proof (ok_sorted _ Hok) as Hs. unfold do_leave. wp_step. wp_step.
  rewrite G_get_group_at by done.
  destruct (group_at (GroupsList (sess s)) gn) as [grp|] eqn:Hg;
    [|apply wp_ret, removed_absent; [done|]; apply not_in_group; congruence].
  pose proof (group_at_ok _ _ _ Hok Hg) as [Hgok _].
  g_step. g_step. rewrite G_get_daemon_at by apply Hgok.
  destruct (daemon_at (Cn_active (sess s)) grp pid) as [d|] eqn:Hd;
    [|apply wp_ret, removed_absent; [done|]; apply not_in_group; congruence].
  pose proof (daemon_at_ok _ _ _ _ Hgok Hd) as Hdok.
  rewrite G_get_member_at by apply Hdok.
  destruct (member_at d pg) as [nm|] eqn:Hm;
    [|apply wp_ret, removed_absent; [done|]; apply not_in_group; congruence].
  wp_step. wp_step. wp_step. case_match.
  - wp_step. wp_step. wp_step. apply wp_fatal_if; [done|]. intros _.
    wp_step. apply wp_frame_roster; [apply self_leave_roster|]. intros [] s1 E1.
    wp_step. apply wp_frame_roster; [apply session_mbox_roster|]. intros mb s2 E2.
    apply remove_mailbox_spec. intros mb'.
    apply depart_spec; [done..|congruence].
  - wp_step. rewrite (same_mboxes grp). by apply depart_spec.
Qed.

(** ** A disconnection *)

Definition gone (pg : list Z) (pid : Z) (s s' : St) : Prop :=
  groups_ok (sess s') /\ env (sess s') = env (sess s) /\
  forall g q m, in_group (sess s') g q m =
    in_group (sess s) g q m && negb (same_daemon (Cn_active (sess s)) q pid && same_name m pg).

(** After the groups of the names [done]. *)
Definition gone_from pg pid s (done : list (list Z)) (s' : St) : Prop :=
  groups_ok (sess s') /\ env (sess s') = env (sess s) /\
  forall g q m, in_group (sess s') g q m = in_group (sess s) g q m &&
    negb (existsb (same_name g) done && same_daemon (Cn_active (sess s)) q pid && same_name m pg).

Lemma gone_from_step pg pid s done gn s1 s2 :
  gone_from pg pid s done s1 -> removed gn pg pid s1 s2 -> gone_from pg pid s (done ++ [gn]) s2.
Proof.
  intros (_ & He1 & H1) (Hok & He2 & H2). split; [done|split; [congruence|]]. intros g q m.
  assert (Hcn : Cn_active (sess s1) = Cn_active (sess s))
    by exact (f_equal (fun t => t.1.1.1.1.1.1.1) He1).
  rewrite H2, H1, Hcn, existsb_app. cbn. unfold is_member. rewrite orb_false_r.
  destruct (in_group (sess s) g q m), (existsb _ done), (same_name g gn), (same_daemon _ q pid),
    (same_name m pg); done.
Qed.
Lemma gone_from_all pg pid s s' : groups_ok (sess s) ->
  gone_from pg pid s (map g_name (GroupsList (sess s))) s' -> gone pg pid s s'.
Proof.
  intros Hok (H1 & H2 & H). split; [done|split; [done|]]. intros g q m. rewrite H.
  destruct (in_group (sess s) g q m) eqn:E; [|done]. f_equal. f_equal.
  replace (existsb _ _) with true; [done|]. symmetry. apply existsb_exists.
  unfold in_group, in_daemons in E. destruct (group_at _ g) as [grp|] eqn:Hg; [|done].
  apply (lookup_key_Some cmp_name g_name _ _ _ (ok_sorted _ Hok)) in Hg as [Hin Hn].
  exists (g_name grp). split; [by apply in_map, list_elem_of_In|by apply Z.eqb_eq].
Qed.

Lemma kill_in_group_spec pg pid ses grp s :
  groups_ok (sess s) -> group_at (GroupsList (sess s)) (g_name grp) = Some grp ->
  wp partial (kill_in_group pg pid ses grp) (fun _ => removed (g_name grp) pg pid s) s.
Proof.
  intros Hok Hg. pose proof (group_at_ok _ _ _ Hok Hg) as [Hgok _].
  unfold kill_in_group. g_step. g_step. rewrite G_get_daemon_at by apply Hgok.
  destruct (daemon_at (Cn_active (sess s)) grp pid) as [d|] eqn:Hd;
    [|apply wp_ret, removed_absent; [done|]; apply not_in_group; congruence].
  pose proof (daemon_at_ok _ _ _ _ Hgok Hd) as Hdok.
  rewrite G_get_member_at by apply Hdok.
  destruct (member_at d pg) as [nm|] eqn:Hm;
    [|apply wp_ret, removed_absent; [done|]; apply not_in_group; congruence].
  wp_step. wp_step. wp_step. case_match.
  - wp_step. apply wp_frame_roster; [apply session_mbox_roster|]. intros mb s1 E1.
    apply remove_mailbox_spec. intros mb'. by apply depart_spec.
  - wp_step. rewrite (same_mboxes grp) at 1. by apply depart_spec.
Qed.

Lemma group_ref_spec name s (Q : group -> St -> Prop) : groups_ok (sess s) ->
  (forall grp, g_name grp = name -> group_at (GroupsList (sess s)) name = Some grp -> Q grp s) ->
  wp partial (group_ref name) Q s.
Proof.
  intros Hok HQ. unfold group_ref. g_step. g_step. wp_step. wp_step; [done|].
  destruct a as [i g]. wp_step. apply list_find_Some in H as (Hi & Hn & _). apply HQ; [done|].
  apply (lookup_key_Some cmp_name g_name _ _ _ (ok_sorted _ Hok)).
  split; [by eapply list_elem_of_lookup_2|]. rewrite Hn. apply cmp_refl.
Qed.

Lemma kill_all_spec pg pid ses s : groups_ok (sess s) ->
  wp partial (for_groups (kill_in_group pg pid ses)) (fun _ => gone pg pid s) s.
Proof.
  intros Hok. unfold for_groups. g_step. g_step.
  eapply wp_mono; [apply (wp_for_each_prefix partial _ _ (gone_from pg pid s))|].
  - split; [done|split; [done|]]. intros g q m. cbn. by rewrite andb_true_r.
  - intros pre name s1 _ H1. wp_step. apply group_ref_spec; [apply H1|]. intros grp <- Hg.
    eapply wp_mono; [apply kill_in_group_spec; [apply H1|done]|].
    intros [] s2 H2. by eapply gone_from_step.
  - intros [] s' H. by apply gone_from_all.
Qed.

(** ** The handlers *)

(** C13. A leave that is delivered takes the member out of the group and changes no
    other membership; a leave of someone who is not in the group changes no
    membership.  The lists stay sorted, with right counts and no empty entry. *)
Theorem G_handle_leave_removes (pg gn pn procn : list Z) (i : Z) (p : proc) (s : St) :
  groups_ok (sess s) ->
  G_private_to_names (S:=St) pg s = Ok (Some (pn, procn)) s ->
  proc_by_name procn s = Some (i, p) -> in_group_states (Gstate (sess s)) = true ->
  wp ends (G_handle_leave pg gn) (fun _ => removed gn pg (id p) s) s.
Proof.
  intros Hok Hn Hp Hg. apply wp_ends; [apply handle_leave_stops|].
  apply (wp_of_member pg pn procn i p s (fun pn p => do_leave pg gn pn (id p)) _ Hn Hp Hg).
  by apply do_leave_spec.
Qed.

(** C14. The disconnection of a member takes it out of every group it is in, and
    changes no other membership, whatever groups are removed on the way. *)
Theorem G_handle_kill_removes (pg pn procn : list Z) (i : Z) (p : proc) (s : St) :
  groups_ok (sess s) ->
  G_private_to_names (S:=St) pg s = Ok (Some (pn, procn)) s ->
  proc_by_name procn s = Some (i, p) -> in_group_states (Gstate (sess s)) = true ->
  wp ends (G_handle_kill pg) (fun _ => gone pg (id p) s) s.
Proof.
  intros Hok Hn Hp Hg. apply wp_ends; [apply handle_kill_stops|].
  apply (wp_of_member pg pn procn i p s (fun pn p => my ← gets My;
    ses ← (if id p =? id my then gets (Sess_get_session pn) else mret (-1));
    for_groups (kill_in_group pg (id p) ses)) _ Hn Hp Hg).
  wp_step. wp_step. wp_step. case_match; wp_step; by apply kill_all_spec.
Qed.
End Leave.

(** Bob leaves one group, and goes out of both; "solo" goes with him. *)
Example G_handle_leave_removes_witness :
  groups_ok (sess demo_groups) /\
  wp ends (G_handle_leave (demo_name "#bob#a") (demo_name "rooms"))
    (fun _ => removed (demo_name "rooms") (demo_name "#bob#a") (id demo_a) demo_groups) demo_groups.
Proof.
  split; [apply demo_groups_ok|].
  apply (G_handle_leave_removes _ _ (str_bytes "bob") (str_bytes "a") 0 demo_a);
    [apply demo_groups_ok|reflexivity..].
Defined.
Example G_handle_kill_removes_witness :
  groups_ok (sess demo_groups) /\
  wp ends (G_handle_kill (demo_name "#bob#a"))
    (fun _ => gone (demo_name "#bob#a") (id demo_a) demo_groups) demo_groups.
Proof.
  split; [apply demo_groups_ok|].
  apply (G_handle_kill_removes _ (str_bytes "bob") (str_bytes "a") 0 demo_a);
    [apply demo_groups_ok|reflexivity..].
Defined.
Example G_handle_leave_run :
  ran (G_handle_leave (demo_name "#bob#a") (demo_name "rooms")) demo_groups (fun _ s => members_of s) =
  Some [(str_bytes "rooms", [str_bytes "#al#a"; str_bytes "#eve#b"]);
        (str_bytes "solo", [str_bytes "#bob#a"])].
Proof. vm_compute. reflexivity. Qed.
Example G_handle_kill_run :
  ran (G_handle_kill (demo_name "#bob#a")) demo_groups (fun _ s => members_of s) =
  Some [(str_bytes "rooms", [str_bytes "#al#a"; str_bytes "#eve#b"])].
Proof. vm_compute. reflexivity. Qed.
