(* ===== verification/GroupsStates.v ===== *)
(** * The states of the groups algorithm

    [GOP] is the regular state; a transitional membership leads to [GTRANS], a regular
    one that is not purely subtractive to [GGATHER], where the GROUPS messages are
    awaited; [GGT] is [GGATHER] after another transitional membership.  With the state
    go the delivery threshold of the protocol, the down queue it takes messages from,
    and the priority under which the clients' events are put off. *)

From S2P Require Import Prelude NetTypes Configuration State Network SessionLayer Delivery Send.
From S2P Require Import Message Stdutil SessState Sessions Groups GroupsMess.
From S2P Require Import GroupsHandle GroupsMemb SessionC Machine SessFrames HandlerFrames HandlerStops.
From S2P Require Import Demo GroupsDemo.

Section States.
Context {L : SpuLib} {R : SessLib} {U : Stdutil}.

(** ** The diagram *)

Inductive upcall_event :=
  | Trans_memb_event (c : configuration) (m : membership_id)
  | Reg_memb_event (c : configuration) (m : membership_id)
  | Message_event (msg : scatter).
Definition run_upcall (e : upcall_event) : M St unit :=
  match e with
  | Trans_memb_event c m => Sess_deliver_trans_memb (SessionLayer := Session_c) c m
  | Reg_memb_event c m => Sess_deliver_reg_memb (SessionLayer := Session_c) c m
  | Message_event msg => Sess_deliver_message (SessionLayer := Session_c) msg
  end.

(** The memberships differ in size: daemons joined, and their groups are unknown. *)
Definition subtractive (x : sess_st) (c : configuration) : Prop :=
  Conf_num_procs (Trans_memb x) = Conf_num_procs c.

Inductive edge (x : sess_st) : groups_state -> upcall_event -> groups_state -> Prop :=
  | edge_trans c m : edge x GOP (Trans_memb_event c m) GTRANS
  | edge_cascade c m : edge x GGATHER (Trans_memb_event c m) GGT
  | edge_subtractive c m : subtractive x c -> edge x GTRANS (Reg_memb_event c m) GOP
  | edge_gather c m : ~ subtractive x c -> edge x GTRANS (Reg_memb_event c m) GGATHER
  | edge_again c m : edge x GGT (Reg_memb_event c m) GGATHER
  | edge_stay g msg : edge x g (Message_event msg) g
  | edge_done msg : edge x GGATHER (Message_event msg) GOP
  | edge_done_cascade msg : edge x GGT (Message_event msg) GTRANS.

(** What goes with each state. *)
Definition gate_of (g : groups_state) :=
  let gathering := match g with GOP | GTRANS => false | GGATHER | GGT => true end in
  (g, groups_state_code g, if gathering then AGREED_TYPE else UNRELIABLE_TYPE,
   Some (if gathering then GROUPS_DOWNQUEUE else NORMAL_DOWNQUEUE),
   if gathering then MEDIUM_PRIORITY else LOW_PRIORITY).
Definition gate_ok (s : St) : Prop := gate s = gate_of (Gstate (sess s)).

Lemma gate_edge s s' e g0 g : gate s' = gate_of g -> edge (sess s) g0 e g ->
  gate_ok s' /\ edge (sess s) g0 e (Gstate (sess s')).
Proof.
  intros E. assert (Gstate (sess s') = g) as H by exact (f_equal (fun t => t.1.1.1.1) E).
  unfold gate_ok. by rewrite H.
Qed.

(** ** Steps *)

Lemma wp_beside {A} (m : M St A) (Q : A -> St -> Prop) s :
  frame beside m -> (forall a s', gate s' = gate s -> Q a s') -> wp partial m Q s.
Proof.
  intros H HQ. eapply wp_mono; [apply (frame_wp gate), (gate_of_beside None), H|]. intros a s'. apply HQ.
Qed.

Lemma wp_set_gstate g (Q : unit -> St -> Prop) s :
  (forall s', gate s' = (g, groups_state_code g, (gate s).1.1.2, (gate s).1.2, (gate s).2) -> Q tt s') ->
  wp partial (set_gstate g) Q s.
Proof. intros HQ. unfold set_gstate. g_step. g_step. wp_step. by apply HQ. Qed.

Lemma threshold_gate t (Q : unit -> St -> Prop) s :
  (forall s', gate s' = ((gate s).1.1.1, t, (gate s).1.2, (gate s).2) -> Q tt s') ->
  wp partial (Prot_set_delivery_threshold t) Q s.
Proof.
  intros HQ. unfold Prot_set_delivery_threshold. wp_step. wp_step. wp_step. apply wp_fatal_if; [done|].
  intros _. wp_step. wp_step. apply wp_beside; [solve_frame|]. intros [] s' E. apply HQ.
  by rewrite E.
Qed.

Lemma shift_to_GOP_gate (Q : unit -> St -> Prop) s :
  (forall s', gate s' = (GOP, groups_state_code GOP, UNRELIABLE_TYPE, (gate s).1.2, (gate s).2) ->
     Q tt s') -> wp partial G_shift_to_GOP Q s.
Proof.
  intros HQ. unfold G_shift_to_GOP. wp_step. apply wp_set_gstate. intros s1 E1.
  apply threshold_gate. intros s2 E2. apply HQ. by rewrite E2, E1.
Qed.

Lemma trans_gate c m s : gate_ok s ->
  wp partial (G_handle_trans_memb c m) (fun _ s' => gate_ok s' /\
    edge (sess s) (Gstate (sess s)) (Trans_memb_event c m) (Gstate (sess s'))) s.
Proof.
  intros Hok. red in Hok. unfold G_handle_trans_memb. g_step. g_step. destruct (Gstate (sess s)) eqn:Hg; [|by apply wp_fatal| |by apply wp_fatal].
  - wp_step. apply wp_beside; [unfold save_trans; solve_frame|]. intros [] s1 E1.
    wp_step. apply wp_beside; [apply trans_groups_beside|]. intros [] s2 E2.
    wp_step. apply wp_set_gstate. intros s3 E3.
    apply wp_beside; [solve_frame|]. intros [] s4 E4.
    apply (gate_edge s s4 _ _ GTRANS); [by rewrite E4, E3, E2, E1, Hok|by constructor].
  - wp_step. apply wp_beside; [unfold save_trans; solve_frame|]. intros [] s1 E1.
    wp_step. apply wp_beside; [apply trans_gather_beside|]. intros [] s2 E2.
    apply wp_set_gstate. intros s3 E3.
    apply (gate_edge s s3 _ _ GGT); [by rewrite E3, E2, E1, Hok|by constructor].
Qed.

Lemma reg_gate c m s : gate_ok s ->
  wp partial (G_handle_reg_memb c m) (fun _ s' => gate_ok s' /\
    edge (sess s) (Gstate (sess s)) (Reg_memb_event c m) (Gstate (sess s'))) s.
Proof.
  intros Hok. red in Hok. unfold G_handle_reg_memb. g_step. g_step.
  destruct (Gstate (sess s)) eqn:Hg; [by apply wp_fatal| |by apply wp_fatal|].
  - wp_step. unfold save_reg. g_step. unfold reg_in_gtrans. do 4 g_step.
    change (Conf_num_procs (Reg_memb _)) with (Conf_num_procs c).
    change (Conf_num_procs (Trans_memb _)) with (Conf_num_procs (Trans_memb (sess s))).
    set (s0 := with_sess _ s). assert (E0 : gate s0 = gate_of GTRANS) by by rewrite <-Hok.
    destruct (Z.eqb_spec (Conf_num_procs (Trans_memb (sess s))) (Conf_num_procs c)) as [Hc|Hc].
    + wp_step. apply wp_beside; [apply reg_subtractive_beside|]. intros [] s1 E1.
      apply shift_to_GOP_gate. intros s2 E2.
      apply (gate_edge s s2 _ _ GOP); [by rewrite E2, E1, E0|by constructor].
    + wp_step. apply wp_beside; [apply reg_eliminate_beside|]. intros [] s1 E1.
      unfold start_gather. wp_step. g_step. wp_step.
      apply wp_beside; [apply beside_of_above, set_active_above|]. intros [] s2 E2.
      wp_step. unfold Prot_set_down_queue. wp_step. wp_step.
      apply threshold_gate. intros s3 E3. wp_step.
      apply wp_beside; [apply send_new_beside|]. intros [] s4 E4.
      apply wp_set_gstate. intros s5 E5.
      assert (Hgate : gate s5 = gate_of GGATHER).
      { rewrite E5, E4, E3.
        change (gate (s2 <| Down_queue_ptr := Some GROUPS_DOWNQUEUE |>)) with
          ((gate s2).1.1, Some GROUPS_DOWNQUEUE, (gate s2).2). by rewrite E2. }
      apply (gate_edge s s5 _ _ GGATHER Hgate). by constructor.
  - wp_step. unfold save_reg. g_step. unfold reg_in_ggt. do 2 g_step. wp_step.
    apply wp_beside; [apply take_gathered_beside|]. intros [] s1 E1. wp_step.
    apply wp_beside; [apply cascade_beside|]. intros [] s2 E2. do 4 g_step.
    destruct (G_update_synced_set_status _ _) as [l' ch]. wp_step.
    apply wp_beside; [solve_frame|]. intros [] s3 E3. wp_step.
    apply wp_beside; [solve_frame|]. intros [] s4 E4. wp_step.
    apply wp_beside; [apply reset_gathered_beside|]. intros [] s5 E5. wp_step.
    apply wp_beside; [apply send_refreshed_beside|]. intros [] s6 E6.
    apply wp_set_gstate. intros s7 E7.
    assert (Hgate : gate s7 = gate_of GGATHER).
    { rewrite E7, E6, E5, E4, E3, E2, E1. change (gate (with_sess _ s)) with (gate s). by rewrite Hok. }
    apply (gate_edge s s7 _ _ GGATHER Hgate). by constructor.
Qed.

Lemma stay_gate {A} (m : M St A) msg s : gate_ok s -> frame beside m ->
  wp partial m (fun _ s' => gate_ok s' /\
    edge (sess s) (Gstate (sess s)) (Message_event msg) (Gstate (sess s'))) s.
Proof.
  intros Hok H. apply wp_beside; [done|]. intros a s' E. red in Hok.
  apply (gate_edge s s' _ _ (Gstate (sess s))); [by rewrite E|constructor].
Qed.

(** The end of the exchange; [g] is [GGATHER] or [GGT]. *)
Definition ended (g : groups_state) : groups_state :=
  match g with GGT => GTRANS | _ => GOP end.
Lemma end_gather_gate g s : gate s = gate_of g -> in_group_states g = false ->
  wp partial end_gather (fun _ s' => gate s' = gate_of (ended g)) s.
Proof.
  intros Hok Hg. unfold end_gather. wp_step. unfold Prot_set_down_queue. wp_step. wp_step. g_step.
  wp_step. apply wp_beside; [apply beside_of_above, set_active_above|]. intros [] s1 E1.
  wp_step. apply wp_beside; [apply compute_and_notify_beside|]. intros [] s2 E2.
  assert (E : gate s2 = ((gate s).1.1, Some NORMAL_DOWNQUEUE, LOW_PRIORITY)) by (by rewrite E2, E1).
  rewrite Hok in E. assert (Gstate (sess s2) = g) as HG by exact (f_equal (fun t => t.1.1.1.1) E).
  do 2 g_step. wp_step. apply shift_to_GOP_gate. intros s3 E3.
  assert (Hok3 : gate s3 = gate_of GOP) by (by rewrite E3, E). rewrite HG. case_bool_decide as Hb.
  - wp_step. by rewrite Hok3, Hb.
  - assert (g = GGT) as -> by (by destruct g). do 4 g_step.
    destruct (gate_edge s3 s3 (Message_event []) GOP GOP Hok3 ltac:(constructor)) as [Hok3' _].
    assert (HG3 : Gstate (sess s3) = GOP) by exact (f_equal (fun t => t.1.1.1.1) Hok3).
    eapply wp_mono; [by apply trans_gate|]. intros [] s4 [H4 He]. rewrite HG3 in He.
    assert (Gstate (sess s4) = GTRANS) as HT by (by inversion He). red in H4. by rewrite H4, HT.
Qed.

Lemma handle_groups_gate msg s : gate_ok s ->
  wp partial (G_handle_groups msg) (fun _ s' => gate_ok s' /\
    edge (sess s) (Gstate (sess s)) (Message_event msg) (Gstate (sess s'))) s.
Proof.
  intros Hok. red in Hok. unfold G_handle_groups. do 2 g_step. wp_step; [by apply wp_fatal|].
  rename H into Hg. assert (Hstay : forall s' : St, gate s' = gate s -> gate_ok s' /\
    edge (sess s) (Gstate (sess s)) (Message_event msg) (Gstate (sess s'))).
  { intros s' E. apply (gate_edge s s' _ _ (Gstate (sess s))); [by rewrite E|constructor]. }
  wp_step. apply wp_beside; [solve_frame|]. intros h s1 E1.
  wp_step. apply wp_beside; [solve_frame|]. intros data s2 E2. do 2 g_step.
  assert (E : gate s2 = gate s) by congruence.
  wp_step; [wp_step; by apply Hstay|]. wp_step. wp_step.
  destruct (proc_by_name _ s2) as [[i p]|]; [|wp_step; by apply Hstay].
  wp_step. apply wp_beside; [apply gather_message_beside|]. intros [] s3 E3. do 4 g_step.
  wp_step; [wp_step; apply Hstay; congruence|].
  eapply wp_mono; [apply (end_gather_gate (Gstate (sess s))); [congruence|done]|].
  intros [] s4 E4. apply (gate_edge s s4 _ _ _ E4).
  destruct (Gstate (sess s)); cbn; try done; constructor.
Qed.

Lemma message_gate msg s : gate_ok s ->
  wp partial (C_deliver_message msg) (fun _ s' => gate_ok s' /\
    edge (sess s) (Gstate (sess s)) (Message_event msg) (Gstate (sess s'))) s.
Proof.
  intros Hok. red in Hok. unfold C_deliver_message.
  wp_step. apply wp_beside; [solve_frame|]. intros msg' s1 E1.
  wp_step. apply wp_beside; [solve_frame|]. intros h s2 E2.
  assert (E : gate s2 = gate s) by congruence.
  assert (HG : Gstate (sess s2) = Gstate (sess s)) by exact (f_equal (fun t => t.1.1.1.1) E).
  assert (Hok2 : gate_ok s2) by (red; congruence).
  assert (Hs : forall s' : St, gate_ok s' /\
      edge (sess s2) (Gstate (sess s2)) (Message_event msg') (Gstate (sess s')) ->
    gate_ok s' /\ edge (sess s) (Gstate (sess s)) (Message_event msg) (Gstate (sess s'))).
  { intros s' [H1 H2]. split; [done|]. rewrite HG in H2. inversion H2; subst; constructor. }
  eapply wp_mono; [|intros u s'; exact (Hs s')]. clear Hs.
  wp_step; [|wp_step; [|wp_step; [|wp_step]]].
  - by apply stay_gate, handle_join_mess_beside.
  - by apply stay_gate, handle_leave_mess_beside.
  - by apply stay_gate, handle_kill_mess_beside.
  - by apply handle_groups_gate.
  - by apply stay_gate, deliver_regular_beside.
Qed.

(** The buffers for the GROUPS messages are the one loop that may not end (see
    GroupsBufs.v). *)
Definition allowed (e : upcall_event) : failure -> Prop :=
  match e with Reg_memb_event _ _ => partial | _ => ends end.

(** C11. Whatever the protocol delivers, the groups algorithm moves along its diagram
    - an event that the state does not take ends the daemon - and the delivery
    threshold, the down queue and the clients' priority are those of the state: while
    GROUPS messages are awaited only they are sent, messages are delivered in agreed
    order at least, and clients wait. *)
Theorem groups_follow_diagram (e : upcall_event) (s : St) : gate_ok s ->
  wp (allowed e) (run_upcall e) (fun _ s' => gate_ok s' /\
    edge (sess s) (Gstate (sess s)) e (Gstate (sess s'))) s.
Proof.
  intros Hok. destruct e.
  - apply wp_ends; [apply handle_trans_stops|by apply trans_gate].
  - by apply reg_gate.
  - apply wp_ends; [apply deliver_message_stops|by apply message_gate].
Qed.
End States.

(** A membership without [demo_b] and [demo_c], and then the regular one: members only left. *)
Definition demo_alone : configuration :=
  mk_configuration 77 [demo_a] [mk_segment [demo_addr 100] [demo_a]].
Definition demo_gate : St :=
  demo_groups <| gs_gstate := 1 |> <| Prot_delivery_threshold := UNRELIABLE_TYPE |>.
Example groups_follow_diagram_witness :
  gate_ok demo_gate /\
  wp ends (run_upcall (Trans_memb_event demo_alone demo_id)) (fun _ s' => gate_ok s' /\
    edge (sess demo_gate) GOP (Trans_memb_event demo_alone demo_id) (Gstate (sess s'))) demo_gate.
Proof.
  split; [reflexivity|].
  apply (groups_follow_diagram (Trans_memb_event demo_alone demo_id) demo_gate). reflexivity.
Defined.
Example groups_diagram_run :
  ran (run_upcall (Trans_memb_event demo_alone demo_id);;
       run_upcall (Reg_memb_event demo_alone demo_id)) demo_gate
    (fun _ s => (Gstate (sess s), members_of s, MySyncedSet (sess s))) =
  Some (GOP, [(str_bytes "rooms", [str_bytes "#al#a"; str_bytes "#bob#a"]);
              (str_bytes "solo", [str_bytes "#bob#a"])], [1]).
Proof. vm_compute. reflexivity. Qed.
