(* ===== verification/GroupsBufs.v ===== *)
(** * The GROUPS buffers

    [G_build_new_groups_bufs] cuts the list of groups into buffers.  When each daemon's
    members fit in one buffer it ends; each entry of the list is in exactly one
    buffer, in the order of the list, and no buffer is longer than a message may be.
    The limit the code states, [MAX_LOCAL_GROUP_MEMBERS], is one too many: with as
    many members of one daemon in a group the loop does not end. *)

From S2P Require Import Prelude NetTypes Configuration State Network SessionLayer Delivery Send.
From S2P Require Import Message Stdutil SessState Sessions Groups GroupsMess.
From S2P Require Import Demo GroupsDemo.

Section Bufs.
Context {L : SpuLib} {R : SessLib}.

(** ** Lengths *)

Lemma length_name_field n : length (name_field n) = Z.to_nat MAX_GROUP_NAME.
Proof. apply length_resize. Qed.
Lemma length_daemon_names d :
  Z.of_nat (length (daemon_names d)) = Z.of_nat (length (MembersList d)) * MAX_GROUP_NAME.
Proof.
  unfold daemon_names. induction (MembersList d) as [|n l IH]; [done|].
  cbn [map concat length]. rewrite length_app, length_name_field, Nat2Z.inj_add, Nat2Z.inj_succ, IH.
  change (Z.of_nat (Z.to_nat MAX_GROUP_NAME)) with MAX_GROUP_NAME. lia.
Qed.
Lemma length_memb_id_bytes m : length (membership_id_bytes m) = 8%nat.
Proof. done. Qed.
Lemma length_daemon_bytes grp d : Z.of_nat (length (daemon_bytes grp d)) = daemon_size d.
Proof.
  unfold daemon_bytes, daemon_size. rewrite !length_app, !Nat2Z.inj_add, length_daemon_names.
  change (4 + (8 + (2 + Z.of_nat (length (MembersList d)) * MAX_GROUP_NAME)) =
          14 + Z.of_nat (length (MembersList d)) * MAX_GROUP_NAME). lia.
Qed.
Definition daemons_size (l : list daemon_members) : Z := foldr (fun d n => daemon_size d + n) 0 l.
Lemma length_group_bytes grp l :
  Z.of_nat (length (group_bytes grp l)) = GROUPS_BUF_GROUP_INFO_SIZE + daemons_size l.
Proof.
  unfold group_bytes. rewrite !length_app, !Nat2Z.inj_add, length_name_field.
  assert (Z.of_nat (length (concat (map (daemon_bytes grp) l))) = daemons_size l) as ->.
  { induction l as [|d l IH]; [done|]. cbn [map concat daemons_size foldr].
    rewrite length_app, Nat2Z.inj_add, IH. by rewrite length_daemon_bytes. }
  change (32 + (12 + (2 + (2 + daemons_size l))) = 48 + daemons_size l). lia.
Qed.

(** ** One buffer *)

Definition room (n : Z) : Prop := n + sizeof_message_header <= GROUPS_BUF_SIZE.

Lemma fit_daemons_spec n l : room n ->
  let '(w, rest) := fit_daemons n l in
  w ++ rest = l /\ room (n + daemons_size w) /\
  forall d rest', rest = d :: rest' -> ~ room (n + daemons_size w + daemon_size d).
Proof.
  revert n. induction l as [|d l IH]; intros n Hn; cbn [fit_daemons].
  - cbn. by rewrite Z.add_0_r.
  - destruct (Z.ltb_spec (GROUPS_BUF_SIZE - n) (daemon_size d + sizeof_message_header)) as [H|H].
    + cbn. rewrite Z.add_0_r. repeat split; [done|]. intros ? ? [= <- _]. unfold room. lia.
    + specialize (IH (n + daemon_size d) ltac:(unfold room; lia)).
      destruct (fit_daemons (n + daemon_size d) l) as [w rest]. destruct IH as (<- & H1 & H2).
      cbn [daemons_size foldr]. fold (daemons_size w).
      replace (n + (daemon_size d + daemons_size w)) with (n + daemon_size d + daemons_size w) by lia.
      done.
Qed.

(** What is left of the list at an iterator: the entries of the daemons, and the groups. *)
Definition entries_of (grp : group) (l : list daemon_members) : list (group * daemon_members) :=
  map (pair grp) l.
Definition entries (l : list group) : list (group * daemon_members) :=
  concat (map (fun g => entries_of g (DaemonsList g)) l).
Definition pending (it : list group * list daemon_members) : list (group * daemon_members) :=
  match it.1 with [] => [] | g :: l => entries_of g it.2 ++ entries l end.
(** The parts of groups in one buffer. *)
Definition part : Type := group * list daemon_members.
Definition part_bytes (p : part) : list Z := group_bytes p.1 p.2.
Definition parts_entries (l : list part) : list (group * daemon_members) :=
  concat (map (fun p => entries_of p.1 p.2) l).

Lemma pending_first l : pending (l, first_daemons l) = entries l.
Proof. by destruct l. Qed.

Lemma fill_groups_spec n l dmns : room n ->
  exists ps, let '(bytes, it) := fill_groups n l dmns in
  bytes = concat (map part_bytes ps) /\ room (n + Z.of_nat (length bytes)) /\
  parts_entries ps ++ pending it = pending (l, dmns).
Proof.
  revert n dmns. induction l as [|grp l IH]; intros n dmns Hn; cbn [fill_groups].
  - exists []. cbn. by rewrite Z.add_0_r.
  - destruct (Z.ltb_spec (GROUPS_BUF_SIZE - n) (GROUPS_BUF_GROUP_INFO_SIZE + sizeof_message_header)) as [H|H].
    + exists []. cbn. by rewrite Z.add_0_r.
    + assert (Hn' : room (n + GROUPS_BUF_GROUP_INFO_SIZE)) by (unfold room; lia).
      pose proof (fit_daemons_spec _ dmns Hn') as Hf.
      destruct (fit_daemons _ dmns) as [w rest]. destruct Hf as (<- & Hroom & _).
      assert (Hlen : n + Z.of_nat (length (group_bytes grp w)) =
        n + GROUPS_BUF_GROUP_INFO_SIZE + daemons_size w) by (rewrite length_group_bytes; lia).
      destruct rest as [|d rest].
      * destruct (IH (n + Z.of_nat (length (group_bytes grp w))) (first_daemons l)) as (ps & Hps).
        { by rewrite Hlen. }
        destruct (fill_groups _ l _) as [bytes it]. destruct Hps as (-> & H1 & H2).
        exists ((grp, w) :: ps). cbn [map concat]. split; [done|split].
        -- rewrite length_app, Nat2Z.inj_add.
           by replace (n + (Z.of_nat (length (group_bytes grp w)) + Z.of_nat (length (concat (map part_bytes ps)))))
             with (n + Z.of_nat (length (group_bytes grp w)) + Z.of_nat (length (concat (map part_bytes ps)))) by lia.
        -- unfold parts_entries in *. cbn [map concat]. rewrite <-app_assoc, H2, pending_first.
           unfold pending. cbn. by rewrite app_nil_r.
      * exists [(grp, w)]. cbn [map concat]. rewrite app_nil_r. split; [done|split].
        -- by rewrite Hlen.
        -- unfold parts_entries, pending, entries_of. cbn. rewrite app_nil_r, map_app.
           by rewrite <-app_assoc.
Qed.

(** ** Progress *)

(** One less than the limit fits in a buffer of its own, the header of the message counted. *)
Definition fits d : Prop := Z.of_nat (length (MembersList d)) < MAX_LOCAL_GROUP_MEMBERS.
Lemma fits_room d : fits d <->
  room (GROUPS_BUF_PREAMBLE_SIZE + GROUPS_BUF_GROUP_INFO_SIZE + daemon_size d).
Proof.
  unfold fits, room, daemon_size. change MAX_LOCAL_GROUP_MEMBERS with 3122.
  change GROUPS_BUF_PREAMBLE_SIZE with 9. change GROUPS_BUF_GROUP_INFO_SIZE with 48.
  change GROUPS_BUF_DAEMON_INFO_SIZE with 14. change MAX_GROUP_NAME with 32.
  change sizeof_message_header with 48. change GROUPS_BUF_SIZE with 100000. lia.
Qed.

Definition all_fit (l : list group) : Prop := Forall (fun g => Forall fits (DaemonsList g)) l.
Definition it_ok (it : list group * list daemon_members) : Prop :=
  match it.1 with [] => True | _ :: l => Forall fits it.2 /\ all_fit l end.
Definition groups_left (l : list group) : nat := list_sum (map (fun g => S (length (DaemonsList g))) l).
Definition left_over (it : list group * list daemon_members) : nat :=
  match it.1 with [] => O | _ :: l => S (length it.2 + groups_left l) end.

Lemma first_ok l : all_fit l -> it_ok (l, first_daemons l).
Proof. destruct l as [|g l]; [done|]. by intros [H1 H2]%Forall_cons. Qed.
Lemma first_left l : left_over (l, first_daemons l) = groups_left l.
Proof. by destruct l. Qed.

Lemma fill_progress n l dmns : room n -> it_ok (l, dmns) ->
  it_ok (fill_groups n l dmns).2 /\ (left_over (fill_groups n l dmns).2 <= left_over (l, dmns))%nat /\
  (n <= GROUPS_BUF_PREAMBLE_SIZE -> l <> [] ->
   (left_over (fill_groups n l dmns).2 < left_over (l, dmns))%nat).
Proof.
  revert n dmns. induction l as [|grp l IH]; intros n dmns Hn Hok; [done|]. cbn [fill_groups].
  destruct (Z.ltb_spec (GROUPS_BUF_SIZE - n) (GROUPS_BUF_GROUP_INFO_SIZE + sizeof_message_header)) as [H|H].
  { split; [done|split; [done|]]. intros H9. exfalso. change (GROUPS_BUF_PREAMBLE_SIZE) with 9 in H9.
    change (GROUPS_BUF_SIZE - n < 48 + 48) in H. change GROUPS_BUF_SIZE with 100000 in H. lia. }
  destruct Hok as [Hd Hl]. cbn in Hd, Hl.
  assert (Hn' : room (n + GROUPS_BUF_GROUP_INFO_SIZE)) by (unfold room; lia).
  pose proof (fit_daemons_spec _ dmns Hn') as Hf.
  destruct (fit_daemons _ dmns) as [w rest]. destruct Hf as (<- & Hroom & Hfull).
  apply Forall_app in Hd as [_ Hrest]. destruct rest as [|d rest].
  - destruct (IH (n + Z.of_nat (length (group_bytes grp w))) (first_daemons l)) as (H1 & H2 & _).
    { rewrite length_group_bytes. unfold room in *. lia. }
    { by apply first_ok. }
    destruct (fill_groups _ l _) as [bytes it]. rewrite first_left in H2.
    split; [done|]. unfold left_over at 2 4. cbn in *. lia.
  - unfold left_over. cbn. rewrite length_app. cbn [length]. split; [done|split; [lia|]].
    intros H9 _. assert (w <> []) as Hw; [|destruct w; [done|cbn; lia]].
    intros ->. apply (Hfull d rest eq_refl). cbn. rewrite Z.add_0_r.
    apply Forall_cons in Hrest as [Hd%fits_room _]. unfold room in *. lia.
Qed.

(** ** All the buffers *)

Definition buffer (x : sess_st) (first_time : bool) (ps : list part) : list Z :=
  preamble x first_time ++ concat (map part_bytes ps).
Definition sendable (b : list Z) : Prop := room (Z.of_nat (length b)).

Lemma length_preamble x b : Z.of_nat (length (preamble x b)) =
  GROUPS_BUF_PREAMBLE_SIZE + if b then 4 + 4 * Z.of_nat (length (MySyncedSet x)) else 0.
Proof.
  assert (H : forall l, length (concat (map bytes32 l)) = (4 * length l)%nat).
  { induction l as [|y l IH]; [done|]. cbn [map concat]. rewrite length_app, IH, length_bytes32.
    cbn. lia. }
  unfold preamble. rewrite length_app, length_memb_id_bytes. destruct b; [|done].
  rewrite !length_app, H, length_bytes32. unfold GROUPS_BUF_PREAMBLE_SIZE. cbn [length]. lia.
Qed.

Lemma build_buf_spec x b it : room (Z.of_nat (length (preamble x b))) ->
  let it0 := if b then (GroupsList x, first_daemons (GroupsList x)) else it in
  exists ps, let '(buf, it') := G_build_groups_buf x b it in
  buf = buffer x b ps /\ sendable buf /\ parts_entries ps ++ pending it' = pending it0.
Proof.
  intros Hroom it0. unfold G_build_groups_buf. fold it0.
  destruct (fill_groups_spec (Z.of_nat (length (preamble x b))) it0.1 it0.2 Hroom) as (ps & Hps).
  exists ps. destruct (fill_groups _ it0.1 it0.2) as [bytes it']. destruct Hps as (-> & H1 & H2).
  split; [done|split; [|by rewrite H2; destruct it0]].
  unfold sendable. by rewrite length_app, Nat2Z.inj_add.
Qed.

Definition later_bufs x (pss : list (list part)) : list (list Z) := map (buffer x false) pss.

Lemma build_later x fuel it bufs (s : St) : it_ok it -> (left_over it < fuel)%nat ->
  exists pss, build_bufs x fuel false it bufs s = Ok (rev (later_bufs x pss) ++ bufs) s /\
    concat (map parts_entries pss) = pending it /\ Forall sendable (later_bufs x pss).
Proof.
  revert it bufs. induction fuel as [|fuel IH]; intros it bufs Hok Hf; [lia|]. cbn [build_bufs].
  assert (Hroom : room (Z.of_nat (length (preamble x false)))).
  { by rewrite length_preamble. }
  destruct (build_buf_spec x false it Hroom) as (ps & Hps). cbn in Hps.
  pose proof (fill_progress (Z.of_nat (length (preamble x false))) it.1 it.2 Hroom
    ltac:(by destruct it)) as (Hok' & Hle & Hlt).
  unfold G_build_groups_buf in *.
  destruct (fill_groups _ it.1 it.2) as [bytes it']. cbn in Hok', Hle, Hlt.
  destruct Hps as (-> & Hs & He). destruct it'.1 as [|g l] eqn:El.
  - exists [ps]. cbn. split; [done|split; [|by repeat constructor]].
    rewrite app_nil_r. unfold pending at 1 in He. rewrite El, app_nil_r in He. exact He.
  - destruct (IH it' (buffer x false ps :: bufs) Hok') as (pss & -> & H1 & H2).
    { assert (it.1 <> []) as Hne.
      { intros E. unfold left_over in Hle at 2. cbn in Hle. rewrite E in Hle.
        unfold left_over in Hle. rewrite El in Hle. lia. }
      specialize (Hlt ltac:(by rewrite length_preamble) Hne). destruct it. cbn in *. lia. }
    exists (ps :: pss). cbn [map concat rev later_bufs]. fold (later_bufs x pss).
    split; [by rewrite <-app_assoc|split; [by rewrite H1|by constructor]].
Qed.

(** C37. When no daemon has as many as [MAX_LOCAL_GROUP_MEMBERS] members in a group, the
    building of the GROUPS buffers returns.  They hold each daemon's entry in each
    group exactly once, whole and in the order of the list; the first buffer alone has
    the synced set; and with the header of its message each fits in [GROUPS_BUF_SIZE]. *)
Theorem G_build_new_groups_bufs_spec (s : St) :
  all_fit (GroupsList (sess s)) -> Z.of_nat (length (MySyncedSet (sess s))) <= MAX_PROCS_RING ->
  wp total G_build_new_groups_bufs (fun _ s' => exists first rest,
    let bufs := buffer (sess s) true first :: map (buffer (sess s) false) rest in
    sess s' = (sess s) <| Groups_bufs := rev bufs ++ Groups_bufs (sess s) |> /\
    concat (map parts_entries (first :: rest)) = entries (GroupsList (sess s)) /\
    Forall sendable bufs) s.
Proof.
  intros Hfit Hset. unfold G_build_new_groups_bufs. wp_step. wp_step. set (x := sess s) in *.
  assert (Hroom : room (Z.of_nat (length (preamble x true)))).
  { rewrite length_preamble. unfold room. change GROUPS_BUF_PREAMBLE_SIZE with 9.
    change GROUPS_BUF_SIZE with 100000. change sizeof_message_header with 48.
    change MAX_PROCS_RING with 128 in Hset. lia. }
  destruct (build_buf_spec x true ([], []) Hroom) as (first & Hps). cbn in Hps.
  pose proof (fill_progress _ _ _ Hroom (first_ok _ Hfit)) as (Hok' & Hle & _).
  unfold bufs_fuel. fold (groups_left (GroupsList x)). rewrite first_left in Hle.
  remember (S (groups_left (GroupsList x))) as k eqn:Hk. cbn [build_bufs].
  unfold G_build_groups_buf in *. cbn [fst snd] in *.
  fold x in Hok', Hle. destruct (fill_groups _ (GroupsList x) _) as [bytes it].
  cbn in Hok', Hle, Hps. destruct Hps as (-> & Hs & He). rewrite pending_first in He.
  destruct it.1 as [|g l] eqn:El.
  - g_step. wp_step. g_step. exists first, []. cbn.
    unfold pending at 1 in He. rewrite El, app_nil_r in He. rewrite app_nil_r.
    split; [done|split; [done|by repeat constructor]].
  - destruct (build_later x k it
      (buffer x true first :: Groups_bufs x) s Hok' ltac:(lia)) as (pss & Hrun & H1 & H2).
    g_step. apply (wp_eq _ _ (mret (rev (later_bufs x pss) ++ buffer x true first :: Groups_bufs x)));
      [exact Hrun|]. g_step. g_step. exists first, pss.
    cbn [map concat rev]. rewrite H1, He. split; [by rewrite <-app_assoc|split; [done|by constructor]].
Qed.

(** ** The limit *)

Lemma limit_stuck n grp d l : Z.of_nat (length (MembersList d)) = MAX_LOCAL_GROUP_MEMBERS ->
  GROUPS_BUF_PREAMBLE_SIZE <= n -> (fill_groups n (grp :: l) [d]).2 = (grp :: l, [d]).
Proof.
  intros Hd Hn. cbn [fill_groups]. destruct (_ <? _); [done|]. cbn [fit_daemons].
  destruct (Z.ltb_spec (GROUPS_BUF_SIZE - (n + GROUPS_BUF_GROUP_INFO_SIZE))
    (daemon_size d + sizeof_message_header)) as [|H]; [done|]. exfalso.
  assert (fits d) as Hf; [|red in Hf; lia]. apply fits_room. unfold room in *. lia.
Qed.

(** C38. When the only group has the members of one daemon, [MAX_LOCAL_GROUP_MEMBERS] of
    them - as many as the code says there may be -, the building of the buffers never
    ends: the entry fits in no buffer, and each round allocates another. *)
Theorem bufs_limit_loops (s : St) (grp : group) (d : daemon_members) (fuel : nat)
    (bufs : list (list Z)) :
  GroupsList (sess s) = [grp] -> DaemonsList grp = [d] ->
  Z.of_nat (length (MembersList d)) = MAX_LOCAL_GROUP_MEMBERS ->
  build_bufs (sess s) fuel true ([], []) bufs s = Fail OutOfFuel.
Proof.
  intros Hl Hd Hm. assert (Hpre : forall b,
    GROUPS_BUF_PREAMBLE_SIZE <= Z.of_nat (length (preamble (sess s) b))).
  { intros b. rewrite length_preamble. destruct b; lia. }
  enough (forall b it bufs, (if b : bool then (GroupsList (sess s), first_daemons (GroupsList (sess s)))
      else it) = ([grp], [d]) -> build_bufs (sess s) fuel b it bufs s = Fail OutOfFuel) as H.
  { apply H. by rewrite Hl; cbn; rewrite Hd. }
  clear bufs. induction fuel as [|fuel IH]; intros b it bufs Hit; [done|]. cbn [build_bufs].
  unfold G_build_groups_buf. rewrite Hit. cbn [fst snd].
  pose proof (limit_stuck (Z.of_nat (length (preamble (sess s) b))) grp d [] Hm (Hpre b)) as Hst.
  destruct (fill_groups _ [grp] [d]) as [bytes it']. cbn in Hst. subst it'. cbn.
  by apply IH.
Qed.
End Bufs.

Example G_build_new_groups_bufs_spec_witness :
  all_fit (GroupsList (sess demo_groups)) /\
  wp total G_build_new_groups_bufs (fun _ s' => exists first rest,
    let bufs := buffer (sess demo_groups) true first :: map (buffer (sess demo_groups) false) rest in
    sess s' = (sess demo_groups) <| Groups_bufs := rev bufs ++ Groups_bufs (sess demo_groups) |> /\
    concat (map parts_entries (first :: rest)) = entries (GroupsList (sess demo_groups)) /\
    Forall sendable bufs) demo_groups.
Proof.
  assert (H : all_fit (GroupsList (sess demo_groups))) by repeat constructor.
  split; [exact H|]. apply (G_build_new_groups_bufs_spec demo_groups H). done.
Defined.

Definition demo_crowd : daemon_members := mk_daemon_members 1 demo_id (replicate 3122 (demo_name "#m#a")).
Definition demo_full : St := with_sess (fun x => x <| GroupsList := [solo <| DaemonsList := [demo_crowd] |>] |>)
  demo_groups.
Example bufs_limit_loops_witness :
  build_bufs (sess demo_full) 10 true ([], []) [] demo_full = Fail OutOfFuel.
Proof.
  apply (bufs_limit_loops demo_full (solo <| DaemonsList := [demo_crowd] |>) demo_crowd 10 []);
    [reflexivity|reflexivity|]. change (MembersList demo_crowd) with (replicate 3122 (demo_name "#m#a")).
  by rewrite length_replicate.
Defined.
