(* ===== verification/GroupsSets.v ===== *)
(** * The synced set, and the daemons that go

    The synced set is the daemons this one has exchanged its groups with, in the order
    of the configuration.  The merge of two sets that have no daemon in common keeps
    that order; sets that intersect end the process.  The loop that takes the
    partitioned daemons out of a group while it walks over them comes to a filter. *)

From Stdlib Require Import Sorted.
From S2P Require Import Prelude NetTypes Configuration State Network SessionLayer Demo Delivery Send.
From S2P Require Import Machine Stdutil Message SessState Sessions Groups GroupsMess GroupsHandle GroupsMemb.
From S2P Require Import SessionC SessFrames SklFacts GroupsOrder GroupsSpec GroupsDemo.

Section Sets.
Context {L : SpuLib} {R : SessLib}.

(** ** Merging *)

Definition before cn (p q : Z) : Prop := conf_index cn p < conf_index cn q.
Definition in_order cn (l : list Z) : Prop := StronglySorted (before cn) l.
Definition all_known cn (l : list Z) : Prop := Forall (fun p => 0 <= conf_index cn p) l.

(** The rest of a merge: what is written is before what is left. *)
Record merging cn (l r acc : list Z) : Prop := {
  mg_left : in_order cn l; mg_right : in_order cn r; mg_acc : in_order cn acc;
  mg_known_l : all_known cn l; mg_known_r : all_known cn r;
  mg_before : Forall (fun a => Forall (before cn a) (l ++ r)) acc;
  mg_room : Z.of_nat (length acc + length l + length r) <= MAX_PROCS_RING }.

Lemma merging_sym cn l r acc : merging cn l r acc -> merging cn r l acc.
Proof.
  intros []. split; try done; [|lia]. eapply Forall_impl; [eassumption|]. intros a Ha.
  apply Forall_app. by apply Forall_app in Ha as [? ?].
Qed.
Lemma merging_left cn p l r acc : merging cn (p :: l) r acc -> Forall (before cn p) r ->
  merging cn l r (acc ++ [p]).
Proof.
  intros [Hl Hr Ha Hkl Hkr Hb Hroom] Hp. inversion_clear Hl as [|? ? Hl' Hpl].
  apply Forall_cons in Hkl as [_ Hkl]. split; try done.
  - apply StronglySorted_snoc; [done|]. eapply Forall_impl; [exact Hb|]. cbn. intros a Hab.
    by apply Forall_cons in Hab as [? _].
  - apply Forall_app. split; [|constructor; [by apply Forall_app|constructor]].
    eapply Forall_impl; [exact Hb|]. cbn. intros a Hab. by apply Forall_cons in Hab as [_ ?].
  - rewrite length_app. cbn in *. lia.
Qed.

Definition meet (l r : list Z) : Prop := exists p, p ∈ l /\ p ∈ r.
Definition merged cn (l r acc t : list Z) : Prop :=
  in_order cn t /\ t ≡ₚ acc ++ l ++ r /\ ~ meet l r.

Lemma before_all cn p q r : before cn p q -> in_order cn (q :: r) -> Forall (before cn p) (q :: r).
Proof.
  intros Hp H. inversion_clear H as [|? ? _ Hq]. constructor; [done|].
  eapply Forall_impl; [exact Hq|]. unfold before in *. intros x Hx. cbn in *. lia.
Qed.
Lemma not_in_later cn p r : Forall (before cn p) r -> p ∉ r.
Proof. intros H Hin. rewrite Forall_forall in H. specialize (H p Hin). unfold before in H. lia. Qed.

Lemma merged_left cn p l r acc t : Forall (before cn p) r ->
  merged cn l r (acc ++ [p]) t -> merged cn (p :: l) r acc t.
Proof.
  intros Hp (H1 & H2 & H3). split; [done|split].
  - rewrite H2. by rewrite <-app_assoc.
  - intros (x & [->|Hl]%elem_of_cons & Hr); [by eapply not_in_later|]. apply H3. by exists x.
Qed.
Lemma merged_sym cn l r acc t : merged cn l r acc t -> merged cn r l acc t.
Proof.
  intros (H1 & H2 & H3). split; [done|split].
  - rewrite H2. f_equiv. apply Permutation_app_comm.
  - intros (x & ? & ?). apply H3. by exists x.
Qed.


Lemma merging_room cn l r acc : merging cn l r acc -> l ++ r <> [] ->
  (MAX_PROCS_RING <=? Z.of_nat (length acc)) = false.
Proof.
  intros [_ _ _ _ _ _ H] Hne. apply Z.leb_gt. destruct l, r; cbn [length] in H; try lia. done.
Qed.
Lemma merging_known cn p l r acc : merging cn (p :: l) r acc ->
  0 <= conf_index cn p /\ (conf_index cn p =? -1) = false.
Proof.
  intros Hm. pose proof (mg_known_l _ _ _ _ Hm) as Hk. apply Forall_cons in Hk as [Hk _].
  split; [done|]. apply Z.eqb_neq. lia.
Qed.

(** A check that passes. *)
Ltac pass := wp_step; first [apply wp_fatal_if; [done|] | apply wp_undef_if; [done|]]; intros _.

Lemma merge_sets_spec cn fuel l r acc s : (length l + length r < fuel)%nat -> merging cn l r acc ->
  wp (fun e => e = Fatal /\ meet l r) (merge_sets cn fuel l r acc)
    (fun t s' => s' = s /\ merged cn l r acc t) s.
Proof.
  revert l r acc. induction fuel as [|fuel IH]; intros l r acc Hf Hm; [lia|].
  (* the first of the left set goes, or of the right one *)
  assert (Hleft : forall p l', l = p :: l' -> Forall (before cn p) r ->
    wp (fun e => e = Fatal /\ meet l r)
      (undef_if (MAX_PROCS_RING <=? Z.of_nat (length acc));; merge_sets cn fuel l' r (acc ++ [p]))
      (fun t s' => s' = s /\ merged cn l r acc t) s).
  { intros p l' -> Hp. rewrite (merging_room _ _ _ _ Hm) by done. pass.
    eapply wp_mono; [eapply wp_allow; [|apply IH; [cbn in Hf; lia|by apply merging_left]]|].
    - intros e [? (x & ? & ?)]. split; [done|]. exists x. split; [by right|done].
    - intros t s' [-> H]. split; [done|]. by apply merged_left. }
  assert (Hright : forall q r', r = q :: r' -> Forall (before cn q) l ->
    wp (fun e => e = Fatal /\ meet l r)
      (undef_if (MAX_PROCS_RING <=? Z.of_nat (length acc));; merge_sets cn fuel l r' (acc ++ [q]))
      (fun t s' => s' = s /\ merged cn l r acc t) s).
  { intros q r' -> Hq. apply merging_sym in Hm as Hm'.
    rewrite (merging_room _ _ _ _ Hm) by (by destruct l). pass.
    eapply wp_mono; [eapply wp_allow; [|apply IH; [cbn in Hf; lia|by apply merging_sym, merging_left]]|].
    - intros e [? (x & ? & ?)]. split; [done|]. exists x. split; [done|by right].
    - intros t s' [-> H]. split; [done|]. by apply merged_sym, merged_left, merged_sym. }
  cbn [merge_sets]. destruct l as [|p l], r as [|q r].
  - cbn. apply wp_ret. split; [done|]. split; [apply Hm|]. split; [by rewrite app_nil_r|].
    intros (x & H & _). by apply elem_of_nil in H.
  - pose proof (merging_known _ _ _ _ _ (merging_sym _ _ _ _ Hm)) as [H0 H1]. cbn.
    rewrite H1. cbn. do 4 wp_step. rewrite andb_false_r. cbn.
    rewrite orb_true_r. do 2 wp_step. by apply Hright.
  - pose proof (merging_known _ _ _ _ _ Hm) as [H0 H1]. cbn.
    rewrite H1. cbn. do 4 wp_step. rewrite orb_true_r. wp_step. wp_step.
    by apply Hleft.
  - pose proof (merging_known _ _ _ _ _ Hm) as [H0 H1].
    pose proof (merging_known _ _ _ _ _ (merging_sym _ _ _ _ Hm)) as [H2 H3].
    cbn. rewrite H1, H3. cbn. do 4 wp_step. rewrite !andb_true_r, !orb_false_r.
    destruct (Z.ltb_spec (conf_index cn p) (conf_index cn q)) as [Hlt|Hge].
    { wp_step. wp_step. apply Hleft; [done|]. apply before_all; [done|apply Hm]. }
    destruct (Z.ltb_spec (conf_index cn q) (conf_index cn p)) as [Hlt|Hge'].
    { wp_step. wp_step. apply Hright; [done|]. apply before_all; [done|apply Hm]. }
    apply wp_fatal. split; [done|]. exists p. split; [by left|].
    replace q with p; [by left|]. apply (conf_index_cases cn p); lia.
Qed.

(** C39. Adding another synced set: sets in the order of the configuration that have no
    daemon in common are merged in that order, and sets that intersect - which the
    protocol rules out - are the only ones on which the process ends. *)
Theorem G_add_to_synced_set_merges (sset : list Z) (s : St) :
  let cn := Config s in let mine := MySyncedSet (sess s) in
  in_order cn mine -> all_known cn mine -> in_order cn sset -> all_known cn sset ->
  Z.of_nat (length mine + length sset) <= MAX_PROCS_RING ->
  wp (fun e => e = Fatal /\ meet mine sset) (G_add_to_synced_set sset)
    (fun _ s' => exists t, sess s' = (sess s) <| MySyncedSet := t |> /\
       in_order cn t /\ t ≡ₚ mine ++ sset /\ ~ meet mine sset) s.
Proof.
  intros cn mine H1 H2 H3 H4 H5. unfold G_add_to_synced_set. do 5 g_step.
  eapply wp_mono; [apply merge_sets_spec; [lia|split; first [done|constructor]]|].
  intros t s' [-> H]. g_step. exists t. split; [done|exact H].
Qed.

(** ** Eliminating daemons *)

Section Eliminate.
Context {U : Stdutil} {HU : StdutilLaws U}.

Definition stays (x : sess_st) (d : daemon_members) : Prop := to_eliminate x d = false.
#[local] Instance stays_dec x d : Decision (stays x d).
Proof. unfold stays. apply _. Defined.

(** The group without the daemons that go, and its count. *)
Definition eliminated (x : sess_st) (grp : group) : group :=
  let l := filter (stays x) (DaemonsList grp) in
  grp <| DaemonsList := l |> <| g_num_members := zsum members_count l |>.

Lemma sorted_filter_app {A} (P : relation A) (Q : A -> Prop) `{!forall a, Decision (Q a)} l l' :
  StronglySorted P (l ++ l') -> StronglySorted P (filter Q l ++ l').
Proof.
  induction l as [|a l IH]; [done|]. cbn [app]. intros [Hs Ha]%StronglySorted_inv.
  rewrite filter_cons. case_decide; [|by apply IH]. cbn. constructor; [by apply IH|].
  apply Forall_app in Ha as [H1 H2]. apply Forall_app. split; [|done].
  rewrite Forall_forall in *. intros y [_ Hy]%list_elem_of_filter. by apply H1.
Qed.

Lemma remove_daemon_spec cn grp d l1 l2 E (Q : group -> St -> Prop) s :
  skl_sorted (cmp_id cn) dm_proc_id (l1 ++ d :: l2) -> DaemonsList grp = l1 ++ d :: l2 ->
  Q (grp <| DaemonsList := l1 ++ l2 |> <| g_num_members ::= fun n => n - members_count d |>) s ->
  wp E (G_remove_daemon cn grp d) Q s.
Proof.
  intros Hs Hl HQ. unfold G_remove_daemon, find_daemon. rewrite Hl.
  rewrite (find_sorted _ _ (cmp_id cn) dm_proc_id _ _ Hs).
  rewrite (skl_find_lookup (cmp_id cn) dm_proc_id _ (length l1) d _ Hs);
    [|by apply list_lookup_middle|apply cmp_refl].
  wp_step. apply wp_or_fail; [done|]. intros i [= <-]. wp_step. replace (l1 ++ l2) with (delete (length l1) (DaemonsList grp)) in HQ; [exact HQ|].
  rewrite Hl. apply delete_middle.
Qed.

Lemma zsum_snoc {A} (f : A -> Z) l x : zsum f (l ++ [x]) = zsum f l + f x.
Proof. rewrite zsum_app. unfold zsum. cbn. lia. Qed.

(** The loop that removes the partitioned daemons - those outside the transitional
    membership, after a cascade - from the group it walks over keeps exactly the
    others, in order, with the right count, and tells whether one went. *)
Lemma G_eliminate_filters (grp : group) (s : St) :
  group_ok (Cn_active (sess s)) grp ->
  wp total (G_eliminate_partitioned_daemons_status grp) (fun r s' =>
    s' = s /\ r = (eliminated (sess s) grp, existsb (to_eliminate (sess s)) (DaemonsList grp)) /\
    group_ok (Cn_active (sess s)) r.1) s.
Proof.
  intros [Hs Hd Hc]. set (x := sess s). set (l := DaemonsList grp) in *.
  unfold G_eliminate_partitioned_daemons_status. fold l.
  eapply wp_mono; [apply (wp_for_fold_split total l _ _ (fun pre post r s' =>
    s' = s /\ r = (grp <| DaemonsList := filter (stays x) pre ++ post |>
      <| g_num_members := zsum members_count (filter (stays x) pre ++ post) |>,
      existsb (to_eliminate x) pre)))|].
  - split; [done|]. replace (zsum members_count _) with (g_num_members grp). by destruct grp.
  - intros pre d post r s' Hl [-> ->]. do 4 g_step. fold x. rewrite existsb_app, filter_app. cbn [existsb].
    rewrite orb_false_r. destruct (to_eliminate x d) eqn:E.
    + wp_step. apply remove_daemon_spec with (l1 := filter (stays x) pre) (l2 := post);
        [apply sorted_filter_app; by rewrite <-Hl|done|].
      wp_step. rewrite filter_cons_False by (unfold stays; congruence).
      rewrite filter_nil, app_nil_r, orb_true_r. split; [done|]. f_equal.
      replace (zsum members_count (filter (stays x) pre ++ post)) with
        (zsum members_count (filter (stays x) pre ++ d :: post) - members_count d); [by destruct grp|].
      rewrite !zsum_app. unfold zsum. cbn. lia.
    + wp_step. rewrite filter_cons_True by done. rewrite filter_nil, <-app_assoc, orb_false_r. done.
  - intros r s' [-> ->]. rewrite app_nil_r. split; [done|split; [done|]]. cbn.
    split; [by apply skl_sorted_filter| |done].
    apply Forall_forall. intros d [_ Hin]%list_elem_of_filter. rewrite Forall_forall in Hd. by apply Hd.
Qed.
End Eliminate.
End Sets.

(** [demo_a] has exchanged its groups with [demo_c], and now does with [demo_b]. *)
Definition demo_synced : St := with_sess (fun x => x <| MySyncedSet := [1; 3] |>) demo_groups.
Example G_add_to_synced_set_merges_witness :
  in_order demo_conf [1; 3] /\
  wp (fun e => e = Fatal /\ meet [1; 3] [2]) (G_add_to_synced_set [2])
    (fun _ s' => exists t, sess s' = (sess demo_synced) <| MySyncedSet := t |> /\
       in_order demo_conf t /\ t ≡ₚ [1; 3] ++ [2] /\ ~ meet [1; 3] [2]) demo_synced.
Proof.
  assert (H : in_order demo_conf [1; 3]) by repeat constructor.
  split; [exact H|]. apply (G_add_to_synced_set_merges [2] demo_synced H); repeat constructor; done.
Defined.
Example G_add_to_synced_set_run :
  ran (G_add_to_synced_set [2]) demo_synced (fun _ s => MySyncedSet (sess s)) = Some [1; 2; 3] /\
  G_add_to_synced_set [3] demo_synced = Fail Fatal.
Proof. split; [vm_compute; reflexivity|reflexivity]. Qed.

Definition demo_cascade : St := with_sess (fun x => x <| Gstate := GGT |>
  <| Trans_memb := mk_configuration 77 [demo_a] [mk_segment [demo_addr 100] [demo_a]] |>) demo_groups.
Example G_eliminate_filters_witness :
  group_ok demo_conf rooms /\
  wp total (G_eliminate_partitioned_daemons_status rooms) (fun r s' =>
    s' = demo_cascade /\
    r = (eliminated (sess demo_cascade) rooms, existsb (to_eliminate (sess demo_cascade)) (DaemonsList rooms)) /\
    group_ok demo_conf r.1) demo_cascade.
Proof.
  assert (H : group_ok demo_conf rooms).
  { pose proof (ok_groups _ demo_groups_ok) as H. by apply Forall_cons in H as [[H _] _]. }
  split; [exact H|]. exact (G_eliminate_filters rooms demo_cascade H).
Defined.

(** * Private group names

    A client is known to all daemons by "#name#daemon".  [G_private_to_names] takes
    exactly the well-formed ones apart, and what it gives fits in the arrays of its
    callers; a name that [Sess_kill] builds of legal parts comes back as those parts. *)

Section Names.
Context {L : SpuLib} {R : SessLib}.

(** A part of a private group name that fits in [n] bytes with its null. *)
Definition legal_part (n : Z) (l : list Z) : Prop :=
  forallb legal_char l = true /\ 1 <= Z.of_nat (length l) < n.
Definition legal_names (a b : list Z) : Prop :=
  legal_part (MAX_PRIVATE_NAME + 1) a /\ legal_part MAX_PROC_NAME b.
Definition joined_name (a b : list Z) : list Z := 35 :: a ++ 35 :: b.

Lemma legal_not c l : forallb legal_char l = true -> c <= 35 -> c ∉ l.
Proof.
  intros H Hc Hin. rewrite forallb_forall in H. specialize (H c (proj1 (list_elem_of_In _ _) Hin)).
  unfold legal_char in H. lia.
Qed.
Lemma cstr_app a b : 0 ∉ a -> cstr (a ++ b) = a ++ cstr b.
Proof.
  induction a as [|x a IH]; [done|]. intros [H1 H2]%not_elem_of_cons. cbn.
  destruct (Z.eqb_spec x 0); [done|]. by rewrite IH.
Qed.
Lemma cstr_zero a b : 0 ∉ a -> cstr (a ++ 0 :: b) = a.
Proof. intros H. rewrite cstr_app by done. cbn. by rewrite app_nil_r. Qed.

Lemma split_names_spec t a b : 35 ∉ a -> split_names t = Some (a, b) <-> t = a ++ 35 :: b.
Proof.
  intros Ha. unfold split_names. split.
  - destruct (list_find _ t) as [[i c]|] eqn:E; [|done]. intros [= <- <-].
    apply list_find_Some in E as (Hi & -> & _). symmetry. by apply take_drop_middle.
  - intros ->. assert (list_find (fun c => c = 35) (a ++ 35 :: b) = Some (length a, 35)) as ->.
    { apply list_find_Some. split; [by apply list_lookup_middle|split; [done|]].
      intros j y Hj Hlt ->. rewrite lookup_app_l in Hj by done. apply Ha. by eapply list_elem_of_lookup_2. }
    cbn. rewrite take_app_length. replace (S (length a)) with (length (a ++ [35])) by (rewrite length_app; cbn; lia).
    replace (a ++ 35 :: b) with ((a ++ [35]) ++ b) by by rewrite <-app_assoc.
    by rewrite drop_app_length.
Qed.
Lemma split_names_first t a b : split_names t = Some (a, b) -> 35 ∉ a.
Proof.
  unfold split_names. destruct (list_find _ t) as [[i c]|] eqn:E; [|done]. intros [= <- _].
  apply list_find_Some in E as (Hi & -> & Hn). intros (j & Hj)%list_elem_of_lookup.
  apply lookup_take_Some in Hj as [Hj Hlt]. by apply (Hn j 35).
Qed.

Lemma cstr_joined n a b :
  cstr n = joined_name a b <-> n !! O = Some 35 /\ cstr (tail n) = a ++ 35 :: b.
Proof.
  unfold joined_name. destruct n as [|c n]; [by split; [|intros [[=] _]]|]. cbn.
  destruct (Z.eqb_spec c 0) as [->|Hne]; [by split; [|intros [[=] _]]|].
  split; [by intros [= -> ->]|by intros [[= ->] ->]].
Qed.
Lemma legal_names_bounds a b : legal_names a b <->
  (forallb legal_char a = true /\ 1 <= Z.of_nat (length a) < 11) /\
  (forallb legal_char b = true /\ 1 <= Z.of_nat (length b) < 20).
Proof. done. Qed.

Lemma joined_name_taken n a b (s : St) : 0 ∈ tail n -> cstr n = joined_name a b ->
  legal_names a b -> G_private_to_names (S:=St) n s = Ok (Some (a, b)) s.
Proof.
  intros H0 [H1 H2]%cstr_joined Hl.
  destruct (proj1 (legal_names_bounds _ _) Hl) as [[Ha1 Ha2] [Hb1 Hb2]].
  unfold G_private_to_names. rewrite bool_decide_true by exact H0. cbn.
  apply (split_names_spec _ a b) in H2; [|by apply legal_not]. rewrite H2, H1. cbn.
  change MAX_PRIVATE_NAME with 10. change MAX_PROC_NAME with 20. rewrite Ha1, Hb1.
  assert (Hb : (10 <? Z.of_nat (length a)) || (Z.of_nat (length a) <? 1)
    || (20 <=? Z.of_nat (length b)) || (Z.of_nat (length b) <? 1) = false) by lia.
  by rewrite Hb.
Qed.

Lemma private_to_names_ok n (s : St) : 0 ∈ tail n -> exists r, G_private_to_names (S:=St) n s = Ok r s.
Proof. intros H0. unfold G_private_to_names. rewrite bool_decide_true by exact H0. by eexists. Qed.
Lemma private_to_names_parts n a b (s : St) : 0 ∈ tail n ->
  G_private_to_names (S:=St) n s = Ok (Some (a, b)) s -> cstr n = joined_name a b /\ legal_names a b.
Proof.
  intros H0.
  unfold G_private_to_names. rewrite bool_decide_true by exact H0. cbn.
  rewrite cstr_joined, legal_names_bounds. intros H. injection H as H. revert H.
  change MAX_PRIVATE_NAME with 10. change MAX_PROC_NAME with 20.
  destruct (split_names (cstr (tail n))) as [[a' b']|] eqn:E; [|done]. cbn.
  apply split_names_first in E as Hf. apply (split_names_spec _ _ _ Hf) in E.
  destruct (_ || _) eqn:E1; [done|]. destruct (_ && _) eqn:E2; [|done]. intros [= <- <-].
  apply andb_true_iff in E2 as [E2 E3].
  destruct (n !! O) as [c|] eqn:En; cbn in E1; [|done].
  assert (c = 35) as -> by lia. repeat split; try done; lia.
Qed.

(** [G_private_to_names] accepts a field exactly when its string is "#a#b" with legal
    characters, a private name of 1 to [MAX_PRIVATE_NAME] bytes and a daemon's name
    that fits in [MAX_PROC_NAME] with its null; it gives the two parts. *)
Lemma G_private_to_names_spec (n a b : list Z) (s : St) : 0 ∈ tail n ->
  G_private_to_names (S:=St) n s = Ok (Some (a, b)) s <->
  cstr n = joined_name a b /\ legal_names a b.
Proof.
  intros H0. split; [by apply private_to_names_parts|by intros [H1 H2]; apply joined_name_taken].
Qed.

Lemma joined_no_null a b : legal_names a b -> 0 ∉ joined_name a b.
Proof.
  intros Hl. destruct (proj1 (legal_names_bounds _ _) Hl) as [[Ha _] [Hb _]].
  pose proof (legal_not 0 a Ha ltac:(lia)). pose proof (legal_not 0 b Hb ltac:(lia)).
  unfold joined_name. rewrite elem_of_cons, elem_of_app, elem_of_cons. intuition lia.
Qed.
Lemma cstr_no_null l : 0 ∉ l -> cstr l = l.
Proof. intros H. rewrite <-(app_nil_r l) at 1. rewrite cstr_app by done. apply app_nil_r. Qed.
Lemma name_field_short l : (length l < 32)%nat -> exists k, name_field l = l ++ 0 :: k.
Proof.
  intros H. unfold name_field. change (Z.to_nat MAX_GROUP_NAME) with 32%nat.
  exists (replicate (31 - length l) 0). rewrite resize_ge by lia. f_equal.
  by replace (32 - length l)%nat with (S (31 - length l)) by lia.
Qed.

(** C40. The name of a session whose name and daemon are legal, as it is put in the header
    of the message that ends it, is taken apart into the session and its daemon. *)
Theorem private_send_group_names (a b : list Z) (s : St) : legal_names a b ->
  G_private_to_names (S:=St) (name_field (cstr (private_send_group a b))) s =
  Ok (Some (a, b)) s.
Proof.
  intros Hl. destruct (proj1 (legal_names_bounds _ _) Hl) as [[Ha1 Ha2] [Hb1 Hb2]].
  assert (Hlen : (length (joined_name a b) < 32)%nat).
  { unfold joined_name. cbn. rewrite length_app. cbn. lia. }
  assert (private_send_group a b = joined_name a b) as ->.
  { unfold private_send_group. change ([35] ++ a ++ [35] ++ b) with (joined_name a b).
    change (Z.to_nat MAX_GROUP_NAME - 1)%nat with 31%nat. apply take_ge. lia. }
  pose proof (joined_no_null a b Hl) as Hz. rewrite (cstr_no_null _ Hz).
  destruct (name_field_short _ Hlen) as [k ->].
  apply joined_name_taken; [|by apply cstr_zero|done].
  unfold joined_name. cbn. rewrite !elem_of_app, elem_of_cons. right. by left.
Qed.
End Names.

(** "c1" at "mach_a". *)
Definition demo_names : list Z * list Z := ([99; 49], [109; 97; 99; 104; 95; 97]).

Lemma G_private_to_names_spec_witness :
  let n := name_field (joined_name (fst demo_names) (snd demo_names)) in
  0 ∈ tail n /\ legal_names (fst demo_names) (snd demo_names) /\
  G_private_to_names (S:=St) n demo_groups = Ok (Some demo_names) demo_groups.
Proof.
  cbn zeta. assert (H0 : 0 ∈ tail (name_field (joined_name (fst demo_names) (snd demo_names)))).
  { by apply (bool_decide_unpack _). }
  assert (Hl : legal_names (fst demo_names) (snd demo_names)).
  { unfold legal_names, legal_part. vm_compute. intuition congruence. }
  split; [exact H0|split; [exact Hl|]].
  apply (proj2 (G_private_to_names_spec _ (fst demo_names) (snd demo_names) demo_groups H0)).
  split; [reflexivity|exact Hl].
Defined.

Lemma private_send_group_names_witness :
  legal_names (fst demo_names) (snd demo_names) /\
  G_private_to_names (S:=St)
    (name_field (cstr (private_send_group (fst demo_names) (snd demo_names)))) demo_groups =
  Ok (Some demo_names) demo_groups.
Proof.
  assert (Hl : legal_names (fst demo_names) (snd demo_names)).
  { unfold legal_names, legal_part. vm_compute. intuition congruence. }
  split; [exact Hl|exact (private_send_group_names _ _ demo_groups Hl)].
Defined.
