(* ===== verification/AuthProps.v ===== *)
(** * Who may connect

    The rules of auth-ip.c are prefixes of addresses; and a session becomes
    operational only when every method its connection has to pass said so. *)

From S2P Require Import Prelude NetTypes Configuration State Network SessionLayer Delivery Send.
From S2P Require Import Message Stdutil SessState Sessions Acm SessAuth SessAccept.
From S2P Require Import Machine HandlerStops Demo GroupsDemo.

(** ** Prefixes *)

Lemma ip_mask_pow k : 0 <= k < 32 -> ip_mask (32 - k) = 2 ^ 32 - 2 ^ k.
Proof.
  intros Hk. unfold ip_mask, u32. replace (32 - (32 - k)) with k by lia.
  rewrite Z.shiftl_mul_pow2 by lia. change 4294967296 with (2 ^ 32).
  assert (0 < 2 ^ k < 2 ^ 32) by (split; [lia|apply Z.pow_lt_mono_r; lia]).
  replace (-1 * 2 ^ k) with (2 ^ 32 - 2 ^ k + -1 * 2 ^ 32) by ring.
  rewrite Z_mod_plus_full, Z.mod_small; lia.
Qed.
Lemma land_mask ip k : 0 <= ip < 2 ^ 32 -> 0 <= k < 32 ->
  Z.land ip (2 ^ 32 - 2 ^ k) = ip / 2 ^ k * 2 ^ k.
Proof.
  intros Hip Hk. replace (2 ^ 32 - 2 ^ k) with (Z.shiftl (Z.ones (32 - k)) k).
  2:{ rewrite Z.ones_equiv, Z.shiftl_mul_pow2 by lia.
      replace 32 with (32 - k + k) at 2 by lia. rewrite Z.pow_add_r by lia. lia. }
  rewrite <-Z.shiftl_mul_pow2, <-Z.shiftr_div_pow2 by lia.
  apply Z.bits_inj'. intros n Hn. rewrite Z.land_spec, !Z.shiftl_spec by lia.
  destruct (Z.ltb_spec n k) as [Hlt|Hge].
  { rewrite !(Z.testbit_neg_r _ (n - k)) by lia. by rewrite andb_false_r. }
  rewrite Z.shiftr_spec by lia. replace (n - k + k) with n by lia.
  destruct (Z.ltb_spec n 32) as [H1|H1].
  - rewrite Z.ones_spec_low by lia. by rewrite andb_true_r.
  - rewrite Z.ones_spec_high by lia. rewrite andb_false_r.
    destruct (Z.eq_dec ip 0) as [->|]; [by rewrite Z.bits_0|].
    rewrite Z.bits_above_log2; [done|lia|].
    apply Z.lt_le_trans with 32; [|lia]. apply Z.log2_lt_pow2; lia.
Qed.

(** A rule whose own address has the bits after the prefix set allows no one. *)
Definition in_network (client_ip : Z) (rule : Z * Z) : Prop :=
  let host := 2 ^ (32 - snd rule) in
  fst rule / host = client_ip / host /\ fst rule mod host = 0.

Lemma rule_matches_network ip net p : 0 <= ip < 2 ^ 32 -> 0 < p <= 32 ->
  rule_matches ip (net, p) = true <-> in_network ip (net, p).
Proof.
  intros Hip Hp. unfold rule_matches, in_network. cbn [fst snd]. rewrite Z.eqb_eq.
  replace p with (32 - (32 - p)) at 1 by lia. rewrite ip_mask_pow by lia.
  rewrite land_mask by lia.
  set (h := 2 ^ (32 - p)). assert (0 < h) by (apply Z.pow_pos_nonneg; lia).
  pose proof (Z.div_mod net h ltac:(lia)). split.
  - intros ->. rewrite Z.div_mul, Z.mod_mul by lia. done.
  - intros [E1 E2]. rewrite E1, E2 in *. lia.
Qed.

Definition rule_ok (rule : Z * Z) : Prop := 0 < snd rule <= 32.

(** A client is allowed exactly when its address is in the network of one of the rules:
    the bits of the prefix agree, and the rule's own address has no others. *)
Lemma ip_allowed_networks {L : SpuLib} {R : SessLib} (client_ip : Z) (rules : list (Z * Z)) (s : St) :
  0 <= client_ip < 2 ^ 32 -> Forall rule_ok rules ->
  wp total (ip_allowed client_ip rules) (fun r s' =>
    s' = s /\ (r = true <-> Exists (in_network client_ip) rules)) s.
Proof.
  intros Hip. induction 1 as [|[net p] rules Hr _ IH]; cbn [ip_allowed].
  { wp_step. split; [done|]. by rewrite Exists_nil. }
  unfold rule_ok in Hr. cbn [snd] in *. pose proof (rule_matches_network client_ip net p Hip Hr) as Hm.
  wp_step. destruct (Z.leb_spec p 0); [lia|]. destruct (Z.ltb_spec 32 p); [lia|]. cbn. wp_step.
  destruct (rule_matches client_ip (net, p)).
  - wp_step. split; [done|]. split; [|done]. intros _. left. by apply Hm.
  - eapply wp_mono; [apply IH|]. intros r s' [-> ->]. split; [done|].
    rewrite Exists_cons. intuition congruence.
Qed.

(** ** The checks of a connection *)

Section Auth.
Context {L : SpuLib} {R : SessLib}.

Definition status_at (j : Z) (s : St) : Z := ses_status (session_at (sess s) j).
Definition is_op (j : Z) (s : St) : Prop := Is_op_session (status_at j s) = true.

Lemma call_status j c : frame (status_at j) (ext_call c).
Proof. by intros s a s' [= _ <-]. Qed.
Lemma do_status j c : frame (status_at j) (ext_do c).
Proof. apply frame_bind; [apply call_status|]. intros. apply frame_ret. Qed.
Lemma get_session_status j ses : frame (status_at j) (get_session ses).
Proof. unfold get_session, gget. solve_frame. Qed.
Lemma update_status j ses f :
  j <> ses \/ (forall s, ses_status (f s) = ses_status s) -> frame (status_at j) (update_session ses f).
Proof.
  intros H. unfold update_session, gset. apply frame_bind; [apply frame_undef_if|]. intros _.
  apply frame_modify. intros s. unfold status_at, session_at, sess, with_sess. rec_simpl_in_goal.
  destruct (decide (j = ses)) as [->|Hj].
  - destruct H as [[]|H]; [done|]. by rewrite lookup_total_insert_eq, H.
  - by rewrite lookup_total_insert_ne.
Qed.
Lemma gset_status j f : (forall x, Sessions (f x) = Sessions x) -> frame (status_at j) (gset f).
Proof.
  intros H. apply frame_modify. intros s. unfold status_at, session_at, sess, with_sess.
  rec_simpl_in_goal. by rewrite H.
Qed.
Hint Resolve call_status do_status get_session_status : frame.
Hint Extern 1 (frame (status_at _) (update_session _ _)) =>
  apply update_status; first [by left | by right] : frame.
Hint Extern 1 (frame (status_at _) (gset _)) => apply gset_status; reflexivity : frame.
Hint Extern 1 (frame (status_at _) (gget _)) => apply frame_gets : frame.

Lemma denied_status j ses : frame (status_at j) (Sess_session_denied ses).
Proof.
  unfold Sess_session_denied, send_byte, Sess_unhash_session, Sess_remove_session. solve_frame.
Qed.
Lemma authorized_status j ses : j <> ses -> frame (status_at j) (Sess_session_authorized ses).
Proof. intros Hj. unfold Sess_session_authorized, send_byte. solve_frame. Qed.
Lemma ip_allowed_frame {T} (f : St -> T) ip rules : frame f (ip_allowed ip rules).
Proof. induction rules; cbn [ip_allowed]; solve_frame. Qed.
Hint Resolve denied_status ip_allowed_frame : frame.

Lemma ip_allowed_result ip rules s :
  wp partial (ip_allowed ip rules) (fun r s' => s' = s /\ r = existsb (rule_matches ip) rules) s.
Proof.
  induction rules as [|rule rules IH]; cbn [ip_allowed existsb]; [by wp_step|].
  do 2 wp_step; [done|]. destruct (rule_matches ip rule); [by wp_step|exact IH].
Qed.

(** What a method that answers at once says of the session; the one by password
    answers later. *)
Definition passes (x : sess_st) (ses : Z) (m : auth_ops) : Prop :=
  match m with
  | NULL_ops => True
  | IP_ops => IP_File_Loaded x = true /\ exists ip, ses_addr (session_at x ses) = Some ip /\
      existsb (rule_matches ip) (Allow_Rules x) = true
  | PWORD_ops => False
  end.
Definition passes_from (n : nat) (x : sess_st) (ses : Z) (methods : list Z) : Prop :=
  forall i t, (n <= i)%nat -> methods !! i = Some t ->
    exists a, auth_method t x = Some a /\ passes x ses (auth_info_ops a).

(** The access control policy the session was given allows its connection. *)
Definition policy_allows (x : sess_st) (ses : Z) : Prop :=
  exists ops, ses_acp_ops (session_at x ses) = Some ops /\
    open_connection ops (ses_name (session_at x ses)) = true.

(** A session that becomes operational has passed: it is the one of the connection, what
    was reported is yes, so is what the methods that are left say, and the policy
    allows the connection. *)
Definition only_passed (info : session_auth_info) (results : list bool) (s s' : St) : Prop :=
  forall j, is_op j s' -> is_op j s \/
    (j = Sess_get_session_index (sa_mbox info) s /\ Forall (fun b => b = true) results /\
     passes_from (length results) (sess s) j (required_auth_methods info) /\
     policy_allows (sess s) j).

Lemma only_passed_frame info results (m : M St unit) s :
  (forall j, frame (status_at j) m) -> wp partial m (fun _ s' => only_passed info results s s') s.
Proof.
  intros H. apply wp_intro. intros a s' E j Hj. left. unfold is_op. by rewrite <-(H j s a s' E).
Qed.

(** Only the status of the session at issue may change, and it has passed. *)
Lemma only_passed_ses info results (m : M St unit) s :
  let ses := Sess_get_session_index (sa_mbox info) s in
  (forall j, j <> ses -> frame (status_at j) m) -> Forall (fun b => b = true) results ->
  passes_from (length results) (sess s) ses (required_auth_methods info) ->
  policy_allows (sess s) ses ->
  wp partial m (fun _ s' => only_passed info results s s') s.
Proof.
  intros ses H Hall Hp Hpol. apply wp_intro. intros a s' E j Hj.
  destruct (decide (j = ses)) as [->|Hne]; [by right|]. left.
  unfold is_op. by rewrite <-(H j Hne s a s' E).
Qed.

Lemma decision_only_passed info s : let ses := Sess_get_session_index (sa_mbox info) s in
  (length (required_auth_methods info) <= length (required_auth_results info))%nat ->
  wp partial (Sess_auth_decision ses info)
    (fun _ s' => only_passed info (required_auth_results info) s s') s.
Proof.
  intros ses Hlen. unfold Sess_auth_decision.
  destruct (forallb _ _) eqn:Hall; cbn [negb].
  2:{ apply only_passed_frame. intros j. apply denied_status. }
  unfold get_session, gget. do 3 wp_step; [done|]. do 2 wp_step. wp_step; [done|].
  match goal with Ho : ses_acp_ops _ = Some ?o |- _ => rename o into ops, Ho into Hops end.
  fold (session_at (sess s) ses) in Hops.
  destruct (open_connection _ _) eqn:Hpol; cbn [negb].
  2:{ apply only_passed_frame. intros j. apply denied_status. }
  apply only_passed_ses; [| | |by exists ops].
  - intros j Hj. by apply authorized_status.
  - revert Hall. rewrite forallb_forall, Forall_forall. intros Hall b Hb.
    by apply Hall, list_elem_of_In.
  - intros i t Hi Ht. apply lookup_lt_Some in Ht. lia.
Qed.

(** A run from a state whose tables are the same: the trace alone differs. *)
Lemma report_only_passed n info b s :
  wp partial (report_auth_result n info b)
    (fun _ s' => only_passed info (required_auth_results info ++ [b]) s s') s.
Proof.
  revert info b. induction n as [|n IH]; intros info b; cbn [report_auth_result]; [by wp_step|].
  set (ses := Sess_get_session_index (sa_mbox info) s). do 2 wp_step. fold ses.
  wp_step; [wp_step; intros j Hj; by left|].
  set (info' := mk_session_auth_info _ _ _).
  destruct (required_auth_methods info' !! length (required_auth_results info')) as [authid|] eqn:Ht.
  2:{ apply (decision_only_passed info'). apply lookup_ge_None in Ht. exact Ht. }
  unfold Acm_auth_get_auth_client_connection, gget. do 3 wp_step; [done|]. do 3 wp_step.
  destruct (auth_method authid (sess s)) as [a|] eqn:Ha; cbn [fmap option_fmap option_map].
  2:{ apply only_passed_frame. intros j. apply denied_status. }
  (* what the rest of the methods say, once this one passes *)
  assert (Hnext : passes (sess s) ses (auth_info_ops a) ->
    wp partial (report_auth_result n info' true)
      (fun _ s' => only_passed info (required_auth_results info ++ [b]) s s') s).
  { intros Hp. eapply wp_mono; [apply IH|]. intros u s' Hr j Hj. pose proof (Hr j Hj) as Hc. clear Hr. destruct Hc as [Ho|(Ej & Hall & Hl & Hpol)].
    { by left. } right. split; [done|]. apply Forall_app in Hall as [Hall _]. split; [done|].
    split; [|done]. intros i t Hi Hti. destruct (decide (i = length (required_auth_results info'))) as [->|Hne].
    - assert (E : Some t = Some authid) by (etransitivity; [symmetry; exact Hti|exact Ht]).
      injection E as ->. exists a. by rewrite Ej.
    - apply (Hl i t); [|done]. rewrite length_app. cbn [length].
      change (required_auth_results info') with (required_auth_results info ++ [b]) in *. lia. }
  assert (Hno : wp partial (report_auth_result n info' false)
      (fun _ s' => only_passed info (required_auth_results info ++ [b]) s s') s).
  { eapply wp_mono; [apply IH|]. intros u s' Hr j Hj. destruct (Hr j Hj) as [Ho|(_ & Hall & _)].
    - by left.
    - apply Forall_app in Hall as [_ Hall]. by inversion Hall. }
  destruct (auth_info_ops a) eqn:Hops; cbn [auth_open].
  - by apply Hnext.
  - unfold ip_auth_client_connection, get_session, gget. do 2 wp_step.
    destruct (IP_File_Loaded (sess s)) eqn:Hl; cbn [negb]; [|exact Hno].
    do 3 wp_step. do 2 wp_step; [done|]. wp_step. change (sa_mbox info') with (sa_mbox info). fold ses.
    destruct (ses_addr (session_at (sess s) ses)) as [ip|] eqn:Hip; [|do 2 wp_step; exact Hno].
    do 3 wp_step. eapply wp_mono; [apply ip_allowed_result|]. intros r s' [-> ->].
    destruct (existsb _ _) eqn:Hr; [apply Hnext|exact Hno]. split; [done|]. by exists ip.
  - apply only_passed_frame. intros j. unfold pword_auth_client_connection. solve_frame.
Qed.

(** ** The checks end *)

Hint Resolve get_session_stops update_session_stops : stops.
Lemma ext_call_stops c : stops (ext_call c).
Proof. intros s. by apply wp_ext_call. Qed.
Lemma ext_do_stops c : stops (ext_do c).
Proof. intros s. by apply wp_ext_do. Qed.
Hint Resolve ext_call_stops ext_do_stops : stops.
Lemma denied_stops ses : stops (Sess_session_denied ses).
Proof.
  unfold Sess_session_denied, send_byte, Sess_unhash_session, Sess_remove_session. solve_stops.
Qed.
Lemma authorized_stops ses : stops (Sess_session_authorized ses).
Proof. unfold Sess_session_authorized, send_byte. solve_stops. Qed.
Hint Resolve denied_stops authorized_stops : stops.
Lemma ip_allowed_stops ip rules : stops (ip_allowed ip rules).
Proof. induction rules; cbn [ip_allowed]; solve_stops. Qed.
Hint Resolve ip_allowed_stops : stops.

Lemma report_stops n info b :
  (length (required_auth_methods info) - length (required_auth_results info) < n)%nat ->
  stops (report_auth_result n info b).
Proof.
  revert info b. induction n as [|n IH]; intros info b Hn; [lia|]. cbn [report_auth_result].
  set (info' := mk_session_auth_info _ _ _). unfold Sess_auth_decision, Acm_auth_get_auth_client_connection.
  assert (Hr : (exists t, required_auth_methods info' !! length (required_auth_results info') = Some t) ->
    forall b', stops (report_auth_result n info' b')).
  { intros [t Ht%lookup_lt_Some] b'. apply IH. cbn in *. rewrite length_app in *. cbn in *. lia. }
  destruct (_ !! _) as [t|] eqn:Ht; [|solve_stops].
  specialize (Hr ltac:(by exists t)).
  assert (Ho : forall m, stops (auth_open m info' (report_auth_result n info'))).
  { intros []; cbn [auth_open]; unfold null_auth_client_connection, ip_auth_client_connection,
      pword_auth_client_connection; solve_stops. }
  solve_stops.
Qed.

(** C22. The checks of a connection end, and a session becomes operational only if it is the
    connection's own and passed them all: the methods that reported before said yes,
    so does this one, and so does each one that is left - auth-null.c always,
    auth-ip.c when a rule allows the address; a method that waits for the client
    makes no session operational - and the access control policy that the session
    was given allows the connection of its name. *)
Theorem operational_only_passed (info : session_auth_info) (b : bool) (s : St) :
  wp ends (Sess_session_report_auth_result info b)
    (fun _ s' => only_passed info (required_auth_results info ++ [b]) s s') s.
Proof.
  apply wp_ends; [|apply report_only_passed]. apply report_stops. unfold auth_fuel. lia.
Qed.
End Auth.

(** Two connections wait for their last check: "cat" under the policy that permits all, "dan"
    under one that permits nobody. *)
Definition demo_refuse : acp_ops := {|
  open_connection _ := false; open_monitor _ := true; join_group _ _ := true;
  leave_group _ _ := true; p2p_send _ _ _ _ := true; mcast_send _ _ _ _ := true |}.
Definition demo_preauth (n : string) (mbox : Z) (ops : acp_ops) : session :=
  (demo_client n mbox) <| ses_status := PRE_AUTH_SESSION |> <| ses_acp_ops := Some ops |>.
Definition demo_waiting : St := with_sess (fun x => x
  <| Sessions := list_to_map [(0, demo_preauth "cat" 8 demo_acp); (1, demo_preauth "dan" 7 demo_refuse)] |>)
  demo_groups.
Definition demo_info (mbox : Z) : session_auth_info := mk_session_auth_info mbox [1] [].

Example operational_only_passed_witness :
  wp ends (Sess_session_report_auth_result (demo_info 7) true)
    (fun _ s' => only_passed (demo_info 7) [true] demo_waiting s') demo_waiting.
Proof. apply (operational_only_passed (demo_info 7) true demo_waiting). Defined.

(** The first becomes operational, unless its method says no; the second does not. *)
Example operational_run :
  map (fun '(mbox, said) =>
      ran (Sess_session_report_auth_result (demo_info mbox) said) demo_waiting
        (fun _ s' => map (fun j => Is_op_session (status_at j s')) [0; 1]))
    [(8, true); (8, false); (7, true)] =
  [Some [true; false]; Some [false; false]; Some [false; false]].
Proof. vm_compute. reflexivity. Qed.
