(* ===== verification/ReadProps.v ===== *)
(** * What a client may send

    The header [Sess_read] takes: one service or one request, in the name of the
    session itself, within the bounds of a message. *)

From S2P Require Import Prelude NetTypes Configuration State Network SessionLayer Delivery Send.
From S2P Require Import Message Stdutil SessState Sessions Acm SessAuth SessAccept.
From S2P Require Import Groups GroupsHandle SessionC SessRead Demo GroupsDemo GroupsSets.

(** ** Bits *)

Lemma truth_land_bit t i : 0 <= i -> truth (Z.land t (2 ^ i)) = Z.testbit t i.
Proof.
  intros Hi. unfold truth. destruct (Z.testbit t i) eqn:E.
  - apply negb_true_iff, Z.eqb_neq. intros H0.
    assert (Z.testbit (Z.land t (2 ^ i)) i = false) as H by (rewrite H0; apply Z.bits_0).
    rewrite Z.land_spec, E, Z.pow2_bits_true in H by done. done.
  - apply negb_false_iff, Z.eqb_eq, Z.bits_inj'. intros n Hn.
    rewrite Z.land_spec, Z.bits_0, Z.pow2_bits_eqb by done.
    destruct (Z.eqb_spec i n) as [<-|]; [by rewrite E|by rewrite andb_false_r].
Qed.

(** The bits of a type that name a service, and those that name a request. *)
Definition service_bits : list Z := zrange 0 5 ++ zrange 16 18.
Definition services (t : Z) : list Z := filter (fun i => Z.testbit t i = true) service_bits.

Lemma count_bits_filter t a b :
  count_bits_set t a b = Z.of_nat (length (filter (fun i => Z.testbit t i = true) (zrange a (b - 1)))).
Proof.
  unfold count_bits_set. induction (zrange a (b - 1)) as [|i l IH]; [done|]. cbn [foldr].
  rewrite IH, filter_cons. destruct (decide _) as [E|E].
  - rewrite E. cbn [length]. lia.
  - destruct (Z.testbit t i); [done|]. lia.
Qed.
Lemma count_services t :
  count_bits_set t 0 6 + count_bits_set t 16 19 = Z.of_nat (length (services t)).
Proof.
  rewrite !count_bits_filter. unfold services, service_bits.
  rewrite filter_app, length_app. change (6 - 1) with 5. change (19 - 1) with 18. lia.
Qed.

(** A message that asks for a service has one. *)
Lemma service_type t : services t <> [] -> Message_get_packet_type t <> -1.
Proof.
  intros Hs. unfold Message_get_packet_type.
  destruct (Is_unreliable_mess t) eqn:E0; [done|]. destruct (Is_reliable_mess t) eqn:E1; [done|].
  destruct (Is_fifo_mess t) eqn:E2; [done|]. destruct (Is_causal_mess t) eqn:E3; [done|].
  destruct (Is_agreed_mess t) eqn:E4; [done|]. destruct (Is_safe_mess t) eqn:E5; [done|].
  destruct (Is_join_mess t) eqn:E6; [done|]. destruct (Is_leave_mess t) eqn:E7; [done|].
  destruct (Is_kill_mess t) eqn:E8; [done|]. exfalso. apply Hs.
  assert (forall i, i ∈ service_bits -> Z.testbit t i = false) as H.
  { intros i Hi. rewrite <-truth_land_bit.
    2:{ revert Hi. unfold service_bits. rewrite elem_of_app, !elem_of_zrange. lia. }
    change service_bits with [0; 1; 2; 3; 4; 5; 16; 17; 18] in Hi.
    rewrite !elem_of_cons, elem_of_nil in Hi.
    destruct Hi as [-> |[-> |[-> |[-> |[-> |[-> |[-> |[-> |[-> |[]]]]]]]]]]; assumption. }
  unfold services. induction service_bits as [|i l IH]; [done|]. rewrite filter_cons_False.
  - apply IH. intros j Hj. apply H. by right.
  - by rewrite H by left.
Qed.

(** ** Names *)

Lemma legal_part_name n a b : legal_part n a -> legal_part n b -> 0 <= n ->
  same_name (n - 1) a b = true <-> a = b.
Proof.
  intros [Ha1 Ha2] [Hb1 Hb2] Hn. unfold same_name. rewrite Z.eqb_eq.
  apply strncmp_same; try lia; by apply legal_not.
Qed.

(** ** The header *)

Section Header.
Context {L : SpuLib} {R : SessLib} {U : Stdutil}.

Definition clear_last (h : message_header) : message_header :=
  h <| private_group_name ::= fun nm => <[Z.to_nat (MAX_GROUP_NAME - 1) := 0]> nm |>.

(** A header is for the session [ses]: it asks for one thing, the sender is the
    session, and the sizes are those of a message. *)
Record valid_header (ses : Z) (s : St) (h : message_header) : Prop := {
  one_service : length (services (mh_type h)) = 1%nat;
  own_name : cstr (private_group_name h) =
    joined_name (ses_name (session_at (sess s) ses)) (str_bytes (name (My s)));
  groups_bound : 0 <= num_groups h <= MAX_GROUPS_PER_MESSAGE;
  legal_hint : Z.land (u32 (hint h)) (Z.lnot (Z.lor 0x80000080 0x00ffff00)) = 0;
  data_bound : 0 <= data_len h;
  size_bound : data_len h + MAX_GROUP_NAME * num_groups h <=
    MAX_MESSAGE_BODY_LEN - sizeof_message_header
}.

Lemma valid_cleared ses s h : valid_header ses s (clear_last h) <->
  length (services (mh_type h)) = 1%nat /\
  cstr (private_group_name (clear_last h)) =
    joined_name (ses_name (session_at (sess s) ses)) (str_bytes (name (My s))) /\
  0 <= num_groups h <= MAX_GROUPS_PER_MESSAGE /\
  Z.land (u32 (hint h)) (Z.lnot (Z.lor 0x80000080 0x00ffff00)) = 0 /\ 0 <= data_len h /\
  data_len h + MAX_GROUP_NAME * num_groups h <= MAX_MESSAGE_BODY_LEN - sizeof_message_header.
Proof. split; [by intros []|]. by intros (H1 & H2 & H3 & H4 & H5 & H6). Qed.

Lemma cleared_name nm : length nm = Z.to_nat MAX_GROUP_NAME ->
  0 ∈ tail (<[Z.to_nat (MAX_GROUP_NAME - 1) := 0]> nm).
Proof.
  intros Hl. change (Z.to_nat MAX_GROUP_NAME) with 32%nat in Hl.
  change (Z.to_nat (MAX_GROUP_NAME - 1)) with 31%nat. destruct nm as [|x nm]; [done|]. cbn [tail].
  apply list_elem_of_lookup_2 with 30%nat. cbn. apply list_lookup_insert_eq. cbn in Hl. lia.
Qed.

(** What [G_private_to_names] gives of the sender, compared with the session's names. *)
Lemma own_name_check n nm my (s : St) : 0 ∈ tail n -> legal_names nm my ->
  exists r, G_private_to_names (S:=St) n s = Ok r s /\
  match r with
  | Some (a, b) => same_name MAX_PROC_NAME b my && same_name MAX_PRIVATE_NAME a nm = true <->
      cstr n = joined_name nm my
  | None => cstr n <> joined_name nm my
  end.
Proof.
  intros H0 [Hnm Hmy]. destruct (private_to_names_ok n s H0) as [r E]. exists r. split; [exact E|].
  destruct r as [[a b]|].
  2:{ intros Hj. rewrite (joined_name_taken n nm my s H0 Hj) in E by done. done. }
  apply private_to_names_parts in E as [Hj [Ha Hb]]; [|done].
  rewrite andb_true_iff. assert (same_name MAX_PROC_NAME b my = true <-> b = my) as ->.
  { unfold same_name. rewrite Z.eqb_eq. destruct Hb as [Hb1 Hb2], Hmy as [Hm1 Hm2].
    apply strncmp_same; try (by apply legal_not); lia. }
  assert (same_name MAX_PRIVATE_NAME a nm = true <-> a = nm) as ->.
  { apply (legal_part_name (MAX_PRIVATE_NAME + 1)); done. }
  rewrite Hj. split; [by intros [-> ->]|].
  unfold joined_name. intros [= E].
  apply (split_names_spec _ nm my) in E; [|apply legal_not; [apply Hnm|lia]].
  rewrite (proj2 (split_names_spec _ a b (legal_not 35 a (proj1 Ha) ltac:(lia))) eq_refl) in E.
  by injection E as -> ->.
Qed.

(** The header a session's client sends is taken exactly when it asks for one service,
    join, leave or disconnection, names the session itself as its sender, and has
    legal hints and bounds; a message that is taken has a type the protocol knows. *)
Lemma Sess_validate_read_header_spec (ses : Z) (h : message_header) (s : St) :
  0 <= ses <= MAX_SESSIONS -> length (private_group_name h) = Z.to_nat MAX_GROUP_NAME ->
  legal_names (ses_name (session_at (sess s) ses)) (str_bytes (name (My s))) ->
  wp total (Sess_validate_read_header ses h) (fun r s' => s' = s /\
    (forall h', r = Some h' <-> h' = clear_last h /\ valid_header ses s h') /\
    (forall h', r = Some h' -> Message_get_packet_type (mh_type h') <> -1)) s.
Proof.
  intros Hses Hlen Hl.
  assert (Hgoal : wp total (Sess_validate_read_header ses h) (fun r s' => s' = s /\
    (forall h', r = Some h' <-> h' = clear_last h /\ valid_header ses s h')) s).
  2:{ eapply wp_mono; [exact Hgoal|]. intros r s' [-> Hr]. split; [done|split; [exact Hr|]].
      intros h' [_ Hv]%Hr. apply service_type. destruct Hv as [Hs _ _ _ _ _].
      by destruct (services (mh_type h')). }
  assert (Hrefuse : ~ valid_header ses s (clear_last h) ->
    wp total (mret None) (fun (r : option message_header) s' => s' = s /\
      (forall h', r = Some h' <-> h' = clear_last h /\ valid_header ses s h')) s).
  { intros Hn. wp_step. split; [done|]. intros h'. split; [done|]. by intros [-> Hv]. }
  rewrite valid_cleared in Hrefuse. unfold Sess_validate_read_header. fold (clear_last h).
  destruct (_ || _) eqn:E1.
  { apply Hrefuse. pose proof (count_services (mh_type h)). rewrite !count_bits_filter in *. lia. }
  destruct (own_name_check (private_group_name (clear_last h)) _ _ s (cleared_name _ Hlen) Hl)
    as (r & Er & Hr).
  wp_step. apply (wp_eq _ _ (mret r)); [exact Er|]. wp_step. destruct r as [[a b]|].
  2:{ apply Hrefuse. intuition. }
  unfold get_session, gget. do 2 wp_step.
  destruct (same_name MAX_PROC_NAME _ _) eqn:Ep; cbn [negb andb] in *.
  2:{ apply Hrefuse. intuition congruence. }
  do 3 wp_step; [exfalso; lia|]. wp_step.
  destruct (same_name MAX_PRIVATE_NAME _ _) eqn:En; cbn [negb].
  2:{ apply Hrefuse. intuition congruence. }
  change (num_groups (clear_last h)) with (num_groups h). change (hint (clear_last h)) with (hint h).
  change (data_len (clear_last h)) with (data_len h).
  wp_step; [apply Hrefuse; lia|]. wp_step; [apply Hrefuse; unfold truth in *; lia|].
  assert (0 <= MAX_GROUP_NAME /\ 0 <= sizeof_message_header) as [Hg Hm] by done.
  wp_step; [apply Hrefuse; nia|]. wp_step; [apply Hrefuse; lia|].
  wp_step. split; [done|]. intros h'. split; [|by intros [-> _]]. intros [= <-]. split; [done|].
  apply valid_cleared. pose proof (count_services (mh_type h)) as Hc.
  unfold truth in *. split; [lia|]. split; [by apply Hr|]. lia.
Qed.
End Header.

(** Bob sends a SAFE message of ten bytes to one group. *)
Definition bob_header : message_header :=
  mk_message_header (i32 (Set_endian SAFE_MESS)) (demo_name "#bob#a") 1 (i32 (Set_endian 0)) 10.

Lemma bob_legal : legal_names (ses_name (session_at (sess demo_groups) 1)) (str_bytes (name (My demo_groups))).
Proof. unfold legal_names, legal_part. vm_compute. intuition congruence. Qed.

Lemma Sess_validate_read_header_spec_witness :
  valid_header 1 demo_groups (clear_last bob_header) /\
  exists s', Sess_validate_read_header 1 bob_header demo_groups = Ok (Some (clear_last bob_header)) s'.
Proof.
  assert (H1 : 0 <= 1 <= MAX_SESSIONS) by (cbn; lia).
  assert (H2 : length (private_group_name bob_header) = Z.to_nat MAX_GROUP_NAME) by reflexivity.
  assert (Hv : valid_header 1 demo_groups (clear_last bob_header)).
  { split; [reflexivity|reflexivity|split; reflexivity || (vm_compute; congruence)|reflexivity| |];
      vm_compute; congruence. }
  split; [exact Hv|].
  destruct (wp_total_ex _ _ _ (Sess_validate_read_header_spec 1 bob_header demo_groups H1 H2 bob_legal))
    as (r & s' & E & _ & Hr & _).
  exists s'. rewrite E. by rewrite (proj2 (Hr (clear_last bob_header)) (conj eq_refl Hv)).
Defined.
