(* ===== verification/ReadStream.v ===== *)
(** * A client's bytes become its message

    [Sess_read] is called whenever bytes have come, and reads as many as there are.
    However the client's stream is cut, the message that comes out is the bytes
    after its header, in order, in full elements but the last. *)

From S2P Require Import Prelude NetTypes Configuration State Network SessionLayer Demo Delivery Send.
From S2P Require Import Stdutil Message SessState Sessions Acm SessAuth SessAccept Groups.
From S2P Require Import GroupsHandle SessionC SessRead Machine SessFrames GroupsSets GroupsDemo ReadProps.

(** * One session, and the calls made

    What a piece of code does to one session and to the trace of calls, when nothing
    else matters: the rules for the steps that read and write them. *)

(** The bytes of a message, each element cut to its length. *)
Definition message_bytes (msg : scatter) : list Z :=
  concat (map (fun e => buf_get (e_buf e) 0 (e_len e)) msg).
Section SessView.
Context {L : SpuLib} {R : SessLib}.

(** What the calls of a trace gave: [f] says what the last one of a trace did. *)
Definition collected (f : list call -> list Z) (T : list call) : list Z :=
  concat (map (fun k => f (take (S k) T)) (seq 0 (length T))).
Lemma collected_snoc f T c : collected f (T ++ [c]) = collected f T ++ f (T ++ [c]).
Proof.
  unfold collected. rewrite length_app, Nat.add_comm. cbn [length Nat.add].
  rewrite seq_S, map_app, concat_app. cbn [map concat Nat.add]. rewrite app_nil_r. f_equal.
  - f_equal. apply map_ext_in. intros k Hk%in_seq. by rewrite take_app_le by lia.
  - by rewrite take_ge by (rewrite length_app; cbn; lia).
Qed.

(** Where a session is, and what the daemon has called. *)
Definition at_view (ses : Z) (x : session) (T : list call) (s : St) : Prop :=
  session_at (sess s) ses = x /\ trace s = T.

Section View.
Context (ses : Z) (Hses : 0 <= ses <= MAX_SESSIONS).
Implicit Types (x : session) (T : list call).

Lemma view_get x T s : at_view ses x T s ->
  wp total (get_session ses) (fun r s' => r = x /\ at_view ses x T s') s.
Proof. intros Hv. unfold get_session. do 2 wp_step; [exfalso; lia|]. g_step. split; [apply Hv|done]. Qed.
Lemma view_update f x T s : at_view ses x T s ->
  wp total (update_session ses f) (fun _ s' => at_view ses (f x) T s') s.
Proof.
  intros [Hx HT]. unfold update_session. do 2 wp_step; [exfalso; lia|]. apply wp_modify.
  split; [|exact HT]. unfold session_at, sess, with_sess. rec_simpl_in_goal.
  rewrite lookup_total_insert_eq. f_equal. exact Hx.
Qed.
Lemma view_call c x T s : at_view ses x T s ->
  wp total (ext_call c) (fun r s' => r = returns (T ++ [c]) /\ at_view ses x (T ++ [c]) s') s.
Proof.
  intros [Hx HT]. eapply wp_returns; [reflexivity|]. rewrite HT. split; [done|]. by split.
Qed.
Lemma view_do c x T s : at_view ses x T s ->
  wp total (ext_do c) (fun _ s' => at_view ses x (T ++ [c]) s') s.
Proof. intros Hv. unfold ext_do. wp_step. eapply wp_mono; [by apply view_call|]. intros r s' [_ H]. by wp_step. Qed.
End View.
End SessView.

(** ** Buffers *)

Section Buffers.
Context {L : SpuLib}.

Abbreviation P := sizeof_packet_body.

(** The bytes of an element, and of a message, all elements full. *)
Definition element_bytes (e : element) : list Z := buf_get (e_buf e) 0 P.
Definition flat (msg : scatter) : list Z := concat (map element_bytes msg).

Lemma length_element_bytes e : length (element_bytes e) = Z.to_nat P.
Proof. unfold element_bytes, buf_get. apply length_resize. Qed.
Lemma length_flat msg : length (flat msg) = (length msg * Z.to_nat P)%nat.
Proof.
  unfold flat. induction msg as [|e msg IH]; [done|]. cbn [map concat length].
  rewrite length_app, length_element_bytes, IH. lia.
Qed.
Lemma flat_app a b : flat (a ++ b) = flat a ++ flat b.
Proof. unfold flat. by rewrite map_app, concat_app. Qed.

Lemma take_resize {A} n m (x : A) l : (n <= m)%nat -> take n (resize m x l) = resize n x l.
Proof. intros. rewrite take_resize_le; [done|lia]. Qed.

(** Bytes put at [k] in a buffer: what was before them stays. *)
Lemma put_bytes b k xs n : 0 <= k -> (Z.to_nat k + length xs <= n)%nat ->
  take (Z.to_nat k + length xs) (resize n 0 (buf_put b k xs)) =
  take (Z.to_nat k) (resize n 0 b) ++ xs.
Proof.
  intros Hk Hn. rewrite !take_resize by lia. unfold buf_put.
  rewrite app_assoc, resize_app_le by (rewrite length_app, length_resize; lia).
  apply resize_all_alt. by rewrite length_app, length_resize.
Qed.

(** The last element of a message is written. *)
Lemma flat_put front e k xs : 0 <= k -> k + Z.of_nat (length xs) <= P ->
  let msg := front ++ [e] in
  let n := (length (flat front) + Z.to_nat k)%nat in
  put_element (Z.of_nat (length front)) k xs msg =
    front ++ [mk_element (e_len e) (buf_put (e_buf e) k xs)] /\
  take (n + length xs) (flat (put_element (Z.of_nat (length front)) k xs msg)) =
    take n (flat msg) ++ xs.
Proof.
  intros Hk HP msg n. assert (E : put_element (Z.of_nat (length front)) k xs msg =
    front ++ [mk_element (e_len e) (buf_put (e_buf e) k xs)]).
  { unfold put_element, msg. rewrite Nat2Z.id. rewrite alter_app_r_alt by lia.
    by rewrite Nat.sub_diag. }
  split; [exact E|]. rewrite E. unfold msg, n. rewrite !flat_app.
  rewrite <-Nat.add_assoc, !take_app_add'; [|lia..]. rewrite <-app_assoc. f_equal.
  unfold flat. cbn [map concat]. rewrite !app_nil_r. unfold element_bytes, buf_get. cbn [e_buf].
  change (drop (Z.to_nat 0)) with (fun l : list Z => l). cbn beta. apply put_bytes; lia.
Qed.
End Buffers.

(** ** One session, and the calls made *)

Section Stream.
Context {L : SpuLib} {R : SessLib} {U : Stdutil}.

Abbreviation P := sizeof_packet_body.
Abbreviation ret_of mbox n T := (returns (T ++ [recv mbox n])).

(** The bytes that the [recv]s of a trace took from a mailbox. *)
Definition call_bytes (mbox : Z) (T : list call) : list Z :=
  match last T with
  | Some (recv m n) =>
      if m =? mbox then resize (Z.to_nat (returns T)) 0 (received T) else []
  | _ => []
  end.
Definition input (mbox : Z) : list call -> list Z := collected (call_bytes mbox).

Lemma input_snoc mbox T c : input mbox (T ++ [c]) = input mbox T ++ call_bytes mbox (T ++ [c]).
Proof. apply collected_snoc. Qed.
Lemma input_other mbox T c : (forall m n, c <> recv m n) -> input mbox (T ++ [c]) = input mbox T.
Proof.
  intros Hc. rewrite input_snoc. unfold call_bytes. rewrite last_snoc.
  destruct c; try (by rewrite app_nil_r). by edestruct Hc.
Qed.
Lemma input_recv mbox T n :
  input mbox (T ++ [recv mbox n]) = input mbox T ++
    resize (Z.to_nat (ret_of mbox n T)) 0 (received (T ++ [recv mbox n])).
Proof. rewrite input_snoc. unfold call_bytes. by rewrite last_snoc, Z.eqb_refl. Qed.

Section View.
Context (ses : Z) (Hses : 0 <= ses <= MAX_SESSIONS).
Implicit Types (x : session) (T : list call).

Lemma view_reading x T s msg : at_view ses x T s -> ses_read_mess x = Some msg ->
  wp total (reading ses) (fun r s' => r = msg /\ at_view ses x T s') s.
Proof.
  intros Hv Hm. unfold reading. wp_step. eapply wp_mono; [by apply view_get|].
  intros r s' [-> Hv']. rewrite Hm. by apply wp_ret.
Qed.
Lemma view_blocking x T s : at_view ses x T s ->
  wp total (set_blocking ses) (fun _ s' => exists c, (forall m n, c <> recv m n) /\ at_view ses x (T ++ [c]) s') s.
Proof.
  intros Hv. unfold set_blocking. wp_step. eapply wp_mono; [by apply view_get|].
  intros r s' [-> Hv']. eapply wp_mono; [by apply view_do|]. intros u s'' H. eexists. by split; [|exact H].
Qed.

(** One [recv] into an element. *)
Lemma view_recv mbox i k n x T s msg : at_view ses x T s -> ses_read_mess x = Some msg ->
  ret_of mbox n T <= n ->
  wp total (recv_element mbox ses i k n) (fun ret s' => ret = ret_of mbox n T /\
    let b := resize (Z.to_nat ret) 0 (received (T ++ [recv mbox n])) in
    at_view ses (if 0 <? ret then x <| ses_read_mess := Some (put_element i k b msg) |> else x)
      (T ++ [recv mbox n]) s') s.
Proof.
  intros Hv Hm Hn. unfold recv_element, recv_bytes. do 2 wp_step.
  eapply wp_mono; [by apply view_call|]. intros ret s1 [-> H1].
  do 2 wp_step; [exfalso; apply Z.ltb_lt in H; by apply (Z.lt_irrefl n), (Z.lt_le_trans _ _ _ H)|].
  do 3 wp_step. pose proof H1 as [_ ->].
  set (ret := ret_of mbox n T). set (b := resize _ 0 _). wp_step. wp_step.
  - wp_step. eapply wp_mono; [by apply (view_reading _ _ _ msg H1)|]. intros m s2 [-> H2].
    eapply wp_mono; [by apply (view_update ses Hses _ _ _ _ H2)|]. intros u s3 H3. wp_step. split; [done|].
    by rewrite H0.
  - wp_step. split; [done|]. by rewrite H0.
Qed.
End View.

(** ** What has come of a message *)

(** The header [hd] and the bytes [D] after it, in elements that are full but the last. *)
Record holds (msg : scatter) (hd D : list Z) : Prop := {
  hd_length : length hd = Z.to_nat sizeof_message_header;
  held_bytes : take (Z.to_nat sizeof_message_header + length D) (flat msg) = hd ++ D;
  full_elements : Forall (fun e => e_len e = P) (tail msg)
}.
(** The next byte goes where the location says; the element may be there already. *)
Record in_body (msg : scatter) (w : location) (hd D : list Z) : Prop := {
  body_holds : holds msg hd D;
  body_position : sizeof_message_header + Z.of_nat (length D) = P * loc_element w + loc_byte w;
  body_byte : 0 <= loc_byte w < P;
  body_elements : Z.of_nat (length msg) = loc_element w + 1 \/
    (loc_byte w = 0 /\ Z.of_nat (length msg) = loc_element w);
  body_total : total_bytes w = Z.of_nat (length D);
  body_mode : in_mess_head w = 0
}.
Definition complete (msg : scatter) (hd D : list Z) : Prop :=
  holds msg hd D /\ P * (Z.of_nat (length msg) - 1) < sizeof_message_header + Z.of_nat (length D)
    <= P * Z.of_nat (length msg).

(** What a connection that is open gives: bytes, or the notice to try again. *)
Definition client_alive (mbox : Z) : Prop := forall T n, 0 < n ->
  0 < ret_of mbox n T <= n \/
  (ret_of mbox n T = -1 /\ (returns (T ++ [recv mbox n] ++ [sock_errno]) = EINTR \/
                            returns (T ++ [recv mbox n] ++ [sock_errno]) = EAGAIN)).

Lemma holds_grow msg hd D : holds msg hd D -> holds (msg ++ [mk_element P []]) hd D.
Proof.
  intros [H1 H2 H3]. split; [done| |].
  - rewrite flat_app, take_app_le; [done|].
    apply (f_equal length) in H2. rewrite length_take, length_app in H2. lia.
  - destruct msg as [|e msg]; [constructor|]. cbn. apply Forall_app. by split; [|constructor].
Qed.
Lemma put_lens i k b msg : Forall (fun e => e_len e = P) (tail msg) ->
  Forall (fun e => e_len e = P) (tail (put_element i k b msg)).
Proof.
  unfold put_element. intros H. destruct msg as [|e msg]; [by destruct (Z.to_nat i)|].
  destruct (Z.to_nat i) as [|j]; cbn [alter list_alter tail] in *; [done|].
  apply Forall_alter; [done|]. by intros e' _ He.
Qed.

(** Bytes at the location of a message whose element is there. *)
Lemma holds_put msg w hd D b :
  holds msg hd D -> 0 <= loc_byte w -> loc_byte w + Z.of_nat (length b) <= P ->
  sizeof_message_header + Z.of_nat (length D) = P * loc_element w + loc_byte w ->
  Z.of_nat (length msg) = loc_element w + 1 ->
  holds (put_element (loc_element w) (loc_byte w) b msg) hd (D ++ b).
Proof.
  intros [H1 H2 H3] Hk Hb Hpos Hlen. split; [done| |by apply put_lens].
  destruct msg as [|e front _] using rev_ind.
  { cbn [length] in Hlen. assert (loc_element w = -1) as E by lia. rewrite E in Hpos.
    change sizeof_message_header with 48 in Hpos. lia. }
 
  rewrite length_app in Hlen. cbn [length] in Hlen.
  assert (loc_element w = Z.of_nat (length front)) as E0 by lia. rewrite E0 in Hpos |- *.
  destruct (flat_put front e (loc_byte w) b Hk Hb) as [_ E]. rewrite length_flat in E.
  rewrite length_app, Nat.add_assoc.
  assert (Z.to_nat sizeof_message_header + length D =
    length front * Z.to_nat P + Z.to_nat (loc_byte w))%nat as E1.
  { assert (0 <= P) by lia. apply Nat2Z.inj. rewrite !Nat2Z.inj_add, Nat2Z.inj_mul, !Z2Nat.id; [lia|done..]. }
  rewrite E1 in H2 |- *. by rewrite E, H2, app_assoc.
Qed.

(** ** One step *)

Context (ses mbox : Z) (Hses : 0 <= ses <= MAX_SESSIONS) (Halive : client_alive mbox).
Context (HP : sizeof_message_header < P).

(** The element the next byte goes to is there, or is added. *)
Lemma next_element msg x T s hd D :
  at_view ses x T s -> ses_read_mess x = Some msg -> in_body msg (ses_read x) hd D ->
  sizeof_message_header + Z.of_nat (length D) < MAX_SCATTER_ELEMENTS * P ->
  wp total (when (Z.of_nat (length msg) <=? loc_element (ses_read x))
      (fatal_if (negb (loc_byte (ses_read x) =? 0));;
       msg ← Message_add_scat_element msg; set_reading ses msg))
    (fun _ s' => exists msg', at_view ses (x <| ses_read_mess := Some msg' |>) T s' /\
       holds msg' hd D /\ Z.of_nat (length msg') = loc_element (ses_read x) + 1) s.
Proof.
  intros Hv Hm Hb Hsize. destruct Hb as [Hh Hpos Hbyte Hlen _ _]. apply wp_when; intros Hc.
  - assert (loc_byte (ses_read x) = 0) as E by lia. rewrite E. cbn [Z.eqb negb].
    assert (Z.of_nat (length msg) = loc_element (ses_read x)) as El by lia.
    do 2 wp_step; [done|]. unfold Message_add_scat_element. do 3 wp_step.
    { exfalso. rewrite <-El in Hpos. bools_to_props. nia. }
    wp_step. eapply wp_mono; [by apply (view_update ses Hses)|]. intros u s' Hv'.
    eexists. split; [exact Hv'|]. split; [by apply holds_grow|]. rewrite length_app. cbn [length]. lia.
  - exists msg. split; [|split; [done|lia]]. destruct Hv as [Hx HT]. split; [|done].
    rewrite Hx. destruct x; cbn in Hm. by rewrite Hm.
Qed.

(** The client has sent nothing yet. *)
Lemma lost_nothing x T s : at_view ses x T s -> ses_read_mess x <> None ->
  (returns (T ++ [sock_errno]) = EINTR \/ returns (T ++ [sock_errno]) = EAGAIN) ->
  wp total (read_lost mbox ses (-1)) (fun _ s' => exists T', at_view ses x T' s' /\
    input mbox T' = input mbox T) s.
Proof.
  intros Hv _ He. unfold read_lost, try_again. change (negb (-1 =? -1)) with false. cbn iota.
  wp_step. wp_step.
  eapply wp_mono; [by apply (view_call ses)|]. intros r s1 [-> H1]. wp_step.
  unfold call in *.
  assert ((returns (T ++ [sock_errno]) =? EINTR) || (returns (T ++ [sock_errno]) =? EAGAIN) = true)
    as -> by (destruct He as [-> | ->]; reflexivity).
  cbn [negb]. wp_step. wp_step; [done|].
  eapply wp_mono; [by apply (view_blocking ses Hses)|]. intros u s2 (c & Hc & H2).
  eexists. split; [exact H2|]. by rewrite !input_other.
Qed.

Lemma body_still msg msg' w hd D :
  in_body msg w hd D -> holds msg' hd D -> Z.of_nat (length msg') = loc_element w + 1 ->
  in_body msg' w hd D.
Proof. intros [_ H2 H3 _ H5 H6] Hh Hl. split; [done..|by left|done|done]. Qed.

(** What one step leaves: [B] are the bytes that came. *)
Definition step_post (total : Z) (hd D : list Z) (T : list call) (r : Z + bool) (s' : St) : Prop :=
  exists x' T' msg' B, at_view ses x' T' s' /\ input mbox T' = input mbox T ++ B /\
    ses_read_mess x' = Some msg' /\
    match r with
    | inl m => m = total - Z.of_nat (length (D ++ B)) /\ 0 <= m /\ (0 < length B)%nat /\
        complete msg' hd (D ++ B) /\ (0 < m -> in_body msg' (ses_read x') hd (D ++ B))
    | inr false => in_body msg' (ses_read x') hd (D ++ B) /\ Z.of_nat (length (D ++ B)) < total
    | inr true => False
    end.

Lemma read_step_spec n msg x T s hd D :
  at_view ses x T s -> ses_read_mess x = Some msg -> in_body msg (ses_read x) hd D ->
  Z.of_nat (length D) < n -> sizeof_message_header + n <= MAX_SCATTER_ELEMENTS * P ->
  wp total (read_step mbox ses (n - Z.of_nat (length D))) (step_post n hd D T) s.
Proof.
  intros Hv Hm Hb Hn Hsize. unfold read_step, call in *.
  destruct (Z.leb_spec (n - Z.of_nat (length D)) 0); [lia|].
  wp_step. eapply wp_mono; [by apply (view_get ses Hses x T)|]. intros r s1 [-> H1]. cbn zeta.
  wp_step. eapply wp_mono; [by apply (view_reading ses Hses x T s1 msg)|]. intros r s2 [-> H2].
  wp_step. eapply wp_mono; [apply (next_element msg x T s2 hd D); [done..|lia]|].
  intros u s3 (msg1 & H3 & Hh1 & Hl1).
  pose proof Hb as [_ Hpos Hbyte _ Htot Hmode]. set (w := ses_read x) in *.
  set (k := Z.min (P - loc_byte w) (n - Z.of_nat (length D))).
  assert (0 < k) as Hk by lia. pose proof (Halive T k Hk) as Hret.
  set (ret := ret_of mbox k T) in *.
  wp_step. eapply wp_mono; [apply (view_recv ses Hses mbox (loc_element w) (loc_byte w) k _ T _ msg1 H3); [done|change (ret <= k); lia]|].
  intros r s4 [-> H4]. change (returns (T ++ [recv mbox k])) with ret in H4 |- *. set (B := resize (Z.to_nat ret) 0 _) in H4.
  destruct Hret as [[Hr1 Hr2]|[Hr Herr]].
  - rewrite (proj2 (Z.ltb_lt _ _) Hr1) in H4 |- *. cbn zeta in H4.
    set (msg2 := put_element _ _ B msg1) in H4.
    assert (Z.of_nat (length B) = ret) as HlB by (unfold B; rewrite length_resize; lia).
    assert (holds msg2 hd (D ++ B)) as Hh2 by (apply holds_put; [done|lia..]).
    assert (Z.of_nat (length msg2) = loc_element w + 1) as Hl2
      by (unfold msg2, put_element; by rewrite length_alter).
    assert (Z.of_nat (length (D ++ B)) = Z.of_nat (length D) + ret) as HlD
      by (rewrite length_app; lia).
    assert (input mbox (T ++ [recv mbox k]) = input mbox T ++ B) as Hin by apply input_recv.
    wp_step.
    + wp_step. eapply wp_mono; [by apply (view_update ses Hses _ _ _ _ H4)|]. intros u' s5 H5. wp_step.
      eexists _, _, msg2, B. split; [exact H5|]. split; [exact Hin|]. split; [done|].
      assert (complete msg2 hd (D ++ B)) as Hcomp by (split; [done|]; rewrite Hl2, HlD; nia).
      apply Z.eqb_eq in H0. split; [lia|]. split; [lia|]. split; [lia|]. split; [done|]. intros Hm'.
      assert (ret = P - loc_byte w) by lia.
      split; [done| | |right|..]; rec_simpl_in_goal; change (ses_read x) with w;
        cbn [loc_element loc_byte in_mess_head total_bytes]; lia.
    + wp_step. eapply wp_mono; [by apply (view_update ses Hses _ _ _ _ H4)|]. intros u' s5 H5. wp_step.
      eapply wp_mono; [by apply (view_blocking ses Hses _ _ _ H5)|]. intros u'' s6 (c & Hc & H6). wp_step.
      eexists _, _, msg2, B. split; [exact H6|]. split; [by rewrite input_other|]. split; [done|].
      apply Z.eqb_neq in H0. split; [|lia].
      split; [done| | |left|..]; rec_simpl_in_goal; change (ses_read x) with w;
        cbn [loc_element loc_byte in_mess_head total_bytes]; lia.
  - rewrite Hr in *. change (0 <? -1) with false in *. destruct (Z.eqb_spec (-1) k); [lia|]. cbn iota in *.
    wp_step. eapply wp_mono; [apply (lost_nothing _ _ _ H4); [done|]|].
    { by rewrite <-app_assoc. }
    intros u' s5 (T' & H5 & Hin). wp_step. eexists _, T', msg1, []. rewrite app_nil_r.
    split; [exact H5|]. split.
    { rewrite Hin, input_recv. change (input mbox T ++
        resize (Z.to_nat ret) 0 (received (T ++ [recv mbox k])) = input mbox T).
      rewrite Hr. change (Z.to_nat (-1)) with O. by rewrite resize_0, app_nil_r. }
    split; [done|]. rewrite app_nil_r. split; [|lia]. by apply (body_still msg).
Qed.

(** ** The whole message *)

Lemma resize_prefix {A} (d : A) k m n l : (k + m <= n)%nat ->
  resize m d (drop k (resize n d l)) = resize m d (drop k l).
Proof. intros. rewrite drop_resize_le by lia. rewrite resize_resize by lia. done. Qed.
Lemma header_prefix b :
  get_message_header (resize (Z.to_nat sizeof_message_header) 0 b) = get_message_header b.
Proof.
  unfold get_message_header, get_i32, buf_get.
  rewrite !resize_prefix; [done|vm_compute; repeat constructor..].
Qed.
Lemma header_of_head msg hd D e : holds msg hd D -> msg !! 0%nat = Some e ->
  get_message_header (e_buf e) = get_message_header hd.
Proof.
  intros [H1 H2 _] He. destruct msg as [|e' msg]; [done|]. injection He as ->.
  apply (f_equal (take (Z.to_nat sizeof_message_header))) in H2.
  rewrite take_take, Nat.min_l in H2 by lia. rewrite (take_app_le hd), (take_ge hd) in H2 by lia.
  unfold flat in H2. cbn [map concat] in H2.
  rewrite take_app_le in H2 by (rewrite length_element_bytes; lia).
  unfold element_bytes, buf_get in H2. rewrite take_resize in H2 by lia.
  rewrite <-H2. symmetry. apply header_prefix.
Qed.

Lemma complete_nonempty msg hd D : complete msg hd D -> exists e, msg !! 0%nat = Some e.
Proof.
  intros [_ [_ H]]. destruct msg as [|e msg]; [|by exists e]. cbn in H.
  change sizeof_message_header with 48 in H. lia.
Qed.

Definition size_in (hd : list Z) : Z :=
  data_len (get_message_header hd) + MAX_GROUP_NAME * num_groups (get_message_header hd).

Lemma full_bytes l : Forall (fun e => e_len e = P) l -> message_bytes l = flat l.
Proof.
  unfold message_bytes, flat. induction 1 as [|e l He _ IH]; [done|]. cbn [map concat].
  rewrite IH. unfold element_bytes. by rewrite He.
Qed.

Lemma alter_past {A} (f : A -> A) i l : (length l <= i)%nat -> alter f i l = l.
Proof.
  revert i. induction l as [|x l IH]; intros [|i] Hi; try done; cbn in Hi; [lia|].
  change (x :: alter f i l = x :: l). by rewrite IH by lia.
Qed.
Lemma cut_last (F : scatter) N : Forall (fun e => e_len e = P) F -> 0 < P ->
  P * (Z.of_nat (length F) - 1) < N <= P * Z.of_nat (length F) -> 0 < N ->
  message_bytes (alter (fun e => mk_element (N - P * (Z.of_nat (length F) - 1)) (e_buf e))
    (Z.to_nat (N / P)) F) = take (Z.to_nat N) (flat F).
Proof.
  intros HF HP0 [Hlo Hhi] HN. destruct (Z.eq_dec N (P * Z.of_nat (length F))) as [E|Hne].
  - assert (N / P = Z.of_nat (length F)) as -> by (rewrite E, Z.mul_comm; apply Z.div_mul; lia).
    rewrite alter_past by lia. rewrite full_bytes by done.
    rewrite take_ge; [done|]. rewrite length_flat. nia.
  - destruct F as [|e front _] using rev_ind; [cbn [length] in *; lia|].
    rewrite length_app in *. cbn [length] in *. apply Forall_app in HF as [HF _].
    replace (Z.of_nat (length front + 1) - 1) with (Z.of_nat (length front)) in * by lia.
    assert (N / P = Z.of_nat (length front)) as ->.
    { symmetry. apply Z.div_unique with (N - P * Z.of_nat (length front)); lia. }
    rewrite Nat2Z.id, alter_app_r_alt, Nat.sub_diag by lia. cbn [alter list_alter].
    unfold message_bytes. rewrite map_app, concat_app. fold (message_bytes front).
    rewrite full_bytes, flat_app by done.
    replace (Z.to_nat N) with (length (flat front) + Z.to_nat (N - P * Z.of_nat (length front)))%nat
      by (rewrite length_flat; nia).
    rewrite take_app_add. f_equal. unfold flat. cbn [map concat e_buf e_len]. rewrite !app_nil_r.
    unfold element_bytes, buf_get. by rewrite take_resize by lia.
Qed.

Lemma fixup_spec msg hd D (s : St) : complete msg hd D -> size_in hd = Z.of_nat (length D) ->
  sizeof_message_header + Z.of_nat (length D) < MAX_SCATTER_ELEMENTS * P ->
  wp total (Message_element_len_fixup msg)
    (fun m s' => s' = s /\ message_bytes m = hd ++ D) s.
Proof.
  intros Hc Hn Hsize. destruct (complete_nonempty _ _ _ Hc) as [e He].
  destruct Hc as [Hh [Hlo Hhi]]. pose proof (header_of_head _ _ _ _ Hh He) as Hhd.
  destruct Hh as [Hl Hb Hf]. unfold Message_element_len_fixup, Message_get_message_header, element0.
  rewrite He. cbn [or_fail]. do 2 wp_step. wp_step. rewrite Hhd. wp_step.
  unfold size_in in Hn. rewrite Hn. set (N := Z.of_nat (length D) + sizeof_message_header).
  assert (0 < P) as HP0 by (change sizeof_message_header with 48 in HP; lia).
  assert (0 < N) by (unfold N; change sizeof_message_header with 48; lia).
  assert (take (Z.to_nat N) (flat msg) = hd ++ D) as HN.
  { rewrite <-Hb. f_equal. unfold N. change sizeof_message_header with 48. lia. }
  destruct msg as [|e' l]; [done|]. injection He as ->. cbn [tail] in Hf.
  set (F := mk_element P (e_buf e) :: l). assert (flat F = flat (e :: l)) as HF by done.
  assert (length F = length (e :: l)) as HlF by done.
  assert (Forall (fun e => e_len e = P) F) as HFl by by constructor.
  destruct ((0 <=? N) && (N <? P)) eqn:Hlt.
  - assert (l = []) as ->.
    { destruct l as [|e2 l]; [done|]. cbn [length] in Hlo. nia. }
    do 2 wp_step; [exfalso; rewrite Z.div_small in H0 by lia; done|]. wp_step.
    split; [done|].
    cbn [alter list_alter]. unfold message_bytes. cbn [map concat e_buf e_len]. rewrite app_nil_r, <-HN.
    unfold flat. cbn [map concat]. rewrite app_nil_r. unfold element_bytes, buf_get.
    by rewrite take_resize by lia.
  - assert (0 <= N / P < MAX_SCATTER_ELEMENTS) as [Hd1 Hd2].
    { split; [apply Z.div_pos; lia|]. apply Z.div_lt_upper_bound; [lia|].
      rewrite (Z.mul_comm P). unfold N. rewrite Z.add_comm. exact Hsize. }
    do 2 wp_step; [exfalso; lia|]. wp_step. split; [done|].
    cbn [alter list_alter]. fold F. rewrite <-HlF.
    rewrite cut_last; [by rewrite HF|done|lia|rewrite HlF; unfold N; lia|lia].
Qed.

(** What the loop keeps: the bytes [B] have come, [m] are missing. *)
Definition loop_inv (n : Z) (hd D : list Z) (T : list call) (m : Z) (s : St) : Prop :=
  exists x' T' msg' B, at_view ses x' T' s /\ input mbox T' = input mbox T ++ B /\
    ses_read_mess x' = Some msg' /\ m = n - Z.of_nat (length (D ++ B)) /\ 0 <= m /\
    (0 < m -> in_body msg' (ses_read x') hd (D ++ B)) /\ (m = 0 -> complete msg' hd (D ++ B)).

Lemma empty_complete msg w hd : in_body msg w hd [] -> complete msg hd [].
Proof.
  intros [Hh Hpos Hbyte Hlen _ _]. split; [done|]. cbn [length Z.of_nat] in *. rewrite Z.add_0_r in *.
  assert (0 < sizeof_message_header) by done. assert (loc_element w = 0) by nia. nia.
Qed.

(** What [read_body] leaves: [B] are the bytes that came while it ran. *)
Definition body_read (n : Z) (hd D : list Z) (T : list call) (all : bool) (s' : St) : Prop :=
  exists B x' msg', input mbox (trace s') = input mbox T ++ B /\ session_at (sess s') ses = x' /\
    ses_read_mess x' = Some msg' /\
    if all then Z.of_nat (length (D ++ B)) = n /\
      (forall s2 : St, wp total (Message_element_len_fixup msg')
         (fun m s3 => s3 = s2 /\ message_bytes m = hd ++ D ++ B) s2)
    else in_body msg' (ses_read x') hd (D ++ B) /\ Z.of_nat (length (D ++ B)) < n.

Lemma loop_step hd D T m s :
  sizeof_message_header + size_in hd < MAX_SCATTER_ELEMENTS * P -> loop_inv (size_in hd) hd D T m s ->
  wp total (read_step mbox ses m) (fun r s' =>
    match r with
    | inl m' => loop_inv (size_in hd) hd D T m' s' /\ 0 <= m' < m
    | inr all => body_read (size_in hd) hd D T all s'
    end) s.
Proof.
  intros Hsize (x1 & T2 & msg1 & B & H1 & Hin & Hm1 & -> & Hpos & Hi & Hc). set (n := size_in hd) in *.
  destruct (Z.eq_dec (n - Z.of_nat (length (D ++ B))) 0) as [E|E].
  - rewrite E. unfold read_step. cbn [Z.leb Z.compare]. wp_step. exists B, x1, msg1.
    destruct H1 as [Hx1 ->]. do 3 (split; [done|]). split; [lia|]. intros s2.
    apply fixup_spec; [by apply Hc|fold n; lia|lia].
  - eapply wp_mono; [apply (read_step_spec n msg1 x1 T2 s hd (D ++ B)); [done|done|by apply Hi; lia|lia|lia]|].
    intros r s2 (x2 & T3 & msg2 & B2 & H2 & Hin2 & Hm2 & Hr).
    rewrite <-app_assoc in Hr. destruct r as [m|[]]; [|done|].
    + destruct Hr as (-> & H0 & Hpos2 & Hc2 & Hi2). split; [|rewrite !length_app in *; lia].
      exists x2, T3, msg2, (B ++ B2). split; [done|]. split; [by rewrite Hin2, Hin, app_assoc|].
      do 2 (split; [done|]). by split.
    + exists (B ++ B2), x2, msg2. destruct H2 as [Hx2 ->]. by rewrite Hin2, Hin, app_assoc.
Qed.

Lemma in_body_first msg w hd D : in_body msg w hd D -> exists e, msg !! 0%nat = Some e.
Proof.
  intros [_ Hp Hby Hl _ _]. destruct msg; [|by eexists]. exfalso. cbn [length] in Hl.
  assert (0 < sizeof_message_header) by done. nia.
Qed.

(** [read_body] up to its loop. *)
Lemma read_body_loop E (Q : bool -> St -> Prop) x msg hd D s :
  session_at (sess s) ses = x -> ses_read_mess x = Some msg -> in_body msg (ses_read x) hd D ->
  (forall T s', at_view ses x T s' -> input mbox T = input mbox (trace s) ->
    let m := size_in hd - Z.of_nat (length D) in
    wp E (while_fuel (S (Z.to_nat m)) (read_step mbox ses) m) Q s') ->
  wp E (read_body mbox ses) Q s.
Proof.
  intros Hx Hm Hb HQ. assert (at_view ses x (trace s) s) as Hv by by split.
  assert (Hany : forall A (m : M St A) P' s', wp total m P' s' -> wp E m P' s').
  { intros. by apply wp_total_any. }
  unfold read_body. wp_step. apply Hany. eapply wp_mono; [by apply (view_do ses _ _ _ _ Hv)|].
  intros u s1 H1. wp_step. apply Hany.
  eapply wp_mono; [by apply (view_reading ses Hses _ _ _ msg H1)|]. intros r s2 [-> H2].
  destruct (in_body_first _ _ _ _ Hb) as [e He].
  unfold Message_get_message_header, element0. rewrite He. cbn [or_fail]. do 5 wp_step. apply Hany.
  eapply wp_mono; [by apply (view_get ses Hses _ _ _ H2)|]. intros r s3 [-> H3].
  rewrite (header_of_head _ _ _ _ (body_holds _ _ _ _ Hb) He), (body_total _ _ _ _ Hb).
  apply (HQ _ _ H3). by apply input_other.
Qed.

(** The bytes a client sends after the header make its message, however they are cut:
    whatever has come is kept in order, and when all of what the header announces
    is there the message, its lengths set, is the header and those bytes. *)
Lemma read_body_stream (x : session) (msg : scatter) (hd D : list Z) (s : St) :
  session_at (sess s) ses = x -> ses_read_mess x = Some msg -> in_body msg (ses_read x) hd D ->
  Z.of_nat (length D) < size_in hd \/ D = [] /\ size_in hd = 0 ->
  sizeof_message_header + size_in hd < MAX_SCATTER_ELEMENTS * P ->
  wp total (read_body mbox ses) (body_read (size_in hd) hd D (trace s)) s.
Proof.
  intros Hx Hm Hb Hn Hsize. apply (read_body_loop _ _ x msg hd D s Hx Hm Hb).
  intros T s1 Hv HT m. assert (0 <= m) by (destruct Hn as [?|[-> ?]]; cbn [length] in *; lia).
  apply wp_while with (I := loop_inv (size_in hd) hd D T) (mu := fun m => m); [lia| |].
  - exists x, T, msg, []. rewrite !app_nil_r. do 4 (split; [done|]). split; [done|]. split; [done|].
    intros H0. destruct Hn as [Hn|[-> _]]; [lia|]. by eapply empty_complete.
  - intros m1 s2 Hi. eapply wp_mono; [by apply (loop_step hd D T m1 s2)|].
    intros [m2|all] s3 H3; [done|]. unfold body_read in *. by rewrite <-HT.
Qed.

(** ** The header *)

(** The header of the first 48 bytes, as the daemon takes it: in its own
    endianness, the name ended. *)
Definition native (H : list Z) : message_header :=
  let h := get_message_header H in
  let h := if Same_endian (mh_type h) then h else Flip_mess h in
  clear_last (h <| mh_type ::= fun t => i32 (Set_endian t) |>).
(** The bytes it announces: the groups and the data. *)
Definition announced (h : message_header) : Z := data_len h + MAX_GROUP_NAME * num_groups h.

Lemma length_header_bytes h : length (message_header_bytes h) = 48%nat.
Proof.
  unfold message_header_bytes, name_field. rewrite !length_app, !length_bytes32, length_resize. done.
Qed.

Lemma size_in_native H : size_in (message_header_bytes (native H)) = announced (native H).
Proof.
  assert (HR : is_i32 (data_len (native H)) /\ is_i32 (num_groups (native H))).
  { unfold native. cbn zeta. destruct (Same_endian _); split; apply i32_range. }
  destruct HR as [H1 H2]. unfold size_in, announced, get_message_header. cbn [data_len num_groups].
  set (h := native H) in *. clearbody h. f_equal; [|f_equal].
  - replace (message_header_bytes h) with
      ((bytes32 (mh_type h) ++ name_field (private_group_name h) ++ bytes32 (num_groups h) ++
        bytes32 (hint h)) ++ bytes32 (data_len h) ++ []).
    + rewrite get_i32_app; [by apply i32_id|].
      unfold name_field. rewrite !length_app, !length_bytes32, length_resize. done.
    + unfold message_header_bytes. by rewrite app_nil_r, <-!(assoc_L (++)).
  - replace (message_header_bytes h) with
      ((bytes32 (mh_type h) ++ name_field (private_group_name h)) ++ bytes32 (num_groups h) ++
        (bytes32 (hint h) ++ bytes32 (data_len h))).
    + rewrite get_i32_app; [by apply i32_id|].
      unfold name_field. rewrite !length_app, !length_bytes32, length_resize. done.
    + unfold message_header_bytes. by rewrite <-!(assoc_L (++)).
Qed.

(** What of the state a header is checked against; reading leaves it alone. *)
Definition me (s : St) := (ses_name (session_at (sess s) ses), My s).

Lemma me_frame {A} (m : M St A) : frame (above_at (Some ses)) m -> frame me m.
Proof.
  intros H s a s' E. specialize (H s a s' E). unfold me. f_equal.
  - pose proof (f_equal snd H) as Hs. unfold slot, table_of in Hs.
    cbn [snd above_at fmap option_fmap option_map] in Hs. injection Hs. by intros.
  - pose proof (lower_confs s s' (f_equal (fun t => t.1.1.1.1) H)) as Hc.
    exact (f_equal (fun t => t.1.1.1.1.1.1.2) Hc).
Qed.

Lemma valid_me s s' h : me s' = me s -> valid_header ses s' h <-> valid_header ses s h.
Proof.
  intros H. unfold me in H. injection H as Hn Hm.
  split; intros [H1 H2 H3 H4 H5 H6]; split; try done; congruence.
Qed.

Lemma get_session_me : frame (above_at (Some ses)) (get_session ses).
Proof. unfold get_session. solve_frame. Qed.
Lemma recv_bytes_me n : frame (above_at (Some ses)) (recv_bytes mbox n).
Proof. unfold recv_bytes. solve_frame. Qed.
Hint Resolve get_session_me recv_bytes_me : frame.
Lemma reading_me : frame (above_at (Some ses)) (reading ses).
Proof. unfold reading. solve_frame. Qed.
Lemma set_reading_me msg : frame (above_at (Some ses)) (set_reading ses msg).
Proof. unfold set_reading. solve_frame. Qed.
Lemma blocking_me : frame (above_at (Some ses)) (set_blocking ses).
Proof. unfold set_blocking. solve_frame. Qed.
Hint Resolve reading_me set_reading_me blocking_me : frame.
Lemma recv_element_me i k n : frame (above_at (Some ses)) (recv_element mbox ses i k n).
Proof. unfold recv_element. solve_frame. Qed.
Lemma read_lost_me ret : frame (above_at (Some ses)) (read_lost mbox ses ret).
Proof. unfold read_lost, try_again. pose proof (Sess_kill_above (Some ses) mbox). solve_frame. Qed.
Hint Resolve recv_element_me read_lost_me : frame.
Lemma validate_me h : frame (above_at (Some ses)) (Sess_validate_read_header ses h).
Proof. unfold Sess_validate_read_header. solve_frame. Qed.
Hint Resolve validate_me : frame.
Lemma read_header_me : frame (above_at (Some ses)) (read_header mbox ses).
Proof.
  unfold read_header, accept_header, advance. pose proof (Sess_kill_above (Some ses) mbox). solve_frame.
Qed.
Lemma read_body_me : frame (above_at (Some ses)) (read_body mbox ses).
Proof.
  unfold read_body, read_step, advance, Message_add_scat_element. solve_frame.
Qed.

(** A part of the header has come: [C], fewer than its 48 bytes. *)
Definition header_part (x : session) (C : list Z) : Prop :=
  (length C < 48)%nat /\ ses_read x = mk_location 0 (Z.of_nat (length C)) 1 0 /\
  match ses_read_mess x with
  | None => C = []
  | Some msg => exists e, msg = [e] /\ take (length C) (element_bytes e) = C
  end.

(** A step that is total, and leaves alone what headers are checked against. *)
Lemma total_me {A} E (m : M St A) (P1 : A -> St -> Prop) (Q : A -> St -> Prop) s s0 :
  me s = me s0 -> frame (above_at (Some ses)) m -> wp total m P1 s ->
  (forall a s', P1 a s' -> me s' = me s0 -> Q a s') -> wp E m Q s.
Proof.
  intros H0 Hf Hm HQ. eapply frame_wp_conj; [exact (me_frame m Hf)|].
  apply wp_total_any. eapply wp_mono; [exact Hm|]. intros a s' H1 H2. apply HQ; [done|congruence].
Qed.

(** The 48 bytes [H] are there: they are checked, and the header is written back in
    the daemon's endianness. *)
Lemma accept_header_spec E (Q : bool -> St -> Prop) x e H T s :
  at_view ses x T s -> ses_read_mess x = Some [e] -> length H = 48%nat ->
  take 48 (element_bytes e) = H -> ses_read x = mk_location 0 48 0 0 ->
  legal_names (ses_name (session_at (sess s) ses)) (str_bytes (name (My s))) ->
  (forall s1 x1 msg, at_view ses x1 T s1 -> valid_header ses s (native H) ->
     ses_read_mess x1 = Some msg ->
     in_body msg (ses_read x1) (message_header_bytes (native H)) [] -> Q true s1) ->
  (forall s1, at_view ses x T s1 -> ~ valid_header ses s (native H) ->
     wp E (Sess_kill mbox;; mret false) Q s1) ->
  wp E (accept_header mbox ses) Q s.
Proof.
  intros Hv Hm HlH HH Hw Hl Hyes Hno. unfold accept_header. wp_step.
  eapply (total_me _ _ _ _ s s eq_refl reading_me (view_reading ses Hses _ _ _ _ Hv Hm)).
  intros r s1 [-> H1] Hme1. unfold Message_get_message_header, element0. cbn [lookup list_lookup or_fail].
  do 3 wp_step.
  assert (Hh : holds [e] H []).
  { split; [done| |constructor]. rewrite app_nil_r, Nat.add_0_r. unfold flat. cbn [map concat].
    by rewrite app_nil_r. }
  rewrite (header_of_head [e] H [] e Hh eq_refl). cbn zeta.
  set (h := get_message_header H). set (h0 := if Same_endian (mh_type h) then h else Flip_mess h).
  set (h1 := h0 <| mh_type ::= fun t => i32 (Set_endian t) |>).
  assert (Hl1 : legal_names (ses_name (session_at (sess s1) ses)) (str_bytes (name (My s1)))).
  { unfold me in Hme1. injection Hme1 as Hn HM. by rewrite Hn, HM. }
  wp_step. wp_step. apply wp_total_any.
  eapply wp_mono; [apply (Sess_validate_read_header_spec ses h1 s1); [done| |exact Hl1]|].
  { unfold h1, h0. destruct (Same_endian _); exact (length_resize _ _ _). }
  change (clear_last h1) with (native H). intros [h2|] s2 (-> & Hr & _).
  - destruct (proj1 (Hr h2) eq_refl) as [-> Hval]. unfold set_message_header, element0.
    cbn [lookup list_lookup or_fail]. do 3 wp_step. wp_step.
    cbn [insert list_insert]. set (e1 := mk_element _ _). wp_step.
    apply wp_total_any. eapply wp_mono; [apply (view_update ses Hses _ _ _ _ H1)|].
    intros u s3 H3. wp_step. eapply (Hyes s3 _ [e1] H3).
    + by rewrite <-(valid_me s s1).
    + done.
    + cbn [ses_read]. rec_simpl_in_goal. rewrite Hw.
      assert (Hp : holds [e1] (message_header_bytes (native H)) []).
      { split; [apply length_header_bytes| |constructor].
        rewrite app_nil_r, Nat.add_0_r. unfold flat. cbn [map concat]. rewrite app_nil_r.
        unfold e1, element_bytes, put_message_header, buf_get. cbn [e_buf].
        pose proof (put_bytes (e_buf e) 0 (message_header_bytes (native H)) (Z.to_nat P)) as Hput.
        rewrite length_header_bytes in Hput. change sizeof_message_header with 48 in *.
        cbn [Z.to_nat] in Hput. change (drop (Z.to_nat 0)) with (fun l : list Z => l). cbn beta.
        rewrite Nat.add_0_l in Hput. change (Z.to_nat 48) with 48%nat. rewrite Hput by lia. done. }
      split; [exact Hp| |split; [done|exact HP]|left; reflexivity|reflexivity|reflexivity].
      cbn [loc_element loc_byte length]. rewrite Z.mul_0_r. reflexivity.
  - apply (Hno s1 H1). intros Hval. apply (valid_me s s1) in Hval; [|done].
    discriminate (proj2 (Hr (native H)) (conj eq_refl Hval)).
Qed.

(** One call of [read_header] in the middle of the header. *)
Lemma read_header_spec E (Q : bool -> St -> Prop) x msg C s :
  session_at (sess s) ses = x -> header_part x C -> ses_read_mess x = Some msg ->
  legal_names (ses_name (session_at (sess s) ses)) (str_bytes (name (My s))) ->
  (forall s1 B, input mbox (trace s1) = input mbox (trace s) ++ B ->
     header_part (session_at (sess s1) ses) (C ++ B) -> Q false s1) ->
  (forall s1 B msg1, input mbox (trace s1) = input mbox (trace s) ++ B ->
     length (C ++ B) = 48%nat -> valid_header ses s (native (C ++ B)) ->
     ses_read_mess (session_at (sess s1) ses) = Some msg1 ->
     in_body msg1 (ses_read (session_at (sess s1) ses)) (message_header_bytes (native (C ++ B))) [] ->
     Q true s1) ->
  (forall s1 B, input mbox (trace s1) = input mbox (trace s) ++ B ->
     length (C ++ B) = 48%nat -> ~ valid_header ses s (native (C ++ B)) ->
     wp E (Sess_kill mbox;; mret false) Q s1) ->
  wp E (read_header mbox ses) Q s.
Proof.
  intros Hx (HC & Hw & Hmsg) Hm Hl Hwait Hyes Hno. rewrite Hm in Hmsg. destruct Hmsg as (e & -> & He).
  assert (Hv : at_view ses x (trace s) s) by by split. set (T := trace s) in *.
  unfold read_header, call in *. wp_step.
  eapply (total_me _ _ _ _ s s eq_refl get_session_me (view_get ses Hses _ _ _ Hv)).
  intros r s1 [-> H1] M1. rewrite Hw. cbn [loc_byte]. set (k := sizeof_message_header - Z.of_nat (length C)).
  assert (0 < k) as Hk by (unfold k; change sizeof_message_header with 48; lia).
  pose proof (Halive T k Hk) as Hret. set (ret := ret_of mbox k T) in *. wp_step.
  assert (Hle : ret <= k) by lia.
  eapply (total_me _ _ _ _ s1 s M1 (recv_element_me _ _ _)
    (view_recv ses Hses mbox 0 (Z.of_nat (length C)) k _ T _ [e] H1 Hm Hle)).
  intros r s2 [-> H2] M2. change (returns (T ++ [recv mbox k])) with ret in H2 |- *. cbn zeta in H2.
  set (B := resize (Z.to_nat ret) 0 (received (T ++ [recv mbox k]))) in H2.
  assert (Hin : input mbox (T ++ [recv mbox k]) = input mbox T ++ B) by apply input_recv.
  destruct Hret as [[Hr1 Hr2]|[Hr Herr]].
  - rewrite (proj2 (Z.ltb_lt _ _) Hr1) in H2 |- *.
    set (e1 := mk_element (e_len e) (buf_put (e_buf e) (Z.of_nat (length C)) B)).
    change (put_element 0 _ B [e]) with [e1] in H2.
    assert (HlB : Z.of_nat (length B) = ret) by (unfold B; rewrite length_resize; lia).
    assert (He1 : take (length (C ++ B)) (element_bytes e1) = C ++ B).
    { unfold e1, element_bytes, buf_get. cbn [e_buf].
      change (drop (Z.to_nat 0)) with (fun l : list Z => l). cbn beta.
      pose proof (put_bytes (e_buf e) (Z.of_nat (length C)) B (Z.to_nat P)) as Hput.
      rewrite Nat2Z.id in Hput. rewrite length_app, Hput.
      - f_equal. exact He.
      - lia.
      - change sizeof_message_header with 48 in *. lia. }
    wp_step; rewrite ?Z.eqb_eq, ?Z.eqb_neq in *.
    + assert (H48 : length (C ++ B) = 48%nat).
      { rewrite length_app. unfold k in *. change sizeof_message_header with 48 in *. lia. }
      unfold advance. wp_step.
      eapply (total_me _ _ _ _ s2 s M2); [solve_frame|exact (view_update ses Hses _ _ _ _ H2)|].
      intros u s3 H3 M3. wp_step.
      eapply (total_me _ _ _ _ s3 s M3 blocking_me); [exact (view_blocking ses Hses _ _ _ H3)|].
      intros u' s4 (c & Hc & H4) M4.
      assert (Hin4 : input mbox ((T ++ [recv mbox k]) ++ [c]) = input mbox T ++ B) by by rewrite input_other.
      eapply (accept_header_spec _ _ _ e1 (C ++ B) _ s4 H4).
      * done.
      * done.
      * by rewrite <-H48.
      * rec_simpl_in_goal. rewrite Hw. unfold Message_set_location_begin_body. cbn [loc_byte loc_element total_bytes].
        f_equal. unfold k in *. change sizeof_message_header with 48 in *. lia.
      * unfold me in M4. injection M4 as Hn HM. by rewrite Hn, HM.
      * intros s5 x5 msg5 [Hx5 HT5] Hval Hm5 Hb5. apply (Hyes s5 B msg5); [by rewrite HT5|done| | |].
        -- by apply (valid_me s s4).
        -- by rewrite Hx5.
        -- by rewrite Hx5.
      * intros s5 [Hx5 HT5] Hval. apply (Hno s5 B); [by rewrite HT5|done|].
        intros Hv'. apply Hval. by apply (valid_me s s4).
    + unfold advance. wp_step.
      eapply (total_me _ _ _ _ s2 s M2); [solve_frame|exact (view_update ses Hses _ _ _ _ H2)|].
      intros u s3 H3 M3. wp_step.
      eapply (total_me _ _ _ _ s3 s M3 blocking_me); [exact (view_blocking ses Hses _ _ _ H3)|].
      intros u' s4 (c & Hc & [Hx4 HT4]) M4. wp_step. apply (Hwait s4 B).
      { rewrite HT4. by rewrite input_other. }
      rewrite Hx4. unfold header_part. rec_simpl_in_goal.
      split; [rewrite length_app; unfold k in *; change sizeof_message_header with 48 in *; lia|].
      split; [rewrite Hw; cbn [loc_byte loc_element in_mess_head total_bytes]; f_equal; rewrite length_app; lia|].
      by exists e1.
  - rewrite Hr in *. change (0 <? -1) with false in *. destruct (Z.eqb_spec (-1) k); [lia|]. cbn iota in *.
    wp_step. apply wp_total_any. eapply wp_mono; [apply (lost_nothing _ _ _ H2); [by rewrite Hm|]|].
    { by rewrite <-app_assoc. }
    intros u s3 (T' & [Hx3 HT3] & Hin3). wp_step. apply (Hwait s3 []).
    { rewrite HT3. etransitivity; [exact Hin3|]. etransitivity; [exact Hin|].
      unfold B. rewrite Hr. change (Z.to_nat (-1)) with O. by rewrite resize_0. }
    rewrite Hx3, app_nil_r. split; [done|]. split; [done|]. rewrite Hm. by exists e.
Qed.

(** ** The whole message *)

(** Of the message that is being read, the bytes [C] have come: a part of the
    header, or a header that was taken and a part of what it announces. *)
Definition fits (H : list Z) : Prop :=
  sizeof_message_header + announced (native H) < MAX_SCATTER_ELEMENTS * P.
Inductive came (s : St) : list Z -> Prop :=
| came_head C : header_part (session_at (sess s) ses) C -> came s C
| came_body H D msg :
    length H = 48%nat -> valid_header ses s (native H) -> fits H ->
    ses_read_mess (session_at (sess s) ses) = Some msg ->
    in_body msg (ses_read (session_at (sess s) ses)) (message_header_bytes (native H)) D ->
    Z.of_nat (length D) < announced (native H) -> came s (H ++ D).

(** [C] is a whole message, and [msg] is it: the header as the daemon takes it, and
    the bytes it announces. *)
Definition whole (s : St) (C : list Z) (msg : scatter) : Prop :=
  exists H D, C = H ++ D /\ length H = 48%nat /\ valid_header ses s (native H) /\
    Z.of_nat (length D) = announced (native H) /\
    message_bytes msg = message_header_bytes (native H) ++ D.

Lemma fixup_above msg : frame (above_at (Some ses)) (Message_element_len_fixup msg).
Proof. unfold Message_element_len_fixup. solve_frame. Qed.

(** What follows the header. *)
Lemma rest_of_message E (Q : unit -> St -> Prop) x msg H D s :
  session_at (sess s) ses = x -> ses_read_mess x = Some msg ->
  length H = 48%nat -> valid_header ses s (native H) -> fits H ->
  in_body msg (ses_read x) (message_header_bytes (native H)) D ->
  Z.of_nat (length D) < announced (native H) \/ D = [] /\ announced (native H) = 0 ->
  (forall s1 B, input mbox (trace s1) = input mbox (trace s) ++ B -> came s1 (H ++ D ++ B) -> Q tt s1) ->
  (forall s1 B m, input mbox (trace s1) = input mbox (trace s) ++ B -> came s1 [] ->
     whole s (H ++ D ++ B) m -> wp E (submit_message mbox ses m) Q s1) ->
  wp E (complete ← read_body mbox ses; when complete (message_read mbox ses)) Q s.
Proof.
  intros Hx Hm HlH Hval Hfit Hb Hn Hwait Hwhole. rewrite <-size_in_native in Hn.
  unfold fits in Hfit. rewrite <-size_in_native in Hfit. wp_step.
  eapply (total_me _ _ _ _ s s eq_refl read_body_me (read_body_stream x msg _ D s Hx Hm Hb Hn Hfit)).
  intros all s1 (B & x1 & msg1 & Hin & Hx1 & Hm1 & Hall) M1. rewrite size_in_native in Hall.
  destruct all; unfold when.
  - destruct Hall as [HlD Hfix]. assert (Hv : at_view ses x1 (trace s1) s1) by by split.
    unfold message_read. wp_step.
    eapply (total_me _ _ _ _ s1 s M1 blocking_me); [exact (view_blocking ses Hses _ _ _ Hv)|].
    intros u s2 (c & Hc & H2) M2. wp_step.
    eapply (total_me _ _ _ _ s2 s M2 reading_me); [exact (view_reading ses Hses _ _ _ msg1 H2 Hm1)|].
    intros r s3 [-> H3] M3. wp_step.
    eapply (total_me _ _ _ _ s3 s M3); [solve_frame|exact (view_update ses Hses _ _ _ _ H3)|].
    intros u' s4 [Hx4 HT4] M4. wp_step.
    eapply (total_me _ _ _ _ s4 s M4 (fixup_above _) (Hfix s4)). intros m s5 [-> Hbytes] M5.
    apply (Hwhole s4 B m).
    + rewrite HT4. by rewrite input_other.
    + apply came_head. rewrite Hx4. split; [cbn; lia|]. by split.
    + exists H, (D ++ B). done.
  - wp_step. destruct Hall as [Hb1 Hlt]. apply (Hwait s1 B Hin).
    apply (came_body s1 H (D ++ B) msg1); try done.
    + by apply (valid_me s s1).
    + unfold fits. by rewrite <-size_in_native.
    + by rewrite Hx1.
    + by rewrite Hx1.
Qed.

(** The message to read into is there, or is made. *)
Lemma start_reading x C T s : at_view ses x T s -> header_part x C ->
  wp total (when (bool_decide (ses_read_mess x = None)) (set_reading ses Message_new_message))
    (fun _ s' => exists x' msg, at_view ses x' T s' /\ ses_read_mess x' = Some msg /\ header_part x' C) s.
Proof.
  intros Hv Hp. pose proof Hp as (HC & Hw & Hm). apply wp_when.
  - intros Hn%bool_decide_eq_true. eapply wp_mono; [apply (view_update ses Hses _ _ _ _ Hv)|].
    intros u s1 H1. eexists _, _. split; [exact H1|]. split; [done|]. rewrite Hn in Hm. subst C.
    split; [done|]. split; [done|]. by eexists.
  - intros Hn%bool_decide_eq_false. destruct (ses_read_mess x) as [msg|] eqn:E; [|done].
    by exists x, msg.
Qed.

(** What a call of [Sess_read] does from [s], where [C] has come, with what result:
    it takes [B] more. *)
Inductive read_result (s : St) (C B : list Z) (s1 : St) : outcome St unit -> Prop :=
| read_waits : came s1 (C ++ B) -> read_result s C B s1 (Ok tt s1)
| read_whole msg : whole s (C ++ B) msg -> came s1 [] ->
    read_result s C B s1 (submit_message mbox ses msg s1)
| read_refused : length (C ++ B) = 48%nat -> ~ valid_header ses s (native (C ++ B)) ->
    read_result s C B s1 (Sess_kill mbox s1)
| read_too_large r : length (C ++ B) = 48%nat -> valid_header ses s (native (C ++ B)) ->
    ~ fits (C ++ B) -> read_result s C B s1 r.

(** The results of a call, as a postcondition. *)
Definition reads (s : St) (C : list Z) (r : outcome St unit) : Prop :=
  exists B s1, input mbox (trace s1) = input mbox (trace s) ++ B /\ read_result s C B s1 r.
Definition wp_reads (s : St) (C : list Z) (m : M St unit) : St -> Prop :=
  wp (fun e => reads s C (Fail e)) m (fun a s' => reads s C (Ok a s')).

Lemma reads_end s C B s1 (m : M St unit) :
  input mbox (trace s1) = input mbox (trace s) ++ B -> read_result s C B s1 (m s1) ->
  wp_reads s C m s1.
Proof. intros Hin Hr. apply (wp_result (reads s C)). by exists B, s1. Qed.
Lemma reads_wait s C B s1 :
  input mbox (trace s1) = input mbox (trace s) ++ B -> came s1 (C ++ B) -> reads s C (Ok tt s1).
Proof. intros Hin Hc. exists B, s1. split; [done|]. by apply read_waits. Qed.

(** The header [H] is complete, with [B1], in [s2]: what follows. *)
Lemma reads_rest s C B1 x2 msg H D s2 :
  input mbox (trace s2) = input mbox (trace s) ++ B1 -> me s2 = me s -> C ++ B1 = H ++ D ->
  session_at (sess s2) ses = x2 -> ses_read_mess x2 = Some msg -> length H = 48%nat ->
  valid_header ses s (native H) -> fits H ->
  in_body msg (ses_read x2) (message_header_bytes (native H)) D ->
  Z.of_nat (length D) < announced (native H) \/ D = [] /\ announced (native H) = 0 ->
  wp_reads s C (complete ← read_body mbox ses; when complete (message_read mbox ses)) s2.
Proof.
  intros Ha M2 HC Hx2 Hm2 HlH Hval Hf Hb Hn.
  assert (Hafter : forall s3 B, input mbox (trace s3) = input mbox (trace s2) ++ B ->
    input mbox (trace s3) = input mbox (trace s) ++ B1 ++ B).
  { intros s3 B Hin. rewrite (assoc_L (++)), <-Ha. exact Hin. }
  assert (HCB : forall B, C ++ B1 ++ B = H ++ D ++ B) by (intros; by rewrite !(assoc_L (++)), HC).
  eapply (rest_of_message _ _ x2 msg H D s2); try done.
  - by apply (valid_me s s2).
  - intros s3 B Hin Hc. apply (reads_wait s C (B1 ++ B) s3); [by apply Hafter|]. by rewrite HCB.
  - intros s3 B m Hin Hc (H' & D' & E1 & E2 & E3 & E4). apply (reads_end s C (B1 ++ B) s3); [by apply Hafter|].
    apply read_whole; [|done]. rewrite HCB. exists H', D'. split; [done|]. split; [done|].
    split; [|done]. by apply (valid_me s s2).
Qed.

(** In the middle of the header. *)
Lemma reads_header s C x msg s3 :
  input mbox (trace s3) = input mbox (trace s) -> me s3 = me s ->
  session_at (sess s3) ses = x -> header_part x C -> ses_read_mess x = Some msg ->
  legal_names (ses_name (session_at (sess s) ses)) (str_bytes (name (My s))) ->
  wp_reads s C (ok ← read_header mbox ses;
    if negb ok then mret tt else
    complete ← read_body mbox ses; when complete (message_read mbox ses)) s3.
Proof.
  intros Hin3 M3 Hx3 Hp Hm Hl. unfold wp_reads. wp_step.
  eapply frame_wp_conj; [exact (me_frame _ read_header_me)|].
  eapply (read_header_spec _ _ x msg C s3 Hx3 Hp Hm).
  - unfold me in M3. injection M3 as Hn HM. by rewrite Hn, HM.
  - intros s4 B Hin Hp4 _. cbn [negb]. wp_step. apply (reads_wait s C B s4); [by rewrite Hin, Hin3|].
    by apply came_head.
  - intros s4 B msg1 Hin HlB Hval Hm4 Hb4 M4. cbn [negb].
    apply (valid_me s s3) in Hval; [|done]. rewrite Hin3 in Hin.
    destruct (Z_lt_dec (sizeof_message_header + announced (native (C ++ B)))
      (MAX_SCATTER_ELEMENTS * P)) as [Hf|Hf].
    2:{ apply (reads_end s C B s4); [done|]. by apply read_too_large. }
    eapply (reads_rest s C B _ msg1 (C ++ B) [] s4); try done.
    + congruence.
    + by rewrite app_nil_r.
    + destruct Hval as [_ _ [Hg _] _ Hd _]. unfold announced. cbn [length].
      change MAX_GROUP_NAME with 32. destruct (Z.eq_dec (data_len (native (C ++ B)) +
        32 * num_groups (native (C ++ B))) 0); [by right|left; lia].
  - intros s4 B Hin HlB Hval. wp_step. eapply wp_mono.
    { apply (reads_end s C B s4 (Sess_kill mbox)); [by rewrite Hin, Hin3|].
      apply read_refused; [done|]. intros Hv'. apply Hval. by apply (valid_me s s3). }
    intros [] s5 HQ. wp_step. intros _. cbn [negb]. wp_step. exact HQ.
Qed.

(** C16. However the stream of a client is cut while its connection is open: a call of
    [Sess_read] takes the bytes [B] that it received to those of the message that
    had come before.  Either the message is not whole yet, and they are kept, in
    order; or it is, and the message that goes on to be checked and queued is its
    header, in the daemon's endianness, and all the bytes the header announces,
    and the session is at the start of the next message; or the header is not one
    that the client may send, and the session is killed.  Of a header that announces
    more than the elements of a message hold nothing is said here: see C17. *)
Theorem Sess_read_stream (C : list Z) (s : St) :
  Sess_get_session_index mbox s = ses -> ses < MAX_SESSIONS ->
  legal_names (ses_name (session_at (sess s) ses)) (str_bytes (name (My s))) ->
  came s C ->
  exists B s1, input mbox (trace s1) = input mbox (trace s) ++ B /\
    read_result s C B s1 (Sess_read mbox s).
Proof.
  intros Hix Hmax Hl Hcame. apply (wp_result (reads s C)). change (wp_reads s C (Sess_read mbox) s).
  unfold wp_reads, Sess_read. do 2 wp_step. rewrite Hix.
  replace ((ses <? 0) || (MAX_SESSIONS <=? ses)) with false
    by (symmetry; apply orb_false_iff; split; [apply Z.ltb_ge|apply Z.leb_gt]; lia).
  set (x := session_at (sess s) ses). assert (Hv : at_view ses x (trace s) s) by by split.
  wp_step. eapply (total_me _ _ _ _ s s eq_refl get_session_me (view_get ses Hses _ _ _ Hv)).
  intros r s1 [-> H1] M1. destruct Hcame as [C Hp|H D msg HlH Hval Hf Hm Hb Hn].
  - wp_step. eapply (total_me _ _ _ _ s1 s M1); [solve_frame|exact (start_reading _ _ _ _ H1 Hp)|].
    intros u s2 (x2 & msg & H2 & Hm2 & Hp2) M2. wp_step.
    eapply (total_me _ _ _ _ s2 s M2); [solve_frame|exact (view_do ses _ _ _ _ H2)|].
    intros u' s3 [Hx3 HT3] M3. fold x in Hp. rewrite (proj1 (proj2 Hp)).
    cbn [in_mess_head Z.eqb Pos.eqb]. apply (reads_header s C x2 msg s3); try done.
    rewrite HT3. by rewrite input_other.
  - fold x in Hm, Hb. wp_step. rewrite Hm. rewrite bool_decide_eq_false_2 by done.
    wp_step; [done|]. wp_step. eapply (total_me _ _ _ _ s1 s M1); [solve_frame|exact (view_do ses _ _ _ _ H1)|].
    intros u' s3 [Hx3 HT3] M3. rewrite (body_mode _ _ _ _ Hb). cbn [Z.eqb]. do 2 wp_step. cbn [negb].
    eapply (reads_rest s _ [] x msg H D s3); try done.
    + rewrite HT3, app_nil_r. by rewrite input_other.
    + by rewrite app_nil_r.
    + by left.
Qed.

(** C17. A message that does not fit in [MAX_SCATTER_ELEMENTS] elements ends the daemon:
    once they are full and bytes are missing, the assertion on their number fails.
    [MAX_MESSAGE_BODY_LEN], which bounds what a header may announce, counts 32
    bytes for a packet's header, which has 40. *)
Theorem large_message_fatal (x : session) (msg : scatter) (hd D : list Z) (s : St) :
  session_at (sess s) ses = x -> ses_read_mess x = Some msg -> in_body msg (ses_read x) hd D ->
  Z.of_nat (length msg) = MAX_SCATTER_ELEMENTS ->
  sizeof_message_header + Z.of_nat (length D) = MAX_SCATTER_ELEMENTS * P ->
  Z.of_nat (length D) < size_in hd ->
  wp (fun e => e = Fatal) (read_body mbox ses) (fun _ _ => False) s /\
  exists n, n <= MAX_MESSAGE_BODY_LEN - sizeof_message_header /\
    MAX_SCATTER_ELEMENTS * P < sizeof_message_header + n.
Proof.
  intros Hx Hm Hb Hlen HD Hn. split.
  2:{ exists (MAX_MESSAGE_BODY_LEN - sizeof_message_header). split; [done|].
      unfold MAX_MESSAGE_BODY_LEN, P, sizeof_packet_header. change MAX_SCATTER_ELEMENTS with 100. lia. }
  pose proof Hb as [_ Hpos Hbyte _ _ _]. rewrite HD in Hpos.
  assert (loc_element (ses_read x) = MAX_SCATTER_ELEMENTS) as El by nia.
  assert (loc_byte (ses_read x) = 0) as Eb by (rewrite El in Hpos; lia).
  apply (read_body_loop _ _ x msg hd D s Hx Hm Hb). intros T s1 Hv _ m. cbn [while_fuel].
  wp_step. unfold read_step. destruct (Z.leb_spec m 0); [lia|]. wp_step.
  apply wp_total_any. eapply wp_mono; [by apply (view_get ses Hses _ _ _ Hv)|]. intros r s2 [-> H2]. wp_step.
  apply wp_total_any. eapply wp_mono; [by apply (view_reading ses Hses _ _ _ msg H2)|]. intros r s3 [-> H3].
  rewrite Hlen, El, Eb. wp_step. wp_step; [|done]. wp_step. wp_step; [done|]. wp_step.
  unfold Message_add_scat_element. rewrite Hlen. wp_step. by wp_step.
Qed.
End Stream.

(** ** A client that sends seven bytes at a time *)

Definition demo_reader : SessLib := {|
  returns tr := match last tr with Some (recv _ n) => Z.min n 7 | _ => 0 end;
  received _ := replicate 7 65; accepted _ := None; crypt p salt := salt ++ p; MAX_SESSIONS := 100 |}.

(** Bob, of whose message [msg] has come. *)
Definition bob_reads (msg : scatter) (w : location) : session :=
  (demo_client "bob" 7) <| ses_read_mess := Some msg |> <| ses_read := w |>.
Definition reading_state (msg : scatter) (w : location) : @St demo_lib (@session_ext _ demo_reader) :=
  demo_with (X := @session_ext _ demo_reader)
    (demo_sess <| Sessions := <[1 := bob_reads msg w]> (Sessions demo_sess) |>) demo_conf demo_a.
Definition bob_head : list Z := message_header_bytes bob_header.

Lemma demo_reader_alive : client_alive (R := demo_reader) 7.
Proof. intros T n Hn. left. cbn [returns demo_reader]. rewrite last_snoc. lia. Qed.

(** Bob is at the start of a message: of his next read, what his client has sent goes
    to it. *)
Definition fresh_reader : @St demo_lib (@session_ext _ demo_reader) :=
  demo_with (X := @session_ext _ demo_reader) demo_sess demo_conf demo_a.

Lemma fresh_index : Sess_get_session_index (R := demo_reader) 7 fresh_reader = 1.
Proof. vm_compute. reflexivity. Qed.
Lemma fresh_legal : legal_names (ses_name (session_at (sess (R := demo_reader) fresh_reader) 1))
  (str_bytes (name (My fresh_reader))).
Proof. unfold legal_names, legal_part. vm_compute. intuition congruence. Qed.
Lemma fresh_came : came (R := demo_reader) 1 fresh_reader [].
Proof. apply came_head. split; [cbn; lia|]. split; reflexivity. Qed.
Lemma fresh_sessions : 1 < MAX_SESSIONS (SessLib := demo_reader).
Proof. reflexivity. Qed.

Lemma Sess_read_stream_witness :
  exists B s1, input (R := demo_reader) 7 (trace s1) = input (R := demo_reader) 7 (trace fresh_reader) ++ B /\
    read_result (R := demo_reader) 1 7 fresh_reader [] B s1 (Sess_read (R := demo_reader) 7 fresh_reader).
Proof.
  exact (Sess_read_stream (R := demo_reader) 1 7 ltac:(cbn; lia) demo_reader_alive
    eq_refl [] fresh_reader fresh_index fresh_sessions fresh_legal fresh_came).
Defined.

(** A client that sends a message of Bob's, header, group and data, at most seven bytes at
    a time: after fourteen reads it is queued. *)
Definition bob_message : list Z :=
  message_header_bytes bob_header ++ name_field (str_bytes "rooms") ++ str_bytes "0123456789".
Definition taken (T : list (call_ (@spu_addr demo_lib))) : nat :=
  foldr (fun c n => match c with recv _ k => (Nat.min 7 (Z.to_nat k) + n)%nat | _ => n end) O T.
Definition demo_cut : SessLib := {|
  returns tr := match last tr with Some (recv _ n) => Z.min n 7 | _ => 0 end;
  received tr := take 7 (drop (taken (removelast tr)) bob_message);
  accepted _ := None; crypt p salt := salt ++ p; MAX_SESSIONS := 100 |}.

Example Sess_read_run :
  ran (for_each (zrange 1 14) (fun _ => Sess_read (R := demo_cut) 7))
    (demo_with (X := @session_ext _ demo_cut) demo_sess demo_conf demo_a)
    (fun _ s => map (fun l => message_bytes (d_mess l)) (links (Normal_down_queue s))) =
  Some [message_header_bytes (native (message_header_bytes bob_header)) ++
        drop 48 bob_message].
Proof. vm_compute. reflexivity. Qed.

(** Bob sends a message of the largest size a header may announce: 143200 of its bytes,
    all that the elements hold, are there. *)
Definition large_header : message_header := bob_header <| data_len := 143952 |> <| num_groups := 0 |>.
Definition large_head : list Z := message_header_bytes large_header.
Definition large_message : scatter :=
  [mk_element sizeof_message_header large_head] ++ replicate 99 (mk_element sizeof_packet_body []).
Definition large_data : list Z := replicate (Z.to_nat sizeof_packet_body - 48 + 99 * Z.to_nat sizeof_packet_body) 0.
Definition large_location : location := mk_location 100 0 0 (Z.of_nat (length large_data)).

Lemma flat_empty n : flat (replicate n (mk_element sizeof_packet_body [])) = replicate (n * Z.to_nat sizeof_packet_body) 0.
Proof.
  unfold flat. induction n as [|n IH]; [done|]. cbn [replicate map concat].
  rewrite IH. unfold element_bytes, buf_get. cbn [e_buf]. rewrite drop_nil, resize_nil.
  cbn [Nat.mul]. by rewrite replicate_add.
Qed.

Lemma large_flat : flat large_message = large_head ++ large_data.
Proof.
  unfold large_message, large_data. rewrite flat_app, flat_empty, replicate_add, app_assoc.
  by f_equal.
Qed.

Lemma take_header n (hd D : list Z) : length hd = n -> take (n + length D) (hd ++ D) = hd ++ D.
Proof. intros <-. apply take_ge. by rewrite length_app. Qed.

Lemma large_in_body : in_body large_message large_location large_head large_data.
Proof.
  split.
  - split; [reflexivity| |apply Forall_replicate; reflexivity].
    rewrite large_flat. by apply take_header.
  - unfold large_location, large_data. rewrite length_replicate. by vm_compute.
  - split; reflexivity || done.
  - right. split; reflexivity.
  - reflexivity.
  - reflexivity.
Qed.

Lemma large_message_fatal_witness :
  read_body (R := demo_reader) 7 1 (reading_state large_message large_location) = Fail Fatal.
Proof.
  pose proof (large_message_fatal (R := demo_reader) 1 7 ltac:(cbn; lia)
    eq_refl (bob_reads large_message large_location) large_message large_head large_data
    (reading_state large_message large_location)
    eq_refl eq_refl large_in_body eq_refl eq_refl eq_refl) as [Hw _].
  by destruct (wp_fails _ _ _ Hw) as (e & E & ->).
Defined.
