(* ===== verification/SessTable.v ===== *)
(** * The table of sessions

    [table_ok]: the sessions are in the order of their names, which are legal and
    different; every other index is in the free list; the chains of the hash table
    hold the sessions of their mailboxes, which are different.  Then the two searches
    find exactly the sessions there are.  A new session enters and an ended one leaves
    without breaking it. *)

From stdpp Require Import sorting.
From S2P Require Import Prelude NetTypes Configuration State Network SessionLayer Delivery Send.
From S2P Require Import Message Stdutil SessState Sessions Acm SessAuth SessAccept.
From Stdlib Require Import DecimalString.

(** ** Names *)

Lemma strncmp_ext n m a b : (length a < n)%nat -> (length a < m)%nat -> strncmp n a b = strncmp m a b.
Proof.
  revert m a b. induction n as [|n IH]; intros [|m] a b Hn Hm; [lia..|]. cbn [strncmp].
  destruct a as [|x a]; cbn [head tail default option_map] in *.
  - destruct (negb _); [done|]. by rewrite Z.eqb_refl.
  - destruct (negb _); [done|]. destruct (_ =? _); [done|]. cbn [length] in *. apply IH; lia.
Qed.

(** The order of names, all of which fit in [MAX_PRIVATE_NAME] bytes. *)
Definition name_cmp : list Z -> list Z -> Z := strncmp (S (Z.to_nat MAX_PRIVATE_NAME)).
Definition name_before (a b : list Z) : Prop := name_cmp a b < 0.
Definition name_ok (nm : list Z) : Prop :=
  legal_private_name nm = true /\ Z.of_nat (length nm) <= MAX_PRIVATE_NAME.

Lemma name_short nm : name_ok nm -> (length nm < S (Z.to_nat MAX_PRIVATE_NAME))%nat.
Proof. intros [_ H]. lia. Qed.
Lemma strcmp_name a n : name_ok a -> (length a < n)%nat -> forall b, strncmp n a b = name_cmp a b.
Proof. intros Ha Hn b. apply strncmp_ext; [lia|by apply name_short]. Qed.
Lemma name_no_null nm : name_ok nm -> 0 ∉ nm.
Proof.
  intros [H _] Hin. unfold legal_private_name in H. rewrite forallb_forall in H.
  by specialize (H 0 (proj1 (list_elem_of_In _ _) Hin)).
Qed.
Lemma name_cmp_eq a b : name_ok a -> name_ok b -> name_cmp a b = 0 -> a = b.
Proof.
  intros Ha Hb. pose proof (name_short a Ha). pose proof (name_short b Hb).
  apply strncmp_same; try (by apply name_no_null); lia.
Qed.

(** The digits of a number are legal, and so are the names that are drawn. *)
Lemma legal_app a b : legal_private_name (a ++ b) = legal_private_name a && legal_private_name b.
Proof. apply forallb_app. Qed.
Lemma legal_digits d : legal_private_name (str_bytes (NilZero.string_of_uint d)) = true.
Proof.
  assert (H : forall d, legal_private_name (str_bytes (NilEmpty.string_of_uint d)) = true).
  { clear d. intros d. induction d; cbn [NilEmpty.string_of_uint]; [done|..];
      unfold str_bytes in *; cbn [String.list_ascii_of_string map legal_private_name forallb]; exact IHd. }
  destruct d; [done|apply H..].
Qed.
Lemma random_name_ok r mbox : name_ok (random_name r mbox).
Proof.
  unfold random_name. split.
  - match goal with |- legal_private_name (take ?n ?l) = true =>
      assert (Hl : legal_private_name l = true) end.
    { rewrite !legal_app. unfold decimal. by rewrite !legal_digits. }
    unfold legal_private_name in *. rewrite forallb_forall in *. intros c Hc.
    apply Hl. rewrite <-(take_drop (Z.to_nat MAX_PRIVATE_NAME - 1)). apply in_or_app. by left.
  - rewrite length_take. change MAX_PRIVATE_NAME with 10. lia.
Qed.

(** ** The table *)

Section Table.
Context {L : SpuLib} {R : SessLib}.
Implicit Types (x : sess_st) (j ses : Z).

Definition name_of x j : list Z := ses_name (session_at x j).
Definition mbox_of x j : Z := ses_mbox (session_at x j).

Record table_ok x : Prop := {
  tb_sorted : StronglySorted name_before (map (name_of x) (Sessions_sorted x));
  tb_names : Forall (fun j => name_ok (name_of x j)) (Sessions_sorted x);
  tb_slots : Sessions_sorted x ++ Sessions_free x ≡ₚ zrange 0 (MAX_SESSIONS - 1);
  tb_count : Num_sessions x = Z.of_nat (length (Sessions_sorted x));
  tb_chains : forall h, NoDup (chain x h) /\
    forall j, j ∈ chain x h <-> j ∈ Sessions_sorted x /\ hash_mbox (mbox_of x j) = h;
  tb_mboxes : NoDup (map (mbox_of x) (Sessions_sorted x))
}.

Lemma zrange_NoDup a b : NoDup (zrange a b).
Proof.
  unfold zrange. generalize (Z.to_nat (b - a + 1)). intros n. revert a.
  induction n as [|n IH]; intros a; constructor; [rewrite elem_of_zseq; lia|apply IH].
Qed.
Lemma table_NoDup x : table_ok x -> NoDup (Sessions_sorted x ++ Sessions_free x).
Proof. intros H. rewrite (tb_slots x H). apply zrange_NoDup. Qed.
Lemma sorted_NoDup x : table_ok x -> NoDup (Sessions_sorted x).
Proof. intros H. by apply table_NoDup, NoDup_app in H as [H _]. Qed.
Lemma sorted_range x j : table_ok x -> j ∈ Sessions_sorted x -> 0 <= j < MAX_SESSIONS.
Proof.
  intros H Hj. assert (j ∈ zrange 0 (MAX_SESSIONS - 1)) as Hr.
  { rewrite <-(tb_slots x H). apply elem_of_app. by left. }
  apply elem_of_zrange in Hr. lia.
Qed.

(** ** The searches *)

Lemma name_before_irrefl a : ~ name_before a a.
Proof. unfold name_before, name_cmp. rewrite cmp_refl. lia. Qed.

Lemma find_name_in x nm l : name_ok nm -> Forall (fun j => name_ok (name_of x j)) l ->
  StronglySorted name_before (map (name_of x) l) ->
  (find_name x nm l = -1 /\ Forall (fun j => name_of x j <> nm) l) \/
  (find_name x nm l ∈ l /\ name_of x (find_name x nm l) = nm).
Proof.
  intros Hnm. induction l as [|j l IH]; intros Hok Hs; cbn [find_name]; [by left|].
  apply Forall_cons in Hok as [Hj Hok]. cbn [map] in Hs. apply StronglySorted_cons in Hs as [Hf Hs].
  change (ses_name (session_at x j)) with (name_of x j).
  rewrite (strcmp_name (name_of x j)) by (done || lia).
  assert (Hafter : name_cmp (name_of x j) nm >= 0 ->
    Forall (fun k => name_of x k <> nm) l).
  { intros Hge. rewrite Forall_forall in Hf. rewrite Forall_forall. intros k Hk E. specialize (Hf (name_of x k)).
    rewrite E in Hf. assert (nm ∈ map (name_of x) l) as Hin.
    { rewrite <-E. by apply list_elem_of_fmap_2. }
    specialize (Hf Hin). unfold name_before in Hf. lia. }
  destruct (Z.ltb_spec (name_cmp (name_of x j) nm) 0) as [Hlt|Hge].
  - assert (name_of x j <> nm) as Hne.
    { intros E. rewrite E in Hlt. by apply (name_before_irrefl nm). }
    destruct (IH Hok Hs) as [[E Hall]|[Hin E]].
    + left. split; [exact E|by constructor].
    + right. split; [by right|exact E].
  - destruct (Z.eqb_spec (name_cmp (name_of x j) nm) 0) as [E|Hne].
    + right. split; [by left|by apply name_cmp_eq].
    + left. split; [done|]. constructor; [|apply Hafter; lia].
      intros E. apply Hne. rewrite E. apply cmp_refl.
Qed.

Lemma index_in_chain x mbox l :
  match list_find (fun j => mbox_of x j = mbox) l with
  | Some (_, j) => j ∈ l /\ mbox_of x j = mbox
  | None => Forall (fun j => mbox_of x j <> mbox) l
  end.
Proof.
  destruct (list_find _ l) as [[i j]|] eqn:E.
  - apply list_find_Some in E as (Hi & Hj & _). split; [by eapply list_elem_of_lookup_2|exact Hj].
  - by apply list_find_None in E.
Qed.

(** What a search gives: the one element there is, or -1. *)
Definition finds (P : Z -> Prop) (l : list Z) (r : Z) : Prop :=
  (r = -1 /\ Forall (fun j => ~ P j) l) \/ (r ∈ l /\ P r /\ Forall (fun j => P j -> j = r) l).
Lemma sorted_names_NoDup l : StronglySorted name_before l -> NoDup l.
Proof.
  induction 1 as [|nm l _ IH Hf]; constructor; [|exact IH]. intros Hin.
  rewrite Forall_forall in Hf. by apply (name_before_irrefl nm), Hf.
Qed.
Lemma finds_unique {A} (f : Z -> A) v l r : NoDup (map f l) -> r ∈ l -> f r = v -> finds (fun j => f j = v) l r.
Proof.
  intros Hn Hr E. right. split; [done|]. split; [done|]. apply Forall_forall. intros j Hj Ej.
  apply (NoDup_map_unique f l); [done..|congruence].
Qed.

Lemma get_session_finds s nm : table_ok (sess s) -> name_ok nm ->
  finds (fun j => name_of (sess s) j = nm) (Sessions_sorted (sess s)) (Sess_get_session nm s).
Proof.
  intros H Hnm. unfold Sess_get_session.
  destruct (find_name_in (sess s) nm (Sessions_sorted (sess s))) as [[-> Hall]|[Hin E]];
    [done|apply H|apply H|by left|].
  apply finds_unique; [|done|exact E]. apply sorted_names_NoDup, H.
Qed.
Lemma get_index_finds s mbox : table_ok (sess s) ->
  finds (fun j => mbox_of (sess s) j = mbox) (Sessions_sorted (sess s)) (Sess_get_session_index mbox s).
Proof.
  intros H. unfold Sess_get_session_index.
  destruct (tb_chains _ H (hash_mbox mbox)) as [_ Hc].
  pose proof (index_in_chain (sess s) mbox (chain (sess s) (hash_mbox mbox))) as Hf.
  unfold mbox_of in Hf. destruct (list_find _ _) as [[i j]|].
  - destruct Hf as [Hj E]. apply finds_unique; [apply H|by apply Hc|exact E].
  - left. split; [done|]. rewrite Forall_forall in Hf |- *. intros j Hj E. apply (Hf j); [|exact E].
    apply Hc. split; [done|]. by rewrite E.
Qed.

(** ** Entering and leaving *)

(** [x'] is [x] as far as sessions other than [ses] are concerned. *)
Definition others_same x x' ses : Prop :=
  forall j, j <> ses -> name_of x' j = name_of x j /\ mbox_of x' j = mbox_of x j.

Lemma map_others {A} (f g : Z -> A) ses l : (forall j, j <> ses -> f j = g j) -> ses ∉ l -> map f l = map g l.
Proof. intros H Hl. apply map_ext_in. intros j Hj%list_elem_of_In. apply H. by intros ->. Qed.
Lemma map_mid {A} (f : Z -> A) l1 j l2 : map f (l1 ++ j :: l2) ≡ₚ f j :: map f (l1 ++ l2).
Proof. rewrite !map_app. cbn [map]. symmetry. apply Permutation_middle. Qed.
Lemma sorted_mid (l1 l2 : list (list Z)) nm : StronglySorted name_before (l1 ++ l2) ->
  Forall (fun a => name_before a nm) l1 -> Forall (name_before nm) l2 ->
  StronglySorted name_before (l1 ++ nm :: l2).
Proof.
  rewrite !StronglySorted_app, StronglySorted_cons. intros (Hc & H1 & H2) F1 F2.
  split_and!; [|done..]. rewrite Forall_forall in F1. intros a b Ha [-> |Hb]%elem_of_cons; [by apply F1|by apply Hc].
Qed.
Lemma sorted_without (l1 l2 : list (list Z)) nm :
  StronglySorted name_before (l1 ++ nm :: l2) -> StronglySorted name_before (l1 ++ l2).
Proof.
  rewrite !StronglySorted_app, StronglySorted_cons. intros (Hc & H1 & _ & H2).
  split_and!; [|done..]. intros a b Ha Hb. apply Hc; [done|by right].
Qed.

Section Enter.
Context (x x' : sess_st) (ses : Z) (free l1 l2 : list Z).
Context (Hok : table_ok x) (Hfree : Sessions_free x = ses :: free) (Hl : Sessions_sorted x = l1 ++ l2).
Context (Hname : name_ok (name_of x' ses)) (Hother : others_same x x' ses).
Context (Hbefore : Forall (fun j => name_before (name_of x j) (name_of x' ses)) l1)
  (Hafter : Forall (fun j => name_before (name_of x' ses) (name_of x j)) l2).
Context (Hfresh : mbox_of x' ses ∉ map (mbox_of x) (Sessions_sorted x)).
Context (Hl' : Sessions_sorted x' = l1 ++ ses :: l2) (Hfree' : Sessions_free x' = free)
  (Hnum : Num_sessions x' = Num_sessions x + 1).
Context (Hchain : forall h, chain x' h =
  if decide (h = hash_mbox (mbox_of x' ses)) then ses :: chain x h else chain x h).

Lemma entered_new : ses ∉ l1 ++ l2.
Proof.
  intros Hin. pose proof (table_NoDup x Hok) as Hn. rewrite Hl, Hfree in Hn.
  apply NoDup_app in Hn as (_ & Hd & _). apply (Hd ses Hin). by left.
Qed.
Lemma entered_ok : table_ok x'.
Proof.
  pose proof entered_new as Hnew. pose proof (tb_names x Hok) as Hnames. rewrite Hl in Hnames.
  assert (En : forall l, ses ∉ l -> map (name_of x') l = map (name_of x) l).
  { intros l. apply map_others. intros j Hj. by apply Hother. }
  assert (Em : forall l, ses ∉ l -> map (mbox_of x') l = map (mbox_of x) l).
  { intros l. apply map_others. intros j Hj. by apply Hother. }
  assert (Hnot : ses ∉ l1 /\ ses ∉ l2) by (rewrite elem_of_app in Hnew; tauto). destruct Hnot as [H1 H2].
  pose proof (tb_sorted x Hok) as Hs. rewrite Hl, map_app in Hs.
  split; rewrite ?Hl', ?Hfree', ?Hnum.
  - rewrite map_app. cbn [map]. rewrite !En by done. apply sorted_mid; [done|by rewrite Forall_fmap..].
  - apply Forall_app in Hnames as [F1 F2]. apply Forall_app; split; [|constructor; [done|]].
    + eapply Forall_impl; [apply Forall_and; split; [exact F1|apply (Forall_forall (fun j => j ∈ l1)); tauto]|].
      cbn. intros j [Hj Hin]. rewrite (proj1 (Hother j ltac:(congruence))). done.
    + eapply Forall_impl; [apply Forall_and; split; [exact F2|apply (Forall_forall (fun j => j ∈ l2)); tauto]|].
      cbn. intros j [Hj Hin]. rewrite (proj1 (Hother j ltac:(congruence))). done.
  - rewrite <-(tb_slots x Hok), Hl, Hfree. rewrite <-!app_assoc. cbn [app].
    apply Permutation_app_head. by rewrite <-Permutation_middle.
  - rewrite (tb_count x Hok), Hl, !length_app. cbn [length]. lia.
  - intros h. destruct (tb_chains x Hok h) as [Hd Hc]. rewrite Hchain.
    assert (Hin : forall j, j ∈ l1 ++ ses :: l2 <-> j = ses \/ j ∈ Sessions_sorted x).
    { intros j. rewrite Hl, !elem_of_app, elem_of_cons. tauto. }
    assert (Hno : ses ∉ chain x h) by (rewrite Hc, Hl; tauto).
    destruct (decide _) as [->|Hne]; split; [by constructor| |done|]; intros j;
      rewrite ?elem_of_cons, Hc, Hin; (destruct (decide (j = ses)) as [->|Hj];
        [|rewrite (proj2 (Hother j Hj)); tauto]).
    + tauto.
    + rewrite Hl. split; [tauto|]. intros [_ E]. by destruct Hne.
  - rewrite map_mid. constructor; [|rewrite Em by done; rewrite <-Hl; apply Hok].
    rewrite Em by done. by rewrite <-Hl.
Qed.
End Enter.

Section Leave.
Context (x x' : sess_st) (ses : Z) (l1 l2 : list Z).
Context (Hok : table_ok x) (Hl : Sessions_sorted x = l1 ++ ses :: l2) (Hother : others_same x x' ses).
Context (Hl' : Sessions_sorted x' = l1 ++ l2) (Hfree' : Sessions_free x' = ses :: Sessions_free x)
  (Hnum : Num_sessions x' = Num_sessions x - 1).
Context (i : nat) (Hi : chain x (hash_mbox (mbox_of x ses)) !! i = Some ses).
Context (Hchain : forall h, chain x' h =
  if decide (h = hash_mbox (mbox_of x ses)) then delete i (chain x h) else chain x h).

Lemma left_gone : ses ∉ l1 ++ l2.
Proof.
  pose proof (sorted_NoDup x Hok) as Hn. rewrite Hl in Hn.
  rewrite <-Permutation_middle in Hn. by apply NoDup_cons in Hn as [Hn _].
Qed.
Lemma delete_elem (l : list Z) k : NoDup l -> l !! k = Some ses ->
  NoDup (delete k l) /\ forall j, j ∈ delete k l <-> j ∈ l /\ j <> ses.
Proof.
  intros Hn Hk. pose proof (delete_Permutation l k ses Hk) as Hp.
  assert (Hn' : NoDup (ses :: delete k l)) by (by rewrite <-Hp). apply NoDup_cons in Hn' as [Hs Hn'].
  split; [exact Hn'|]. intros j.
  assert (j ∈ l <-> j ∈ ses :: delete k l) as -> by (by rewrite <-Hp). rewrite elem_of_cons.
  split; [intros Hj; split; [tauto|by intros ->]|tauto].
Qed.
Lemma left_ok : table_ok x'.
Proof.
  pose proof left_gone as Hgone. pose proof (tb_names x Hok) as Hnames. rewrite Hl in Hnames.
  pose proof (tb_sorted x Hok) as Hs. rewrite Hl, map_app in Hs.
  pose proof (tb_mboxes x Hok) as Hm. rewrite Hl, map_mid in Hm. apply NoDup_cons in Hm as [Hmb Hm].
  assert (En : map (name_of x') (l1 ++ l2) = map (name_of x) (l1 ++ l2)).
  { apply (map_others _ _ ses); [|done]. intros j Hj. by apply Hother. }
  assert (Em : map (mbox_of x') (l1 ++ l2) = map (mbox_of x) (l1 ++ l2)).
  { apply (map_others _ _ ses); [|done]. intros j Hj. by apply Hother. }
  assert (Hin : forall j, j ∈ l1 ++ ses :: l2 <-> j = ses \/ j ∈ l1 ++ l2).
  { intros j. rewrite !elem_of_app, elem_of_cons. tauto. }
  split; rewrite ?Hl', ?Hfree', ?Hnum, ?En, ?Em; [|..|exact Hm].
  - rewrite map_app. by apply sorted_without in Hs.
  - apply Forall_forall. intros j Hj. rewrite (proj1 (Hother j ltac:(congruence))).
    rewrite Forall_forall in Hnames. apply Hnames, Hin. by right.
  - rewrite <-(tb_slots x Hok), Hl. rewrite <-!app_assoc. apply Permutation_app_head.
    cbn [app]. by rewrite <-Permutation_middle.
  - rewrite (tb_count x Hok), Hl, !length_app. cbn [length]. lia.
  - intros h. destruct (tb_chains x Hok h) as [Hd Hc]. rewrite Hl in Hc. rewrite Hchain.
    assert (Hmem : forall j, j <> ses -> j ∈ chain x h <-> j ∈ l1 ++ l2 /\ hash_mbox (mbox_of x' j) = h).
    { intros j Hj. rewrite Hc, Hin, (proj2 (Hother j Hj)). tauto. }
    destruct (decide _) as [->|Hne].
    + destruct (delete_elem _ i Hd Hi) as [Hd' Hdel]. split; [exact Hd'|]. intros j. rewrite Hdel.
      destruct (decide (j = ses)) as [->|Hj]; [tauto|]. rewrite Hmem by done. tauto.
    + split; [done|]. intros j. destruct (decide (j = ses)) as [->|Hj]; [|by apply Hmem].
      rewrite Hc. split; [|tauto]. intros [_ E]. by destruct Hne.
Qed.
End Leave.

(** ** The code *)

Lemma find_place (l1 l2 : list Z) j : j ∉ l1 ->
  list_find (fun k => k = j) (l1 ++ j :: l2) = Some (length l1, j).
Proof.
  intros Hj. apply list_find_Some. split; [|split; [done|]].
  - rewrite lookup_app_r by lia. by rewrite Nat.sub_diag.
  - intros k y Hk Hlt ->. apply Hj. rewrite lookup_app_l in Hk by done. by eapply list_elem_of_lookup_2.
Qed.

(** What leaves the slots of the table alone keeps it. *)
Definition table_kept (s s' : St) : Prop :=
  (Sessions_sorted (sess s') = Sessions_sorted (sess s) /\ Sessions_free (sess s') = Sessions_free (sess s) /\
   Num_sessions (sess s') = Num_sessions (sess s) /\ Sessions_hash (sess s') = Sessions_hash (sess s)) /\
  forall j, 0 <= j < MAX_SESSIONS ->
    name_of (sess s') j = name_of (sess s) j /\ mbox_of (sess s') j = mbox_of (sess s) j.
Lemma kept_ok s s' : table_ok (sess s) -> table_kept s s' -> table_ok (sess s').
Proof.
  intros Hok [(E1 & E2 & E3 & E4) E].
  assert (Hin : forall j, j ∈ Sessions_sorted (sess s) ->
    name_of (sess s') j = name_of (sess s) j /\ mbox_of (sess s') j = mbox_of (sess s) j).
  { intros j Hj. by apply E, (sorted_range (sess s)). }
  assert (En : map (name_of (sess s')) (Sessions_sorted (sess s)) = map (name_of (sess s)) (Sessions_sorted (sess s))).
  { apply map_ext_in. intros j Hj%list_elem_of_In. by apply Hin. }
  assert (Em : map (mbox_of (sess s')) (Sessions_sorted (sess s)) = map (mbox_of (sess s)) (Sessions_sorted (sess s))).
  { apply map_ext_in. intros j Hj%list_elem_of_In. by apply Hin. }
  split; rewrite ?E1, ?E2, ?E3, ?En, ?Em; [apply Hok| |apply Hok..| |apply Hok].
  - apply Forall_forall. intros j Hj. rewrite (proj1 (Hin j Hj)).
    pose proof (tb_names _ Hok) as Hf. rewrite Forall_forall in Hf. by apply Hf.
  - intros h. unfold chain. rewrite E4. destruct (tb_chains _ Hok h) as [Hd Hc]. split; [exact Hd|].
    intros j. fold (chain (sess s) h). rewrite Hc. split; intros [Hj Hh]; (split; [exact Hj|]);
      [rewrite (proj2 (Hin j Hj))|rewrite <-(proj2 (Hin j Hj))]; exact Hh.
Qed.
End Table.
