(* ===== verification/TableRuns.v ===== *)
(** * The table of sessions in a run

    Whatever the clients, the operating system and the protocol do, in any order,
    the table of sessions stays as [table_ok] says. *)

From stdpp Require Import sorting.
From S2P Require Import Prelude NetTypes Configuration State Network SessionLayer Delivery Send.
From S2P Require Import Message Stdutil SessState Sessions Acm SessAuth SessAccept Groups.
From S2P Require Import GroupsMess GroupsHandle GroupsMemb SessionC SessRead Machine SessFrames.
From S2P Require Import SessFrames HandlerFrames SessTable Demo GroupsDemo.

(** ** Reading leaves the table alone *)

Section ReadFrames.
Context {L : SpuLib} {R : SessLib} {U : Stdutil} (o : option Z).

Lemma try_again_above r : frame (above_at o) (try_again r).
Proof. unfold try_again. solve_frame. Qed.
Lemma set_blocking_above ses : frame (above_at o) (set_blocking ses).
Proof. unfold set_blocking. solve_frame. Qed.
Lemma reading_above ses : frame (above_at o) (reading ses).
Proof. unfold reading. solve_frame. Qed.
Lemma set_reading_above ses m : frame (above_at o) (set_reading ses m).
Proof. unfold set_reading. solve_frame. Qed.
Lemma advance_above ses f : frame (above_at o) (advance ses f).
Proof. unfold advance. solve_frame. Qed.
Hint Resolve try_again_above set_blocking_above reading_above set_reading_above advance_above : frame.
Lemma read_lost_above m ses r : frame (above_at o) (read_lost m ses r).
Proof. unfold read_lost. solve_frame. Qed.
Lemma recv_element_above m ses i k n : frame (above_at o) (recv_element m ses i k n).
Proof. unfold recv_element. solve_frame. Qed.
Lemma validate_above ses h : frame (above_at o) (Sess_validate_read_header ses h).
Proof. unfold Sess_validate_read_header. solve_frame. Qed.
Hint Resolve read_lost_above recv_element_above validate_above : frame.
Lemma accept_header_above m ses : frame (above_at o) (accept_header m ses).
Proof. unfold accept_header. solve_frame. Qed.
Hint Resolve accept_header_above : frame.
Lemma read_header_above m ses : frame (above_at o) (read_header m ses).
Proof. unfold read_header. solve_frame. Qed.
Lemma read_step_above m ses r : frame (above_at o) (read_step m ses r).
Proof. unfold read_step, Message_add_scat_element. solve_frame. Qed.
Hint Resolve read_header_above read_step_above : frame.
Lemma read_body_above m ses : frame (above_at o) (read_body m ses).
Proof. unfold read_body. solve_frame. Qed.
Lemma first_group_above m : frame (above_at o) (first_group m).
Proof. unfold first_group. solve_frame. Qed.
Hint Resolve first_group_above : frame.
Lemma access_check_above ses m : frame (above_at o) (access_check ses m).
Proof. unfold access_check, refused_leave, refused_join, refused_send. solve_frame. Qed.
Lemma queue_message_above m ses msg : frame (above_at o) (queue_message m ses msg).
Proof. unfold queue_message, Prot_Create_Down_Link. solve_frame. Qed.
End ReadFrames.

#[export] Hint Resolve read_header_above read_body_above access_check_above queue_message_above
  set_blocking_above reading_above set_reading_above : frame.

(** ** Programs that keep the table *)

Section Tables.
Context {L : SpuLib} {R : SessLib} {U : Stdutil}.

Definition tables {A} (m : M St A) : Prop :=
  forall s, table_ok (sess s) -> wp partial m (fun _ s' => table_ok (sess s')) s.

Lemma tables_ret {A} (a : A) : tables (mret a).
Proof. intros s Hok. by wp_step. Qed.
Lemma tables_bind {A B} (m : M St A) (k : A -> M St B) :
  tables m -> (forall a, tables (k a)) -> tables (mbind k m).
Proof.
  intros Hm Hk s Hok. apply wp_bind. eapply wp_mono; [by apply Hm|]. intros a s' Hok'. by apply Hk.
Qed.
Lemma tables_when c (m : M St unit) : tables m -> tables (when c m).
Proof. destruct c; [done|]. intros _. apply tables_ret. Qed.

(** The slots of the table, one by one. *)
Lemma slots_kept s s' : (forall j, j <> MAX_SESSIONS -> slot (Some j) s' = slot (Some j) s) -> table_kept s s'.
Proof.
  intros H. assert (Hj : forall j, j <> MAX_SESSIONS -> table_of (sess s') j = table_of (sess s) j).
  { intros j Hj. apply (inj Some). exact (H j Hj). }
  split.
  - assert (MAX_SESSIONS - 1 <> MAX_SESSIONS) as Hne by lia. apply Hj in Hne.
    unfold table_of in Hne. by injection Hne.
  - intros j Hr. assert (j <> MAX_SESSIONS) as Hne by lia. apply Hj in Hne.
    unfold table_of in Hne. by injection Hne.
Qed.
Lemma wp_kept {A} (m : M St A) (Q : A -> St -> Prop) s :
  (forall o, o <> Some MAX_SESSIONS -> frame (below_at o) m) ->
  (forall a s', m s = Ok a s' -> table_kept s s' -> Q a s') -> wp partial m Q s.
Proof.
  intros H HQ. apply wp_intro. intros a s' E. apply HQ; [done|]. apply slots_kept. intros j Hj.
  apply (slot_of_below _ _ (H (Some j) ltac:(congruence)) s a s' E).
Qed.
Lemma tables_below {A} (m : M St A) :
  (forall o, o <> Some MAX_SESSIONS -> frame (below_at o) m) -> tables m.
Proof. intros H s Hok. apply wp_kept; [done|]. intros a s' _ Hk. by eapply kept_ok. Qed.
Lemma tables_beside {A} (m : M St A) :
  (forall o, o <> Some MAX_SESSIONS -> frame (beside_at o) m) -> tables m.
Proof. intros H. apply tables_below. intros o Ho. by apply below_of_beside, H. Qed.
Lemma tables_above {A} (m : M St A) :
  (forall o, o <> Some MAX_SESSIONS -> frame (above_at o) m) -> tables m.
Proof. intros H. apply tables_beside. intros o Ho. by apply beside_of_above, H. Qed.

(** ** A session leaves *)

Definition leave (ses : Z) : M St unit :=
  Sess_unhash_session ses;;
  Sess_remove_session ses;;
  gset (fun x => x <| Num_sessions ::= Z.pred |>);;
  gset (fun x => x <| gs_num_sessions := i16 (Num_sessions x) |>).

Lemma wp_get_session {E} ses (Q : session -> St -> Prop) s : E Undefined ->
  (0 <= ses <= MAX_SESSIONS -> Q (session_at (sess s) ses) s) -> wp E (get_session ses) Q s.
Proof. intros He HQ. unfold get_session. do 2 wp_step; [done|]. g_step. apply HQ. lia. Qed.
Lemma wp_update_session {E} ses f (Q : unit -> St -> Prop) s : E Undefined ->
  Q tt (with_sess (fun x => x <| Sessions := <[ses := f (session_at x ses)]> (Sessions x) |>) s) ->
  wp E (update_session ses f) Q s.
Proof. intros He HQ. unfold update_session. do 2 wp_step; [done|]. by g_step. Qed.
Lemma wp_do_sess {E} c (Q : unit -> St -> Prop) s :
  Q tt (s <| trace := trace s ++ [c] |>) -> wp E (ext_do c) Q s.
Proof. intros HQ. unfold ext_do. wp_step. eapply wp_returns; [reflexivity|]. by wp_step. Qed.

Lemma leave_tables ses : tables (leave ses).
Proof.
  intros s Hok. unfold leave, Sess_unhash_session. do 2 wp_step. apply wp_get_session; [done|]. intros Hses.
  cbn zeta. do 4 g_step; [done|]. destruct a as [i j]. g_step.
  unfold Sess_remove_session. do 5 g_step; [done|]. destruct a as [k j']. do 3 g_step.
  apply wp_get_session; [done|]. intros _. wp_step. apply wp_do_sess. wp_step.
  apply wp_update_session; [done|]. do 4 g_step.
  apply list_find_Some in H as (Hi & -> & _). apply list_find_Some in H0 as (Hk & -> & _).
  match goal with |- table_ok (sess ?t) => set (s' := t) end.
  set (x := sess s) in *. change (Sessions_sorted x !! k = Some ses) in Hk.
  assert (Hs : Sessions (sess s') = <[ses := (session_at x ses) <| ses_mbox := -1 |>]> (Sessions x)) by reflexivity.
  assert (Hh : Sessions_hash (sess s') = <[hash_mbox (mbox_of x ses) :=
    delete i (chain x (hash_mbox (mbox_of x ses)))]> (Sessions_hash x)) by reflexivity.
  apply (left_ok x (sess s') ses (take k (Sessions_sorted x)) (drop (S k) (Sessions_sorted x))) with i;
    [exact Hok| | | |reflexivity|reflexivity|exact Hi|].
  - symmetry. by apply take_drop_middle.
  - intros j Hj. unfold name_of, mbox_of, session_at. rewrite Hs. by rewrite lookup_total_insert_ne.
  - apply delete_take_drop.
  - intros h. unfold chain. rewrite Hh. destruct (decide (h = _)) as [->|Hne];
      [by rewrite lookup_insert_eq|by rewrite lookup_insert_ne].
Qed.

(** ** A session enters *)

(** The place of a name in the list, by the session it goes before. *)
Definition placed (x : sess_st) (nm : list Z) (place : option Z) : Prop := exists l1 l2,
  Sessions_sorted x = l1 ++ l2 /\ place = l2 !! O /\
  Forall (fun j => name_before (name_of x j) nm) l1 /\
  Forall (fun j => name_before nm (name_of x j)) l2.

(** The session that is being accepted can enter. *)
Record ready (place : option Z) (s : St) : Prop := {
  rd_table : table_ok (sess s);
  rd_name : name_ok (name_of (sess s) MAX_SESSIONS);
  rd_place : placed (sess s) (name_of (sess s) MAX_SESSIONS) place;
  rd_fresh : mbox_of (sess s) MAX_SESSIONS ∉ map (mbox_of (sess s)) (Sessions_sorted (sess s))
}.

Lemma with_sess_eq f g (s : St) : f (sess s) = g (sess s) -> with_sess f s = with_sess g s.
Proof. unfold with_sess, sess, set_field, set_Sess. by intros ->. Qed.
Lemma wp_insert_at place ses l1 l2 (Q : unit -> St -> Prop) s :
  Sessions_sorted (sess s) = l1 ++ l2 -> NoDup (l1 ++ l2) -> place = l2 !! O ->
  Q tt (with_sess (fun x => x <| Sessions_sorted := l1 ++ ses :: l2 |>) s) ->
  wp partial (match place with
    | None => gset (fun x => x <| Sessions_sorted ::= fun l => l ++ [ses] |>)
    | Some w =>
        l ← gget Sessions_sorted;
        '(i, _) ← or_fail Undefined (list_find (fun j => j = w) l);
        gset (fun x => x <| Sessions_sorted := take i l ++ ses :: drop i l |>)
    end) Q s.
Proof.
  intros Hl Hn -> HQ. destruct l2 as [|w l2]; cbn [lookup list_lookup].
  - g_step. rewrite app_nil_r in Hl.
    rewrite (with_sess_eq _ (fun x => x <| Sessions_sorted := l1 ++ [ses] |>)); [exact HQ|].
    by rewrite <-Hl.
  - do 2 g_step. rewrite Hl, find_place.
    2:{ apply NoDup_app in Hn as (_ & Hd & _). intros Hw. apply (Hd w Hw). by left. }
    do 2 wp_step; [done|]. injection H as <-. g_step.
    rewrite take_app_length, drop_app_length. exact HQ.
Qed.

(** The last step: the new session, that is in the sorted list already, enters its chain. *)
Lemma hashed_ok x s1 ses free l1 l2 t : table_ok x -> name_ok (ses_name t) ->
  Sessions_sorted x = l1 ++ l2 -> Sessions_free x = ses :: free ->
  Forall (fun j => name_before (name_of x j) (ses_name t)) l1 ->
  Forall (fun j => name_before (ses_name t) (name_of x j)) l2 ->
  ses_mbox t ∉ map (mbox_of x) (Sessions_sorted x) ->
  Sessions (sess s1) = <[ses := t]> (Sessions x) -> Sessions_hash (sess s1) = Sessions_hash x ->
  Sessions_sorted (sess s1) = l1 ++ ses :: l2 -> Sessions_free (sess s1) = free ->
  Num_sessions (sess s1) = Num_sessions x + 1 ->
  wp partial (Sess_hash_session ses) (fun _ s' => table_ok (sess s')) s1.
Proof.
  intros Hok Hname Hl Hfree H1 H2 Hfresh Hs Hh Hl1 Hf1 Hn1.
  unfold Sess_hash_session. wp_step. apply wp_get_session; [done|]. intros _. cbn zeta. g_step.
  assert (Et : session_at (sess s1) ses = t).
  { unfold session_at. rewrite Hs. by rewrite lookup_total_insert_eq. }
  rewrite Et. match goal with |- table_ok (sess ?t) => set (s' := t) end.
  assert (En : name_of (sess s') ses = ses_name t) by (change (ses_name (session_at (sess s1) ses) = ses_name t); by rewrite Et).
  assert (Em : mbox_of (sess s') ses = ses_mbox t) by (change (ses_mbox (session_at (sess s1) ses) = ses_mbox t); by rewrite Et).
  apply (entered_ok x (sess s') ses free l1 l2); rewrite ?En, ?Em; try done.
  - intros j Hj. change (name_of (sess s')) with (name_of (sess s1)).
    change (mbox_of (sess s')) with (mbox_of (sess s1)).
    unfold name_of, mbox_of, session_at. rewrite Hs. by rewrite lookup_total_insert_ne.
  - intros h. unfold s', chain, sess, with_sess. rec_simpl_in_goal. fold (sess s1). rewrite Hh.
    destruct (decide (h = _)) as [->|Hne];
      [by rewrite lookup_insert_eq|by rewrite lookup_insert_ne].
Qed.

Lemma enter_session_tables place s : ready place s ->
  wp partial (enter_session place) (fun _ s' => table_ok (sess s')) s.
Proof.
  intros [Hok Hname (l1 & l2 & Hl & Hplace & H1 & H2) Hfresh].
  unfold enter_session, new_session, Sess_insert_new_session, Sess_get_free_session.
  wp_step. apply wp_get_session; [done|]. intros _. do 4 g_step.
  destruct (Sessions_free (sess s)) as [|ses free] eqn:Hfree; [by g_step|]. do 4 g_step.
  apply wp_update_session; [done|]. wp_step.
  apply wp_insert_at with l1 l2; [exact Hl| |exact Hplace|].
  { rewrite <-Hl. by apply sorted_NoDup. }
  do 6 g_step. apply wp_update_session; [done|]. wp_step.
  eapply wp_mono; [|intros u s' H; g_step; exact H].
  set (t := session_at (sess s) MAX_SESSIONS) in *.
  apply hashed_ok with (x := sess s) (free := free) (l1 := l1) (l2 := l2)
    (t := t <| ses_status ::= Set_preauth_session |>); try done.
  unfold session_at, sess, with_sess. rec_simpl_in_goal.
  by rewrite lookup_total_insert_eq, insert_insert_eq.
Qed.

(** The scan for the place of a name that is new. *)
Lemma name_place_spec x nm l : name_ok nm -> Forall (fun j => name_ok (name_of x j)) l ->
  StronglySorted name_before (map (name_of x) l) -> (name_place x nm l).2 = true ->
  exists l1 l2, l = l1 ++ l2 /\ (name_place x nm l).1 = l2 !! O /\
    Forall (fun j => name_before (name_of x j) nm) l1 /\
    Forall (fun j => name_before nm (name_of x j)) l2.
Proof.
  intros Hnm. induction l as [|j l IH]; intros Hok Hs; cbn [name_place]; [by exists [], []|].
  apply Forall_cons in Hok as [Hj Hok]. cbn [map] in Hs. apply StronglySorted_cons in Hs as [Hf Hs].
  change (ses_name (session_at x j)) with (name_of x j). rewrite (strcmp_name nm) by (done || lia).
  destruct (Z.leb_spec (name_cmp nm (name_of x j)) 0) as [Hle|Hgt].
  - cbn [fst snd]. rewrite negb_true_iff, Z.eqb_neq. intros Hne.
    assert (Hb : name_before nm (name_of x j)) by (unfold name_before; lia).
    exists [], (j :: l). split; [done|]. split; [done|]. split; [done|]. constructor; [exact Hb|].
    rewrite Forall_fmap in Hf. eapply Forall_impl; [exact Hf|]. cbn. intros k Hk.
    by apply (cmp_lt_trans name_cmp) with (name_of x j).
  - intros Hu. destruct (IH Hok Hs Hu) as (l1 & l2 & -> & Hp & F1 & F2).
    exists (j :: l1), l2. split; [done|]. split; [exact Hp|]. split; [|exact F2].
    constructor; [|exact F1]. unfold name_before. by apply (cmp_anti (name_cmp)) in Hgt || (apply cmp_anti; exact Hgt).
Qed.
Lemma table_placed x nm : table_ok x -> name_ok nm ->
  (name_place x nm (Sessions_sorted x)).2 = true -> placed x nm (name_place x nm (Sessions_sorted x)).1.
Proof. intros Hok Hnm Hu. by apply name_place_spec; [|apply Hok..|]. Qed.

(** ** Accepting *)

(** The connection that is being accepted is none of the table's. *)
Definition pending (s : St) : Z := mbox_of (sess s) MAX_SESSIONS.
Record fresh (s : St) : Prop := {
  fr_table : table_ok (sess s);
  fr_mbox : pending s ∉ map (mbox_of (sess s)) (Sessions_sorted (sess s))
}.

Lemma pending_call c : frame pending (ext_call c).
Proof. by intros s a s' [= _ <-]. Qed.
Lemma pending_do c : frame pending (ext_do c).
Proof. apply frame_bind; [apply pending_call|]. intros. apply frame_ret. Qed.
Lemma pending_get ses : frame pending (get_session ses).
Proof. unfold get_session, gget. solve_frame. Qed.
Lemma pending_set f : (forall t, ses_mbox (f t) = ses_mbox t) -> frame pending (set_new_session f).
Proof.
  intros H. unfold set_new_session, update_session, gset. apply frame_bind; [apply frame_undef_if|]. intros _.
  apply frame_modify. intros s. unfold pending, mbox_of, session_at, sess, with_sess. rec_simpl_in_goal.
  by rewrite lookup_total_insert_eq, H.
Qed.
Hint Resolve pending_call pending_do pending_get : frame.
Hint Extern 1 (frame pending (set_new_session _)) => apply pending_set; reflexivity : frame.
Hint Extern 1 (frame pending (gget _)) => apply frame_gets : frame.
Lemma pending_attach : frame pending Sess_attach_accept.
Proof. unfold Sess_attach_accept. solve_frame. Qed.
Lemma pending_recv m n : frame pending (recv_bytes m n).
Proof. unfold recv_bytes. solve_frame. Qed.
Hint Resolve pending_attach pending_recv : frame.
Lemma pending_reject m r : frame pending (reject_new m r).
Proof. unfold reject_new, send_byte. solve_frame. Qed.
Hint Resolve pending_reject : frame.
Lemma pending_version m : frame pending (read_version m).
Proof. unfold read_version. solve_frame. Qed.
Hint Resolve pending_version : frame.

Lemma kept_mboxes s s' : table_ok (sess s) -> table_kept s s' ->
  map (mbox_of (sess s')) (Sessions_sorted (sess s')) = map (mbox_of (sess s)) (Sessions_sorted (sess s)).
Proof.
  intros Hok [(E1 & _) E]. rewrite E1. apply map_ext_in. intros j Hj%list_elem_of_In.
  by apply E, (sorted_range (sess s)).
Qed.
Lemma fresh_kept {A} (m : M St A) s :
  (forall o, o <> Some MAX_SESSIONS -> frame (above_at o) m) -> frame pending m -> fresh s ->
  wp partial m (fun _ s' => fresh s') s.
Proof.
  intros H Hp [Hok Hf]. apply wp_kept.
  - intros o Ho. by apply below_of_above, H.
  - intros a s' E Hk. split; [by eapply kept_ok|].
    by rewrite (Hp s a s' E), (kept_mboxes s s').
Qed.

(** A new name: the others are where they were, and it has its place. *)
Lemma named_ready nm place s : fresh s -> name_ok nm ->
  name_place (sess s) nm (Sessions_sorted (sess s)) = (place, true) ->
  name_of (sess s) MAX_SESSIONS = nm -> ready place s.
Proof.
  intros [Hok Hf] Hnm Hp Hn. split; rewrite ?Hn; [done..| |done].
  replace place with (name_place (sess s) nm (Sessions_sorted (sess s))).1 by (by rewrite Hp).
  apply table_placed; [done..|by rewrite Hp].
Qed.
Lemma wp_set_name nm s (Q : unit -> St -> Prop) : fresh s ->
  (forall s', fresh s' -> name_of (sess s') MAX_SESSIONS = nm -> Q tt s') ->
  wp partial (set_new_session (fun t => t <| ses_name := nm |>)) Q s.
Proof.
  intros Hf HQ. eapply wp_mono.
  - apply wp_conj; [apply (fresh_kept (set_new_session (fun t => t <| ses_name := nm |>))); [|by apply pending_set|exact Hf]|].
    + intros o Ho. unfold set_new_session. solve_frame.
    + unfold set_new_session. apply wp_update_session with (Q := fun _ s' => name_of (sess s') MAX_SESSIONS = nm);
        [done|]. unfold name_of, session_at, sess, with_sess. rec_simpl_in_goal. by rewrite lookup_total_insert_eq.
  - intros [] s' [Hf' Hn]. by apply HQ.
Qed.

Lemma draw_name_ready mbox s : fresh s -> wp partial (draw_name mbox) ready s.
Proof.
  unfold draw_name. revert s. induction name_tries as [|n IH]; intros s Hf; cbn [while_fuel]; [by wp_step|].
  do 2 wp_step. eapply wp_mono; [apply (fresh_kept (ext_call get_rand)); [intros; solve_frame|solve_frame|exact Hf]|].
  intros r s1 Hf1. cbn zeta. wp_step. apply wp_set_name; [exact Hf1|]. intros s2 Hf2 Hn. do 2 g_step.
  destruct (name_place _ _ _) as [place unique] eqn:Hp. wp_step. destruct unique; [|by apply IH].
  wp_step. apply named_ready with (random_name r mbox); [done|apply random_name_ok|done|exact Hn].
Qed.

Definition ready_or_out (r : option (option Z)) (s : St) : Prop :=
  match r with Some place => ready place s | None => table_ok (sess s) end.

Lemma recv_bytes_fresh mbox n s : fresh s ->
  wp partial (recv_bytes mbox n) (fun r s' => fresh s' /\ Z.of_nat (length r.2) <= Z.max 0 n) s.
Proof.
  intros Hf. apply wp_conj; [apply fresh_kept; [intros; solve_frame|solve_frame|done]|].
  unfold recv_bytes. wp_step. eapply wp_mono; [apply (frame_wp (fun _ => tt)); by intros ????|].
  intros ret s1 _. do 2 wp_step; [done|]. do 3 wp_step. cbn [snd]. rewrite length_resize.
  apply Z.ltb_ge in H. lia.
Qed.
Lemma reject_out mbox r s : fresh s -> wp partial (reject_new mbox r) ready_or_out s.
Proof.
  intros Hf. eapply wp_mono; [apply (wp_conj partial _ (fun r _ => r = None)); [|apply fresh_kept; [|solve_frame|exact Hf]]|].
  - unfold reject_new. wp_step. eapply wp_mono; [apply (frame_wp (fun _ => tt)); by intros ????|]. intros _ s1 _.
    wp_step. apply wp_do_sess. by wp_step.
  - intros o Ho. unfold reject_new. solve_frame.
  - intros x s' [-> H]. apply H.
Qed.
Lemma fresh_do c s : fresh s -> wp partial (ext_do c) (fun _ s' => fresh s') s.
Proof. intros [H1 H2]. apply wp_do_sess. split; [exact H1|exact H2]. Qed.

Lemma read_name_ready mbox len s : fresh s -> wp partial (read_name mbox len) ready_or_out s.
Proof.
  intros Hf. unfold read_name. wp_step. eapply wp_mono; [by apply recv_bytes_fresh|].
  intros [ret nm] s1 [Hf1 Hlen]. cbn [snd] in Hlen. wp_step.
  { wp_step. eapply wp_mono; [by apply fresh_do|]. intros u s2 Hf2. wp_step. apply Hf2. }
  wp_step; [by apply reject_out|]. wp_step. apply wp_set_name; [exact Hf1|]. intros s2 Hf2 Hn.
  wp_step; [by apply reject_out|]. do 2 g_step. destruct (name_place _ _ _) as [place unique] eqn:Hp.
  wp_step; [by apply reject_out|]. wp_step. destruct unique; [|done].
  apply named_ready with nm; [done| |done|done]. split; [by apply negb_false_iff|].
  change MAX_PRIVATE_NAME with 10 in *. lia.
Qed.
End Tables.

Create HintDb tables.
Ltac tables_step :=
  lazymatch goal with
  | |- tables (mbind _ _) => apply tables_bind; [|intros]
  | |- tables (when _ _) => apply tables_when
  | |- tables (if ?c then _ else _) => destruct c
  | |- tables (match ?x with _ => _ end) => destruct x
  end.
Ltac solve_tables := repeat first
  [ solve [eauto 2 with tables nocore] | tables_step
  | solve [apply tables_ret] | solve [apply tables_above; intros; solve_frame]
  | solve [apply tables_beside; intros; solve_frame] ].

#[export] Hint Resolve leave_tables tables_ret : tables.

Section Events.
Context {L : SpuLib} {R : SessLib} {U : Stdutil}.

(** ** Authentication *)

Lemma denied_tables ses : tables (Sess_session_denied ses).
Proof.
  unfold Sess_session_denied. do 3 (tables_step; [solve_tables|]). apply (leave_tables ses).
Qed.
Lemma authorized_tables ses : tables (Sess_session_authorized ses).
Proof. apply tables_above. intros o _. apply authorized_above. Qed.
Hint Resolve denied_tables authorized_tables : tables.
Lemma decision_tables ses info : tables (Sess_auth_decision ses info).
Proof. unfold Sess_auth_decision. solve_tables. Qed.
Hint Resolve decision_tables : tables.
Lemma auth_open_tables m info report : (forall b, tables (report b)) -> tables (auth_open m info report).
Proof.
  intros Hr. destruct m; cbn; [apply Hr| |unfold pword_auth_client_connection; solve_tables].
  unfold ip_auth_client_connection. repeat first [apply Hr | tables_step | solve [solve_tables]].
Qed.
Hint Resolve auth_open_tables : tables.
Lemma report_tables n info b : tables (report_auth_result n info b).
Proof.
  revert info b. induction n as [|n IH]; intros info b; cbn [report_auth_result];
    [apply tables_above; intros; apply frame_fail|]. solve_tables.
Qed.
Lemma open_auth_tables m info : tables (open_auth m info).
Proof. apply auth_open_tables. intros b. apply report_tables. Qed.
Hint Resolve report_tables open_auth_tables : tables.
Lemma auth_read_tables mbox info : tables (auth_client_conn_read mbox info).
Proof. unfold auth_client_conn_read, Sess_session_report_auth_result. solve_tables. Qed.
Lemma recv_client_auth_tables mbox : tables (Sess_recv_client_auth mbox).
Proof. unfold Sess_recv_client_auth. solve_tables. Qed.
Lemma start_auth_tables ses : tables (start_auth ses).
Proof. unfold start_auth. solve_tables. Qed.
Hint Resolve auth_read_tables recv_client_auth_tables start_auth_tables : tables.

(** ** Messages *)

Lemma delete_session_tables ses : tables (delete_session ses).
Proof. unfold delete_session. do 2 (tables_step; [solve_tables|]). apply (leave_tables ses). Qed.
Hint Resolve delete_session_tables : tables.
Lemma handle_kill_tables msg : tables (Sess_handle_kill msg).
Proof. unfold Sess_handle_kill. solve_tables. Qed.
Lemma handle_groups_tables msg : tables (G_handle_groups msg).
Proof. apply tables_below. intros o _. apply handle_groups_below. Qed.
Hint Resolve handle_kill_tables handle_groups_tables : tables.
Lemma deliver_tables msg : tables (C_deliver_message msg).
Proof. unfold C_deliver_message. solve_tables. Qed.
Hint Resolve deliver_tables : tables.
Lemma message_read_tables mbox ses : tables (message_read mbox ses).
Proof.
  unfold message_read, submit_message, reject, Sess_create_reject_message, Message_element_len_fixup,
    Message_add_oldtype_to_reject. solve_tables.
Qed.
Hint Resolve message_read_tables : tables.
Lemma Sess_read_tables mbox : tables (Sess_read mbox).
Proof. unfold Sess_read. solve_tables. Qed.

(** ** Connections *)

Lemma Sess_accept_tables fd u : tables (Sess_accept fd u).
Proof. apply tables_above. intros o Ho. by apply Sess_accept_above. Qed.

Lemma named_tables place mbox s : ready place s ->
  wp partial (ext_do (ioctl_FIONBIO mbox false);; ses ← enter_session place; start_auth ses)
    (fun _ s' => table_ok (sess s')) s.
Proof.
  intros Hr. wp_step. apply wp_do_sess. wp_step.
  eapply wp_mono; [apply enter_session_tables; destruct Hr; by split|].
  intros ses s' Hok. by apply start_auth_tables.
Qed.

Lemma wp_fresh_bind {A B} (m : M St A) (k : A -> M St B) Q s :
  (forall o, o <> Some MAX_SESSIONS -> frame (above_at o) m) -> frame pending m -> fresh s ->
  (forall a s', fresh s' -> wp partial (k a) Q s') -> wp partial (mbind k m) Q s.
Proof. intros H1 H2 Hf Hk. wp_step. eapply wp_mono; [by apply fresh_kept|]. intros a s'. apply Hk. Qed.

Lemma accept_continue_tables s : fresh s ->
  wp partial C_accept_continue (fun _ s' => table_ok (sess s')) s.
Proof.
  intros Hf. unfold C_accept_continue, new_session. wp_step. apply wp_get_session; [done|]. intros _. cbn zeta.
  set (mbox := ses_mbox _). clearbody mbox.
  apply wp_fresh_bind; [intros; solve_frame|apply pending_do|exact Hf|]. intros _ s1 Hf1.
  apply wp_fresh_bind; [intros; solve_frame|apply pending_do|exact Hf1|]. intros _ s2 Hf2.
  apply wp_fresh_bind; [intros; solve_frame|apply pending_do|exact Hf2|]. intros _ s3 Hf3.
  apply wp_fresh_bind; [intros; solve_frame|apply pending_attach|exact Hf3|]. intros _ s4 Hf4.
  apply wp_fresh_bind; [intros; solve_frame|apply pending_do|exact Hf4|]. intros _ s5 Hf5.
  apply wp_fresh_bind; [intros; solve_frame|apply pending_version|exact Hf5|]. intros [v|] s6 Hf6;
    [|wp_step; apply Hf6].
  apply wp_fresh_bind; [intros; unfold set_new_session; solve_frame|by apply pending_set|exact Hf6|].
  intros _ s7 Hf7.
  apply wp_fresh_bind; [intros; solve_frame|apply pending_recv|exact Hf7|]. intros [ret conn] s8 Hf8.
  wp_step; [eapply wp_mono; [by apply fresh_do|]; intros u s9 H9; apply H9|]. cbn zeta.
  apply wp_fresh_bind; [intros; unfold set_new_session; solve_frame|by apply pending_set|exact Hf8|].
  intros _ s9 Hf9. wp_step.
  { apply wp_fresh_bind; [intros; unfold reject_new; solve_frame|apply pending_reject|exact Hf9|].
    intros u s10 H10. wp_step. apply H10. }
  apply wp_fresh_bind; [intros; unfold set_new_session; solve_frame|by apply pending_set|exact Hf9|].
  intros _ s10 Hf10. wp_step.
  apply (wp_mono _ _ ready_or_out); [wp_step|].
  - wp_step. eapply wp_mono; [by apply draw_name_ready|]. intros place s11 Hr. by wp_step.
  - by apply read_name_ready.
  - intros [place|] s11 Hr; [by apply named_tables|by wp_step].
Qed.

(** ** Runs *)

(** What the main loop and the protocol call of the session layer. *)
Inductive session_event : M St unit -> Prop :=
| ev_accept fd is_unix : session_event (Sess_accept fd is_unix)
| ev_client_auth mbox : session_event (Sess_recv_client_auth mbox)
| ev_password mbox info : session_event (auth_client_conn_read mbox info)
| ev_read mbox : session_event (Sess_read mbox)
| ev_badger mbox : session_event (do_badger mbox)
| ev_deliver msg : session_event (C_deliver_message msg)
| ev_trans_memb c m : session_event (G_handle_trans_memb c m)
| ev_reg_memb c m : session_event (G_handle_reg_memb c m)
| ev_conf_reload : session_event G_signal_conf_reload.

(** Any of them in any order, and whatever happens below.  When an accepted
    connection goes on, its descriptor is none of the table's: those are open until
    their sessions leave it. *)
Inductive session_run (s0 : St) : St -> Prop :=
| run_start : session_run s0 s0
| run_event m u s s' : session_run s0 s -> session_event m -> m s = Ok u s' -> session_run s0 s'
| run_accept_continue u s s' : session_run s0 s ->
    pending s ∉ map (mbox_of (sess s)) (Sessions_sorted (sess s)) ->
    C_accept_continue s = Ok u s' -> session_run s0 s'
| run_below s s' : session_run s0 s -> sess s' = sess s -> session_run s0 s'.

Lemma event_tables m : session_event m -> tables m.
Proof.
  intros []; [apply Sess_accept_tables|apply recv_client_auth_tables|apply auth_read_tables
    |apply Sess_read_tables| |apply deliver_tables|..].
  - apply tables_above. intros. apply do_badger_above.
  - apply tables_below. intros. apply handle_trans_below.
  - apply tables_below. intros. apply handle_reg_below.
  - apply tables_beside. intros. apply conf_reload_beside.
Qed.
Lemma run_tables s0 s : table_ok (sess s0) -> session_run s0 s -> table_ok (sess s).
Proof.
  intros H0. induction 1 as [|m u s s' _ IH He E|u s s' _ IH Hf E|s s' _ IH E]; [done|..].
  - exact (wp_ok _ _ _ _ _ _ (event_tables m He s IH) E).
  - exact (wp_ok _ _ _ _ _ _ (accept_continue_tables s (Build_fresh s IH Hf)) E).
  - by rewrite E.
Qed.
Lemma init_table (s : St) : Num_sessions (sess s) = 0 ->
  wp total Sess_init_sessions (fun _ s0 => table_ok (sess s0)) s.
Proof.
  intros Hn. unfold Sess_init_sessions. g_step. unfold sess, with_sess. rec_simpl_in_goal.
  split; rec_simpl_in_goal; [constructor..| |done| |constructor].
  - symmetry. apply (Permutation_rev (zrange 0 (MAX_SESSIONS - 1))).
  - intros h. unfold chain. rec_simpl_in_goal. rewrite lookup_empty. split; [constructor|].
    intros j. rewrite elem_of_nil. cbn. rewrite elem_of_nil. tauto.
Qed.

(** C21. From the start of the daemon on, whatever clients connect, say or leave, and
    whatever the protocol delivers: the list of the sessions is sorted by their names,
    which are legal and all different; lists and hash table agree, every index is in use
    or free, and the count is right. *)
Theorem sessions_table_kept (s s0 s1 : St) :
  Num_sessions (sess s) = 0 -> Sess_init_sessions s = Ok tt s0 -> session_run s0 s1 ->
  table_ok (sess s1).
Proof.
  intros Hn E0. apply run_tables. exact (wp_ok _ _ _ _ _ _ (init_table s Hn) E0).
Qed.

(** C15. In such a table the searches by name and by mailbox give the one session of that
    name or mailbox, and -1 when there is none. *)
Theorem sessions_found (s : St) (nm : list Z) (mbox : Z) : table_ok (sess s) -> name_ok nm ->
  finds (fun j => name_of (sess s) j = nm) (Sessions_sorted (sess s)) (Sess_get_session nm s) /\
  finds (fun j => mbox_of (sess s) j = mbox) (Sessions_sorted (sess s)) (Sess_get_session_index mbox s).
Proof. intros Hok Hnm. split; [by apply get_session_finds|by apply get_index_finds]. Qed.
End Events.

(** ** A client connects *)

(** The third argument is the number of [recv]s so far: version 5.0.1, a session with
    memberships and a name of three bytes, the name, and the method of authentication. *)
Definition connect_bytes (n : nat) : list Z :=
  match n with
  | 1%nat => [5; 0] | 2%nat => [1] | 3%nat => [1; 3] | 4%nat => str_bytes "eve"
  | 5%nat => resize 90 0 (str_bytes "NULL")
  | _ => []
  end.
Definition recvs (tr : list (call_ (@spu_addr demo_lib))) : nat :=
  foldr (fun c n => match c with recv _ _ => S n | _ => n end) O tr.
Definition connect_lib : @SessLib demo_lib := {|
  returns tr := match last tr with
    | Some (accept _ _) => 9
    | Some (recv _ _) => Z.of_nat (length (connect_bytes (recvs tr)))
    | Some (send _ b) => Z.of_nat (length b)
    | _ => 0 end;
  received tr := connect_bytes (recvs tr); accepted _ := Some 0x7f000001;
  crypt p salt := salt ++ p; MAX_SESSIONS := 100 |}.

#[local] Existing Instance connect_lib | 0.
#[local] Existing Instance session_ext | 0.

Definition started : @St demo_lib (@session_ext _ connect_lib) :=
  demo_with (X := @session_ext _ connect_lib) (demo_sess <| Num_sessions := 0 |>) demo_conf demo_a.

(** The state after a program, and whether it returned. *)
Definition after {A} (m : M (@St demo_lib (@session_ext _ connect_lib)) A) s :=
  match m s with Ok _ s' => s' | Fail _ => s end.
Definition returned {A} (m : M (@St demo_lib (@session_ext _ connect_lib)) A) s : bool :=
  match m s with Ok _ _ => true | Fail _ => false end.
Lemma after_ok (m : M (@St demo_lib (@session_ext _ connect_lib)) unit) s :
  returned m s = true -> m s = Ok tt (after m s).
Proof. unfold returned, after. destruct (m s) as [[] s'|]; [done|done]. Qed.

Definition empty_table := after (Sess_init_sessions (R := connect_lib)) started.
Definition accepted_eve := after (Sess_accept (R := connect_lib) 3 false) empty_table.
Definition asked_eve := after (C_accept_continue (R := connect_lib)) accepted_eve.
Definition entered_eve := after (Sess_recv_client_auth (R := connect_lib) 9) asked_eve.

Lemma eve_run : session_run (R := connect_lib) empty_table entered_eve.
Proof.
  eapply run_event with (m := Sess_recv_client_auth (R := connect_lib) 9); [|apply ev_client_auth|apply after_ok; vm_compute; reflexivity].
  eapply run_accept_continue; [| |apply after_ok; vm_compute; reflexivity].
  - eapply run_event; [apply run_start|apply ev_accept|]. apply after_ok. vm_compute. reflexivity.
  - vm_compute. by apply not_elem_of_nil.
Qed.
Example eve_connected : let x := sess entered_eve in
  map (fun j => (name_of x j, Is_op_session (ses_status (session_at x j)))) (Sessions_sorted x) =
  [(str_bytes "eve", true)].
Proof. vm_compute. reflexivity. Qed.

Lemma sessions_table_kept_witness :
  session_run (R := connect_lib) empty_table entered_eve /\ table_ok (R := connect_lib) (sess entered_eve).
Proof.
  split; [exact eve_run|].
  apply (sessions_table_kept (R := connect_lib) started empty_table entered_eve);
    [reflexivity|apply after_ok; vm_compute; reflexivity|exact eve_run].
Defined.

Lemma sessions_found_witness :
  table_ok (R := connect_lib) (sess entered_eve) /\ name_ok (str_bytes "eve") /\
  Sess_get_session (R := connect_lib) (str_bytes "eve") entered_eve = 99 /\
  name_of (sess entered_eve) 99 = str_bytes "eve" /\
  finds (fun j => name_of (sess entered_eve) j = str_bytes "eve") (Sessions_sorted (sess entered_eve)) 99.
Proof.
  assert (H0 : table_ok (R := connect_lib) (sess entered_eve)).
  { apply (run_tables (R := connect_lib) empty_table); [|exact eve_run].
    exact (wp_ok _ _ _ _ _ _ (init_table (R := connect_lib) started eq_refl)
      (after_ok (Sess_init_sessions (R := connect_lib)) started ltac:(vm_compute; reflexivity))). }
  assert (H1 : name_ok (str_bytes "eve")) by (split; vm_compute; congruence).
  assert (E : Sess_get_session (R := connect_lib) (str_bytes "eve") entered_eve = 99) by (vm_compute; reflexivity).
  split; [exact H0|]. split; [exact H1|]. split; [exact E|]. split; [vm_compute; reflexivity|].
  rewrite <-E. exact (proj1 (sessions_found (R := connect_lib) entered_eve (str_bytes "eve") 9 H0 H1)).
Defined.
