(* ===== verification/SessWrite.v ===== *)
(** * What a client is sent

    [Sess_write] sends a message at once when nothing waits, and keeps what a socket
    does not take; [Sess_badger] sends that later.  Whatever the socket takes of each
    [send], the client is sent the messages written to its session, whole and in order:
    what went out and what waits are together the messages. *)

From S2P Require Import Prelude NetTypes Configuration State Network SessionLayer Delivery Send.
From S2P Require Import Message Stdutil SessState Sessions ReadStream Demo GroupsDemo.

(** ** Messages and places in them *)

Definition element_out (e : element) : list Z := buf_get (e_buf e) 0 (e_len e).
(** What is left of a message from the byte [from] of the first of the elements [els] on. *)
Definition left_from (els : scatter) (from : Z) : list Z :=
  match els with [] => [] | e :: els => drop (Z.to_nat from) (element_out e) ++ message_bytes els end.
Definition left_at (msg : scatter) (w : location) : list Z :=
  left_from (drop (Z.to_nat (loc_element w)) msg) (loc_byte w).

Definition lengths_ok (msg : scatter) : Prop := Forall (fun e => 0 <= e_len e) msg.
(** A message as the daemon builds it: the header is in the first element, alone if
    the message is a rejected one. *)
Definition whole (msg : scatter) : Prop := lengths_ok msg /\
  exists e0 els, msg = e0 :: els /\ sizeof_message_header <= e_len e0 /\
    (Is_reject_mess (mh_type (get_message_header (e_buf e0))) = true ->
       e_len e0 = sizeof_message_header /\ els <> []).

Lemma message_bytes_cons e els : message_bytes (e :: els) = element_out e ++ message_bytes els.
Proof. done. Qed.
Lemma length_element_out e : length (element_out e) = Z.to_nat (e_len e).
Proof. apply length_resize. Qed.
Lemma element_from e from : 0 <= from <= e_len e ->
  buf_get (e_buf e) from (e_len e - from) = drop (Z.to_nat from) (element_out e).
Proof.
  intros Hf. unfold element_out, buf_get. rewrite drop_0, drop_resize_le by lia.
  by rewrite Z2Nat.inj_sub by lia.
Qed.
Lemma length_message_bytes msg : lengths_ok msg -> Z.of_nat (length (message_bytes msg)) = total_len msg.
Proof.
  induction 1 as [|e msg He _ IH]; [done|]. rewrite message_bytes_cons, length_app, length_element_out.
  cbn [total_len foldr]. fold (total_len msg). lia.
Qed.
Lemma left_start msg : left_from msg 0 = message_bytes msg.
Proof. by destruct msg. Qed.

Definition from_ok (els : scatter) (from : Z) : Prop :=
  match els with [] => True | e :: _ => 0 <= from <= e_len e end.

(** The location of the byte [len]. *)
Lemma current_location_left msg i len : lengths_ok msg -> 0 <= len < total_len msg ->
  exists k from, current_location msg i len = (i + Z.of_nat k, from) /\
    left_from (drop k msg) from = drop (Z.to_nat len) (message_bytes msg) /\
    from_ok (drop k msg) from.
Proof.
  intros Hok. revert i len. induction Hok as [|e msg He Hok IH]; intros i len Hlen;
    cbn [total_len foldr] in Hlen; [lia|]. fold (total_len msg) in Hlen. cbn [current_location].
  rewrite message_bytes_cons. destruct (Z.ltb_spec len (e_len e)) as [Hlt|Hge].
  - exists O, len. rewrite Z.add_0_r. split; [done|]. split; [|cbn; lia].
    cbn [drop left_from]. by rewrite drop_app_le by (rewrite length_element_out; lia).
  - destruct (IH (i + 1) (len - e_len e)) as (k & from & E & El & Hf); [lia|].
    exists (S k), from. split; [rewrite E; f_equal; lia|]. split; [|exact Hf].
    cbn [drop]. rewrite El, drop_app_ge by (rewrite length_element_out; lia).
    rewrite length_element_out. f_equal. lia.
Qed.

(** ** A session and what it was sent *)

Section Write.
Context {L : SpuLib} {R : SessLib}.
Context (ses mbox : Z) (Hses : 0 <= ses < MAX_SESSIONS).

(** What the [send]s of a trace got through to a mailbox. *)
Definition sent_bytes (T : list call) : list Z :=
  match last T with
  | Some (send m b) => if m =? mbox then take (Z.to_nat (sent (returns T))) b else []
  | _ => []
  end.
Definition output : list call -> list Z := collected sent_bytes.
(** [send] returns at most the number of bytes it was given. *)
Definition send_bounded : Prop := forall T b, returns (T ++ [send mbox b]) <= Z.of_nat (length b).
Context (Hsend : send_bounded).

(** The session is [x], and was sent [O]. *)
Record at_out (max : Z) (x : session) (O : list Z) (s : St) : Prop := {
  ao_session : session_at (sess s) ses = x;
  ao_output : output (trace s) = O;
  ao_mbox : ses_mbox x = mbox;
  ao_index : Sess_get_session_index mbox s = ses;
  ao_max : MaxSessionMessages (sess s) = max
}.
Implicit Types (x : session) (O : list Z) (s : St).

Lemma out_get max x O s : at_out max x O s ->
  wp total (get_session ses) (fun r s' => r = x /\ at_out max x O s') s.
Proof.
  intros H. unfold get_session. do 2 wp_step; [exfalso; lia|]. g_step. split; [apply H|done].
Qed.
Lemma out_update max f x O s : (forall t, ses_mbox (f t) = ses_mbox t) -> at_out max x O s ->
  wp total (update_session ses f) (fun _ s' => at_out max (f x) O s') s.
Proof.
  intros Hf [Hx HO Hm Hi Hmax]. unfold update_session. do 2 wp_step; [exfalso; lia|]. apply wp_modify.
  split; [|exact HO|by rewrite Hf| |exact Hmax].
  - unfold session_at, sess, with_sess. rec_simpl_in_goal. rewrite lookup_total_insert_eq. f_equal. exact Hx.
  - etrans; [|exact Hi]. unfold Sess_get_session_index, chain, sess, with_sess. rec_simpl_in_goal.
    erewrite list_find_ext; [reflexivity|]. intros j. cbn. unfold session_at. rec_simpl_in_goal.
    destruct (decide (j = ses)) as [->|Hj]; [by rewrite lookup_total_insert_eq, Hf|by rewrite lookup_total_insert_ne].
Qed.
Lemma out_other max x O s c : (forall b, c <> send mbox b) -> at_out max x O s ->
  wp total (ext_do c) (fun _ s' => at_out max x O s') s.
Proof.
  intros Hc [Hx HO Hm Hi Hmax]. unfold ext_do. wp_step. eapply wp_returns; [reflexivity|]. wp_step.
  split; [exact Hx| |exact Hm|exact Hi|exact Hmax]. rec_simpl_in_goal.
  unfold output in *. rewrite collected_snoc, HO. unfold sent_bytes. rewrite last_snoc.
  destruct c; try (by rewrite app_nil_r).
  match goal with |- context [?m =? mbox] => destruct (Z.eqb_spec m mbox) as [->|] end;
    [by edestruct Hc|by rewrite app_nil_r].
Qed.
Lemma out_send max x O s b : at_out max x O s ->
  wp total (ext_call (send mbox b)) (fun ret s' =>
    ret <= Z.of_nat (length b) /\ at_out max x (O ++ take (Z.to_nat (sent ret)) b) s') s.
Proof.
  intros [Hx HO Hm Hi Hmax]. eapply wp_returns; [reflexivity|]. split; [apply Hsend|].
  split; [exact Hx| |exact Hm|exact Hi|exact Hmax]. rec_simpl_in_goal.
  unfold output in *. rewrite collected_snoc, HO. unfold sent_bytes. by rewrite last_snoc, Z.eqb_refl.
Qed.

(** ** One message *)

Lemma sent_range ret n : ret <= n -> 0 <= n -> 0 <= sent ret <= n.
Proof. intros H H0. unfold sent. destruct (Z.ltb_spec 0 ret); lia. Qed.
Lemma sent_whole ret n : ret = n -> 0 <= n -> sent ret = n.
Proof. intros -> H. unfold sent. destruct (Z.ltb_spec 0 n); lia. Qed.

(** A [send] of a buffer of [n] bytes: all of it, or less. *)
Lemma out_send_n max x O s b n : Z.of_nat (length b) = n -> at_out max x O s ->
  wp total (ext_call (send mbox b)) (fun ret s' => 0 <= sent ret <= n /\
    ((ret = n /\ sent ret = n /\ at_out max x (O ++ b) s') \/
     (ret <> n /\ at_out max x (O ++ take (Z.to_nat (sent ret)) b) s'))) s.
Proof.
  intros Hn H. eapply wp_mono; [by apply out_send|]. intros ret s' [Hr H']. rewrite Hn in Hr.
  split; [apply sent_range; lia|]. destruct (Z.eq_dec ret n) as [E|Hne]; [left|by right].
  assert (sent ret = n) as Es by (apply sent_whole; lia). rewrite Es in H'.
  rewrite take_ge in H' by lia. done.
Qed.

Lemma send_elements_out max x els O n s : lengths_ok els -> 0 <= n -> at_out max x O s ->
  wp total (send_elements mbox els n) (fun r s' => n <= r <= n + total_len els /\
    at_out max x (O ++ take (Z.to_nat (r - n)) (message_bytes els)) s') s.
Proof.
  intros Hok. revert O n s. induction Hok as [|e els He Hok IH]; intros O n s Hn H; cbn [send_elements].
  { wp_step. cbn [total_len foldr]. split; [lia|]. by rewrite firstn_nil, app_nil_r. }
  cbn [total_len foldr]. fold (total_len els).
  assert (0 <= total_len els) by (rewrite <-length_message_bytes by done; lia).
  rewrite message_bytes_cons. wp_step.
  eapply wp_mono; [apply (out_send_n max x O s _ (e_len e)); [unfold buf_get; rewrite length_resize; lia|done]|].
  intros ret s1 [Hr [(E & Es & H1)|(Hne & H1)]].
  - rewrite (proj2 (Z.eqb_eq _ _) E), Es. eapply wp_mono; [apply (IH (O ++ element_out e) (n + e_len e)); [lia|exact H1]|].
    intros r s2 [Hr2 H2]. split; [lia|]. rewrite take_app_ge by (rewrite length_element_out; lia).
    rewrite length_element_out, app_assoc. replace (Z.to_nat (r - n) - Z.to_nat (e_len e))%nat
      with (Z.to_nat (r - (n + e_len e))) by lia. exact H2.
  - rewrite (proj2 (Z.eqb_neq _ _) Hne). wp_step. split; [lia|].
    rewrite take_app_le by (rewrite length_element_out; lia).
    replace (n + sent ret - n) with (sent ret) by lia. exact H1.
Qed.

Lemma header_data e0 : sizeof_message_header <= e_len e0 ->
  buf_get (e_buf e0) 0 sizeof_message_header ++
    buf_get (drop (Z.to_nat sizeof_message_header) (e_buf e0)) 0 (e_len e0 - sizeof_message_header) =
  element_out e0.
Proof.
  intros H. assert (0 <= sizeof_message_header) by done. set (h := sizeof_message_header) in *.
  unfold element_out, buf_get. rewrite !drop_0.
  rewrite <-(take_drop (Z.to_nat h) (resize (Z.to_nat (e_len e0)) 0 (e_buf e0))).
  rewrite take_resize_le by lia. f_equal. rewrite drop_resize_le by lia. f_equal. lia.
Qed.

Lemma send_message_out max x O msg s : whole msg -> at_out max x O s ->
  wp total (send_message mbox msg) (fun len s' => 0 <= len <= total_len msg /\
    at_out max x (O ++ take (Z.to_nat len) (message_bytes msg)) s') s.
Proof.
  intros [Hok (e0 & els & -> & He0 & Hrej)] H. apply Forall_cons in Hok as [_ Hok].
  cbn [total_len foldr]. fold (total_len els).
  assert (0 <= total_len els) by (rewrite <-length_message_bytes by done; lia).
  rewrite message_bytes_cons, <-(header_data e0 He0).
  set (hd := buf_get (e_buf e0) 0 sizeof_message_header).
  set (data := buf_get (drop _ _) 0 _).
  assert (Hh : Z.of_nat (length hd) = sizeof_message_header) by (unfold hd, buf_get; by rewrite length_resize).
  assert (Hd : Z.of_nat (length data) = e_len e0 - sizeof_message_header).
  { unfold data, buf_get. rewrite length_resize. lia. }
  unfold send_message, element0. wp_step. apply wp_ret. wp_step.
  eapply wp_mono; [by apply out_other|]. intros u s1 H1. wp_step.
  eapply wp_mono; [by apply (out_send_n max x O s1 hd sizeof_message_header)|].
  intros ret s2 [Hr H2]. wp_step.
  apply (wp_mono _ _ (fun len s' => 0 <= len <= e_len e0 + total_len els /\
    at_out max x (O ++ take (Z.to_nat len) ((hd ++ data) ++ message_bytes els)) s')).
  2:{ intros len s3 [Hl H3]. wp_step. eapply wp_mono; [by apply out_other|]. intros u4 s4 H4. by wp_step. }
  destruct H2 as [(E & Es & H2)|(Hne & H2)].
  2:{ rewrite (proj2 (Z.eqb_neq _ _) Hne). cbn [negb]. wp_step. split; [lia|].
      rewrite <-app_assoc, take_app_le by lia. exact H2. }
  rewrite (proj2 (Z.eqb_eq _ _) E), Es. cbn [negb].
  assert (Hptr : exists p, Message_get_first_data_ptr (S:=St) (e0 :: els) s2 = Ok p s2 /\
    Message_get_first_data_len (S:=St) (e0 :: els) s2 = Ok (e_len e0 - sizeof_message_header) s2 /\
    buf_get p 0 (e_len e0 - sizeof_message_header) = data).
  { unfold Message_get_first_data_ptr, Message_get_first_data_len, Message_get_message_header, element0,
      or_fail, mbind, mret, M_bind, M_ret. cbn [lookup list_lookup].
    destruct (Is_reject_mess _) eqn:Er; [|by eexists].
    destruct (Hrej eq_refl) as [El Hne]. destruct els as [|e1 els]; [done|]. exists (e_buf e1).
    split; [done|]. rewrite El in *. split; [done|]. unfold data, buf_get. by rewrite El, Z.sub_diag, !resize_0. }
  destruct Hptr as (p & Ep & El & Edata).
  wp_step. eapply wp_returns; [exact Ep|]. wp_step. eapply wp_returns; [exact El|]. rewrite Edata. wp_step.
  eapply wp_mono; [by apply (out_send_n max x (O ++ hd) s2 data (e_len e0 - sizeof_message_header))|].
  intros ret1 s3 [Hr1 [(E1 & Es1 & H3)|(Hne1 & H3)]].
  - rewrite (proj2 (Z.eqb_eq _ _) E1), Es1. cbn [negb tail].
    eapply wp_mono; [apply send_elements_out; [done| |exact H3]|]; [lia|].
    intros r s4 [Hr4 H4]. split; [lia|]. rewrite <-!app_assoc in H4. rewrite <-!app_assoc.
    rewrite !take_app_ge by lia.
    replace (Z.to_nat r - length hd - length data)%nat
      with (Z.to_nat (r - (sizeof_message_header + (e_len e0 - sizeof_message_header)))) by lia. exact H4.
  - rewrite (proj2 (Z.eqb_neq _ _) Hne1). cbn [negb]. wp_step. split; [lia|].
    rewrite <-!app_assoc in H3. rewrite <-!app_assoc. rewrite take_app_ge, take_app_le by lia.
    replace (Z.to_nat (sizeof_message_header + sent ret1) - length hd)%nat with (Z.to_nat (sent ret1)) by lia.
    exact H3.
Qed.
(** ** The messages that wait *)

Lemma badger_elements_out max x els O i from s : lengths_ok els -> from_ok els from -> at_out max x O s ->
  wp total (badger_elements mbox els i from) (fun r s' => exists B k, r.1.1 = i + Z.of_nat k /\
    at_out max x (O ++ B) s' /\ B ++ left_from (drop k els) r.1.2 = left_from els from /\
    from_ok (drop k els) r.1.2 /\ (r.2 = true -> drop k els = [])) s.
Proof.
  intros Hok. revert O i from s. induction Hok as [|e els He Hok IH]; intros O i from s Hf H;
    cbn [badger_elements].
  { wp_step. exists [], 0%nat. rewrite app_nil_r. cbn. split_and!; done || lia. }
  cbn [from_ok] in Hf. rewrite element_from by done. wp_step.
  eapply wp_mono; [apply (out_send_n max x O s _ (e_len e - from)); [|exact H]|].
  { rewrite length_drop, length_element_out. lia. }
  intros ret s1 [Hr [(E & _ & H1)|(Hne & H1)]].
  - rewrite (proj2 (Z.eqb_eq _ _) E). eapply wp_mono; [apply (IH (O ++ drop (Z.to_nat from) (element_out e)) (i + 1) 0); [|exact H1]|].
    { destruct Hok; cbn; [done|lia]. }
    intros [[i' from'] able] s2 (B & k & Ei & H2 & EB & Hf' & Hable). cbn [fst snd] in *.
    exists (drop (Z.to_nat from) (element_out e) ++ B), (S k). cbn [drop].
    split; [lia|]. split; [by rewrite app_assoc|]. split; [|by split].
    cbn [left_from]. by rewrite <-app_assoc, EB, left_start.
  - rewrite (proj2 (Z.eqb_neq _ _) Hne). wp_step. eexists _, 0%nat. cbn [fst snd drop left_from from_ok].
    split; [lia|]. split; [exact H1|]. split; [|split; [lia|done]].
    rewrite Z2Nat.inj_add by lia. rewrite <-drop_drop, app_assoc, take_drop. done.
Qed.

(** A place in a message that is on its way: never within the header alone. *)
Definition place_ok (msg : scatter) (w : location) : Prop :=
  in_mess_head w = 0 /\ 0 <= loc_element w /\ from_ok (drop (Z.to_nat (loc_element w)) msg) (loc_byte w).

Lemma badger_message_out max x O msg s : lengths_ok msg -> place_ok msg (ses_write x) -> at_out max x O s ->
  wp total (badger_message mbox ses msg) (fun able s' => exists B w,
    at_out max (x <| ses_write := w |>) (O ++ B) s' /\ B ++ left_at msg w = left_at msg (ses_write x) /\
    place_ok msg w /\ (able = true -> left_at msg w = [])) s.
Proof.
  intros Hok (Hh & Hi & Hf) H. unfold badger_message. wp_step.
  eapply wp_mono; [by apply out_get|]. intros r s1 [-> H1]. rewrite Hh. cbn [Z.eqb]. wp_step. wp_step. cbn [negb].
  wp_step. eapply wp_mono; [by apply out_get|]. intros r s2 [-> H2]. wp_step. wp_step; [exfalso; lia|].
  wp_step. eapply wp_mono; [apply badger_elements_out; [by apply Forall_drop|exact Hf|exact H2]|].
  intros [[i from] able] s3 (B & k & Ei & H3 & EB & Hf' & Hable). cbn [fst snd] in *. wp_step.
  eapply wp_mono; [by apply (out_update max (fun t => t <| ses_write := mk_location i from (in_mess_head (ses_write x)) (total_bytes (ses_write x)) |>))|].
  intros u s4 H4. wp_step. rewrite drop_drop in *.
  assert (Ek : Z.to_nat i = (Z.to_nat (loc_element (ses_write x)) + k)%nat) by lia.
  eexists B, _. split; [exact H4|]. unfold left_at, place_ok. cbn. rewrite Ek.
  split; [exact EB|]. split; [by split_and!; [|lia|]|]. intros Ha. by rewrite (Hable Ha).
Qed.

(** What waits to be sent. *)
Definition pending (x : session) : list Z :=
  match ses_queue x with
  | [] => []
  | msg :: q => left_at msg (ses_write x) ++ concat (map message_bytes q)
  end.
Record waiting_ok (x : session) : Prop := {
  wo_lengths : Forall lengths_ok (ses_queue x);
  wo_place : match ses_queue x with [] => in_mess_head (ses_write x) = 0 | msg :: _ => place_ok msg (ses_write x) end
}.

(** What a session was sent and what waits in it make [all]; at most [n] messages wait. *)
Definition carries (max : Z) (all : list Z) (n : Z) (s : St) : Prop := exists x O,
  at_out max x O s /\ Is_op_session (ses_status x) = true /\ waiting_ok x /\
  O ++ pending x = all /\ Z.of_nat (length (ses_queue x)) <= n.
Lemma carries_mono max all n n' s : n <= n' -> carries max all n s -> carries max all n' s.
Proof. intros Hn (x & O & H & Hop & Hw & E & Hl). exists x, O. split_and!; done || lia. Qed.
Lemma carries_other max all n c s : (forall b, c <> send mbox b) -> carries max all n s ->
  wp total (ext_do c) (fun _ s' => carries max all n s') s.
Proof.
  intros Hc (x & O & H & Hrest). eapply wp_mono; [by apply out_other|]. intros u s' H'. by exists x, O.
Qed.
Lemma no_work_carries max all n s : carries max all n s ->
  wp total (e_dequeue (Sess_badger_TO mbox);; ext_do (E_detach_fd mbox WRITE_FD))
    (fun _ s' => carries max all n s') s.
Proof.
  intros H. wp_step. eapply wp_mono; [by apply carries_other|]. intros u s1 H1. by apply carries_other.
Qed.
Lemma alarm_carries max all n s : carries max all n s ->
  wp total (ext_do (E_queue (Sess_badger_TO mbox) Badger_timeout);;
            ext_do (E_attach_fd mbox Sess_badger_FD LOW_PRIORITY)) (fun _ s' => carries max all n s') s.
Proof.
  intros H. wp_step. eapply wp_mono; [by apply carries_other|]. intros u s1 H1. by apply carries_other.
Qed.

Lemma fresh_ok x q : Forall lengths_ok q ->
  waiting_ok (x <| ses_queue := q |> <| ses_write := Message_reset_current_location |>) /\
  pending (x <| ses_queue := q |> <| ses_write := Message_reset_current_location |>) =
    concat (map message_bytes q).
Proof.
  intros Hq. split; [split; [exact Hq|]|]; destruct q as [|msg q]; try done.
  - apply Forall_cons in Hq as [Hm _]. split; [done|]. split; [done|]. destruct Hm as [|e msg He _]; [done|by split].
  - change (left_from msg 0 ++ concat (map message_bytes q) = message_bytes msg ++ concat (map message_bytes q)).
    by rewrite left_start.
Qed.

Lemma moved_ok x msg q w : ses_queue x = msg :: q -> Forall lengths_ok (msg :: q) -> place_ok msg w ->
  waiting_ok (x <| ses_write := w |>) /\
  pending (x <| ses_write := w |>) = left_at msg w ++ concat (map message_bytes q).
Proof.
  intros Eq Hl Hp. destruct x. cbn in Eq. subst. by split; [split|].
Qed.

Lemma badger_queue_carries max q x O s : ses_queue x = q -> Is_op_session (ses_status x) = true ->
  waiting_ok x -> at_out max x O s ->
  wp total (badger_queue mbox ses q)
    (fun _ s' => carries max (O ++ pending x) (Z.of_nat (length q)) s') s.
Proof.
  revert x O s. induction q as [|msg q IH]; intros x O s Eq Hop Hw H; cbn [badger_queue].
  { wp_step. exists x, O. by rewrite Eq. }
  destruct Hw as [Hl Hp]. rewrite Eq in Hl, Hp. apply Forall_cons in Hl as [Hm Hl]. wp_step.
  eapply wp_mono; [by apply badger_message_out|]. intros able s1 (B & w & H1 & EB & Hpl & Hable).
  assert (Ep : pending x = left_at msg (ses_write x) ++ concat (map message_bytes q)) by (unfold pending; by rewrite Eq).
  destruct able.
  - wp_step. eapply wp_mono; [by apply (out_update max (fun t => t <| ses_queue := q |>
      <| ses_write := Message_reset_current_location |>))|]. intros u s2 H2.
    destruct (fresh_ok (x <| ses_write := w |>) q Hl) as [Hok Epq].
    eapply wp_mono; [by eapply IH; [..|exact H2]|]. intros u2 s3 H3.
    apply (carries_mono _ _ (Z.of_nat (length q))); [cbn [length]; lia|].
    rewrite Ep, <-EB, (Hable eq_refl), app_nil_r, app_assoc. by rewrite Epq in H3.
  - wp_step. destruct (moved_ok x msg q w Eq) as [Hok Epm]; [by constructor|done|].
    exists (x <| ses_write := w |>), (O ++ B). split; [exact H1|]. split; [done|]. split; [done|].
    split; [by rewrite Epm, Ep, <-EB, !app_assoc|].
    change (ses_queue (x <| ses_write := w |>)) with (ses_queue x). by rewrite Eq.
Qed.

Lemma do_badger_carries max all n s : carries max all n s ->
  wp total (do_badger mbox) (fun _ s' => carries max all n s') s.
Proof.
  intros (x & O & H & Hop & Hw & E & Hl). unfold do_badger. cbn zeta. wp_step. wp_step.
  rewrite (ao_index _ _ _ _ H).
  rewrite (proj2 (Z.ltb_ge ses 0)) by lia. rewrite (proj2 (Z.leb_gt MAX_SESSIONS ses)) by lia. cbn [orb].
  wp_step. eapply wp_mono; [by apply out_get|]. intros r s1 [-> H1]. rewrite Hop. cbn [negb orb].
  case_bool_decide as Eq; [by apply no_work_carries; exists x, O|].
  wp_step. eapply wp_mono; [by apply out_other|]. intros u s2 H2. cbn beta in H2.
  wp_step. eapply wp_mono; [by apply (badger_queue_carries max _ x O)|]. intros u2 s3 H3.
  rewrite E in H3. apply (carries_mono _ _ _ n) in H3; [|done].
  wp_step. eapply wp_mono; [by apply carries_other|]. intros u3 s4 (x' & O' & H4 & Hr).
  wp_step. eapply wp_mono; [by apply out_get|]. intros r s5 [-> H5].
  assert (carries max all n s5) as H6 by (by exists x', O').
  case_bool_decide; [by apply alarm_carries|by apply no_work_carries].
Qed.
(** ** Writing *)

Lemma message_nonempty msg : whole msg -> 0 < total_len msg.
Proof.
  intros [Hok (e0 & els & -> & He0 & _)]. apply Forall_cons in Hok as [_ Hok].
  cbn [total_len foldr]. fold (total_len els).
  pose proof (length_message_bytes els Hok). assert (0 < sizeof_message_header) by done. lia.
Qed.
Lemma started_ok x msg len : ses_queue x = [] -> in_mess_head (ses_write x) = 0 -> lengths_ok msg ->
  0 <= len < total_len msg ->
  let x' := x <| ses_write ::= Message_calculate_current_location msg len |> <| ses_queue := [msg] |> in
  waiting_ok x' /\ take (Z.to_nat len) (message_bytes msg) ++ pending x' = message_bytes msg.
Proof.
  intros Eq Hh Hok Hlen. cbn zeta. unfold Message_calculate_current_location.
  destruct (current_location_left msg 0 len Hok Hlen) as (k & from & E & El & Hf).
  rewrite Z.add_0_l in E. split.
  - split; rec_simpl_in_goal; [by constructor|]. rewrite E. split; [done|]. cbn [loc_element loc_byte]. rewrite Nat2Z.id. split; [lia|done].
  - unfold pending. rec_simpl_in_goal. rewrite E. unfold left_at. cbn [loc_element loc_byte map concat].
    rewrite Nat2Z.id, El, app_nil_r. apply take_drop.
Qed.
Lemma queued_ok x msg : ses_queue x <> [] -> waiting_ok x -> lengths_ok msg ->
  waiting_ok (x <| ses_queue ::= fun q => q ++ [msg] |>) /\
  pending (x <| ses_queue ::= fun q => q ++ [msg] |>) = pending x ++ message_bytes msg.
Proof.
  intros Hne [Hl Hp] Hok. destruct (ses_queue x) as [|msg1 q] eqn:Eq; [done|]. split; [split|].
  - rec_simpl_in_goal. rewrite Eq. apply Forall_app. by split; [|constructor].
  - rec_simpl_in_goal. by rewrite Eq.
  - unfold pending. rec_simpl_in_goal. rewrite Eq. cbn [app]. rewrite map_app, concat_app. cbn [map concat].
    by rewrite app_nil_r, app_assoc.
Qed.

Lemma Sess_write_carries max all n needed msg s : n < max -> whole msg -> carries max all n s ->
  wp total (Sess_write ses msg needed)
    (fun r s' => carries max (all ++ message_bytes msg) (n + 1) s' /\ needed <= r <= needed + 1) s.
Proof.
  intros Hmax Hmsg (x & O & H & Hop & Hw & E & Hl). pose proof (message_nonempty msg Hmsg) as Hpos.
  unfold Sess_write. wp_step. eapply wp_mono; [by apply out_get|]. intros r s1 [-> H1]. rewrite Hop. cbn [negb].
  wp_step. g_step. rewrite (ao_max _ _ _ _ H1), (proj2 (Z.leb_gt max _)) by lia.
  wp_step. rewrite (ao_mbox _ _ _ _ H1).
  apply (wp_mono _ _ (fun _ s' => carries max all n s')).
  { wp_step; [by apply do_badger_carries; exists x, O|by exists x, O]. }
  clear x O Hop Hw E Hl H H1. intros _ s2 (x & O & H & Hop & Hw & E & Hl).
  wp_step. eapply wp_mono; [by apply out_get|]. intros r s3 [-> H3]. rewrite (ao_mbox _ _ _ _ H3). wp_step.
  case_bool_decide as Eq.
  - assert (HO : O = all) by (unfold pending in E; by rewrite Eq, app_nil_r in E). subst O.
    eapply wp_mono; [by apply send_message_out|]. intros len s4 [Hlen H4].
    destruct (Z.leb_spec (total_len msg) len) as [Hge|Hlt].
    { wp_step. split; [|lia]. exists x, (all ++ message_bytes msg).
      rewrite take_ge in H4 by (pose proof (length_message_bytes msg (proj1 Hmsg)); lia).
      split; [exact H4|]. unfold pending. rewrite Eq, app_nil_r. cbn. split_and!; done || lia. }
    wp_step. eapply wp_mono; [by apply out_get|]. intros r s5 [-> H5]. rewrite (bool_decide_eq_true_2 _ Eq).
    wp_step. wp_step. eapply wp_mono; [by apply out_update|]. intros u s6 H6. cbn beta in H6.
    rewrite (ao_mbox _ _ _ _ H5).
    destruct (started_ok x msg len Eq) as [Hok EP];
      [destruct Hw as [_ Hp]; by rewrite Eq in Hp|apply Hmsg|lia|].
    eapply wp_mono; [apply (alarm_carries max (all ++ message_bytes msg) (n + 1))|].
    { eexists _, _. split; [exact H6|]. split; [done|]. split; [exact Hok|].
      split; [by rewrite <-app_assoc, EP|rec_simpl_in_goal; cbn [length]; lia]. }
    intros u7 s7 H7. wp_step. split; [exact H7|lia].
  - wp_step. rewrite (proj2 (Z.leb_gt (total_len msg) 0)) by lia.
    wp_step. eapply wp_mono; [by apply out_get|]. intros r s5 [-> H5]. rewrite (bool_decide_eq_false_2 _ Eq).
    wp_step. eapply wp_mono; [by apply out_update|]. intros u s6 H6. cbn beta in H6. wp_step.
    destruct (queued_ok x msg Eq Hw (proj1 Hmsg)) as [Hok EP]. split; [|lia].
    eexists _, _. split; [exact H6|]. split; [done|]. split; [exact Hok|].
    split; [by rewrite EP, app_assoc, E|]. rec_simpl_in_goal. rewrite length_app. cbn. lia.
Qed.

(** A message is written to the session, or its socket takes more. *)
Inductive client_op := Write (msg : scatter) | Badger.
Definition client_step (o : client_op) : M St unit :=
  match o with Write msg => Sess_write ses msg 0;; mret tt | Badger => do_badger mbox end.
Fixpoint client_steps (ops : list client_op) : M St unit :=
  match ops with [] => mret tt | o :: ops => client_step o;; client_steps ops end.
Definition written (ops : list client_op) : list scatter :=
  omap (fun o => match o with Write msg => Some msg | Badger => None end) ops.

Lemma client_steps_carry max ops : forall all n s, Forall whole (written ops) ->
  n + Z.of_nat (length (written ops)) <= max -> carries max all n s ->
  wp total (client_steps ops) (fun _ s' =>
    carries max (all ++ concat (map message_bytes (written ops))) (n + Z.of_nat (length (written ops))) s') s.
Proof.
  induction ops as [|[msg|] ops IH]; intros all n s Hw Hn H; cbn [client_steps client_step].
  - wp_step. cbn. by rewrite app_nil_r, Z.add_0_r.
  - change (written (Write msg :: ops)) with (msg :: written ops) in *.
    apply Forall_cons in Hw as [Hm Hw]. cbn [length] in Hn. cbn [length map concat].
    wp_step. wp_step. eapply wp_mono; [apply (Sess_write_carries max all n); [lia|done|exact H]|].
    intros r s1 [H1 _]. wp_step. eapply wp_mono; [apply (IH (all ++ message_bytes msg) (n + 1) _ Hw); [lia|exact H1]|].
    intros u s2 H2. rewrite app_assoc. by replace (n + Z.of_nat (S (length (written ops))))
      with (n + 1 + Z.of_nat (length (written ops))) by lia.
  - change (written (Badger :: ops)) with (written ops) in *.
    wp_step. eapply wp_mono; [by apply do_badger_carries|]. intros u s1 H1. by apply IH.
Qed.

(** C18. Clients are sent their messages whole and in order, whatever the sockets take: let any
    messages be written to a session ([Sess_write]) and its socket become able to take more
    ([Sess_badger]) in any order, every [send] taking any part of its bytes or failing.
    Nothing fails, the session is not killed as long as at most [MaxSessionMessages]
    messages wait, and what the client was sent, followed by what still waits in its
    queue, is what it was before followed by the bytes of the messages in the order they were
    written: no byte is lost, doubled or overtaken, and once the queue is empty the client has
    them all. *)
Theorem written_in_order (ops : list client_op) (x : session) (s : St) :
  session_at (sess s) ses = x -> ses_mbox x = mbox -> Sess_get_session_index mbox s = ses ->
  Is_op_session (ses_status x) = true -> waiting_ok x -> Forall whole (written ops) ->
  Z.of_nat (length (ses_queue x)) + Z.of_nat (length (written ops)) <= MaxSessionMessages (sess s) ->
  wp total (client_steps ops) (fun _ s' =>
    let x' := session_at (sess s') ses in
    let all := output (trace s) ++ pending x ++ concat (map message_bytes (written ops)) in
    output (trace s') ++ pending x' = all /\ (ses_queue x' = [] -> output (trace s') = all) /\
    waiting_ok x' /\ Is_op_session (ses_status x') = true) s.
Proof.
  intros Hx Hm Hi Hop Hw Hwhole Hn. cbn zeta. eapply wp_mono.
  { apply (client_steps_carry (MaxSessionMessages (sess s)) ops (output (trace s) ++ pending x) _ _ Hwhole Hn).
    exists x, (output (trace s)). by split_and!; [split|..]. }
  intros u s' (x' & O & H' & Hop' & Hw' & E & _). rewrite (ao_session _ _ _ _ H'), (ao_output _ _ _ _ H').
  rewrite <-app_assoc in E. split; [exact E|]. split; [|done].
  intros Eq. unfold pending at 1 in E. by rewrite Eq, app_nil_r in E.
Qed.
End Write.

(** ** A socket that takes fifty bytes at a time *)

Definition demo_sender : SessLib := {|
  returns tr := match last tr with Some (send _ b) => Z.min 50 (Z.of_nat (length b)) | _ => 0 end;
  received _ := []; accepted _ := None; crypt p salt := salt ++ p; MAX_SESSIONS := 100 |}.
Definition sending_state : @St demo_lib (@session_ext _ demo_sender) :=
  demo_with (X := @session_ext _ demo_sender) demo_sess demo_conf demo_a.
(** Sixty bytes after the header, and a second element of five. *)
Definition demo_long : scatter :=
  [mk_element 108 (replicate 108 1); mk_element 5 (replicate 5 2)].
Definition demo_short : scatter := [mk_element 53 (replicate 53 3)].
Definition demo_ops : list client_op := [Write demo_long; Write demo_short; Badger; Write demo_short].

Definition client_run (ops : list client_op) : option (list Z * Z) :=
  match client_steps (R := demo_sender) 1 7 ops sending_state with
  | Ok _ s => Some (output (R := demo_sender) 7 (trace s), Z.of_nat (length (ses_queue (session_at (sess s) 1))))
  | Fail _ => None
  end.
(** Part of the first message waits, and goes before the second. *)
Example client_run_waits :
  map (fun k => option_map (fun r => (Z.of_nat (length r.1), r.2)) (client_run (take k demo_ops))) [1; 2; 4]%nat =
  [Some (98, 1); Some (166, 0); Some (219, 0)].
Proof. vm_compute. reflexivity. Qed.

Lemma demo_sender_bounded : send_bounded (R := demo_sender) 7.
Proof. intros T b. cbn [returns demo_sender]. rewrite last_snoc. lia. Qed.
Lemma demo_long_whole : whole demo_long.
Proof.
  split; [by repeat constructor|]. exists (mk_element 108 (replicate 108 1)), [mk_element 5 (replicate 5 2)].
  split; [done|]. split; [by vm_compute|]. by vm_compute.
Qed.
Lemma demo_short_whole : whole demo_short.
Proof.
  split; [by repeat constructor|]. exists (mk_element 53 (replicate 53 3)), [].
  split; [done|]. split; [by vm_compute|]. by vm_compute.
Qed.

Lemma written_in_order_witness :
  Forall whole (written demo_ops) /\
  exists s', client_steps (R := demo_sender) 1 7 demo_ops sending_state = Ok tt s' /\
    output (R := demo_sender) 7 (trace s') ++ pending (session_at (sess s') 1) =
      concat (map message_bytes [demo_long; demo_short; demo_short]).
Proof.
  assert (Forall whole (written demo_ops)) as Hw.
  { apply Forall_cons; split; [exact demo_long_whole|].
    apply Forall_cons; split; [exact demo_short_whole|].
    apply Forall_cons; split; [exact demo_short_whole|constructor]. }
  split; [exact Hw|].
  assert (waiting_ok (session_at (sess sending_state) 1)) as Hok by (split; [constructor|reflexivity]).
  pose proof (written_in_order (R := demo_sender) 1 7 ltac:(cbn; lia) demo_sender_bounded demo_ops
    (session_at (sess sending_state) 1) sending_state eq_refl eq_refl eq_refl eq_refl Hok Hw
    ltac:(vm_compute; congruence)) as H.
  destruct (wp_total_ex _ _ _ H) as ([] & s' & E & EO & _).
  exists s'. split; [exact E|exact EO].
Defined.

