(* ===== verification/ConfigState.v ===== *)
(** * Loading the configuration: data and state

    A configuration file as the grammar of [config_parse.y] reads it, the variables of
    [config_parse.y] and [configuration.c] that loading one uses, and how the loading
    reads and writes them.  The lexer and the tables of the parser are generated, and
    addresses and the resolver are libspread-util's and the system's. *)

From stdpp Require Import pretty.
From S2P Require Import Prelude NetTypes Configuration State Message Stdutil SessState.

(** ** Parameters *)

Definition MAX_INTERFACES_PROC : Z := 10.
Definition DEFAULT_SPREAD_PORT : Z := 4803.
Definition DEFAULT_MAX_SESSION_MESSAGES : Z := 1000.
Definition SP_MAJOR_VERSION : Z := 5.
Definition MAX_CONF_STRING : Z := 100000.
Definition IFTYPE_ANY : Z := 0x8.
Definition IFTYPE_ALL : Z := 0x7.
Definition IFTYPE_DAEMON : Z := 0x4.
Definition Is_IfType_Daemon (t : Z) : bool := truth (Z.land t IFTYPE_DAEMON).
Definition Is_IfType_Any (t : Z) : bool := truth (Z.land t IFTYPE_ANY).
(** Of the host, which is Linux. *)
Definition AF_INET : Z := 2.
Definition AF_INET6 : Z := 10.
Definition MAXPATHLEN : Z := 4096.

(** What the loading takes from libspread-util and the system. *)
Class ConfLib {L : SpuLib} := {
  spu_addr_family : spu_addr -> Z;
  spu_addr_ip_is_unspecified : spu_addr -> bool;
  spu_addr_ip_is_multicast : spu_addr -> bool;
  spu_addr_ip_set_unspecified : spu_addr -> spu_addr;
  (** the text of an address without its interface *)
  spu_addr_ntop_canon : spu_addr -> string;
  sin6_scope_id : spu_addr -> Z;
  set_scope_id : Z -> spu_addr -> spu_addr;
  (** the addresses of a name; [None] is an error *)
  getaddrinfo : string -> option (list spu_addr);
  (** the daemon was started with alarms that the file does not change *)
  Alarm_get_interactive : bool
}.

(** ** The file *)

Section File.
Context {L : SpuLib}.

Record conf_ipaddr := mk_conf_ipaddr { ipaddr : spu_addr; ipstr : string }.
Inductive daemon_name :=
| STRING_IPADDR (n : string) (a : conf_ipaddr)
| STRING (n : string)
| IPADDR (a : conf_ipaddr).
Record interface_spec := mk_interface_spec { if_types : list Z; if_addr : conf_ipaddr }.
Record daemon_spec := mk_daemon_spec {
  ds_name : daemon_name; ds_vid : option Z; ds_interfaces : option (list interface_spec) }.
Record segment_spec := mk_segment_spec {
  ss_addr : conf_ipaddr; ss_addrs : list conf_ipaddr; ss_daemons : list daemon_spec }.

Inductive trival := ON | OFF | AUTO.
(** The membership timeouts, in the order of the bits of [TimeoutMask]. *)
Inductive timeout_name :=
| TOKEN_TIMEOUT | HURRY_TIMEOUT | ALIVE_TIMEOUT | JOIN_TIMEOUT | REP_TIMEOUT
| SEG_TIMEOUT | GATHER_TIMEOUT | FORM_TIMEOUT | LOOKUP_TIMEOUT.

(** The parameters; those that only say what is printed, and where, are one. *)
Inductive param :=
| PRINTING
| DANGEROUSMONITOR (b : bool)
| SOCKETPORTREUSE (t : trival)
| RUNTIMEDIR (v : string) | SPUSER (v : string) | SPGROUP (v : string)
| ALLOWEDAUTHMETHODS (v : string) | REQUIREDAUTHMETHODS (v : string)
| ACCESSCONTROLPOLICY (v : string)
| MAXSESSIONMESSAGES (n : Z)
| ACTIVEIPVERSION (v : string)
| WINDOW (n : Z) | PERSONALWINDOW (n : Z)
| ACCELERATEDRING (b : bool) | ACCELERATEDWINDOW (n : Z)
| TIMEOUT (t : timeout_name) (n : Z)
| WIDEAREANETWORK (b : bool)
| EXCLUDESEGADDRSFROMHASH (b : bool)
| IGNOREMULTICASTJOINERRORS (b : bool).

Inductive conf_struct := ParamStruct (p : param) | SegmentStruct (s : segment_spec).
Definition conf_file : Type := list conf_struct.
End File.

(** ** The variables *)

Section Variables.
Context {L : SpuLib} {X : Ext}.

(** An entry of [Config->segments]: the array of addresses, and the first [num_procs]
    of the array of pointers into [Config->allprocs], as indices. *)
Record seg_slot := mk_seg_slot { num_seg_addrs : Z; sl_addrs : list spu_addr; sl_procs : list Z }.
Inductive port_reuse := PORT_REUSE_AUTO | PORT_REUSE_ON | PORT_REUSE_OFF.

Record load_st := mk_load_st {
  daemon : St;
  (* *Config, under the pointers *)
  c_hash_code : Z; c_num_segments : Z; c_num_total_procs : Z;
  c_allprocs : list proc; c_segments : list seg_slot;
  (* config_parse.y *)
  n_procs : Z; segment_procs : Z; segment_addrs : Z; n_segments : Z; procs_interfaces : Z;
  authentication_configured : bool;
  ConfStringRep : string;
  (* configuration.c *)
  SocketPortReuse : port_reuse;
  RuntimeDir : option string; User : option string; Group : option string;
  conf_MaxSessionMessages : Z;
  ExcludeSegAddrsFromHash : bool; IgnoreMulticastJoinErrors : bool;
  Conf_MyName : option string;
  Conf_Active_IP_Version : Z
}.

Definition eta_proc (p : proc) :=
  mk_proc (name p) (proc_addr p) (id p) (ifc p) (seg_index p) (index_in_seg p).
#[export] Instance set_name : Setter name := ltac:(make_setter eta_proc).
#[export] Instance set_proc_addr : Setter proc_addr := ltac:(make_setter eta_proc).
#[export] Instance set_id : Setter id := ltac:(make_setter eta_proc).
#[export] Instance set_ifc : Setter ifc := ltac:(make_setter eta_proc).
#[export] Instance set_seg_index : Setter seg_index := ltac:(make_setter eta_proc).
#[export] Instance set_index_in_seg : Setter index_in_seg := ltac:(make_setter eta_proc).

Definition eta_spread_if (i : spread_if) := mk_spread_if (iftype i) (ifaddr i).
#[export] Instance set_ifaddr : Setter ifaddr := ltac:(make_setter eta_spread_if).

Definition eta_seg_slot (x : seg_slot) := mk_seg_slot (num_seg_addrs x) (sl_addrs x) (sl_procs x).
#[export] Instance set_num_seg_addrs : Setter num_seg_addrs := ltac:(make_setter eta_seg_slot).
#[export] Instance set_sl_addrs : Setter sl_addrs := ltac:(make_setter eta_seg_slot).
#[export] Instance set_sl_procs : Setter sl_procs := ltac:(make_setter eta_seg_slot).

Definition eta_load_st (s : load_st) := mk_load_st (daemon s) (c_hash_code s) (c_num_segments s)
  (c_num_total_procs s) (c_allprocs s) (c_segments s) (n_procs s) (segment_procs s)
  (segment_addrs s) (n_segments s) (procs_interfaces s) (authentication_configured s)
  (ConfStringRep s) (SocketPortReuse s) (RuntimeDir s) (User s) (Group s)
  (conf_MaxSessionMessages s) (ExcludeSegAddrsFromHash s) (IgnoreMulticastJoinErrors s)
  (Conf_MyName s) (Conf_Active_IP_Version s).
#[export] Instance set_daemon : Setter daemon := ltac:(make_setter eta_load_st).
#[export] Instance set_c_hash_code : Setter c_hash_code := ltac:(make_setter eta_load_st).
#[export] Instance set_c_num_segments : Setter c_num_segments := ltac:(make_setter eta_load_st).
#[export] Instance set_c_num_total_procs : Setter c_num_total_procs := ltac:(make_setter eta_load_st).
#[export] Instance set_c_allprocs : Setter c_allprocs := ltac:(make_setter eta_load_st).
#[export] Instance set_c_segments : Setter c_segments := ltac:(make_setter eta_load_st).
#[export] Instance set_n_procs : Setter n_procs := ltac:(make_setter eta_load_st).
#[export] Instance set_segment_procs : Setter segment_procs := ltac:(make_setter eta_load_st).
#[export] Instance set_segment_addrs : Setter segment_addrs := ltac:(make_setter eta_load_st).
#[export] Instance set_n_segments : Setter n_segments := ltac:(make_setter eta_load_st).
#[export] Instance set_procs_interfaces : Setter procs_interfaces := ltac:(make_setter eta_load_st).
#[export] Instance set_authentication_configured : Setter authentication_configured := ltac:(make_setter eta_load_st).
#[export] Instance set_ConfStringRep : Setter ConfStringRep := ltac:(make_setter eta_load_st).
#[export] Instance set_SocketPortReuse : Setter SocketPortReuse := ltac:(make_setter eta_load_st).
#[export] Instance set_RuntimeDir : Setter RuntimeDir := ltac:(make_setter eta_load_st).
#[export] Instance set_User : Setter User := ltac:(make_setter eta_load_st).
#[export] Instance set_Group : Setter Group := ltac:(make_setter eta_load_st).
#[export] Instance set_conf_MaxSessionMessages : Setter conf_MaxSessionMessages := ltac:(make_setter eta_load_st).
#[export] Instance set_ExcludeSegAddrsFromHash : Setter ExcludeSegAddrsFromHash := ltac:(make_setter eta_load_st).
#[export] Instance set_IgnoreMulticastJoinErrors : Setter IgnoreMulticastJoinErrors := ltac:(make_setter eta_load_st).
#[export] Instance set_Conf_MyName : Setter Conf_MyName := ltac:(make_setter eta_load_st).
#[export] Instance set_Conf_Active_IP_Version : Setter Conf_Active_IP_Version := ltac:(make_setter eta_load_st).

(** ** Access *)

(** Code of the rest of the daemon, and its variables. *)
Definition on_daemon {A} (m : M St A) : M load_st A := fun s =>
  match m (daemon s) with Ok a d => Ok a (s <| daemon := d |>) | Fail e => Fail e end.
Definition set_conf (f : St -> St) : M load_st unit := modify (fun s => s <| daemon ::= f |>).

(** [Config->allprocs[i]] and [Config->segments[k]]. *)
Definition get_proc (i : Z) : M load_st proc :=
  l ← gets c_allprocs; or_fail Undefined (arr_get l i).
Definition update_proc (i : Z) (f : proc -> proc) : M load_st unit :=
  p ← get_proc i; modify (fun s => s <| c_allprocs ::= <[Z.to_nat i := f p]> |>).
Definition get_slot (k : Z) : M load_st seg_slot :=
  l ← gets c_segments; or_fail Undefined (arr_get l k).
Definition update_slot (k : Z) (f : seg_slot -> seg_slot) : M load_st unit :=
  x ← get_slot k; modify (fun s => s <| c_segments ::= <[Z.to_nat k := f x]> |>).

(** The configuration that the pointers of [*Config] lead to. *)
Definition config_view (s : load_st) : configuration :=
  mk_configuration (c_hash_code s) (take (Z.to_nat (c_num_total_procs s)) (c_allprocs s))
    (map (fun x => mk_segment (take (Z.to_nat (num_seg_addrs x)) (sl_addrs x))
                     (map (fun i => default no_proc (arr_get (c_allprocs s) i)) (sl_procs x)))
       (take (Z.to_nat (c_num_segments s)) (c_segments s))).
(** What the rest of the daemon sees of it. *)
Definition publish : M load_st unit :=
  modify (fun s => s <| daemon ::= fun d => d <| Config := config_view s |> |>).
End Variables.

#[export] Existing Instances set_name set_proc_addr set_id set_ifc set_seg_index set_index_in_seg
  set_ifaddr set_num_seg_addrs set_sl_addrs set_sl_procs set_daemon set_c_hash_code set_c_num_segments
  set_c_num_total_procs set_c_allprocs set_c_segments set_n_procs set_segment_procs set_segment_addrs
  set_n_segments set_procs_interfaces set_authentication_configured set_ConfStringRep
  set_SocketPortReuse set_RuntimeDir set_User set_Group set_conf_MaxSessionMessages
  set_ExcludeSegAddrsFromHash set_IgnoreMulticastJoinErrors set_Conf_MyName set_Conf_Active_IP_Version.
