(* ===== verification/ConfigParse.v ===== *)
(** * Reading the configuration file: the actions of config_parse.y

    The setters of [configuration.c] and the actions of the grammar, in the order
    in which a bottom-up parser makes them.  [yyerror] and an [Alarmp] of kind FATAL end
    the process; [yywarn] prints.  The arrays of [*Config] keep what an earlier load left
    in them. *)

From stdpp Require Import pretty.
From S2P Require Import Prelude NetTypes Configuration State Message Stdutil SessState Acm ConfigState.

Section Parse.
Context {L : SpuLib} {R : SessLib} {C : ConfLib}.
Abbreviation P := (M load_st).

(** ** The setters of configuration.c *)

Definition Conf_set_dangerous_monitor_state (b : bool) : P unit :=
  set_conf (fun d => d <| EnableDangerousMonitor := b |>).
Definition Conf_set_port_reuse_type (r : port_reuse) : P unit := modify (fun s => s <| SocketPortReuse := r |>).

(** An empty value is ignored. *)
Definition set_param_if_valid (set : option string -> load_st -> load_st) (value : string) (max_len : Z)
  : P unit :=
  when (negb (String.eqb value ""))
    (fatal_if (max_len <? Z.of_nat (String.length value));; modify (set (Some value))).
Definition Conf_set_runtime_dir (v : string) : P unit :=
  set_param_if_valid (fun o s => s <| RuntimeDir := o |>) v MAXPATHLEN.
Definition Conf_set_user (v : string) : P unit := set_param_if_valid (fun o s => s <| User := o |>) v 32.
Definition Conf_set_group (v : string) : P unit := set_param_if_valid (fun o s => s <| Group := o |>) v 32.

Definition Conf_set_max_session_messages (n : Z) : P unit :=
  modify (fun s => s <| conf_MaxSessionMessages := if n <? 0 then DEFAULT_MAX_SESSION_MESSAGES else n |>).

(** It may be set again, to the same. *)
Definition Conf_set_active_ip_version (ipver : Z) : P unit :=
  v ← gets Conf_Active_IP_Version;
  fatal_if (negb (v =? -1) && negb (ipver =? v));;
  fatal_if (negb ((ipver =? AF_INET) || (ipver =? AF_INET6)));;
  modify (fun s => s <| Conf_Active_IP_Version := ipver |>).

Definition Conf_set_window (n : Z) : P unit :=
  fatal_if (n <=? 0);; set_conf (fun d => d <| conf_Window := n |>).
Definition Conf_set_personal_window (n : Z) : P unit :=
  fatal_if (n <=? 0);; set_conf (fun d => d <| conf_PersonalWindow := n |>).
Definition Conf_set_accelerated_ring_flag (b : bool) : P unit :=
  set_conf (fun d => d <| conf_AcceleratedRingFlag := b |>).
Definition Conf_set_accelerated_ring (b : bool) : P unit :=
  set_conf (fun d => d <| conf_AcceleratedRing := b |>).
Definition Conf_set_accelerated_window (n : Z) : P unit :=
  fatal_if (n <? 0);; set_conf (fun d => d <| conf_AcceleratedWindow := n |>).

(** The bit of a timeout in [TimeoutMask]. *)
Definition timeout_bit (t : timeout_name) : Z :=
  match t with
  | TOKEN_TIMEOUT => 0 | HURRY_TIMEOUT => 1 | ALIVE_TIMEOUT => 2 | JOIN_TIMEOUT => 3
  | REP_TIMEOUT => 4 | SEG_TIMEOUT => 5 | GATHER_TIMEOUT => 6 | FORM_TIMEOUT => 7
  | LOOKUP_TIMEOUT => 8
  end.
(** [Conf_set_token_timeout] and the eight others. *)
Definition Conf_set_timeout (t : timeout_name) (n : Z) : P unit :=
  fatal_if (n <=? 0);;
  set_conf (fun d => d <| TimeoutMask ::= fun m => Z.lor m (Z.shiftl 1 (timeout_bit t)) |>
    <| conf_Timeouts ::= <[Z.to_nat (timeout_bit t) := n]> |>).

Definition Conf_set_wide_area_network_flag (b : bool) : P unit :=
  set_conf (fun d => d <| WideAreaNetworkFlag := b |>).
Definition Conf_set_wide_area_network (b : bool) : P unit := set_conf (fun d => d <| WideAreaNetwork := b |>).
Definition Conf_set_exclude_seg_addrs_from_hash (b : bool) : P unit :=
  modify (fun s => s <| ExcludeSegAddrsFromHash := b |>).
Definition Conf_set_ignore_multicast_join_errors (b : bool) : P unit :=
  modify (fun s => s <| IgnoreMulticastJoinErrors := b |>).

(** ** ParamStruct *)

(** The loop that cuts a list of methods at its spaces; [cur] is the name so far,
    backwards.  A space after a space makes an empty name. *)
Fixpoint auth_words (cur l : list Z) : list (list Z) :=
  match l with
  | [] => if bool_decide (cur = []) then [] else [rev cur]
  | c :: l => if c =? 32 then rev cur :: auth_words [] l else auth_words (c :: cur) l
  end.
Definition auth_methods_param (set : list Z -> M St bool) (v : string) : P unit :=
  configured ← gets authentication_configured;
  when (negb configured) (_ ← on_daemon (Acm_auth_set_disabled (str_bytes "NULL")); mret tt);;
  modify (fun s => s <| authentication_configured := true |>);;
  for_each (auth_words [] (take (Z.to_nat MAX_AUTH_LIST_LEN - 1) (str_bytes v)))
    (fun nm => _ ← on_daemon (set nm); mret tt).

Definition param_action (p : param) : P unit :=
  match p with
  | PRINTING => mret tt
  | DANGEROUSMONITOR b => when (negb Alarm_get_interactive) (Conf_set_dangerous_monitor_state b)
  | SOCKETPORTREUSE t => Conf_set_port_reuse_type
      (match t with ON => PORT_REUSE_ON | OFF => PORT_REUSE_OFF | AUTO => PORT_REUSE_AUTO end)
  | RUNTIMEDIR v => Conf_set_runtime_dir v
  | SPUSER v => Conf_set_user v
  | SPGROUP v => Conf_set_group v
  | ALLOWEDAUTHMETHODS v => auth_methods_param Acm_auth_set_enabled v
  | REQUIREDAUTHMETHODS v => auth_methods_param Acm_auth_set_required v
  | ACCESSCONTROLPOLICY v => ok ← on_daemon (Acm_acp_set_policy (str_bytes v)); fatal_if (negb ok)
  | MAXSESSIONMESSAGES n => Conf_set_max_session_messages n
  | ACTIVEIPVERSION v =>
      if String.eqb v "IPv4" then Conf_set_active_ip_version AF_INET
      else if String.eqb v "IPv6" then Conf_set_active_ip_version AF_INET6
      else fatal
  | WINDOW n => Conf_set_window n
  | PERSONALWINDOW n => Conf_set_personal_window n
  | ACCELERATEDRING b => Conf_set_accelerated_ring_flag true;; Conf_set_accelerated_ring b
  | ACCELERATEDWINDOW n => Conf_set_accelerated_window n
  | TIMEOUT t n => Conf_set_timeout t n
  | WIDEAREANETWORK b => Conf_set_wide_area_network_flag true;; Conf_set_wide_area_network b
  | EXCLUDESEGADDRSFROMHASH b => Conf_set_exclude_seg_addrs_from_hash b
  | IGNOREMULTICASTJOINERRORS b => Conf_set_ignore_multicast_join_errors b
  end.

(** ** A daemon *)

(** [strncpy] to [MAX_PROC_NAME] bytes, the last of them a null. *)
Definition cut_name (n : string) : string := String.substring 0 (Z.to_nat MAX_PROC_NAME - 1) n.
(** Up to the first ['%']. *)
Fixpoint cut_interface (n : string) : string :=
  match n with
  | EmptyString => EmptyString
  | String c n => if Ascii.eqb c (Ascii.ascii_of_nat 37) then EmptyString else String c (cut_interface n)
  end.

(** The first address of the resolver that is of the right family. *)
Definition right_family (family : Z) (a : spu_addr) : bool :=
  ((spu_addr_family a =? AF_INET) || (spu_addr_family a =? AF_INET6)) &&
  ((family =? -1) || (spu_addr_family a =? family)).

(** The address the daemon is given, or that of its name. *)
Definition daemon_addr (nm : option string) (conf_addr : option conf_ipaddr) : P spu_addr :=
  family ← gets Conf_Active_IP_Version;
  match conf_addr, nm with
  | Some a, _ =>
      fatal_if (spu_addr_ip_is_unspecified (ipaddr a));;
      fatal_if (negb (spu_addr_ip_get_port (ipaddr a) =? 0));; mret (ipaddr a)
  | None, Some n =>
      rslt ← or_fail Fatal (getaddrinfo n);
      '(_, a) ← or_fail Fatal (find_index (right_family family) rslt); mret a
  | None, None => fatal
  end.

Definition set_daemon_name_and_addr (nm : option string) (conf_addr : option conf_ipaddr) : P unit :=
  family ← gets Conf_Active_IP_Version;
  fatal_if (match nm with Some n => String.eqb n "" | None => false end);;
  addr ← daemon_addr nm conf_addr;
  i ← gets n_procs;
  update_proc i (fun p => p <| proc_addr := addr |>);;
  (if family =? -1 then Conf_set_active_ip_version (spu_addr_family addr)
   else fatal_if (negb (family =? spu_addr_family addr)));;
  fatal_if (spu_addr_ip_is_multicast addr);;
  let n := match nm, conf_addr with
    | Some n, _ => cut_name n
    | None, Some a => cut_interface (cut_name (ipstr a))
    | None, None => EmptyString end in
  update_proc i (fun p => p <| name := n |>);;
  fatal_if (String.eqb n "");;
  l ← gets c_allprocs;
  fatal_if (existsb (fun q => String.eqb n (name q)) (take (Z.to_nat i) l)).

Definition Daemonname (n : daemon_name) : P unit :=
  match n with
  | STRING_IPADDR n a => set_daemon_name_and_addr (Some n) (Some a)
  | STRING n => set_daemon_name_and_addr (Some n) None
  | IPADDR a => set_daemon_name_and_addr None (Some a)
  end.

Definition Daemonvid (number : Z) : P unit :=
  fatal_if (number <=? 0);;
  i ← gets n_procs; update_proc i (fun p => p <| id := i32 number |>);;
  fatal_if (u32 number =? 0).

Definition Interfaceparam (x : interface_spec) : P unit :=
  k ← gets procs_interfaces;
  fatal_if (MAX_INTERFACES_PROC <=? k);;
  fatal_if (negb (spu_addr_ip_get_port (ipaddr (if_addr x)) =? 0));;
  let mask := fold_left Z.lor (if_types x) 0 in
  i ← gets n_procs;
  update_proc i (fun p => p <| ifc ::= fun l => take (Z.to_nat k) l ++
    [mk_spread_if (if mask =? 0 then IFTYPE_ALL else i16 mask) (ipaddr (if_addr x))] |>);;
  modify (fun s => s <| procs_interfaces := k + 1 |>).

Definition Daemoninterfaces (l : list interface_spec) : P unit :=
  for_each l Interfaceparam;;
  k ← gets procs_interfaces; fatal_if (k =? 0).

(** The interface is a daemon's, and stands for the address [a]. *)
Definition primary_interface (a : spu_addr) (x : spread_if) : bool :=
  ((spu_addr_ip_cmp a (ifaddr x) false =? 0) ||
   ((spu_addr_family a =? spu_addr_family (ifaddr x)) && spu_addr_ip_is_unspecified (ifaddr x))) &&
  (Is_IfType_Daemon (iftype x) || Is_IfType_Any (iftype x)).

(** The end of a daemon: its id, its interfaces, its places. *)
Definition Daemonparam_id (i : Z) : P unit :=
  p ← get_proc i;
  when (id p =? 0)
    (v ← or_fail Fatal (Conf_str_to_id (name p)); update_proc i (fun p => p <| id := i32 v |>));;
  p ← get_proc i;
  l ← gets c_allprocs;
  fatal_if (existsb (fun q => id q =? id p) (take (Z.to_nat i) l)).
Definition Daemonparam_interfaces (i : Z) : P unit :=
  n ← gets procs_interfaces;
  when (n =? 0)
    (modify (fun s => s <| procs_interfaces := 1 |>);;
     update_proc i (fun p => p <| ifc := [mk_spread_if (Z.lor IFTYPE_ALL IFTYPE_ANY) (proc_addr p)] |>));;
  n ← gets procs_interfaces;
  p ← get_proc i;
  fatal_if (negb (existsb (primary_interface (proc_addr p)) (take (Z.to_nat n) (ifc p)))).
Definition Daemonparam_places (i : Z) : P unit :=
  k ← gets n_segments;
  j ← gets segment_procs;
  n ← gets procs_interfaces;
  update_proc i (fun p => p <| seg_index := i16 k |> <| index_in_seg := i16 j |> <| ifc ::= take (Z.to_nat n) |>);;
  update_slot k (fun x => x <| sl_procs ::= fun l => take (Z.to_nat j) l ++ [i] |>);;
  modify (fun s => s <| n_procs ::= Z.succ |> <| segment_procs ::= Z.succ |> <| procs_interfaces := 0 |>).
Definition Daemonparam_end : P unit :=
  i ← gets n_procs;
  j ← gets segment_procs;
  fatal_if (MAX_PROCS_RING <=? i);;
  fatal_if (MAX_PROCS_SEGMENT <=? j);;
  Daemonparam_id i;;
  Daemonparam_interfaces i;;
  Daemonparam_places i.

Definition Daemonparam (d : daemon_spec) : P unit :=
  Daemonname (ds_name d);;
  match ds_vid d with Some v => Daemonvid v | None => mret tt end;;
  match ds_interfaces d with Some l => Daemoninterfaces l | None => mret tt end;;
  Daemonparam_end.

(** ** A segment *)

(** The first address of the segment has its place before these. *)
Definition SegmentAddresses (a : conf_ipaddr) : P unit :=
  modify (fun s => s <| segment_addrs ::= Z.succ |>);;
  j ← gets segment_addrs;
  fatal_if (MAX_ADDRS_SEGMENT <=? j);;
  k ← gets n_segments;
  update_slot k (fun x => x <| sl_addrs ::= <[Z.to_nat j := ipaddr a]> |>).

(** An address of the segment gets the port. *)
Definition segment_address (k port j : Z) : P unit :=
  x ← get_slot k;
  a ← or_fail Undefined (arr_get (sl_addrs x) j);
  v ← gets Conf_Active_IP_Version;
  fatal_if (negb (spu_addr_family a =? v));;
  fatal_if (spu_addr_ip_is_unspecified a);;
  update_slot k (fun x => x <| sl_addrs ::= <[Z.to_nat j := spu_addr_ip_set_port a port]> |>).

(** So does a daemon of it, whose address is then to be its own. *)
Definition set_ports (port : Z) (p : proc) : proc :=
  p <| proc_addr ::= fun a => spu_addr_ip_set_port a port |>
    <| ifc ::= map (fun x => x <| ifaddr ::= fun a => spu_addr_ip_set_port a port |>) |>.
Definition segment_daemon (port i : Z) : P unit :=
  update_proc i (set_ports port);;
  p ← get_proc i;
  l ← gets c_allprocs;
  fatal_if (existsb (fun q => spu_addr_ip_cmp (proc_addr p) (proc_addr q) true =? 0) (take (Z.to_nat i) l)).

Definition segment_port (a : conf_ipaddr) : Z :=
  if spu_addr_ip_get_port (ipaddr a) =? 0 then DEFAULT_SPREAD_PORT else u16 (spu_addr_ip_get_port (ipaddr a)).

(** The end of a segment. *)
Definition SegmentStruct_end (a : conf_ipaddr) : P unit :=
  let port := segment_port a in
  k ← gets n_segments;
  fatal_if (MAX_SEGMENTS <=? k);;
  j ← gets segment_addrs;
  fatal_if (MAX_ADDRS_SEGMENT <=? j);;
  update_slot k (fun x => x <| sl_addrs ::= <[O := ipaddr a]> |> <| num_seg_addrs := j + 1 |>);;
  modify (fun s => s <| segment_addrs := j + 1 |>);;
  for_each (zrange 0 j) (segment_address k port);;
  m ← gets segment_procs;
  update_slot k (fun x => x <| sl_procs ::= take (Z.to_nat m) |>);;
  n ← gets n_procs;
  for_each (zrange (n - m) (n - 1)) (segment_daemon port);;
  modify (fun s => s <| n_segments ::= Z.succ |> <| segment_procs := 0 |> <| segment_addrs := 0 |>).

Definition segment_action (x : segment_spec) : P unit :=
  for_each (ss_addrs x) SegmentAddresses;;
  for_each (ss_daemons x) Daemonparam;;
  SegmentStruct_end (ss_addr x).

Definition struct_action (x : conf_struct) : P unit :=
  match x with ParamStruct p => param_action p | SegmentStruct s => segment_action s end.

(** ** The whole file *)

Definition newline : string := String (Ascii.ascii_of_nat 10) EmptyString.
Definition tab : string := String (Ascii.ascii_of_nat 9) EmptyString.
(** [%u], [%d] and [%lu]. *)
Definition decimal (n : Z) : string := pretty (Z.to_N n).
Definition Conf_id_to_str (pid : Z) : string := decimal (u32 pid).

Definition segment_line (p : proc) : string :=
  (tab ++ "'" ++ name p ++ "' [" ++ spu_addr_ntop_canon (proc_addr p) ++ "] [" ++
   Conf_id_to_str (id p) ++ "]" ++ newline)%string.
Definition segment_string (exclude : bool) (sg : segment) : string :=
  ("Segment: port = " ++ decimal (spu_addr_ip_get_port (default spu_addr_zero (seg_addrs sg !! O))) ++ ";" ++
   (if exclude then "" else
      String.concat "" (map (fun a => " [" ++ spu_addr_ntop_canon a ++ "]") (seg_addrs sg))) ++ newline ++
   String.concat "" (map segment_line (procs sg)) ++ newline)%string.
Definition version_string (accelerated : bool) : string :=
  ("Version: " ++ decimal SP_MAJOR_VERSION ++ newline ++ "Protocol: " ++
   (if accelerated then "Accelerated Ring" else "Original Ring") ++ newline)%string.

(** What is written has to leave room for its null. *)
Definition append_conf_string (str : string) : P unit :=
  c ← gets ConfStringRep;
  fatal_if (MAX_CONF_STRING - Z.of_nat (String.length c) <=? Z.of_nat (String.length str));;
  modify (fun s => s <| ConfStringRep := (c ++ str)%string |>).

Definition Config_action : P unit :=
  s ← gets (fun s => s);
  fatal_if (n_segments s =? 0);;
  fatal_if (n_procs s =? 0);;
  fatal_if (conf_Window (daemon s) <? conf_PersonalWindow (daemon s));;
  fatal_if (conf_AcceleratedRing (daemon s) &&
    (conf_PersonalWindow (daemon s) <? conf_AcceleratedWindow (daemon s)));;
  modify (fun s => s <| c_num_segments := n_segments s |> <| c_num_total_procs := n_procs s |>);;
  s ← gets (fun s => s);
  for_each (segments (config_view s)) (fun sg => append_conf_string (segment_string (ExcludeSegAddrsFromHash s) sg));;
  append_conf_string (version_string (conf_AcceleratedRing (daemon s)));;
  modify (fun s => s <| c_hash_code :=
    u32 (stdhcode_oaat (ConfStringRep s) (Z.of_nat (String.length (ConfStringRep s)) + 1)) |>);;
  publish.

Definition parser_init : P unit :=
  modify (fun s => s <| n_procs := 0 |> <| segment_procs := 0 |> <| segment_addrs := 0 |>
    <| n_segments := 0 |> <| procs_interfaces := 0 |> <| ConfStringRep := EmptyString |>).
Definition yyparse (file : conf_file) : P unit :=
  for_each file struct_action;; Config_action.
End Parse.
