(* ===== verification/ConfigLoad.v ===== *)
(** * Loading and reloading: configuration.c above the parser

    [Conf_init], [Conf_load_conf_file] and [Conf_reload_initiate].  That a file is found and
    follows the grammar is assumed (the process ends otherwise), and the addresses of the
    machine are given with it. *)

From S2P Require Import Prelude NetTypes Configuration State Message Stdutil SessState Acm.
From S2P Require Import ConfigState ConfigParse.

Section Load.
Context {L : SpuLib} {R : SessLib} {C : ConfLib}.
Abbreviation P := (M load_st).

(** The two addresses are of the same host. *)
Definition same_host (a b : spu_addr) : bool := spu_addr_ip_cmp a b false =? 0.
Definition same_addr (a b : spu_addr) : bool := spu_addr_ip_cmp a b true =? 0.
Definition first_ip (ips : list spu_addr) (a : spu_addr) : option spu_addr :=
  snd <$> find_index (same_host a) ips.

(** The daemon's own entry: of its name, or the first with an address of the machine. *)
Definition find_my (c : configuration) (ips : list spu_addr) (my_name : option string) : option proc :=
  match my_name with
  | None => snd <$> find_index (fun p => existsb (same_host (proc_addr p)) ips) (allprocs c)
  | Some nm => snd <$> Conf_proc_by_name_in_conf c (cut_name nm)
  end.

Definition set_scope (n : Z) (p : proc) : proc := p <| proc_addr ::= set_scope_id n |>.
Definition scope_default (n : Z) (a : spu_addr) : spu_addr := if sin6_scope_id a =? 0 then set_scope_id n a else a.

(** The interface of an IPv6 daemon: from its address, or from the machine's; all
    daemons are sent to through it, and the daemon's segment, unless configured. *)
Definition set_my_scope (ip : spu_addr) : P Z :=
  my ← gets (fun s => My (daemon s));
  if negb (spu_addr_family (proc_addr my) =? AF_INET6) then mret 0 else
  let addr := scope_default (sin6_scope_id ip) (proc_addr my) in
  let scope := sin6_scope_id addr in
  set_conf (fun d => d <| My := my <| proc_addr := addr |> |>);;
  n ← gets c_num_total_procs;
  for_each (zrange 0 (n - 1)) (fun i => update_proc i (set_scope scope));;
  update_slot (seg_index my) (fun x => x <| sl_addrs ::= fun l =>
    map (scope_default scope) (take (Z.to_nat (num_seg_addrs x)) l) ++ drop (Z.to_nat (num_seg_addrs x)) l |>);;
  publish;;
  mret scope.

(** An interface of the daemon that is one of the machine's. *)
Definition my_interface (ips : list spu_addr) (scope : Z) (x : spread_if) : spread_if :=
  if spu_addr_ip_is_unspecified (ifaddr x) || spu_addr_ip_is_multicast (ifaddr x) then x else
  match first_ip ips (ifaddr x) with
  | None => x
  | Some ip =>
      if spu_addr_family (ifaddr x) =? AF_INET6
      then x <| ifaddr ::= fun a => scope_default scope (scope_default (sin6_scope_id ip) a) |>
      else x
  end.

Definition Conf_load_conf_file (file : conf_file) (ips : list spu_addr) (my_name : option string) : P unit :=
  fatal_if (bool_decide (length ips = O));;
  parser_init;;
  yyparse file;;
  c ← gets (fun s => Config (daemon s));
  my ← or_fail Fatal (find_my c ips my_name);
  set_conf (fun d => d <| My := my |>);;
  ip ← or_fail Fatal (first_ip ips (proc_addr my));
  scope ← set_my_scope ip;
  set_conf (fun d => d <| My ::= fun p => p <| ifc ::= map (my_interface ips scope) |> |>).

(** The arrays of a configuration no file was read into; [Mem_alloc] gives zeros. *)
Definition no_slot : seg_slot := mk_seg_slot 0 (replicate (Z.to_nat MAX_ADDRS_SEGMENT) spu_addr_zero) [].
Definition Conf_init (file : conf_file) (ips : list spu_addr) (my_name : option string) : P unit :=
  fatal_if (match my_name with Some nm => 256 <=? Z.of_nat (String.length nm) | None => false end);;
  modify (fun s => s <| Conf_MyName := my_name |>
    <| c_allprocs := replicate (Z.to_nat MAX_PROCS_RING) no_proc |>
    <| c_segments := replicate (Z.to_nat MAX_SEGMENTS) no_slot |>
    <| c_num_total_procs := 0 |> <| c_num_segments := 0 |> <| c_hash_code := 0 |>);;
  Conf_load_conf_file file ips my_name.

(** ** Reloading *)

(** A change of the daemon itself ends it. *)
Definition changed (me : bool) : P bool := if me then fatal else mret true.
Definition ifc_changed (me : bool) (x y : spread_if) : bool :=
  negb (iftype x =? iftype y) || negb (same_addr (ifaddr x) (ifaddr y)) ||
  (me && (spu_addr_family (ifaddr x) =? AF_INET6) &&
   negb (sin6_scope_id (ifaddr x) =? sin6_scope_id (ifaddr y))).
(** The loop stops at the first address that differs. *)
Definition addr_same (me : bool) (a b : spu_addr) : bool :=
  same_addr a b && negb (me && (spu_addr_family a =? AF_INET6) && negb (sin6_scope_id a =? sin6_scope_id b)).
Definition addrs_same (me : bool) (l l' : list spu_addr) : bool :=
  let n := Z.of_nat (length l) in
  let i := if negb (n =? Z.of_nat (length l')) then 0
           else count_while (fun i => match l !! Z.to_nat i, l' !! Z.to_nat i with
             | Some a, Some b => addr_same me a b | _, _ => false end) (zrange 0 (n - 1)) 0 in
  i =? n.
Definition Conf_daemon_changed (np : proc) (np_seg : segment) (op : proc) (op_seg : segment) (me : bool) : P bool :=
  if negb (String.eqb (name np) (name op)) || negb (same_addr (proc_addr np) (proc_addr op)) ||
     negb (id np =? id op) || negb (Z.of_nat (length (ifc np)) =? Z.of_nat (length (ifc op)))
  then changed me
  else if existsb (fun '(x, y) => ifc_changed me x y) (zip (ifc np) (ifc op)) then changed me
  else if negb (addrs_same me (seg_addrs np_seg) (seg_addrs op_seg)) then changed me
  else mret false.

(** One daemon of the new configuration [c] against the old one; whether the daemons
    have to part. *)
Definition check_daemon (c prev : configuration) (np : proc) : P bool :=
  let op := Conf_proc_by_name_in_conf prev (name np) in
  let op2 := Conf_proc_by_id_in_conf prev (id np) in
  match op, op2 with
  | None, None => mret false
  | Some (i, op), Some (j, _) =>
      if i =? j then
        Conf_daemon_changed np (segment_at c (seg_index np)) op (segment_at prev (seg_index op)) false
      else mret true
  | _, _ => mret true
  end.
Fixpoint check_daemons (c prev : configuration) (l : list proc) : P bool :=
  match l with
  | [] => mret false
  | np :: l => b ← check_daemon c prev np; if b : bool then mret true else check_daemons c prev l
  end.

Definition Conf_reload_initiate (file : conf_file) (ips : list spu_addr) : P bool :=
  s ← gets (fun s => s);
  prev ← or_fail Fatal (Conf_config_copy (Config (daemon s)));
  '(_, op) ← or_fail Fatal (Conf_proc_by_id_in_conf prev (id (My (daemon s))));
  Conf_load_conf_file file ips (Conf_MyName s);;
  d ← gets daemon;
  '(_, np) ← or_fail Fatal (Conf_proc_by_id_in_conf (Config d) (id (My d)));
  _ ← Conf_daemon_changed np (segment_at (Config d) (seg_index np)) op (segment_at prev (seg_index op)) true;
  check_daemons (Config d) prev (allprocs (Config d)).
End Load.
