(* ===== verification/ConfigDemo.v ===== *)
(** * Concrete configuration files

    A resolver that knows the hosts by one letter, and files of two segments. *)

From S2P Require Import Prelude NetTypes Configuration State Demo SessState GroupsDemo.
From S2P Require Import ConfigState ConfigParse ConfigLoad.

(** Hosts from 1000 are multicast; there is no IPv6. *)
#[export] Instance demo_conf_lib : ConfLib := {|
  spu_addr_family _ := AF_INET;
  spu_addr_ip_is_unspecified a := a / 65536 =? 0;
  spu_addr_ip_is_multicast a := 1000 <=? a / 65536;
  spu_addr_ip_set_unspecified a := a mod 65536;
  spu_addr_ntop_canon a := decimal (a / 65536);
  sin6_scope_id _ := 0;
  set_scope_id _ a := a;
  getaddrinfo n := match n with
    | String c EmptyString => Some [65536 * Z.of_nat (Ascii.nat_of_ascii c)] | _ => None end;
  Alarm_get_interactive := false |}.

Lemma demo_family a : spu_addr_family a <> -1.
Proof. done. Qed.

(** An address of the file, without a port. *)
Definition demo_ip (n : Z) : conf_ipaddr := mk_conf_ipaddr (n * 65536) "".
Definition demo_segment (n : Z) (l : list daemon_spec) : segment_spec := mk_segment_spec (demo_ip n) [] l.
(** A daemon of the file, found by its name, or with an address of its own. *)
Definition demo_host (n : string) (vid : option Z) : daemon_spec := mk_daemon_spec (STRING n) vid None.
Definition demo_at (n : string) (k : Z) (l : option (list interface_spec)) : daemon_spec :=
  mk_daemon_spec (STRING_IPADDR n (demo_ip k)) None l.

Definition file_abc : conf_file :=
  [ParamStruct (WINDOW 50); ParamStruct (TIMEOUT HURRY_TIMEOUT 7);
   SegmentStruct (demo_segment 1100 [demo_host "a" (Some 1); demo_host "b" None]);
   SegmentStruct (mk_segment_spec (mk_conf_ipaddr (1101 * 65536 + 5000) "") [demo_ip 1102]
     [demo_at "c" 3 (Some [mk_interface_spec [IFTYPE_DAEMON] (demo_ip 3); mk_interface_spec [] (demo_ip 0)])])].
(** Without "b", and the other daemons as they were. *)
Definition file_ac : conf_file :=
  [SegmentStruct (demo_segment 1100 [demo_host "a" (Some 1)]);
   SegmentStruct (mk_segment_spec (mk_conf_ipaddr (1101 * 65536 + 5000) "") [demo_ip 1102]
     [demo_at "c" 3 (Some [mk_interface_spec [IFTYPE_DAEMON] (demo_ip 3); mk_interface_spec [] (demo_ip 0)])])].

(** The daemon before [Conf_init], and the addresses of the host "a". *)
Definition demo_load : load_st := {|
  daemon := demo_groups; c_hash_code := 0; c_num_segments := 0; c_num_total_procs := 0;
  c_allprocs := replicate 128 no_proc; c_segments := replicate 20 no_slot;
  n_procs := 0; segment_procs := 0; segment_addrs := 0; n_segments := 0; procs_interfaces := 0;
  authentication_configured := false; ConfStringRep := ""; SocketPortReuse := PORT_REUSE_AUTO;
  RuntimeDir := None; User := None; Group := None; conf_MaxSessionMessages := 1000;
  ExcludeSegAddrsFromHash := false; IgnoreMulticastJoinErrors := false; Conf_MyName := None;
  Conf_Active_IP_Version := -1 |}.
Definition demo_ips : list Z := [65536 * 97].

Definition ended {A S} (r : outcome S A) : option S := match r with Ok _ s => Some s | Fail _ => None end.
Definition ended_as {A S} (r : outcome S A) : option A := match r with Ok a _ => Some a | Fail _ => None end.
Definition demo_inited : load_st := default demo_load (ended (Conf_init file_abc demo_ips None demo_load)).

(** The daemons of a state: name, id, place. *)
Definition daemons_view (s : load_st) : list (string * Z * (Z * Z)) :=
  map (fun p => (name p, id p, (seg_index p, index_in_seg p))) (allprocs (Config (daemon s))).
