(* ===== verification/ConfigDaemon.v ===== *)
(** * A daemon of the configuration file

    What the actions of one daemon of the file do to the arrays of [*Config]: the entry
    they write is the one the file describes, of a new name and a new id, or the process
    ends. *)

From S2P Require Import Prelude NetTypes Configuration State Message Stdutil SessState Acm.
From S2P Require Import ConfigState ConfigParse.

(** An array whose first entries were written over [old]. *)
Definition written_over {A} (l old : list A) : list A := l ++ drop (length l) old.

Section Over.
Context {A : Type}.
Implicit Types (l old : list A).
Lemma written_next l old : (length l < length old)%nat ->
  exists x, old !! length l = Some x /\ written_over l old !! length l = Some x.
Proof.
  intros H. destruct (lookup_lt_is_Some_2 old (length l) H) as [x Hx]. exists x. split; [done|].
  unfold written_over. rewrite lookup_app_r by lia. by rewrite Nat.sub_diag, lookup_drop, Nat.add_0_r.
Qed.
Lemma written_snoc l old x : (length l < length old)%nat ->
  <[length l := x]> (written_over l old) = written_over (l ++ [x]) old.
Proof.
  intros H. destruct (written_next l old H) as (y & Hy & _). unfold written_over.
  rewrite (drop_S _ y _ Hy), <-(Nat.add_0_r (length l)) at 1.
  rewrite insert_app_r, length_app, Nat.add_1_r, <-app_assoc. done.
Qed.
Lemma written_take l old : take (length l) (written_over l old) = l.
Proof. apply take_app_length. Qed.
Lemma length_written l old : (length l <= length old)%nat -> length (written_over l old) = length old.
Proof. intros H. unfold written_over. rewrite length_app, length_drop. lia. Qed.
End Over.

Lemma existsb_fresh {A B} (f : A -> B) (P : A -> bool) (b : B) l :
  (forall q, f q = b -> P q = true) -> existsb P l = false -> b ∉ map f l.
Proof.
  intros HP E Hin. apply list_elem_of_fmap in Hin as (q & Hq & Hin).
  apply Bool.not_true_iff_false in E. apply E, existsb_exists. exists q.
  split; [by apply list_elem_of_In|by apply HP].
Qed.

Section Daemon.
Context {L : SpuLib} {R : SessLib} {C : ConfLib}.
Implicit Types (s : load_st) (p : proc) (d : daemon_spec).

(** States are equal when their variables are. *)
Lemma load_st_eq (s s' : load_st) :
  daemon s = daemon s' -> c_hash_code s = c_hash_code s' -> c_num_segments s = c_num_segments s' ->
  c_num_total_procs s = c_num_total_procs s' -> c_allprocs s = c_allprocs s' ->
  c_segments s = c_segments s' -> n_procs s = n_procs s' -> segment_procs s = segment_procs s' ->
  segment_addrs s = segment_addrs s' -> n_segments s = n_segments s' ->
  procs_interfaces s = procs_interfaces s' ->
  authentication_configured s = authentication_configured s' -> ConfStringRep s = ConfStringRep s' ->
  SocketPortReuse s = SocketPortReuse s' -> RuntimeDir s = RuntimeDir s' -> User s = User s' ->
  Group s = Group s' -> conf_MaxSessionMessages s = conf_MaxSessionMessages s' ->
  ExcludeSegAddrsFromHash s = ExcludeSegAddrsFromHash s' ->
  IgnoreMulticastJoinErrors s = IgnoreMulticastJoinErrors s' -> Conf_MyName s = Conf_MyName s' ->
  Conf_Active_IP_Version s = Conf_Active_IP_Version s' -> s = s'.
Proof. destruct s, s'. cbn. intros. by subst. Qed.

(** ** What the file says of a daemon *)

Definition spec_name (n : daemon_name) : string :=
  match n with
  | STRING_IPADDR n _ | STRING n => cut_name n
  | IPADDR a => cut_interface (cut_name (ipstr a))
  end.
(** [family] is that of the configuration. *)
Definition spec_addr (family : Z) (n : daemon_name) : option spu_addr :=
  match n with
  | STRING_IPADDR _ a | IPADDR a => Some (ipaddr a)
  | STRING n => l ← getaddrinfo n; snd <$> find_index (right_family family) l
  end.
(** The id that is configured, or else the one that the array held already, or else
    one from the name. *)
Definition spec_id (old : proc) d : option Z :=
  match ds_vid d with
  | Some v => Some (i32 v)
  | None => if id old =? 0 then i32 <$> Conf_str_to_id (spec_name (ds_name d)) else Some (id old)
  end.
Definition spec_interface (x : interface_spec) : spread_if :=
  let mask := fold_left Z.lor (if_types x) 0 in
  mk_spread_if (if mask =? 0 then IFTYPE_ALL else i16 mask) (ipaddr (if_addr x)).
Definition spec_interfaces (addr : spu_addr) d : list spread_if :=
  match ds_interfaces d with
  | Some l => map spec_interface l
  | None => [mk_spread_if (Z.lor IFTYPE_ALL IFTYPE_ANY) addr]
  end.

Definition right_ip (v : Z) : Prop := v = AF_INET \/ v = AF_INET6.
(** [p] is the daemon [d] of the file, at its place [j] in the segment [k]. *)
Definition built (v : Z) (old : proc) (k j : Z) d p : Prop := exists addr pid,
  spec_addr v (ds_name d) = Some addr /\ spec_id old d = Some pid /\
  spu_addr_family addr = v /\ spu_addr_ip_is_multicast addr = false /\
  existsb (primary_interface addr) (spec_interfaces addr d) = true /\
  p = mk_proc (spec_name (ds_name d)) addr pid (spec_interfaces addr d) (i16 k) (i16 j).

(** ** One entry of the array *)

Context (Big : Prop).
Definition refused (e : failure) : Prop := e = Fatal \/ (e = Undefined /\ Big).
Lemma refused_Fatal : refused Fatal. Proof. by left. Qed.
Hint Resolve refused_Fatal : core.

(** The entry [i] is [p], the family [v], [n] interfaces are written; nothing else
    has changed since [s0]. *)
Definition entry (s0 : load_st) (i : nat) p (v n : Z) s : Prop :=
  s = s0 <| c_allprocs ::= <[i := p]> |> <| Conf_Active_IP_Version := v |> <| procs_interfaces := n |>.

Lemma arr_get_lookup {A} (l : list A) (i : nat) : arr_get l (Z.of_nat i) = l !! i.
Proof. unfold arr_get. destruct (Z.ltb_spec (Z.of_nat i) 0); [lia|]. by rewrite Nat2Z.id. Qed.
Lemma u32_fits x : u32 (u32 x) = u32 x.
Proof. apply Z.mod_small, u32_range. Qed.
Lemma str_to_id_nonzero nm a : Conf_str_to_id nm = Some a -> i32 a <> 0.
Proof.
  unfold Conf_str_to_id. cbn zeta.
  assert (forall x, (u32 x =? 0) || (u32 x =? 4294967295) = false -> i32 (u32 x) <> 0) as Hne.
  { intros x E Hi. bools_to_props. apply (f_equal u32) in Hi. by rewrite u32_i32, u32_fits in Hi. }
  match goal with |- context [if ?c =? 0 then u32 (Z.shiftl 1 16) else _] => set (t := c) end.
  match goal with |- context [(?c =? 0) || (?c =? 4294967295)] => set (h := c) end.
  assert (exists y, h = u32 y) as [y Ey].
  { unfold h, t. destruct (_ || _); [destruct (_ =? 0)|]; eauto. }
  clearbody h. subst h.
  destruct (_ || _) eqn:E; [done|]. intros [= <-]. by apply Hne.
Qed.

Section Entry.
Context (s0 : load_st) (i : nat) (Hi : (i < length (c_allprocs s0))%nat).
Implicit Types (v n : Z).

Lemma entry_get p v n s : entry s0 i p v n s ->
  wp refused (get_proc (Z.of_nat i)) (fun r s' => r = p /\ s' = s) s.
Proof.
  intros ->. unfold get_proc. wp_step. wp_step. rewrite arr_get_lookup. rec_simpl_in_goal.
  rewrite list_lookup_insert_eq by done. by apply wp_ret.
Qed.
Lemma entry_update p v n s f : entry s0 i p v n s ->
  wp refused (update_proc (Z.of_nat i) f) (fun _ s' => entry s0 i (f p) v n s') s.
Proof.
  intros H. unfold update_proc. wp_step. eapply wp_mono; [by eapply entry_get|]. intros r s' [-> ->].
  apply wp_modify. rewrite H, Nat2Z.id. unfold entry.
  unfold set_field, set_c_allprocs, set_Conf_Active_IP_Version, set_procs_interfaces. cbn -[insert].
  by rewrite list_insert_insert_eq.
Qed.
Lemma entry_start p : c_allprocs s0 !! i = Some p ->
  entry s0 i p (Conf_Active_IP_Version s0) (procs_interfaces s0) s0.
Proof.
  intros H. unfold entry, set_field, set_c_allprocs, set_Conf_Active_IP_Version, set_procs_interfaces.
  cbn -[insert]. rewrite list_insert_id by done. by destruct s0.
Qed.
Lemma entry_ip p v n s v' : entry s0 i p v n s ->
  entry s0 i p v' n (s <| Conf_Active_IP_Version := v' |>).
Proof. by intros ->. Qed.
Lemma entry_interfaces p v n s n' : entry s0 i p v n s -> entry s0 i p v n' (s <| procs_interfaces := n' |>).
Proof. by intros ->. Qed.
Lemma entry_take p v n s : entry s0 i p v n s -> take i (c_allprocs s) = take i (c_allprocs s0).
Proof. intros ->. rec_simpl_in_goal. by rewrite take_insert_ge. Qed.
Lemma entry_n p v n s : entry s0 i p v n s -> procs_interfaces s = n.
Proof. by intros ->. Qed.
Lemma entry_v p v n s : entry s0 i p v n s -> Conf_Active_IP_Version s = v.
Proof. by intros ->. Qed.
Lemma entry_n_procs p v n s : entry s0 i p v n s -> n_procs s = n_procs s0.
Proof. by intros ->. Qed.

(** ** The id and the interfaces *)

Lemma vid_entry p v n s number : n_procs s0 = Z.of_nat i -> entry s0 i p v n s ->
  wp refused (Daemonvid number) (fun _ s' => entry s0 i (p <| id := i32 number |>) v n s' /\ i32 number <> 0) s.
Proof.
  intros Hn H. unfold Daemonvid. wp_step. wp_step; [done|]. wp_step. wp_step.
  rewrite (entry_n_procs _ _ _ _ H), Hn. wp_step. eapply wp_mono; [by eapply entry_update|]. intros u s' H'.
  wp_step; [done|]. split; [done|]. intros E. bools_to_props. apply (f_equal u32) in E. by rewrite u32_i32 in E.
Qed.

Lemma interface_entry p v k s x : n_procs s0 = Z.of_nat i -> 0 <= k -> entry s0 i p v k s ->
  wp refused (Interfaceparam x) (fun _ s' =>
    entry s0 i (p <| ifc := take (Z.to_nat k) (ifc p) ++ [spec_interface x] |>) v (k + 1) s') s.
Proof.
  intros Hn Hk H. unfold Interfaceparam. wp_step. wp_step. rewrite (entry_n _ _ _ _ H).
  wp_step. wp_step; [done|]. wp_step. wp_step; [done|]. cbn zeta. wp_step. wp_step.
  rewrite (entry_n_procs _ _ _ _ H), Hn. wp_step. eapply wp_mono; [by eapply entry_update|]. intros u s' H'.
  wp_step. exact (entry_interfaces _ _ _ _ _ H').
Qed.

Lemma interfaces_entry l : forall p v (n : nat) s, n_procs s0 = Z.of_nat i -> (n <= length (ifc p))%nat ->
  entry s0 i p v (Z.of_nat n) s ->
  wp refused (for_each l Interfaceparam) (fun _ s' => exists q,
    entry s0 i (p <| ifc := q |>) v (Z.of_nat (n + length l)) s' /\
    take (n + length l) q = take n (ifc p) ++ map spec_interface l) s.
Proof.
  induction l as [|x l IH]; intros p v n s Hn Hl H; cbn [for_each].
  { wp_step. exists (ifc p). rewrite Nat.add_0_r, app_nil_r. split; [by destruct p|done]. }
  wp_step. eapply wp_mono; [apply (interface_entry p v (Z.of_nat n)); [done|lia|exact H]|]. intros u s' H'.
  rewrite Nat2Z.id in H'. eapply wp_mono; [apply (IH (p <| ifc := take n (ifc p) ++ [spec_interface x] |>) v (S n))|].
  - done.
  - rec_simpl_in_goal. rewrite length_app, length_take. cbn. lia.
  - by replace (Z.of_nat (S n)) with (Z.of_nat n + 1) by lia.
  - intros u' s2 (q & H2 & Hq). exists q. replace (n + length (x :: l))%nat with (S n + length l)%nat by (cbn; lia). split; [exact H2|]. rewrite Hq.
    rec_simpl_in_goal. rewrite take_ge by (rewrite length_app, length_take; cbn; lia). by rewrite <-app_assoc.
Qed.

Lemma id_entry p v n s nm : name p = nm -> entry s0 i p v n s ->
  wp refused (Daemonparam_id (Z.of_nat i)) (fun _ s' => exists pid,
    entry s0 i (p <| id := pid |>) v n s' /\ pid ∉ map id (take i (c_allprocs s0)) /\ pid <> 0 /\
    (if id p =? 0 then i32 <$> Conf_str_to_id nm else Some (id p)) = Some pid) s.
Proof.
  intros Hnm H. unfold Daemonparam_id. wp_step. eapply wp_mono; [by eapply entry_get|]. intros r s1 [-> ->]. wp_step.
  apply (wp_mono _ _ (fun _ s' => exists pid, entry s0 i (p <| id := pid |>) v n s' /\ pid <> 0 /\
    (if id p =? 0 then i32 <$> Conf_str_to_id nm else Some (id p)) = Some pid)).
  - wp_step.
    + wp_step. wp_step; [done|]. eapply wp_mono; [by eapply entry_update|]. intros u s' H'.
      exists (i32 a). split; [exact H'|]. bools_to_props.
      replace (id p =? 0) with true by (symmetry; by apply Z.eqb_eq). rewrite <-Hnm, H1. split; [|done].
      apply str_to_id_nonzero in H1. done.
    + exists (id p). split; [by destruct p|]. rewrite H0. bools_to_props. done.
  - intros u s' (pid & H1 & Hpid & E). wp_step. eapply wp_mono; [by eapply entry_get|]. intros r s2 [-> ->].
    wp_step. wp_step. wp_step; [done|]. rewrite Nat2Z.id, (entry_take _ _ _ _ H1) in H0. rec_simpl_in H0.
    exists pid. split; [exact H1|]. split; [|done].
    eapply existsb_fresh; [|exact H0]. intros q Hq. by apply Z.eqb_eq.
Qed.

(** The end of the interfaces: [q] are those that were written, if any. *)
Lemma interfaces_end p v (n : nat) s : entry s0 i p v (Z.of_nat n) s ->
  wp refused (Daemonparam_interfaces (Z.of_nat i)) (fun _ s' => exists q (n' : nat),
    entry s0 i (p <| ifc := q |>) v (Z.of_nat n') s' /\
    take n' q = (match n with O => [mk_spread_if (Z.lor IFTYPE_ALL IFTYPE_ANY) (proc_addr p)] | _ => take n (ifc p) end) /\
    existsb (primary_interface (proc_addr p)) (take n' q) = true) s.
Proof.
  intros H. unfold Daemonparam_interfaces. wp_step. wp_step. rewrite (entry_n _ _ _ _ H). wp_step.
  apply (wp_mono _ _ (fun _ s' => exists q (n' : nat), entry s0 i (p <| ifc := q |>) v (Z.of_nat n') s' /\
    take n' q = (match n with O => [mk_spread_if (Z.lor IFTYPE_ALL IFTYPE_ANY) (proc_addr p)] | _ => take n (ifc p) end))).
  - wp_step; bools_to_props.
    + assert (n = O) as -> by lia. wp_step. wp_step.
      eapply wp_mono; [by eapply entry_update, (entry_interfaces _ _ _ _ 1 H)|]. intros u s' H'.
      by exists [mk_spread_if (Z.lor IFTYPE_ALL IFTYPE_ANY) (proc_addr p)], 1%nat.
    + exists (ifc p), n. split; [by destruct p|]. by destruct n.
  - intros u s' (q & n' & H' & Hq). wp_step. wp_step. rewrite (entry_n _ _ _ _ H'). wp_step.
    eapply wp_mono; [by eapply entry_get|]. intros r s2 [-> ->]. rec_simpl_in_goal. rewrite Nat2Z.id.
    wp_step; [done|]. exists q, n'. split; [done|]. split; [done|]. by apply negb_false_iff.
Qed.

Lemma slot_entry p v n s k sl f : entry s0 i p v n s -> c_segments s0 !! k = Some sl ->
  wp refused (update_slot (Z.of_nat k) f)
    (fun _ s' => s' = s <| c_segments ::= <[k := f sl]> |>) s.
Proof.
  intros H Hsl. unfold entry in H. subst s. unfold update_slot, get_slot. wp_step. wp_step. wp_step.
  rewrite arr_get_lookup. rec_simpl_in_goal. rewrite Hsl. apply wp_ret, wp_modify.
  by rewrite Nat2Z.id.
Qed.

End Entry.

(** ** The name and the address *)

(** The first address of a right family is the first of its own family. *)
Lemma first_address v l j a : find_index (right_family v) l = Some (j, a) -> v = -1 \/ v = spu_addr_family a ->
  snd <$> find_index (right_family (spu_addr_family a)) l = Some a.
Proof.
  intros H [->| ->]; [|by rewrite H]. revert j H. induction l as [|b l IH]; intros j H; [done|]. cbn [find_index] in *.
  destruct (right_family (-1) b) eqn:Eb.
  - injection H as _ ->. assert (right_family (spu_addr_family a) a = true) as ->; [|done].
    apply andb_true_iff in Eb as [Eb _]. unfold right_family. by rewrite Eb, Z.eqb_refl, orb_true_r.
  - destruct (find_index (right_family (-1)) l) as [[j' a']|]; [|done]. injection H as _ ->.
    assert (right_family (spu_addr_family a) b = false) as ->.
    { unfold right_family in *. by rewrite Z.eqb_refl, andb_true_r in Eb; rewrite Eb. }
    specialize (IH j' eq_refl). by destruct (find_index _ l) as [[]|].
Qed.

Lemma daemon_addr_spec nm s v : Conf_Active_IP_Version s = v ->
  wp refused (daemon_addr (match nm with STRING_IPADDR n _ | STRING n => Some n | IPADDR _ => None end)
                (match nm with STRING_IPADDR _ a | IPADDR a => Some a | STRING _ => None end))
    (fun addr s' => s' = s /\ (v = -1 \/ v = spu_addr_family addr -> spec_addr (spu_addr_family addr) nm = Some addr)) s.
Proof.
  intros Hv. unfold daemon_addr. wp_step. wp_step. rewrite Hv. destruct nm as [n a|n|a].
  - wp_step. wp_step; [done|]. wp_step. wp_step; [done|]. by wp_step.
  - wp_step. wp_step; [done|]. wp_step. wp_step; [done|]. destruct a0 as [j addr]. wp_step. split; [done|].
    intros Hf. cbn [spec_addr]. rewrite H. cbn. by eapply first_address.
  - wp_step. wp_step; [done|]. wp_step. wp_step; [done|]. by wp_step.
Qed.

Lemma set_ip_entry s0 i p v n s v' : entry s0 i p v n s -> v = -1 \/ right_ip v ->
  wp refused (if v =? -1 then Conf_set_active_ip_version v' else fatal_if (negb (v =? v')))
    (fun _ s' => entry s0 i p v' n s' /\ right_ip v' /\ (v = -1 \/ v = v')) s.
Proof.
  intros H Hv. destruct (Z.eqb_spec v (-1)) as [->|Hne].
  - unfold Conf_set_active_ip_version. wp_step. wp_step. wp_step. wp_step; [done|]. wp_step. wp_step; [done|].
    wp_step. split; [exact (entry_ip _ _ _ _ _ _ v' H)|]. split; [|by left].
    apply negb_false_iff, orb_true_iff in H1 as [?%Z.eqb_eq|?%Z.eqb_eq]; [by left|by right].
  - wp_step; [done|]. bools_to_props. subst v'. split; [done|]. destruct Hv; [done|]. by split; [|right].
Qed.

Lemma name_entry nm s (i : nat) v : n_procs s = Z.of_nat i -> Conf_Active_IP_Version s = v ->
  v = -1 \/ right_ip v -> (i < length (c_allprocs s))%nat \/ Big ->
  wp refused (Daemonname nm) (fun _ s' => exists p0 addr v',
    c_allprocs s !! i = Some p0 /\
    entry s i (p0 <| proc_addr := addr |> <| name := spec_name nm |>) v' (procs_interfaces s) s' /\
    spec_addr v' nm = Some addr /\ spu_addr_family addr = v' /\ right_ip v' /\ (v = -1 \/ v = v') /\
    spu_addr_ip_is_multicast addr = false /\ spec_name nm <> EmptyString /\
    spec_name nm ∉ map name (take i (c_allprocs s))) s.
Proof.
  intros Hn Hv Hip Hroom.
  set (no := match nm with STRING_IPADDR n _ | STRING n => Some n | IPADDR _ => None end).
  set (ca := match nm with STRING_IPADDR _ a | IPADDR a => Some a | STRING _ => None end).
  assert (Daemonname nm = set_daemon_name_and_addr no ca) as -> by by destruct nm.
  unfold set_daemon_name_and_addr. wp_step. wp_step. wp_step. wp_step; [done|].
  wp_step. eapply wp_mono; [by apply daemon_addr_spec|]. intros addr s' [-> Haddr]. wp_step. wp_step. rewrite Hn.
  destruct (c_allprocs s !! i) as [p0|] eqn:Ep.
  2:{ wp_step. unfold update_proc, get_proc. do 3 wp_step. rewrite arr_get_lookup, Ep.
      apply wp_fail. right. split; [done|]. apply lookup_ge_None in Ep. destruct Hroom; [lia|done]. }
  pose proof (lookup_lt_Some _ _ _ Ep) as Hi.
  wp_step. eapply wp_mono; [by eapply entry_update, entry_start|]. intros u s1 H1. rewrite Hv in *.
  wp_step. eapply wp_mono; [by apply (set_ip_entry s i _ v _ s1 (spu_addr_family addr) H1)|].
  intros u2 s2 (H2 & Hip' & Hv'). wp_step. wp_step; [done|]. cbn zeta.
  assert ((match no, ca with Some n, _ => cut_name n | None, Some a => cut_interface (cut_name (ipstr a))
    | None, None => EmptyString end) = spec_name nm) as -> by by destruct nm.
  wp_step. eapply wp_mono; [by eapply entry_update|]. intros u3 s3 H3.
  wp_step. wp_step; [done|]. wp_step. wp_step. wp_step; [done|].
  exists p0, addr, (spu_addr_family addr). rewrite Nat2Z.id, (entry_take _ _ _ _ _ _ H3) in H5.
  split_and!; try done; [by apply Haddr| |].
  - intros E. by rewrite E in H4.
  - eapply existsb_fresh; [|exact H5]. intros q <-. apply String.eqb_refl.
Qed.

(** ** A daemon *)

(** What a daemon of the file does to the arrays: the entry [i] becomes [p], and a pointer
    to it the [j]-th of the segment [k]. *)
Definition daemon_added s (i j k : nat) p v (sl : seg_slot) : load_st :=
  s <| c_allprocs ::= <[i := p]> |> <| Conf_Active_IP_Version := v |> <| procs_interfaces := 0 |>
    <| c_segments ::= <[k := sl <| sl_procs ::= fun l => take j l ++ [Z.of_nat i] |>]> |>
    <| n_procs ::= Z.succ |> <| segment_procs ::= Z.succ |>.

Lemma places_entry s0 (i j k : nat) p v (n : nat) s : (i < length (c_allprocs s0))%nat ->
  (k < length (c_segments s0))%nat \/ Big ->
  n_segments s0 = Z.of_nat k -> segment_procs s0 = Z.of_nat j ->
  entry s0 i p v (Z.of_nat n) s ->
  wp refused (Daemonparam_places (Z.of_nat i)) (fun _ s' => exists sl, c_segments s0 !! k = Some sl /\
    s' = daemon_added s0 i j k
      (p <| seg_index := i16 (Z.of_nat k) |> <| index_in_seg := i16 (Z.of_nat j) |> <| ifc ::= take n |>) v sl) s.
Proof.
  intros Hi Hroom Hk Hj H. unfold Daemonparam_places. do 6 wp_step. rewrite (entry_n _ _ _ _ _ _ H).
  assert (n_segments s = Z.of_nat k) as -> by (rewrite H; exact Hk).
  assert (segment_procs s = Z.of_nat j) as -> by (rewrite H; exact Hj).
  wp_step. eapply wp_mono; [by eapply entry_update|]. intros u s1 H1. rewrite !Nat2Z.id in *.
  wp_step. destruct (c_segments s0 !! k) as [sl|] eqn:Esl.
  2:{ unfold update_slot, get_slot. do 3 wp_step. rewrite arr_get_lookup, H1. rec_simpl_in_goal. rewrite Esl.
      apply wp_fail. right. split; [done|]. apply lookup_ge_None in Esl. destruct Hroom; [lia|done]. }
  eapply wp_mono; [by eapply slot_entry|]. intros u2 s2 ->. wp_step. exists sl. split; [done|].
  unfold entry in H1. subst s1. reflexivity.
Qed.

Lemma daemon_end s0 (i j k : nat) p v (n : nat) s nm : (i < length (c_allprocs s0))%nat ->
  (k < length (c_segments s0))%nat \/ Big -> n_procs s0 = Z.of_nat i ->
  n_segments s0 = Z.of_nat k -> segment_procs s0 = Z.of_nat j -> name p = nm ->
  entry s0 i p v (Z.of_nat n) s ->
  wp refused Daemonparam_end (fun _ s' => exists sl pid ifs, c_segments s0 !! k = Some sl /\
    Z.of_nat i < MAX_PROCS_RING /\ Z.of_nat j < MAX_PROCS_SEGMENT /\
    pid ∉ map id (take i (c_allprocs s0)) /\ pid <> 0 /\
    (if id p =? 0 then i32 <$> Conf_str_to_id nm else Some (id p)) = Some pid /\
    ifs = (match n with O => [mk_spread_if (Z.lor IFTYPE_ALL IFTYPE_ANY) (proc_addr p)] | _ => take n (ifc p) end) /\
    existsb (primary_interface (proc_addr p)) ifs = true /\
    s' = daemon_added s0 i j k (mk_proc nm (proc_addr p) pid ifs (i16 (Z.of_nat k)) (i16 (Z.of_nat j))) v sl) s.
Proof.
  intros Hi Hroom Hn Hk Hj Hnm H. unfold Daemonparam_end. do 4 wp_step.
  assert (n_procs s = Z.of_nat i) as -> by (rewrite H; exact Hn).
  assert (segment_procs s = Z.of_nat j) as -> by (rewrite H; exact Hj).
  wp_step. wp_step; [done|]. wp_step. wp_step; [done|]. bools_to_props.
  wp_step. eapply wp_mono; [by eapply id_entry|]. intros u s1 (pid & H2 & Hpid & Hne & Eid).
  wp_step. eapply wp_mono; [by eapply interfaces_end|]. intros u2 s2 (q & n' & H3 & Hq & Hprim).
  eapply wp_mono; [by eapply places_entry|]. intros u3 s3 (sl & Hsl & ->).
  exists sl, pid, (take n' q). rec_simpl_in Hq. rec_simpl_in Hprim. split_and!; try done.
  f_equal. destruct p. cbn in *. by subst.
Qed.

Lemma daemon_spec_ok d s (i j k : nat) v : n_procs s = Z.of_nat i -> segment_procs s = Z.of_nat j ->
  n_segments s = Z.of_nat k -> Conf_Active_IP_Version s = v -> procs_interfaces s = 0 ->
  v = -1 \/ right_ip v -> (i < length (c_allprocs s))%nat \/ Big -> (k < length (c_segments s))%nat \/ Big ->
  wp refused (Daemonparam d) (fun _ s' => exists old p v' sl,
    c_allprocs s !! i = Some old /\ c_segments s !! k = Some sl /\
    Z.of_nat i < MAX_PROCS_RING /\ Z.of_nat j < MAX_PROCS_SEGMENT /\
    built v' old (Z.of_nat k) (Z.of_nat j) d p /\ right_ip v' /\ (v = -1 \/ v = v') /\
    name p <> EmptyString /\ name p ∉ map name (take i (c_allprocs s)) /\
    id p <> 0 /\ id p ∉ map id (take i (c_allprocs s)) /\
    s' = daemon_added s i j k p v' sl) s.
Proof.
  intros Hn Hj Hk Hv Hpi Hip Hroom Hroom'. unfold Daemonparam. wp_step.
  eapply wp_mono; [by eapply name_entry|].
  intros u s1 (old & addr & v' & Hold & H1 & Haddr & Hfam & Hip' & Hvv & Hmul & Hnm & Hfresh).
  pose proof (lookup_lt_Some _ _ _ Hold) as Hi. rewrite Hpi in H1.
  set (p1 := old <| proc_addr := addr |> <| name := spec_name (ds_name d) |>) in *.
  wp_step. apply (wp_mono _ _ (fun _ s2 => exists pid, entry s i (p1 <| id := pid |>) v' 0 s2 /\
    match ds_vid d with Some n => pid = i32 n /\ pid <> 0 | None => pid = id old end)).
  { destruct (ds_vid d) as [n|].
    - eapply wp_mono; [by eapply vid_entry|]. intros u2 s2 [H2 Hne]. by exists (i32 n).
    - wp_step. exists (id old). split; [|done]. unfold p1. destruct old. exact H1. }
  intros u2 s2 (pid & H2 & Hpid). wp_step.
  apply (wp_mono _ _ (fun _ s3 => exists q (n : nat), entry s i (p1 <| id := pid |> <| ifc := q |>) v' (Z.of_nat n) s3 /\
    match ds_interfaces d with Some l => n <> O /\ take n q = map spec_interface l | None => n = O end)).
  { destruct (ds_interfaces d) as [l|].
    - unfold Daemoninterfaces. wp_step. eapply wp_mono; [apply (interfaces_entry s i Hi l (p1 <| id := pid |>) v' 0); [done| |exact H2]; lia|].
      intros u3 s3 (q & H3 & Hq). wp_step. wp_step. rewrite (entry_n _ _ _ _ _ _ H3). wp_step; [done|].
      exists q, (length l). split; [exact H3|]. bools_to_props. split; [lia|exact Hq].
    - wp_step. exists (ifc old), O. split; [|done]. unfold p1 in *. destruct old. exact H2. }
  intros u3 s3 (q & n & H3 & Hq).
  eapply wp_mono; [by eapply (daemon_end s i j k (p1 <| id := pid |> <| ifc := q |>) v' n s3 (spec_name (ds_name d)))|].
  intros u4 s4 (sl & pid' & ifs & Hsl & Hi' & Hj' & Hpf & Hpne & Eid & Eifs & Hprim & ->).
  rec_simpl_in Eid. rec_simpl_in Eifs. unfold p1 in Eifs, Hprim |- *. rec_simpl_in Eifs. rec_simpl_in Hprim. rec_simpl_in_goal.
  assert (ifs = spec_interfaces addr d) as ->.
  { rewrite Eifs. unfold spec_interfaces. destruct (ds_interfaces d) as [l|]; [destruct Hq, n; done|by subst]. }
  assert (spec_id old d = Some pid') as Hid.
  { unfold spec_id. destruct (ds_vid d) as [m|].
    - destruct Hpid as [-> Hz]. by rewrite (proj2 (Z.eqb_neq _ _) Hz) in Eid.
    - by subst pid. }
  eexists old, _, v', sl. split; [done|]. split; [done|]. split; [done|]. split; [done|].
  split; [exists addr, pid'; by split_and!|]. split_and!; done.
Qed.
End Daemon.
