(* ===== verification/ConfigProps.v ===== *)
(** * What reading the configuration file gives

    The configuration that [yyparse] leaves is the one the file describes, it is well formed,
    or the process ends; what an earlier load left in the arrays shows only in
    the ids. *)

From S2P Require Import Prelude NetTypes Configuration State Message Stdutil SessState Acm.
From S2P Require Import Ring ConfigState ConfigParse ConfigDaemon Demo GroupsDemo ConfigDemo.

Definition file_segments {L : SpuLib} (f : conf_file) : list segment_spec :=
  omap (fun x => match x with SegmentStruct s => Some s | ParamStruct _ => None end) f.
Definition daemons_of {L : SpuLib} (f : list segment_spec) : list daemon_spec := concat (map ss_daemons f).

(** A loop over a list that has come to [m]. *)
Definition mapped {A} (f : A -> A) (m : nat) (l : list A) : list A := map f (take m l) ++ drop m l.
Section Mapped.
Context {A : Type} (f : A -> A).
Implicit Types l : list A.
Lemma mapped_0 l : mapped f 0 l = l.
Proof. done. Qed.
Lemma mapped_all l m : (length l <= m)%nat -> mapped f m l = map f l.
Proof. intros H. unfold mapped. by rewrite take_ge, drop_ge, app_nil_r. Qed.
Lemma length_mapped l m : length (mapped f m l) = length l.
Proof. unfold mapped. rewrite length_app, length_map, length_take, length_drop. lia. Qed.
Lemma take_mapped l m : take m (mapped f m l) = map f (take m l).
Proof.
  destruct (decide (length l <= m)%nat) as [Hle|Hgt].
  - rewrite mapped_all, (take_ge l) by done. apply take_ge. by rewrite length_map.
  - apply take_app_length'. rewrite length_map, length_take. lia.
Qed.
Lemma length_done l m x : l !! m = Some x -> length (map f (take m l)) = m.
Proof. intros Hx%lookup_lt_Some. rewrite length_map, length_take. lia. Qed.
Lemma mapped_lookup l m x : l !! m = Some x -> mapped f m l !! m = Some x.
Proof.
  intros Hx. unfold mapped. rewrite lookup_app_r by (by rewrite (length_done l m x)).
  by rewrite (length_done l m x), Nat.sub_diag, lookup_drop, Nat.add_0_r.
Qed.
Lemma mapped_step l m x : l !! m = Some x -> <[m := f x]> (mapped f m l) = mapped f (S m) l.
Proof.
  intros Hx. unfold mapped. rewrite (drop_S _ _ _ Hx), (take_S_r _ _ _ Hx), map_app, <-app_assoc.
  pose proof (length_done l m x Hx) as Hl. rewrite <-Hl at 1. rewrite <-(Nat.add_0_r (length _)), insert_app_r. done.
Qed.
End Mapped.

Section Props.
Context {L : SpuLib} {R : SessLib} {C : ConfLib}.
Implicit Types (s : load_st) (p : proc) (d : daemon_spec) (sg : segment) (ss : segment_spec) (v : Z).

(** ** The configuration of a file *)

(** [ps] are the daemons [ds] of the segment [k]; they begin at the entry [n] of the array,
    which held [old]. *)
Definition built_at v (old : list proc) (n k : nat) (ds : list daemon_spec) (ps : list proc) : Prop :=
  length ps = length ds /\ forall j d p, ds !! j = Some d -> ps !! j = Some p ->
    exists o, old !! (n + j)%nat = Some o /\ built v o (Z.of_nat k) (Z.of_nat j) d p.

Definition segment_addresses ss : list spu_addr := map ipaddr (ss_addr ss :: ss_addrs ss).
Definition right_address v (a : spu_addr) : Prop :=
  spu_addr_family a = v /\ spu_addr_ip_is_unspecified a = false.
Record segment_matches v (old : list proc) (n k : nat) ss sg : Prop := {
  sm_addrs : seg_addrs sg =
    map (fun a => spu_addr_ip_set_port a (segment_port (ss_addr ss))) (segment_addresses ss);
  sm_right : Forall (right_address v) (segment_addresses ss);
  sm_procs : exists ps, built_at v old n k (ss_daemons ss) ps /\
    procs sg = map (set_ports (segment_port (ss_addr ss))) ps
}.
Definition segments_match v (old : list proc) (f : list segment_spec) (sgs : list segment) : Prop :=
  length sgs = length f /\ forall k ss sg, f !! k = Some ss -> sgs !! k = Some sg ->
    segment_matches v old (length (daemons_of (take k f))) k ss sg.

(** No two daemons have the same address and port. *)
Definition distinct_addrs (l : list proc) : Prop := forall i j p q, (j < i)%nat ->
  l !! i = Some p -> l !! j = Some q -> spu_addr_ip_cmp (proc_addr p) (proc_addr q) true <> 0.

Record identified (l : list proc) : Prop := {
  id_ids : NoDup (map id l);
  id_nonzero : Forall (fun p => id p <> 0) l;
  id_names : NoDup (map name l);
  id_named : Forall (fun p => name p <> EmptyString) l
}.

Lemma identified_snoc l p : identified l -> name p <> EmptyString -> name p ∉ map name l -> id p <> 0 ->
  id p ∉ map id l -> identified (l ++ [p]).
Proof.
  intros [H1 H2 H3 H4] Hn Hnf Hi Hif. split; rewrite ?map_app.
  - apply NoDup_app. split_and!; [done| |apply NoDup_singleton]. by intros x Hx ->%list_elem_of_singleton.
  - apply Forall_app. by split; [|constructor].
  - apply NoDup_app. split_and!; [done| |apply NoDup_singleton]. by intros x Hx ->%list_elem_of_singleton.
  - apply Forall_app. by split; [|constructor].
Qed.
Lemma built_at_snoc v old n k ds ps d p o : built_at v old n k ds ps -> old !! (n + length ps)%nat = Some o ->
  built v o (Z.of_nat k) (Z.of_nat (length ps)) d p -> built_at v old n k (ds ++ [d]) (ps ++ [p]).
Proof.
  intros [Hl H] Ho Hb. split; [rewrite !length_app; cbn; lia|]. intros j d' p' Hd Hp.
  apply lookup_app_Some in Hp as [Hp|[Hge Hp]].
  - rewrite lookup_app_l in Hd by (apply lookup_lt_Some in Hp; lia). by eapply H.
  - rewrite lookup_app_r in Hd by lia. rewrite <-Hl in Hd.
    apply list_lookup_singleton_Some in Hp as [Hz ->]. rewrite Hz in Hd. cbn in Hd. injection Hd as <-.
    assert (j = length ps) as -> by lia. by exists o.
Qed.
Lemma segments_match_snoc v old f sgs ss sg : segments_match v old f sgs ->
  segment_matches v old (length (daemons_of f)) (length f) ss sg -> segments_match v old (f ++ [ss]) (sgs ++ [sg]).
Proof.
  intros [Hl H] Hm. split; [rewrite !length_app; cbn; lia|]. intros k ss' sg' Hss Hsg.
  apply lookup_app_Some in Hss as [Hss|[Hge Hss]].
  - pose proof (lookup_lt_Some _ _ _ Hss). rewrite lookup_app_l in Hsg by lia.
    rewrite take_app_le by lia. by apply H.
  - rewrite lookup_app_r in Hsg by lia. rewrite Hl in Hsg.
    apply list_lookup_singleton_Some in Hss as [Hz ->]. rewrite Hz in Hsg. cbn in Hsg. injection Hsg as <-.
    assert (k = length f) as -> by lia. by rewrite take_app_length.
Qed.
Lemma distinct_snoc l p : distinct_addrs l ->
  existsb (fun q => spu_addr_ip_cmp (proc_addr p) (proc_addr q) true =? 0) l = false -> distinct_addrs (l ++ [p]).
Proof.
  intros H E i j p' q Hji Hp Hq. apply lookup_app_Some in Hp as [Hp|[Hge Hp]].
  - rewrite lookup_app_l in Hq by (apply lookup_lt_Some in Hp; lia). by eapply H.
  - apply list_lookup_singleton_Some in Hp as [Hz ->].
    rewrite lookup_app_l in Hq by lia. intros Ez. apply Bool.not_true_iff_false in E. apply E, existsb_exists.
    exists q. split; [by eapply list_elem_of_In, list_elem_of_lookup_2|by apply Z.eqb_eq].
Qed.

(** ** Between the actions *)

Section Parsing.
Context (Big : Prop) (old : list proc) (Hold : Z.of_nat (length old) = MAX_PROCS_RING).
Context (Hfamily : forall a, spu_addr_family a <> -1).
Lemma refused_by_Fatal : refused Big Fatal.
Proof. by left. Qed.
Hint Resolve refused_by_Fatal : core.

(** The segments [f] were read as [sgs]; of the next one, the addresses [addrs] and the
    daemons [ds], as [cur]. *)
Record parsing (f : list segment_spec) (sgs : list segment) (addrs : list conf_ipaddr)
    (ds : list daemon_spec) (cur : list proc) s : Prop := {
  pa_procs : c_allprocs s = written_over (procs_of sgs ++ cur) old;
  pa_room : (length (procs_of sgs ++ cur) <= length old)%nat;
  pa_n_procs : n_procs s = Z.of_nat (length (procs_of sgs ++ cur));
  pa_seg_procs : segment_procs s = Z.of_nat (length cur);
  pa_n_segs : n_segments s = Z.of_nat (length sgs);
  pa_n_addrs : segment_addrs s = Z.of_nat (length addrs);
  pa_interfaces : procs_interfaces s = 0;
  pa_text : ConfStringRep s = EmptyString;
  pa_slots : Z.of_nat (length (c_segments s)) = MAX_SEGMENTS;
  pa_slot_addrs : Forall (fun sl => Z.of_nat (length (sl_addrs sl)) = MAX_ADDRS_SEGMENT) (c_segments s);
  pa_closed : forall k sg, sgs !! k = Some sg -> exists sl, c_segments s !! k = Some sl /\
    take (Z.to_nat (num_seg_addrs sl)) (sl_addrs sl) = seg_addrs sg /\
    sl_procs sl = zseq (Z.of_nat (length (procs_of (take k sgs)))) (length (procs sg));
  pa_open : forall sl, c_segments s !! length sgs = Some sl ->
    take (length cur) (sl_procs sl) = zseq (Z.of_nat (length (procs_of sgs))) (length cur) /\
    take (length addrs) (drop 1 (sl_addrs sl)) = map ipaddr addrs;
  pa_file : segments_match (Conf_Active_IP_Version s) old f sgs;
  pa_cur : built_at (Conf_Active_IP_Version s) old (length (procs_of sgs)) (length sgs) ds cur;
  pa_identified : identified (procs_of sgs ++ cur);
  pa_distinct : distinct_addrs (procs_of sgs);
  pa_sizes : Forall (fun sg => num_procs sg <= MAX_PROCS_SEGMENT) sgs;
  pa_size : Z.of_nat (length cur) <= MAX_PROCS_SEGMENT;
  pa_ip : right_ip (Conf_Active_IP_Version s) \/ (Conf_Active_IP_Version s = -1 /\ sgs = [] /\ cur = [])
}.

(** The number of daemons read. *)
Lemma procs_of_daemons v f sgs : segments_match v old f sgs -> length (procs_of sgs) = length (daemons_of f).
Proof.
  revert sgs. induction f as [|ss f IH] using rev_ind; intros sgs [Hl H].
  { by destruct sgs. }
  destruct sgs as [|sg sgs _] using rev_ind; [rewrite length_app in Hl; cbn in Hl; lia|].
  rewrite !length_app in Hl. cbn in Hl. unfold daemons_of. rewrite map_app, concat_app, procs_of_app, !length_app.
  fold (daemons_of f). rewrite <-IH with (sgs := sgs).
  - f_equal. unfold procs_of. cbn. rewrite !app_nil_r.
    destruct (H (length f) ss sg) as [_ _ (ps & [Hps _] & ->)]; [by apply list_lookup_middle| |].
    + replace (length f) with (length sgs) by lia. by apply list_lookup_middle.
    + by rewrite length_map.
  - split; [lia|]. intros k ss' sg' Hss Hsg. pose proof (lookup_lt_Some _ _ _ Hss).
    assert (segment_matches v old (length (daemons_of (take k (f ++ [ss])))) k ss' sg') as Hm.
    { apply H; by rewrite lookup_app_l by lia. }
    by rewrite take_app_le in Hm by lia.
Qed.

Lemma parsing_keeps f sgs addrs ds cur s s' : parsing f sgs addrs ds cur s ->
  c_allprocs s' = c_allprocs s -> c_segments s' = c_segments s -> n_procs s' = n_procs s ->
  segment_procs s' = segment_procs s -> n_segments s' = n_segments s -> segment_addrs s' = segment_addrs s ->
  procs_interfaces s' = procs_interfaces s -> ConfStringRep s' = ConfStringRep s ->
  Conf_Active_IP_Version s' = Conf_Active_IP_Version s -> parsing f sgs addrs ds cur s'.
Proof. intros [] E1 E2 E3 E4 E5 E6 E7 E8 E9. split; rewrite ?E1, ?E2, ?E3, ?E4, ?E5, ?E6, ?E7, ?E8, ?E9; done. Qed.

(** *** A daemon *)

Lemma built_at_nil v n k ds : ds = [] -> built_at v old n k ds [].
Proof. by intros ->. Qed.

Lemma parsing_daemon f sgs addrs ds cur d s : parsing f sgs addrs ds cur s ->
  (length (procs_of sgs ++ cur) < length old)%nat \/ Big -> Z.of_nat (length sgs) < MAX_SEGMENTS \/ Big ->
  wp (refused Big) (Daemonparam d) (fun _ s' => exists p, parsing f sgs addrs (ds ++ [d]) (cur ++ [p]) s') s.
Proof.
  intros H Hroom Hroom'. set (i := length (procs_of sgs ++ cur)). pose proof (pa_room _ _ _ _ _ _ H) as Hlen.
  pose proof (length_written _ _ Hlen) as Hlw. rewrite <-(pa_procs _ _ _ _ _ _ H) in Hlw.
  pose proof (pa_slots _ _ _ _ _ _ H) as Hslots.
  eapply wp_mono; [apply (daemon_spec_ok Big d s i (length cur) (length sgs) _ (pa_n_procs _ _ _ _ _ _ H)
    (pa_seg_procs _ _ _ _ _ _ H) (pa_n_segs _ _ _ _ _ _ H) eq_refl (pa_interfaces _ _ _ _ _ _ H))|].
  - destruct (pa_ip _ _ _ _ _ _ H) as [Hx|[Hx _]]; [right; exact Hx|left; exact Hx].
  - unfold i. destruct Hroom; [left; lia|by right].
  - destruct Hroom'; [left; lia|by right].
  - intros u s' (o & p & v' & sl & Ho & Hsl & Hi & Hj & Hb & Hip & Hv & Hne & Hnf & Hz & Hidf & ->). exists p.
    destruct H as [Hprocs _ Hn Hsp Hns Hna Hpi Htx _ Hsa Hclosed Hopen Hfile Hcur Hident Hdist Hsizes Hsize Hipp].
    rewrite Hprocs in Ho, Hnf, Hidf. unfold i in *. rewrite written_take in Hnf, Hidf.
    assert (length (procs_of sgs ++ cur) < length old)%nat as Hlt by lia.
    assert (Hvv : segments_match v' old f sgs /\ built_at v' old (length (procs_of sgs)) (length sgs) ds cur).
    { destruct Hv as [Hv|<-]; [|done]. destruct Hipp as [[Hx|Hx]|(_ & -> & ->)]; [by rewrite Hv in Hx..|].
      destruct Hfile as [Hf _], Hcur as [Hc _]. destruct f, ds; try done. }
    destruct Hvv as [Hfile' Hcur'].
    destruct (written_next (procs_of sgs ++ cur) old Hlt) as (o' & Ho' & Ho2). rewrite Ho2 in Ho. injection Ho as ->.
    split; unfold daemon_added; rec_simpl_in_goal; rewrite ?Hprocs.
    + by rewrite app_assoc, written_snoc by lia.
    + rewrite app_assoc, (length_app _ [p]). cbn [length]. lia.
    + rewrite Hn, app_assoc, (length_app _ [p]). cbn [length]. lia.
    + rewrite Hsp, length_app. cbn. lia.
    + done.
    + done.
    + done.
    + done.
    + by rewrite length_insert.
    + apply Forall_insert; [done|]. rec_simpl_in_goal. by eapply Forall_lookup_1 in Hsa.
    + intros k sg Hk. rewrite list_lookup_insert_ne by (apply lookup_lt_Some in Hk; lia). by apply Hclosed.
    + intros sl' Hsl'. apply list_lookup_insert_Some in Hsl' as [(_ & <- & _)|[? _]]; [|done].
      destruct (Hopen sl Hsl) as [Hptr Haddr]. rec_simpl_in_goal. split; [|done].
      rewrite length_app, zseq_app, <-Hptr, Hn || rewrite length_app, zseq_app, <-Hptr.
      rewrite take_ge; [do 2 f_equal; cbn; f_equal; rewrite length_app; lia|].
      rewrite length_app, length_take. cbn. lia.
    + done.
    + eapply built_at_snoc; [done| |exact Hb]. rewrite <-length_app. exact Ho'.
    + rewrite app_assoc. by apply identified_snoc.
    + done.
    + done.
    + rewrite length_app. cbn. lia.
    + by left.
Qed.

(** *** An address of a segment *)

Lemma open_slot f sgs addrs ds cur s : parsing f sgs addrs ds cur s -> Z.of_nat (length sgs) < MAX_SEGMENTS ->
  exists sl, c_segments s !! length sgs = Some sl.
Proof. intros H Hlt. apply lookup_lt_is_Some_2. pose proof (pa_slots _ _ _ _ _ _ H). lia. Qed.

Lemma update_open s (k : nat) sl g : c_segments s !! k = Some sl ->
  wp (refused Big) (update_slot (Z.of_nat k) g) (fun _ s' => s' = s <| c_segments ::= <[k := g sl]> |>) s.
Proof.
  intros Hsl. unfold update_slot, get_slot. do 3 wp_step. rewrite arr_get_lookup, Hsl. apply wp_ret, wp_modify.
  by rewrite Nat2Z.id.
Qed.

Lemma parsing_address f sgs addrs cur ds a s : parsing f sgs addrs ds cur s ->
  Z.of_nat (length sgs) < MAX_SEGMENTS \/ Big ->
  wp (refused Big) (SegmentAddresses a) (fun _ => parsing f sgs (addrs ++ [a]) ds cur) s.
Proof.
  intros H Hroom. unfold SegmentAddresses. wp_step. wp_step. wp_step. wp_step. wp_step. rec_simpl_in_goal.
  rewrite (pa_n_addrs _ _ _ _ _ _ H). wp_step; [done|]. wp_step. wp_step. rec_simpl_in_goal.
  rewrite (pa_n_segs _ _ _ _ _ _ H). bools_to_props.
  destruct (c_segments s !! length sgs) as [sl|] eqn:Esl.
  2:{ unfold update_slot, get_slot. do 3 wp_step. rewrite arr_get_lookup. rec_simpl_in_goal. rewrite Esl. apply wp_fail.
      right. split; [done|]. destruct Hroom; [|done]. by destruct (open_slot _ _ _ _ _ _ H) as [? ?%eq_sym]; [|congruence]. }
  eapply wp_mono; [apply (update_open _ (length sgs) sl); rec_simpl_in_goal; exact Esl|].
  intros u s' ->. destruct H as [Hprocs Hr Hn Hsp Hns Hna Hpi Htx Hss Hsa Hclosed Hopen Hfile Hcur Hident Hdist Hsizes Hsize Hipp].
  pose proof (Forall_lookup_1 _ _ _ _ Hsa Esl) as Hla. cbn beta in Hla.
  split; rec_simpl_in_goal; try done.
  - rewrite Hna, length_app. cbn [length]. lia.
  - by rewrite length_insert.
  - apply Forall_insert; [done|]. rec_simpl_in_goal. by rewrite length_insert.
  - intros k sg Hk. rewrite list_lookup_insert_ne by (apply lookup_lt_Some in Hk; lia). by apply Hclosed.
  - intros sl' Hsl'. apply list_lookup_insert_Some in Hsl' as [(_ & <- & _)|[? _]]; [|done].
    destruct (Hopen sl Esl) as [Hptr Haddr]. rec_simpl_in_goal. split; [done|].
    rewrite map_app, <-Haddr, length_app. cbn [length map].
    replace (Z.to_nat (Z.succ (Z.of_nat (length addrs)))) with (1 + length addrs)%nat by lia.
    destruct (sl_addrs sl) as [|b l]; [done|]. cbn [length] in Hla.
    change (take (length addrs + 1) (<[length addrs := ipaddr a]> l) = take (length addrs) l ++ [ipaddr a]).
    assert (length addrs < length l)%nat as Hlt by (unfold MAX_ADDRS_SEGMENT in *; lia).
    rewrite Nat.add_1_r, (take_S_r _ _ (ipaddr a)) by by apply list_lookup_insert_eq.
    by rewrite take_insert_ge.
Qed.

(** *** The end of a segment *)

Lemma segment_addresses_loop s (k : nat) sl port (n : nat) : c_segments s !! k = Some sl ->
  (n <= length (sl_addrs sl))%nat ->
  wp (refused Big) (for_each (zrange 0 (Z.of_nat n - 1)) (segment_address (Z.of_nat k) port)) (fun _ s' =>
    s' = s <| c_segments ::= <[k := sl <| sl_addrs := mapped (fun a => spu_addr_ip_set_port a port) n (sl_addrs sl) |>]> |> /\
    Forall (right_address (Conf_Active_IP_Version s)) (take n (sl_addrs sl))) s.
Proof.
  intros Hsl Hn. set (g := fun a => spu_addr_ip_set_port a port).
  set (at_ := fun m => s <| c_segments ::= <[k := sl <| sl_addrs := mapped g m (sl_addrs sl) |>]> |>).
  apply (wp_for_range _ _ _ _ (fun i s' => exists m : nat, i = Z.of_nat m /\ s' = at_ m /\
    Forall (right_address (Conf_Active_IP_Version s)) (take m (sl_addrs sl)))); [lia| | |].
  - exists O. split; [done|]. split; [|constructor]. unfold at_. rewrite mapped_0.
    unfold set_field, set_c_segments, set_sl_addrs. cbn -[insert]. rewrite list_insert_id; [by destruct s|].
    by destruct sl.
  - intros i s' Hi (m & -> & -> & HF). assert (m < length (sl_addrs sl))%nat as Hm by lia.
    destruct (lookup_lt_is_Some_2 _ _ Hm) as [a Ha].
    assert (Hk : c_segments (at_ m) !! k = Some (sl <| sl_addrs := mapped g m (sl_addrs sl) |>)).
    { unfold at_. rec_simpl_in_goal. apply list_lookup_insert_eq. by eapply lookup_lt_Some. }
    unfold segment_address. wp_step. unfold get_slot. do 2 wp_step. rewrite arr_get_lookup, Hk. apply wp_ret.
    wp_step. rewrite arr_get_lookup. rec_simpl_in_goal. rewrite (mapped_lookup g _ m a Ha). apply wp_ret.
    wp_step. wp_step. wp_step. wp_step; [done|]. wp_step. wp_step; [done|]. bools_to_props.
    eapply wp_mono; [by eapply update_open|]. intros u s' ->. exists (S m). split; [lia|]. split.
    + unfold at_, set_field, set_c_segments, set_sl_addrs. cbn -[insert].
      rewrite list_insert_insert_eq. by rewrite Nat2Z.id, <-(mapped_step g _ m a Ha).
    + rewrite (take_S_r _ _ _ Ha). apply Forall_app. split; [done|]. constructor; [|done]. by split.
  - intros s' (m & Hm & -> & HF). assert (m = n) as -> by lia. by split.
Qed.

Lemma segment_daemons_loop s P cur port : c_allprocs s = written_over (P ++ cur) old ->
  (length (P ++ cur) <= length old)%nat -> distinct_addrs P ->
  wp (refused Big) (for_each (zrange (Z.of_nat (length P)) (Z.of_nat (length P + length cur) - 1)) (segment_daemon port))
    (fun _ s' => s' = s <| c_allprocs := written_over (P ++ map (set_ports port) cur) old |> /\
      distinct_addrs (P ++ map (set_ports port) cur)) s.
Proof.
  intros Hs Hlen HP. set (g := set_ports port).
  set (at_ := fun m => s <| c_allprocs := written_over (P ++ mapped g m cur) old |>).
  apply (wp_for_range _ _ _ _ (fun i s' => exists m : nat, i = Z.of_nat (length P + m) /\ s' = at_ m /\
    distinct_addrs (P ++ map g (take m cur)))); [lia| | |].
  - exists O. split; [lia|]. split; [|by rewrite app_nil_r]. unfold at_. rewrite mapped_0, <-Hs. by destruct s.
  - intros i s' Hi (m & -> & -> & HD). assert (m < length cur)%nat as Hm by lia.
    destruct (lookup_lt_is_Some_2 _ _ Hm) as [p Hp].
    assert (Hk : forall l, length l = length cur -> l !! m = Some p ->
      written_over (P ++ l) old !! (length P + m)%nat = Some p).
    { intros l Hl Hlm. unfold written_over. rewrite <-app_assoc, lookup_app_r by lia.
      rewrite Nat.add_comm, Nat.add_sub. by apply lookup_app_l_Some. }
    assert (Hat : c_allprocs (at_ m) !! (length P + m)%nat = Some p).
    { unfold at_. rec_simpl_in_goal. apply Hk; [apply length_mapped|by apply mapped_lookup]. }
    unfold segment_daemon. wp_step. unfold update_proc, get_proc. wp_step. do 2 wp_step.
    rewrite arr_get_lookup, Hat. apply wp_ret, wp_modify. rewrite !Nat2Z.id.
    assert (Hnext : (at_ m) <| c_allprocs ::= <[(length P + m)%nat := set_ports port p]> |> = at_ (S m)).
    { unfold at_, set_field, set_c_allprocs. cbn -[insert]. f_equal. fold g.
      unfold written_over. rewrite !length_app, !length_mapped, <-!app_assoc, insert_app_r. f_equal.
      rewrite insert_app_l by (rewrite length_mapped; lia). by rewrite (mapped_step g _ m p Hp). }
    rewrite Hnext. wp_step. do 2 wp_step. rewrite arr_get_lookup.
    assert (c_allprocs (at_ (S m)) !! (length P + m)%nat = Some (g p)) as Hgp.
    { rewrite <-Hnext. rec_simpl_in_goal. apply list_lookup_insert_eq. by eapply lookup_lt_Some. }
    rewrite Hgp. apply wp_ret. wp_step. wp_step. wp_step; [done|].
    exists (S m). split; [lia|]. split; [done|]. rewrite (take_S_r _ _ _ Hp), map_app, app_assoc.
    apply distinct_snoc; [done|]. rewrite <-H. f_equal. unfold at_. rec_simpl_in_goal. unfold written_over, mapped.
    rewrite (take_S_r _ _ _ Hp), map_app, <-!app_assoc, app_assoc.
    rewrite take_app_le by (rewrite length_app, (length_done g _ _ _ Hp); lia).
    symmetry. apply take_ge. rewrite length_app, (length_done g _ _ _ Hp). lia.
  - intros s' (m & Hm & -> & HD). assert (m = length cur) as -> by lia. unfold at_.
    rewrite mapped_all by lia. split; [done|]. by rewrite firstn_all in HD.
Qed.

Lemma set_ports_id port l : map id (map (set_ports port) l) = map id l.
Proof. rewrite map_map. apply map_ext. by intros []. Qed.
Lemma set_ports_name port l : map name (map (set_ports port) l) = map name l.
Proof. rewrite map_map. apply map_ext. by intros []. Qed.
Lemma identified_ports port P cur : identified (P ++ cur) -> identified (P ++ map (set_ports port) cur).
Proof.
  intros [H1 H2 H3 H4]. apply Forall_app in H2 as [H2 H2'], H4 as [H4 H4'].
  split; rewrite ?map_app, ?set_ports_id, ?set_ports_name, <-?map_app; try done.
  - apply Forall_app. split; [done|]. apply Forall_map. by apply (Forall_impl _ _ _ H2'); intros [].
  - apply Forall_app. split; [done|]. apply Forall_map. by apply (Forall_impl _ _ _ H4'); intros [].
Qed.
Lemma procs_of_snoc sgs sg : procs_of (sgs ++ [sg]) = procs_of sgs ++ procs sg.
Proof. rewrite procs_of_app. unfold procs_of at 2. cbn. by rewrite app_nil_r. Qed.

(** What the actions at the end of a segment make of the state. *)
Lemma segment_end_state f sgs addrs ds cur a s : parsing f sgs addrs ds cur s ->
  let port := segment_port a in
  let A := map ipaddr (a :: addrs) in
  wp (refused Big) (SegmentStruct_end a) (fun _ s' => exists sl rest,
    c_segments s !! length sgs = Some sl /\ Z.of_nat (length A + length rest) = MAX_ADDRS_SEGMENT /\
    Forall (right_address (Conf_Active_IP_Version s)) A /\
    distinct_addrs (procs_of sgs ++ map (set_ports port) cur) /\
    s' = s <| c_allprocs := written_over (procs_of sgs ++ map (set_ports port) cur) old |>
      <| c_segments ::= <[length sgs := mk_seg_slot (Z.of_nat (length A))
           (map (fun x => spu_addr_ip_set_port x port) A ++ rest) (take (length cur) (sl_procs sl))]> |>
      <| n_segments ::= Z.succ |> <| segment_procs := 0 |> <| segment_addrs := 0 |>) s.
Proof.
  intros H. cbn zeta. set (port := segment_port a). set (k := length sgs).
  unfold SegmentStruct_end. fold port. wp_step. wp_step. rewrite (pa_n_segs _ _ _ _ _ _ H). fold k.
  wp_step. wp_step; [done|]. bools_to_props. wp_step. wp_step. rewrite (pa_n_addrs _ _ _ _ _ _ H).
  wp_step. wp_step; [done|]. bools_to_props.
  destruct (open_slot _ _ _ _ _ _ H) as [sl Hsl]; [done|]. fold k in Hsl.
  pose proof (Forall_lookup_1 _ _ _ _ (pa_slot_addrs _ _ _ _ _ _ H) Hsl) as Hla. cbn beta in Hla.
  destruct (pa_open _ _ _ _ _ _ H sl Hsl) as [_ Haddrs].
  destruct (sl_addrs sl) as [|b l] eqn:El; [done|]. change (drop 1 (b :: l)) with l in Haddrs. cbn [length] in Hla.
  set (rest := drop (length addrs) l).
  assert (HA : ipaddr a :: l = map ipaddr (a :: addrs) ++ rest).
  { cbn [map app]. f_equal. unfold rest; by rewrite <-Haddrs, take_drop. }
  wp_step. eapply wp_mono; [by eapply update_open|]. intros u s1 ->. wp_step. wp_step. wp_step.
  replace (zrange 0 (Z.of_nat (length addrs))) with (zrange 0 (Z.of_nat (S (length addrs)) - 1)) by (f_equal; lia).
  eapply wp_mono; [eapply (segment_addresses_loop _ k _ port (S (length addrs)))|].
  { rec_simpl_in_goal. apply list_lookup_insert_eq. by eapply lookup_lt_Some. }
  { rec_simpl_in_goal. rewrite El. cbn. pose proof (f_equal length Haddrs) as E.
    rewrite length_take, length_map in E. lia. }
  intros u2 s2 [-> HF]. rec_simpl_in HF. rewrite El in HF. change (<[O := ipaddr a]> (b :: l)) with (ipaddr a :: l) in HF.
  assert (Htake : take (S (length addrs)) (ipaddr a :: l) = map ipaddr (a :: addrs)).
  { rewrite HA. apply take_app_length'. by rewrite length_map. }
  rewrite Htake in HF.
  wp_step. wp_step. rec_simpl_in_goal. rewrite (pa_seg_procs _ _ _ _ _ _ H). wp_step.
  eapply wp_mono; [eapply (update_open _ k)|].
  { rec_simpl_in_goal. apply list_lookup_insert_eq. rewrite length_insert. by eapply lookup_lt_Some. }
  intros u3 s3 ->. wp_step. wp_step. rec_simpl_in_goal. rewrite (pa_n_procs _ _ _ _ _ _ H), length_app, Nat2Z.inj_add, Z.add_simpl_r.
  wp_step. rewrite <-Nat2Z.inj_add.
  eapply wp_mono; [apply (segment_daemons_loop _ (procs_of sgs) cur port);
    [rec_simpl_in_goal; apply H|apply H|apply H]|].
  intros u4 s4 [-> HD]. wp_step. exists sl, rest. split; [done|]. split.
  { pose proof (f_equal length HA) as E. rewrite length_app in E. cbn [length] in E. rewrite <-E. lia. }
  split; [done|]. split; [done|].
  apply load_st_eq; rec_simpl_in_goal; try reflexivity. rewrite !list_insert_insert_eq, El, Nat2Z.id.
  change (<[O := ipaddr a]> (b :: l)) with (ipaddr a :: l). unfold mapped. rewrite Htake, length_map.
  assert (Z.of_nat (length (a :: addrs)) = Z.of_nat (length addrs) + 1) as -> by (cbn [length]; lia). reflexivity.
Qed.

Lemma parsing_segment f sgs addrs ds cur a s : parsing f sgs addrs ds cur s ->
  wp (refused Big) (SegmentStruct_end a) (fun _ s' => exists sg,
    parsing (f ++ [mk_segment_spec a addrs ds]) (sgs ++ [sg]) [] [] [] s') s.
Proof.
  intros H. eapply wp_mono; [by eapply segment_end_state|]. cbn zeta.
  set (port := segment_port a). set (A := map ipaddr (a :: addrs)).
  intros u s' (sl & rest & Hsl & Hrest & HF & HD & ->).
  exists (mk_segment (map (fun x => spu_addr_ip_set_port x port) A) (map (set_ports port) cur)).
  destruct H as [Hprocs Hr Hn Hsp Hns Hna Hpi Htx Hss Hsa Hclosed Hopen Hfile Hcur Hident Hdist Hsizes Hsize Hipp].
  pose proof (lookup_lt_Some _ _ _ Hsl) as Hk.
  assert (Hlen : length (procs_of sgs ++ map (set_ports port) cur) = length (procs_of sgs ++ cur))
    by by rewrite !length_app, length_map.
  split; rec_simpl_in_goal; rewrite ?app_nil_r, ?procs_of_snoc; cbn [procs seg_addrs]; try done.
  - by rewrite Hlen.
  - by rewrite Hlen.
  - rewrite Hns, length_app. cbn [length]. lia.
  - by rewrite length_insert.
  - apply Forall_insert; [done|]. cbn [sl_addrs]. by rewrite length_app, length_map, <-length_app, length_app.
  - intros k sg Hsg. apply lookup_app_Some in Hsg as [Hsg|[Hge Hsg]].
    + pose proof (lookup_lt_Some _ _ _ Hsg). rewrite list_lookup_insert_ne, take_app_le by lia. by apply Hclosed.
    + apply list_lookup_singleton_Some in Hsg as [Hz <-]. assert (k = length sgs) as -> by lia.
      rewrite list_lookup_insert_eq, take_app_length by done. eexists. split; [done|].
      cbn [num_seg_addrs sl_addrs sl_procs procs seg_addrs]. rewrite length_map. split; [|by apply Hopen].
      rewrite Nat2Z.id. apply take_app_length'. by rewrite length_map.
  - apply (segments_match_snoc _ _ _ _ _ _ Hfile). destruct Hfile as [Hlf Hf].
    rewrite <-(procs_of_daemons _ _ _ (conj Hlf Hf)), <-Hlf.
    split; [done|exact HF|]. by exists cur.
  - by apply identified_ports.
  - apply Forall_app. split; [done|]. constructor; [|done]. unfold num_procs. cbn [procs]. by rewrite length_map.
  - destruct Hipp as [|[E _]]; [by left|]. exfalso. apply Forall_cons in HF as [[Hf _] _].
    by apply (Hfamily (ipaddr a)); rewrite Hf, E.
Qed.

(** *** A parameter *)

(** What a parameter leaves alone. *)
Definition same_arrays (s s' : load_st) : Prop :=
  c_allprocs s' = c_allprocs s /\ c_segments s' = c_segments s /\ n_procs s' = n_procs s /\
  segment_procs s' = segment_procs s /\ n_segments s' = n_segments s /\ segment_addrs s' = segment_addrs s /\
  procs_interfaces s' = procs_interfaces s /\ ConfStringRep s' = ConfStringRep s.
Definition same_ip (s s' : load_st) : Prop := same_arrays s s' /\ Conf_Active_IP_Version s' = Conf_Active_IP_Version s.

Lemma same_modify (f : load_st -> load_st) s : same_ip s (f s) ->
  wp (refused Big) (modify f) (fun _ => same_ip s) s.
Proof. intros H. by wp_step. Qed.
Lemma same_guard c (f : load_st -> load_st) s : same_ip s (f s) ->
  wp (refused Big) (fatal_if c;; modify f) (fun _ => same_ip s) s.
Proof. intros H. wp_step. wp_step; [done|]. by apply same_modify. Qed.
Lemma same_refl s : same_ip s s.
Proof. by repeat split. Qed.
Lemma same_daemon s (d : St) : same_ip s (s <| daemon := d |>).
Proof. by repeat split. Qed.
Lemma same_value (set : option string -> load_st -> load_st) (nm : string) n s : same_ip s (set (Some nm) s) ->
  wp (refused Big) (set_param_if_valid set nm n) (fun _ => same_ip s) s.
Proof. intros H. unfold set_param_if_valid. wp_step; [by apply same_guard|apply same_refl]. Qed.
Lemma same_trans s1 s2 s3 : same_ip s1 s2 -> same_ip s2 s3 -> same_ip s1 s3.
Proof. unfold same_ip, same_arrays. intros. intuition congruence. Qed.

(** A method of [acm.c] that may end the process, and does nothing undefined. *)
Lemma same_on_daemon {A} (m : M St A) s : wp may_exit m (fun _ _ => True) (daemon s) ->
  wp (refused Big) (on_daemon m) (fun _ => same_ip s) s.
Proof.
  intros H. Transparent wp. unfold wp, on_daemon in *. Opaque wp.
  destruct (m (daemon s)) as [x d'|e]; [apply same_daemon|by left].
Qed.
Lemma set_method_returns g nm (d : St) : wp may_exit (set_method g nm) (fun _ _ => True) d.
Proof. unfold set_method. wp_step. g_step. destruct (_ =? -1); [by wp_step|]. wp_step. g_step. by wp_step. Qed.
Lemma set_policy_returns nm (d : St) : wp may_exit (Acm_acp_set_policy nm) (fun _ _ => True) d.
Proof.
  unfold Acm_acp_set_policy. wp_step. g_step. destruct (negb _); [by wp_step|]. wp_step. g_step. by wp_step.
Qed.

Lemma auth_param_same (set : list Z -> M St bool) (nms : string) s : (forall nm (d : St), wp may_exit (set nm) (fun _ _ => True) d) ->
  wp (refused Big) (auth_methods_param set nms) (fun _ => same_ip s) s.
Proof.
  intros Hset. unfold auth_methods_param. wp_step. wp_step. wp_step.
  apply (wp_mono _ _ (fun _ => same_ip s)).
  - wp_step; [|apply same_refl]. wp_step. eapply wp_mono; [apply same_on_daemon, set_method_returns|]. intros. by wp_step.
  - intros u s1 H1. wp_step. wp_step. apply wp_for_each.
    + by eapply same_trans, (same_trans _ s1).
    + intros nm s2 _ H2. wp_step. eapply wp_mono; [by apply same_on_daemon|]. intros x s3 H3. wp_step.
      by eapply same_trans.
Qed.

Lemma param_same (p : param) s : wp (refused Big) (param_action p) (fun _ s' => same_arrays s s' /\
    (Conf_Active_IP_Version s' = Conf_Active_IP_Version s \/
     (Conf_Active_IP_Version s = -1 /\ right_ip (Conf_Active_IP_Version s')))) s.
Proof.
  assert (forall v, right_ip v -> wp (refused Big) (Conf_set_active_ip_version v) (fun _ s' => same_arrays s s' /\
    (Conf_Active_IP_Version s' = Conf_Active_IP_Version s \/
     (Conf_Active_IP_Version s = -1 /\ right_ip (Conf_Active_IP_Version s')))) s) as Hip.
  { intros v Hv. unfold Conf_set_active_ip_version. wp_step. wp_step. wp_step. wp_step; [done|]. wp_step.
    wp_step; [done|]. wp_step. split; [by repeat split|]. rec_simpl_in_goal.
    destruct (Z.eqb_spec (Conf_Active_IP_Version s) (-1)); [by right|left]. cbn in H. by apply negb_false_iff, Z.eqb_eq in H. }
  assert (forall m : M load_st unit, wp (refused Big) m (fun _ => same_ip s) s ->
    wp (refused Big) m (fun _ s' => same_arrays s s' /\
    (Conf_Active_IP_Version s' = Conf_Active_IP_Version s \/
     (Conf_Active_IP_Version s = -1 /\ right_ip (Conf_Active_IP_Version s')))) s) as Hsame.
  { intros m Hm. eapply wp_mono; [exact Hm|]. intros u s' [H1 H2]. split; [done|by left]. }
  destruct p; cbn [param_action];
    try solve [apply Hsame; first [apply same_modify|apply same_guard]; by repeat split].
  - apply Hsame. wp_step; [apply same_modify; by repeat split|apply same_refl].
  - apply Hsame. apply same_value. by repeat split.
  - apply Hsame. apply same_value. by repeat split.
  - apply Hsame. apply same_value. by repeat split.
  - apply Hsame, auth_param_same. intros. apply set_method_returns.
  - apply Hsame, auth_param_same. intros. apply set_method_returns.
  - apply Hsame. wp_step. eapply wp_mono; [apply same_on_daemon, set_policy_returns|]. intros ok s' H'.
    by wp_step.
  - destruct (String.eqb v "IPv4"); [apply Hip; by left|]. destruct (String.eqb v "IPv6"); [apply Hip; by right|].
    by wp_step.
Qed.

Lemma parsing_param f sgs (p : param) s : parsing f sgs [] [] [] s ->
  wp (refused Big) (param_action p) (fun _ => parsing f sgs [] [] []) s.
Proof.
  intros H. eapply wp_mono; [apply param_same|]. intros u s' [(E1 & E2 & E3 & E4 & E5 & E6 & E7 & E8) [Eip|[Eip Hr]]].
  - by eapply parsing_keeps.
  - destruct H as [Hprocs Hroom Hn Hsp Hns Hna Hpi Htx Hss Hsa Hclosed Hopen Hfile Hcur Hident Hdist Hsizes Hsize Hipp].
    destruct Hipp as [[Hx|Hx]|(_ & -> & _)]; [by rewrite Hx in Eip..|].
    destruct Hfile as [Hf _]. destruct f; [|done]. split; rewrite ?E1, ?E2, ?E3, ?E4, ?E5, ?E6, ?E7, ?E8; try done.
    by left.
Qed.

(** *** The whole file *)

Lemma parsing_addresses l : forall f sgs addrs s, parsing f sgs addrs [] [] s ->
  Z.of_nat (length sgs) < MAX_SEGMENTS \/ Big ->
  wp (refused Big) (for_each l SegmentAddresses) (fun _ => parsing f sgs (addrs ++ l) [] []) s.
Proof.
  induction l as [|a l IH]; intros f sgs addrs s H Hroom; cbn [for_each]; [wp_step; by rewrite app_nil_r|].
  wp_step. eapply wp_mono; [by apply parsing_address|]. intros u s' H'.
  rewrite cons_middle, app_assoc. by apply IH.
Qed.
Lemma parsing_daemons l : forall f sgs addrs ds cur s, parsing f sgs addrs ds cur s ->
  (length (procs_of sgs ++ cur) + length l <= length old)%nat \/ Big -> Z.of_nat (length sgs) < MAX_SEGMENTS \/ Big ->
  wp (refused Big) (for_each l Daemonparam) (fun _ s' => exists cur', parsing f sgs addrs (ds ++ l) cur' s') s.
Proof.
  induction l as [|d l IH]; intros f sgs addrs ds cur s H Hroom Hroom'; cbn [for_each].
  { wp_step. exists cur. by rewrite app_nil_r. }
  wp_step. eapply wp_mono; [apply parsing_daemon; [done| |done]|].
  { destruct Hroom; [left; cbn in *; lia|by right]. }
  intros u s' [p H']. rewrite cons_middle, app_assoc. eapply IH; [exact H'| |done].
  destruct Hroom; [left|by right]. rewrite app_assoc, (length_app _ [p]). cbn [length] in *. lia.
Qed.

Lemma parsing_file rest : forall f sgs s, parsing f sgs [] [] [] s ->
  (length (daemons_of f) + length (daemons_of (file_segments rest)) <= length old)%nat \/ Big ->
  Z.of_nat (length f + length (file_segments rest)) <= MAX_SEGMENTS \/ Big ->
  wp (refused Big) (for_each rest struct_action)
    (fun _ s' => exists sgs', parsing (f ++ file_segments rest) sgs' [] [] [] s') s.
Proof.
  induction rest as [|[p|[a addrs ds]] rest IH]; intros f sgs s H Hroom Hroom'; cbn [for_each].
  { wp_step. exists sgs. by rewrite app_nil_r. }
  - change (file_segments (ParamStruct p :: rest)) with (file_segments rest) in *. wp_step. eapply wp_mono; [by apply parsing_param|]. intros u s' H'. exact (IH f sgs s' H' Hroom Hroom').
  - change (file_segments (SegmentStruct (mk_segment_spec a addrs ds) :: rest))
      with (mk_segment_spec a addrs ds :: file_segments rest) in *.
    unfold daemons_of in Hroom at 2. cbn [map concat ss_daemons] in Hroom.
    fold (daemons_of (file_segments rest)) in Hroom. rewrite length_app in Hroom. cbn [length] in Hroom'.
    pose proof (procs_of_daemons _ _ _ (pa_file _ _ _ _ _ _ H)) as Hn.
    destruct (pa_file _ _ _ _ _ _ H) as [Hlf _].
    assert (Z.of_nat (length sgs) < MAX_SEGMENTS \/ Big) as Hk by (destruct Hroom'; [left; lia|by right]).
    cbn [struct_action]. unfold segment_action. cbn [ss_addr ss_addrs ss_daemons]. wp_step. wp_step.
    eapply wp_mono; [by apply parsing_addresses|]. intros u s1 H1. wp_step.
    eapply wp_mono; [eapply parsing_daemons; [exact H1| |done]|].
    { rewrite app_nil_r. destruct Hroom; [left; lia|by right]. }
    intros u2 s2 [cur H2]. eapply wp_mono; [by eapply parsing_segment|]. intros u3 s3 [sg H3].
    rewrite cons_middle, app_assoc. eapply IH; [exact H3| |].
    + unfold daemons_of at 1. rewrite map_app, concat_app, length_app. cbn [map concat ss_daemons].
      rewrite app_nil_r. fold (daemons_of f). destruct Hroom; [left; lia|by right].
    + rewrite length_app. cbn [length]. destruct Hroom'; [left; lia|by right].
Qed.

Lemma deref_procs (A B D : list proc) :
  map (fun i => default no_proc (arr_get (A ++ B ++ D) i)) (zseq (Z.of_nat (length A)) (length B)) = B.
Proof.
  revert A. induction B as [|b B IH]; intros A; [done|]. cbn [length zseq map]. f_equal.
  - by rewrite arr_get_lookup, lookup_app_r, Nat.sub_diag by lia.
  - specialize (IH (A ++ [b])). rewrite length_app, Nat2Z.inj_add in IH. cbn [length] in IH.
    change ((b :: B) ++ D) with ([b] ++ B ++ D). by rewrite app_assoc.
Qed.
Lemma procs_of_split sgs k sg : sgs !! k = Some sg ->
  procs_of sgs = procs_of (take k sgs) ++ procs sg ++ procs_of (drop (S k) sgs).
Proof. intros H. rewrite <-(take_drop_middle _ _ _ H) at 1. by rewrite procs_of_app. Qed.

(** The arrays of [*Config] are those of the segments [sgs]. *)
Record holds_config (sgs : list segment) s : Prop := {
  hc_procs : c_allprocs s = written_over (procs_of sgs) old;
  hc_room : (length (procs_of sgs) <= length old)%nat;
  hc_total : c_num_total_procs s = Z.of_nat (length (procs_of sgs));
  hc_segments : c_num_segments s = Z.of_nat (length sgs);
  hc_slots : Z.of_nat (length (c_segments s)) = MAX_SEGMENTS;
  hc_slot_addrs : Forall (fun sl => Z.of_nat (length (sl_addrs sl)) = MAX_ADDRS_SEGMENT) (c_segments s);
  hc_closed : forall k sg, sgs !! k = Some sg -> exists sl, c_segments s !! k = Some sl /\
    take (Z.to_nat (num_seg_addrs sl)) (sl_addrs sl) = seg_addrs sg /\
    sl_procs sl = zseq (Z.of_nat (length (procs_of (take k sgs)))) (length (procs sg))
}.
Lemma view_holds sgs s : holds_config sgs s -> config_view s = mk_configuration (c_hash_code s) (procs_of sgs) sgs.
Proof.
  intros [Hp _ Ht Hn _ _ Hc]. unfold config_view. rewrite Hp, Ht, Hn, !Nat2Z.id, written_take.
  f_equal. apply list_eq. intros k. rewrite list_lookup_fmap. destruct (sgs !! k) as [sg|] eqn:Hk.
  - destruct (Hc k sg Hk) as (sl & Hsl & Ha & Hptr).
    rewrite lookup_take_lt by (by eapply lookup_lt_Some). rewrite Hsl. cbn. f_equal. rewrite Ha, Hptr.
    assert (written_over (procs_of sgs) old = procs_of (take k sgs) ++ procs sg ++
      (procs_of (drop (S k) sgs) ++ drop (length (procs_of sgs)) old)) as ->.
    { unfold written_over. by rewrite (procs_of_split _ _ _ Hk) at 1; rewrite <-!app_assoc. }
    rewrite deref_procs. by destruct sg.
  - rewrite lookup_take_ge by (by apply lookup_ge_None). done.
Qed.
Lemma parsed_holds f sgs s : parsing f sgs [] [] [] s ->
  holds_config sgs (s <| c_num_segments := n_segments s |> <| c_num_total_procs := n_procs s |>).
Proof.
  intros [Hprocs Hr Hn Hsp Hns Hna Hpi Htx Hss Hsa Hclosed Hopen Hfile Hcur Hident Hdist Hsizes Hsize Hipp].
  rewrite app_nil_r in *. split; rec_simpl_in_goal; done.
Qed.
Lemma view_parsed f sgs s : parsing f sgs [] [] [] s ->
  config_view (s <| c_num_segments := n_segments s |> <| c_num_total_procs := n_procs s |>) =
    mk_configuration (c_hash_code s) (procs_of sgs) sgs.
Proof. intros H. by rewrite (view_holds sgs) by (by eapply parsed_holds). Qed.
End Parsing.

(** The text that is hashed. *)
Definition conf_text (exclude accelerated : bool) (sgs : list segment) : string :=
  (fold_left (fun c sg => c ++ segment_string exclude sg) sgs "" ++ version_string accelerated)%string.

Lemma append_text Big t s : wp (refused Big) (append_conf_string t)
  (fun _ s' => s' = s <| ConfStringRep := (ConfStringRep s ++ t)%string |>) s.
Proof. unfold append_conf_string. wp_step. wp_step. wp_step. wp_step; [by left|]. by wp_step. Qed.
Lemma append_segments Big exclude sgs : forall s,
  wp (refused Big) (for_each sgs (fun sg => append_conf_string (segment_string exclude sg)))
    (fun _ s' => s' = s <| ConfStringRep := fold_left (fun c sg => c ++ segment_string exclude sg)%string sgs (ConfStringRep s) |>) s.
Proof.
  induction sgs as [|sg sgs IH]; intros s; cbn [for_each fold_left]; [wp_step; by destruct s|].
  wp_step. eapply wp_mono; [apply append_text|]. intros u s' ->. eapply wp_mono; [apply IH|]. by intros u' s' ->.
Qed.

(** ** The theorems *)

Context (Hfamily : forall a, spu_addr_family a <> -1).

(** The arrays as [Conf_init] allocates them, or a load has left them. *)
Record loadable s : Prop := {
  lo_procs : Z.of_nat (length (c_allprocs s)) = MAX_PROCS_RING;
  lo_slots : Z.of_nat (length (c_segments s)) = MAX_SEGMENTS;
  lo_addrs : Forall (fun sl => Z.of_nat (length (sl_addrs sl)) = MAX_ADDRS_SEGMENT) (c_segments s);
  lo_ip : Conf_Active_IP_Version s = -1 \/ right_ip (Conf_Active_IP_Version s)
}.
(** More than the arrays hold. *)
Definition too_many (file : conf_file) : Prop :=
  MAX_PROCS_RING < Z.of_nat (length (daemons_of (file_segments file))) \/
  MAX_SEGMENTS < Z.of_nat (length (file_segments file)).

Lemma parsing_start s : loadable s ->
  wp total parser_init (fun _ => parsing (c_allprocs s) [] [] [] [] []) s.
Proof.
  intros [Hp Hs Ha Hip]. unfold parser_init. wp_step. split; rec_simpl_in_goal; try done.
  - cbn. lia.
  - split; cbn; constructor.
  - destruct Hip; [right|left]; done.
Qed.

(** The limits among the windows. *)
Definition windows_ok (d : St) : Prop := conf_PersonalWindow d <= conf_Window d /\
  (conf_AcceleratedRing d = true -> conf_AcceleratedWindow d <= conf_PersonalWindow d).
(** The segments [sgs] were read, and are the configuration of the daemon. *)
Definition configured (sgs : list segment) s : Prop :=
  let text := conf_text (ExcludeSegAddrsFromHash s) (conf_AcceleratedRing (daemon s)) sgs in
  Config (daemon s) = mk_configuration
    (u32 (stdhcode_oaat text (Z.of_nat (String.length text) + 1))) (procs_of sgs) sgs /\
  sgs <> [] /\ procs_of sgs <> [] /\ windows_ok (daemon s).

Lemma config_action_spec Big old f sgs s : parsing old f sgs [] [] [] s ->
  wp (refused Big) Config_action (fun _ s' =>
    Conf_Active_IP_Version s' = Conf_Active_IP_Version s /\ configured sgs s' /\ holds_config old sgs s' /\
    Config (daemon s') = config_view s') s.
Proof.
  intros H. unfold Config_action. wp_step. wp_step. wp_step. wp_step; [by left|]. wp_step. wp_step; [by left|].
  wp_step. wp_step; [by left|]. wp_step. wp_step; [by left|]. bools_to_props.
  wp_step. wp_step. wp_step. wp_step. rewrite (view_parsed _ _ _ _ H). cbn [segments].
  wp_step. eapply wp_mono; [apply append_segments|]. intros u s1 ->. rec_simpl_in_goal.
  wp_step. eapply wp_mono; [apply append_text|]. intros u2 s2 ->. rec_simpl_in_goal. rewrite (pa_text _ _ _ _ _ _ _ H).
  wp_step. wp_step. unfold publish. wp_step. split; [done|].
  split; [|split; [by destruct (parsed_holds _ _ _ _ H); split|done]]. unfold configured. rec_simpl_in_goal. cbn zeta.
  split.
  { exact (f_equal (fun c => mk_configuration _ (allprocs c) (segments c)) (view_parsed _ _ _ _ H)). }
  split; [intros ->; by rewrite (pa_n_segs _ _ _ _ _ _ _ H) in *|].
  split; [intros E; by rewrite (pa_n_procs _ _ _ _ _ _ _ H), app_nil_r, E in *|].
  split; [done|]. rec_simpl_in_goal. intros Hacc. rewrite Hacc in *. cbn [andb] in *. bools_to_props. done.
Qed.

Lemma yyparse_spec file s : loadable s ->
  wp (refused (too_many file)) (parser_init;; yyparse file) (fun _ s' => exists sgs s2,
    parsing (c_allprocs s) (file_segments file) sgs [] [] [] s2 /\
    Conf_Active_IP_Version s' = Conf_Active_IP_Version s2 /\ configured sgs s' /\
    holds_config (c_allprocs s) sgs s' /\ Config (daemon s') = config_view s') s.
Proof.
  intros Hs. wp_step. eapply wp_mono; [by apply wp_total_any, parsing_start|]. intros u s1 H1.
  unfold yyparse. wp_step. eapply wp_mono; [apply (parsing_file _ _ (lo_procs _ Hs) Hfamily file [] [] s1 H1)|].
  - change (length (daemons_of [])) with 0%nat. pose proof (lo_procs _ Hs).
    destruct (Z_lt_le_dec MAX_PROCS_RING (Z.of_nat (length (daemons_of (file_segments file))))) as [Hlt|Hle];
      [right; by left|left; lia].
  - destruct (Z_lt_le_dec MAX_SEGMENTS (Z.of_nat (length (file_segments file)))) as [Hlt|Hle];
      [right; by right|left; cbn [length]; lia].
  - intros u2 s2 [sgs H2]. eapply wp_mono; [by eapply config_action_spec|]. intros u3 s3 [Hip Hc]. by exists sgs, s2.
Qed.

(** C25. The configuration is the one the file describes.  [yyparse] ends with it, or the
    process ends: on an error ([Fatal]), or, if the file has more daemons or segments than the
    arrays hold, by writing past them before that is noticed ([Undefined]).  Every segment
    has the addresses of the file at its port; every daemon has the name, the address and
    the interfaces of the file, at its place; its id is the one of the file or is
    from its name - but without one in the file, an id that an earlier load left at that
    place of the array ([c_allprocs s]) stays.  The hash is of the text of all this. *)
Theorem yyparse_configures (file : conf_file) s : loadable s ->
  wp (refused (too_many file)) (parser_init;; yyparse file) (fun _ s' =>
    let c := Config (daemon s') in
    let text := conf_text (ExcludeSegAddrsFromHash s') (conf_AcceleratedRing (daemon s')) (segments c) in
    segments_match (Conf_Active_IP_Version s') (c_allprocs s) (file_segments file) (segments c) /\
    allprocs c = procs_of (segments c) /\
    hash_code c = u32 (stdhcode_oaat text (Z.of_nat (String.length text) + 1))) s.
Proof.
  intros Hs. eapply wp_mono; [by apply yyparse_spec|]. intros u s' (sgs & s2 & H & Hip & [Hc _] & _).
  cbn zeta. rewrite Hc, Hip. cbn [segments allprocs hash_code]. by split; [apply H|].
Qed.

Record well_formed (c : configuration) : Prop := {
  wf_all : allprocs c = procs_of (segments c);
  wf_some_procs : 1 <= Z.of_nat (length (allprocs c)) <= MAX_PROCS_RING;
  wf_some_segments : 1 <= Z.of_nat (length (segments c)) <= MAX_SEGMENTS;
  wf_segments : Forall (fun sg => num_procs sg <= MAX_PROCS_SEGMENT /\
    1 <= Z.of_nat (length (seg_addrs sg)) <= MAX_ADDRS_SEGMENT) (segments c);
  wf_places : forall k j sg p, segments c !! k = Some sg -> procs sg !! j = Some p ->
    seg_index p = Z.of_nat k /\ index_in_seg p = Z.of_nat j;
  wf_identified : identified (allprocs c);
  wf_distinct : distinct_addrs (allprocs c)
}.

Lemma parsed_segments old f sgs s : parsing old f sgs [] [] [] s -> Z.of_nat (length sgs) <= MAX_SEGMENTS.
Proof.
  intros H. destruct sgs as [|sg sgs _] using rev_ind; [done|].
  destruct (pa_closed _ _ _ _ _ _ _ H (length sgs) sg) as (sl & Hsl & _); [by apply list_lookup_middle|].
  apply lookup_lt_Some in Hsl. pose proof (pa_slots _ _ _ _ _ _ _ H). rewrite length_app. cbn [length]. lia.
Qed.
Lemma parsed_addrs old f sgs k sg s : parsing old f sgs [] [] [] s -> sgs !! k = Some sg ->
  1 <= Z.of_nat (length (seg_addrs sg)) <= MAX_ADDRS_SEGMENT.
Proof.
  intros H Hk. destruct (pa_closed _ _ _ _ _ _ _ H k sg Hk) as (sl & Hsl & Ha & _).
  destruct (pa_file _ _ _ _ _ _ _ H) as [Hlf Hf]. pose proof (lookup_lt_Some _ _ _ Hk) as Hlt.
  destruct (lookup_lt_is_Some_2 f k ltac:(lia)) as [ss Hss].
  destruct (Hf k ss sg Hss Hk) as [Ea _ _]. split.
  - rewrite Ea, length_map. cbn. lia.
  - rewrite <-Ha, length_take. pose proof (Forall_lookup_1 _ _ _ _ (pa_slot_addrs _ _ _ _ _ _ _ H) Hsl) as Hl.
    cbn beta in Hl. lia.
Qed.
Lemma parsed_place old f sgs k j sg p s : parsing old f sgs [] [] [] s -> sgs !! k = Some sg ->
  procs sg !! j = Some p -> seg_index p = Z.of_nat k /\ index_in_seg p = Z.of_nat j.
Proof.
  intros H Hk Hp. destruct (pa_file _ _ _ _ _ _ _ H) as [Hlf Hf]. pose proof (lookup_lt_Some _ _ _ Hk) as Hlt.
  pose proof (parsed_segments _ _ _ _ H) as Hms.
  pose proof (Forall_lookup_1 _ _ _ _ (pa_sizes _ _ _ _ _ _ _ H) Hk) as Hsz. cbn beta in Hsz. unfold num_procs in Hsz.
  pose proof (lookup_lt_Some _ _ _ Hp) as Hj.
  destruct (lookup_lt_is_Some_2 f k ltac:(lia)) as [ss Hss].
  destruct (Hf k ss sg Hss Hk) as [_ _ (ps & [Hl Hb] & Eps)]. rewrite Eps in Hp.
  rewrite Eps, length_map in Hj, Hsz. apply list_lookup_fmap_Some in Hp as (q & -> & Hq).
  destruct (lookup_lt_is_Some_2 (ss_daemons ss) j ltac:(lia)) as [d Hd].
  destruct (Hb j d q Hd Hq) as (o & _ & addr & pid & _ & _ & _ & _ & _ & ->). cbn.
  unfold MAX_SEGMENTS, MAX_PROCS_SEGMENT in *. by rewrite !i16_id by (unfold is_i16; lia).
Qed.

Lemma parsed_memb old f sgs h l s : parsing old f sgs [] [] [] s -> wf_memb (mk_configuration h l sgs).
Proof.
  intros H. pose proof (pa_identified _ _ _ _ _ _ _ H) as Hid. rewrite app_nil_r in Hid.
  split; [by apply id_ids|]. cbn [segments]. intros k sg p Hk [j Hj]%list_elem_of_lookup.
  by apply (parsed_place _ _ _ k j sg p _ H).
Qed.

(** C26. A configuration that was read is well formed: between one and [MAX_PROCS_RING] daemons
    in between one and [MAX_SEGMENTS] segments, each within its arrays; the list of all daemons is
    that of the segments, in order, and each daemon knows its place; no two daemons have the same
    id, name, or address and port, and no id is 0 and no name empty; the windows are within one another.
    In particular it can be the membership of a ring ([wf_memb]). *)
Theorem configuration_well_formed (file : conf_file) s : loadable s ->
  wp (refused (too_many file)) (parser_init;; yyparse file) (fun _ s' =>
    well_formed (Config (daemon s')) /\ wf_memb (Config (daemon s')) /\
    right_ip (Conf_Active_IP_Version s') /\ windows_ok (daemon s')) s.
Proof.
  intros Hs. eapply wp_mono; [by apply yyparse_spec|].
  intros u s' (sgs & s2 & H & Hip & (-> & Hne & Hpne & Hw) & _). pose proof (pa_identified _ _ _ _ _ _ _ H) as Hid.
  rewrite app_nil_r in Hid. split; [|split; [|split; [|done]]].
  - split; cbn [segments allprocs]; try done.
    + pose proof (pa_room _ _ _ _ _ _ _ H). rewrite app_nil_r in *. pose proof (lo_procs _ Hs).
      destruct (procs_of sgs); [done|]. cbn [length] in *. lia.
    + pose proof (parsed_segments _ _ _ _ H). destruct sgs; [done|]. cbn [length] in *. lia.
    + apply Forall_lookup. intros k sg Hk. split; [|by eapply parsed_addrs].
      by apply (Forall_lookup_1 _ _ _ _ (pa_sizes _ _ _ _ _ _ _ H) Hk).
    + intros k j sg p. by apply (parsed_place _ _ _ _ _ _ _ _ H).
    + by apply (pa_distinct _ _ _ _ _ _ _ H).
  - by eapply parsed_memb.
  - rewrite Hip. destruct (pa_ip _ _ _ _ _ _ _ H) as [|(_ & -> & _)]; done.
Qed.
End Props.

(** ** On a file of two segments *)

Lemma demo_loadable : loadable demo_load.
Proof. split; [done|done|by apply Forall_replicate|by left]. Qed.
(** A run that ends, and what a function of its last state is. *)
Lemma ended_run {A B} (m : M load_st A) (f : load_st -> B) s x : f <$> ended (m s) = Some x ->
  exists a s', m s = Ok a s' /\ f s' = x.
Proof. destruct (m s) as [a s'|]; [|done]. intros [= <-]. by exists a, s'. Qed.

Lemma yyparse_configures_witness : exists s', (parser_init;; yyparse file_abc) demo_load = Ok tt s' /\
  daemons_view s' = [("a", 1, (0, 0)); ("b", 160, (0, 1)); ("c", 161, (1, 0))] /\
  segments_match AF_INET (c_allprocs demo_load) (file_segments file_abc) (segments (Config (daemon s'))).
Proof.
  destruct (ended_run (parser_init;; yyparse file_abc) (fun s => (daemons_view s, Conf_Active_IP_Version s)) demo_load
    ([("a", 1, (0, 0)); ("b", 160, (0, 1)); ("c", 161, (1, 0))], AF_INET)) as ([] & s' & E & [= Hv Hip]).
  { vm_compute. reflexivity. }
  exists s'. split; [done|]. split; [done|]. rewrite <-Hip.
  by destruct (wp_ok _ _ _ _ _ _ (yyparse_configures demo_family file_abc demo_load demo_loadable) E) as [H _].
Defined.

Lemma configuration_well_formed_witness : exists s', (parser_init;; yyparse file_abc) demo_load = Ok tt s' /\
  conf_Window (daemon s') = 50 /\ well_formed (Config (daemon s')) /\ windows_ok (daemon s').
Proof.
  destruct (ended_run (parser_init;; yyparse file_abc) (fun s => conf_Window (daemon s)) demo_load 50)
    as ([] & s' & E & Hw).
  { vm_compute. reflexivity. }
  exists s'. split; [done|]. split; [done|].
  pose proof (configuration_well_formed demo_family file_abc demo_load demo_loadable) as H.
  apply wp_ok with (1 := H) in E as (H1 & _ & _ & H2). exact (conj H1 H2).
Defined.

(** A file is refused that has a daemon twice, or a daemon of two addresses of the same port. *)
Definition outcome_of {A S} (r : outcome S A) : option failure := match r with Fail e => Some e | Ok _ _ => None end.
Definition file_of (l : list daemon_spec) : conf_file := [SegmentStruct (demo_segment 1100 l)].
Example refused_id : outcome_of ((parser_init;; yyparse (file_of [demo_host "a" (Some 1); demo_host "b" (Some 1)])) demo_load) =
  Some Fatal.
Proof. vm_compute. reflexivity. Qed.
Example refused_address : outcome_of ((parser_init;; yyparse (file_of [demo_at "a" 5 None; demo_at "b" 5 None])) demo_load) =
  Some Fatal.
Proof. vm_compute. reflexivity. Qed.
(** The ids stay as they are if the array holds ids already. *)
Example stale_ids : daemons_view <$> ended ((parser_init;; yyparse file_ac) demo_inited) =
    Some [("a", 1, (0, 0)); ("c", 160, (1, 0))] /\
  daemons_view <$> ended ((parser_init;; yyparse file_ac) demo_load) = Some [("a", 1, (0, 0)); ("c", 161, (1, 0))].
Proof. vm_compute. split; reflexivity. Qed.

(** A daemon too many, and one in a segment too many, are written past the arrays. *)
Definition many (n : Z) : list daemon_spec :=
  map (fun i => mk_daemon_spec (STRING_IPADDR (decimal i) (demo_ip i)) (Some i) None) (zrange 1 n).
Example daemons_overflow : outcome_of ((parser_init;; yyparse
    [SegmentStruct (demo_segment 1100 (many 128)); SegmentStruct (demo_segment 1101 [demo_host "a" None])]) demo_load) =
  Some Undefined.
Proof. vm_compute. reflexivity. Qed.
Example segments_overflow : outcome_of ((parser_init;; yyparse
    (map (fun d => SegmentStruct (demo_segment 1100 [d])) (many 21))) demo_load) = Some Undefined.
Proof. vm_compute. reflexivity. Qed.
