(* ===== verification/ConfigReload.v ===== *)
(** * Loads and reloads of the configuration

    After any sequence of loads the daemon is an entry of a well-formed configuration, the same
    one as at the start; a reload that does not part the daemons changes none of
    them. *)

From S2P Require Import Prelude NetTypes Configuration State Message Stdutil SessState Acm.
From S2P Require Import Ring Demo GroupsDemo ConfigState ConfigParse ConfigLoad ConfigDemo ConfigDaemon ConfigProps.

Section Reload.
Context {L : SpuLib} {R : SessLib} {C : ConfLib}.
Implicit Types (s : load_st) (p q : proc) (sg : segment).

(** ** The scope of the addresses *)

(** Entries that differ at most in the interface of their address. *)
Definition same_entry p q : Prop :=
  name q = name p /\ id q = id p /\ ifc q = ifc p /\ seg_index q = seg_index p /\ index_in_seg q = index_in_seg p.
Definition same_ring (sgs sgs' : list segment) : Prop :=
  Forall2 (fun sg sg' => Forall2 same_entry (procs sg) (procs sg') /\
    length (seg_addrs sg') = length (seg_addrs sg)) sgs sgs'.

Lemma same_entry_scope n p : same_entry p (set_scope n p).
Proof. by destruct p. Qed.
Lemma same_ring_refl sgs : same_ring sgs sgs.
Proof.
  apply Forall_Forall2_diag, Forall_true. intros sg. split; [|done]. apply Forall_Forall2_diag, Forall_true.
  by intros [].
Qed.

Definition scope_segment n sg : segment := mk_segment (seg_addrs sg) (map (set_scope n) (procs sg)).
Lemma procs_of_scope n sgs : procs_of (map (scope_segment n) sgs) = map (set_scope n) (procs_of sgs).
Proof. unfold procs_of. by rewrite concat_map, !map_map. Qed.
Lemma same_ring_scope n sgs : same_ring sgs (map (scope_segment n) sgs).
Proof.
  apply Forall2_fmap_r, Forall_Forall2_diag, Forall_true. intros sg. split; [|done]. cbn [procs scope_segment].
  apply Forall2_fmap_r, Forall_Forall2_diag, Forall_true. apply same_entry_scope.
Qed.
Lemma same_ring_procs sgs sgs' : same_ring sgs sgs' -> Forall2 same_entry (procs_of sgs) (procs_of sgs').
Proof. induction 1 as [|sg sg' l l' [H _] _ IH]; [constructor|]. unfold procs_of. cbn. by apply Forall2_app. Qed.
Lemma same_entries_ids l l' : Forall2 same_entry l l' -> map id l' = map id l.
Proof. induction 1 as [|p q l l' (_ & E & _) _ IH]; [done|]. cbn. by rewrite E, IH. Qed.
Lemma same_ring_addrs sgs k sg addrs sgs' : sgs' !! k = Some sg -> length addrs = length (seg_addrs sg) ->
  same_ring sgs sgs' -> same_ring sgs (<[k := mk_segment addrs (procs sg)]> sgs').
Proof.
  intros Hk Hl H. destruct (Forall2_lookup_r _ _ _ _ _ H Hk) as (sg0 & Hsg0 & Hp & Ha).
  rewrite <-(list_insert_id sgs k sg0 Hsg0). apply Forall2_insert; [done|]. split; [done|]. cbn [seg_addrs]. congruence.
Qed.

Section Scope.
Context (Big : Prop) (old : list proc).

Lemma scope_loop n sgs s : holds_config old sgs s ->
  wp (refused Big) (for_each (zrange 0 (c_num_total_procs s - 1)) (fun i => update_proc i (set_scope n)))
    (fun _ s' => s' = s <| c_allprocs := written_over (procs_of (map (scope_segment n) sgs)) old |>) s.
Proof.
  intros [Hp Hr Ht _ _ _ _]. rewrite Ht, procs_of_scope. set (P := procs_of sgs) in *.
  set (at_ := fun m => s <| c_allprocs := written_over (mapped (set_scope n) m P) old |>).
  apply (wp_for_range _ _ _ _ (fun i s' => exists m : nat, i = Z.of_nat m /\ s' = at_ m)); [lia| | |].
  - exists O. split; [done|]. unfold at_. rewrite mapped_0, <-Hp. by destruct s.
  - intros i s' Hi (m & -> & ->). assert (m < length P)%nat as Hm by lia.
    destruct (lookup_lt_is_Some_2 _ _ Hm) as [p Hlp].
    unfold update_proc, get_proc. do 3 wp_step. rewrite arr_get_lookup. unfold at_ at 1. rec_simpl_in_goal.
    unfold written_over at 1. rewrite lookup_app_l by (by rewrite length_mapped).
    rewrite (mapped_lookup _ _ _ p Hlp). apply wp_ret, wp_modify. exists (S m). split; [lia|].
    unfold at_, set_field, set_c_allprocs. cbn -[insert]. f_equal. rewrite Nat2Z.id. unfold written_over.
    rewrite !length_mapped, insert_app_l by (by rewrite length_mapped). by rewrite (mapped_step _ _ _ p Hlp).
  - intros s' (m & Hm & ->). assert (m = length P) as -> by lia. unfold at_. by rewrite mapped_all.
Qed.

Lemma holds_scope n sgs s : holds_config old sgs s ->
  holds_config old (map (scope_segment n) sgs)
    (s <| c_allprocs := written_over (procs_of (map (scope_segment n) sgs)) old |>).
Proof.
  intros [Hp Hr Ht Hn Hs Ha Hc]. split; rec_simpl_in_goal; rewrite ?procs_of_scope, ?length_map; try done.
  intros k sg' Hk. apply list_lookup_fmap_Some in Hk as (sg & -> & Hk).
  destruct (Hc k sg Hk) as (sl & Hsl & Hsa & Hptr). exists sl. split; [done|]. cbn [seg_addrs scope_segment procs].
  split; [done|]. by rewrite firstn_map, procs_of_scope, !length_map.
Qed.

Lemma holds_addrs (g : spu_addr -> spu_addr) sgs s (k : nat) sg sl : holds_config old sgs s ->
  sgs !! k = Some sg -> c_segments s !! k = Some sl ->
  holds_config old (<[k := mk_segment (map g (seg_addrs sg)) (procs sg)]> sgs)
    (s <| c_segments ::= <[k := sl <| sl_addrs ::= fun l =>
       map g (take (Z.to_nat (num_seg_addrs sl)) l) ++ drop (Z.to_nat (num_seg_addrs sl)) l |>]> |>).
Proof.
  intros [Hp Hr Ht Hn Hs Ha Hc] Hk Hsl. pose proof (lookup_lt_Some _ _ _ Hk) as Hlt.
  destruct (Hc k sg Hk) as (sl' & Hsl' & Hsa & Hptr). rewrite Hsl in Hsl'. injection Hsl' as <-.
  assert (Hprocs : forall l, map procs (<[k := mk_segment (map g (seg_addrs sg)) (procs sg)]> l) =
    map procs (<[k := sg]> l)).
  { intros l. apply list_eq. intros j.
    rewrite !list_lookup_fmap. destruct (decide (j = k)) as [->|Hne].
    - destruct (decide (k < length l)%nat).
      + by rewrite !list_lookup_insert_eq.
      + by rewrite !list_insert_ge by lia.
    - by rewrite !list_lookup_insert_ne. }
  assert (Hall : procs_of (<[k := mk_segment (map g (seg_addrs sg)) (procs sg)]> sgs) = procs_of sgs).
  { unfold procs_of. by rewrite Hprocs, list_insert_id. }
  split; rec_simpl_in_goal; rewrite ?Hall, ?length_insert; try done.
  - apply Forall_insert; [done|]. rec_simpl_in_goal. rewrite length_app, length_map, <-length_app, take_drop.
    by apply (Forall_lookup_1 _ _ _ _ Ha Hsl).
  - intros j sg' Hj. apply list_lookup_insert_Some in Hj as [(-> & <- & _)|[Hne Hj]].
    + eexists. rewrite list_lookup_insert_eq by (by eapply lookup_lt_Some). split; [done|]. rec_simpl_in_goal.
      cbn [seg_addrs procs]. rewrite take_insert_ge by done. split; [|done].
      rewrite <-Hsa. apply take_mapped.
    + rewrite list_lookup_insert_ne by done. destruct (Hc j sg' Hj) as (sl' & ? & ? & Hptr').
      exists sl'. split; [done|]. split; [done|]. rewrite Hptr'. do 2 f_equal.
      unfold procs_of. f_equal. f_equal. rewrite <-!firstn_map. f_equal. by rewrite Hprocs, list_insert_id.
Qed.

(** What [set_my_scope] leaves: the same ring, and the daemon's own entry. *)
Lemma set_my_scope_spec ip sgs (k : nat) sg s : holds_config old sgs s -> Config (daemon s) = config_view s ->
  seg_index (My (daemon s)) = Z.of_nat k -> sgs !! k = Some sg ->
  wp (refused Big) (set_my_scope ip) (fun _ s' => exists sgs', holds_config old sgs' s' /\ same_ring sgs sgs' /\
    Config (daemon s') = config_view s' /\ same_entry (My (daemon s)) (My (daemon s')) /\
    Conf_Active_IP_Version s' = Conf_Active_IP_Version s) s.
Proof.
  intros H Hview Hk Hsg. unfold set_my_scope. wp_step. wp_step. apply wp_if; intros _.
  { wp_step. exists sgs. split; [done|]. split; [apply same_ring_refl|]. split; [done|]. by split. }
  cbn zeta. set (n := sin6_scope_id _). wp_step. unfold set_conf. wp_step. wp_step. wp_step. rec_simpl_in_goal.
  set (s1 := s <| daemon ::= _ |>).
  assert (H1 : holds_config old sgs s1) by (by destruct H; split).
  wp_step. eapply wp_mono; [apply (scope_loop n sgs s1 H1)|]. intros u s2 ->.
  apply (holds_scope n) in H1 as H2. set (s2 := s1 <| c_allprocs := _ |>) in *.
  assert (Hk2 : map (scope_segment n) sgs !! k = Some (scope_segment n sg)) by (by rewrite list_lookup_fmap, Hsg).
  destruct (hc_closed _ _ _ H2 k _ Hk2) as (sl & Hsl & Hsa & _). rewrite Hk.
  wp_step. eapply wp_mono; [by apply update_open|]. intros u2 s3 ->.
  wp_step. unfold publish. wp_step. wp_step.
  eexists (<[k := mk_segment (map (scope_default n) (seg_addrs (scope_segment n sg))) (procs (scope_segment n sg))]> _).
  split; [|split; [|split; [done|split; [|done]]]].
  - pose proof (holds_addrs (scope_default n) _ _ k _ sl H2 Hk2 Hsl) as [Hp Hr Ht Hn Hs Ha Hc]. by split.
  - apply same_ring_addrs; [done|by rewrite length_map|apply same_ring_scope].
  - by destruct (My (daemon s)).
Qed.
End Scope.

(** ** A load *)

Context (Hfamily : forall a, spu_addr_family a <> -1).

(** The daemon after a load: its configuration is that of a ring, it is in it, and the arrays
    can be loaded again. *)
Record loaded s : Prop := {
  ld_loadable : loadable s;
  ld_all : allprocs (Config (daemon s)) = procs_of (segments (Config (daemon s)));
  ld_memb : wf_memb (Config (daemon s));
  ld_identified : identified (allprocs (Config (daemon s)));
  ld_addrs : Forall (fun sg => seg_addrs sg <> []) (segments (Config (daemon s)));
  ld_count : Conf_num_procs (Config (daemon s)) <= MAX_PROCS_RING;
  ld_my : exists p, p ∈ allprocs (Config (daemon s)) /\ name (My (daemon s)) = name p /\
    id (My (daemon s)) = id p /\ seg_index (My (daemon s)) = seg_index p
}.

Lemma same_entries_names l l' : Forall2 same_entry l l' -> map name l' = map name l.
Proof. induction 1 as [|p q l l' (E & _) _ IH]; [done|]. cbn. by rewrite E, IH. Qed.
Lemma identified_same l l' : Forall2 same_entry l l' -> identified l -> identified l'.
Proof.
  intros H [H1 H2 H3 H4]. split; rewrite ?(same_entries_ids _ _ H), ?(same_entries_names _ _ H); try done.
  - clear -H H2. induction H as [|p q l l' (_ & E & _) _ IH]; [done|]. apply Forall_cons in H2 as [Hp H2].
    constructor; [congruence|by apply IH].
  - clear -H H4. induction H as [|p q l l' (E & _) _ IH]; [done|]. apply Forall_cons in H4 as [Hp H4].
    constructor; [congruence|by apply IH].
Qed.
Lemma wf_memb_same h h' l l' sgs sgs' : same_ring sgs sgs' ->
  wf_memb (mk_configuration h l sgs) -> wf_memb (mk_configuration h' l' sgs').
Proof.
  intros H [Hnd Hpl]. unfold ring_of in Hnd. cbn [segments] in *. split; unfold ring_of; cbn [segments].
  - by rewrite (same_entries_ids _ _ (same_ring_procs _ _ H)).
  - intros k sg' q Hk Hq. destruct (Forall2_lookup_r _ _ _ _ _ H Hk) as (sg & Hsg & Hp & _).
    apply list_elem_of_lookup in Hq as [j Hj]. destruct (Forall2_lookup_r _ _ _ _ _ Hp Hj) as (p & Hpj & (_ & _ & _ & E & _)).
    rewrite E. apply (Hpl k sg); [done|]. by eapply list_elem_of_lookup_2.
Qed.

Lemma find_my_in c ips nm p : find_my c ips nm = Some p -> p ∈ allprocs c.
Proof.
  unfold find_my, Conf_proc_by_name_in_conf. destruct nm; intros H;
    apply fmap_Some in H as ([i q] & Hq & ->); apply find_index_Some in Hq as (_ & Hl & _);
    by eapply list_elem_of_lookup_2.
Qed.
Lemma procs_of_elem sgs p : p ∈ procs_of sgs -> exists k sg, sgs !! k = Some sg /\ p ∈ procs sg.
Proof.
  unfold procs_of. intros H. apply list_elem_of_In, in_concat in H as (l & Hl & Hp).
  apply in_map_iff in Hl as (sg & <- & Hsg). apply list_elem_of_In, list_elem_of_lookup in Hsg as [k Hk].
  exists k, sg. split; [done|by apply list_elem_of_In].
Qed.

(** A parse, and what follows. *)
Lemma wp_parse {A} E file (f : M load_st A) (Q : A -> load_st -> Prop) s :
  wp E (parser_init;; yyparse file) (fun _ s' => wp E f Q s') s -> wp E (parser_init;; yyparse file;; f) Q s.
Proof.
  Transparent wp. unfold wp, mbind, M_bind. Opaque wp. destruct (parser_init s) as [x s1|]; [|done].
  by destruct (yyparse file s1).
Qed.

Lemma addrs_same_ring sgs sgs' : same_ring sgs sgs' -> Forall (fun sg => seg_addrs sg <> []) sgs ->
  Forall (fun sg => seg_addrs sg <> []) sgs'.
Proof.
  induction 1 as [|sg sg' l l' [_ E] _ IH]; [done|]. intros [H1 H2]%Forall_cons. constructor; [|by apply IH].
  intros E'. rewrite E' in E. by destruct (seg_addrs sg).
Qed.

(** A state whose arrays hold a ring, and whose configuration is that. *)
Lemma holds_loaded old sgs sgs' h p s : Z.of_nat (length old) = MAX_PROCS_RING -> holds_config old sgs' s ->
  same_ring sgs sgs' -> Config (daemon s) = config_view s -> right_ip (Conf_Active_IP_Version s) ->
  wf_memb (mk_configuration h (procs_of sgs) sgs) -> identified (procs_of sgs) ->
  Forall (fun sg => seg_addrs sg <> []) sgs -> p ∈ procs_of sgs ->
  name (My (daemon s)) = name p -> id (My (daemon s)) = id p -> seg_index (My (daemon s)) = seg_index p -> loaded s.
Proof.
  intros Hold Hh Hring Hview Hip Hm Hid Ha Hin E1 E2 E3. rewrite (view_holds _ _ _ Hh) in Hview.
  split; rewrite ?Hview; cbn [allprocs segments].
  - destruct Hh as [Hp Hr _ _ Hs Hsa _]. split; [|done|done|by right].
    by rewrite Hp, length_written.
  - done.
  - by eapply wf_memb_same.
  - eapply identified_same; [by apply same_ring_procs|done].
  - by eapply addrs_same_ring.
  - destruct Hh as [_ Hr _ _ _ _ _]. rewrite Conf_num_procs_length. cbn [segments]. lia.
  - apply list_elem_of_lookup in Hin as [j Hj].
    destruct (Forall2_lookup_l _ _ _ _ _ (same_ring_procs _ _ Hring) Hj) as (q & Hq & F1 & F2 & _ & F3 & _).
    exists q. split; [by eapply list_elem_of_lookup_2|]. by rewrite E1, E2, E3, F1, F2, F3.
Qed.

Lemma load_spec file ips nm s : loadable s ->
  wp (refused (too_many file)) (Conf_load_conf_file file ips nm) (fun _ => loaded) s.
Proof.
  intros Hs. unfold Conf_load_conf_file. wp_step. wp_step; [by left|].
  apply wp_parse. eapply wp_mono; [by apply yyparse_spec|].
  intros u s1 (sgs & s2 & Hparse & Hip & (Hc & Hne & Hpne & _) & Hh & Hv).
  wp_step. wp_step. wp_step. wp_step; [by left|]. rename a into p.
  match goal with E : find_my _ _ _ = Some p |- _ => apply find_my_in in E as Hin end.
  rewrite Hc in Hin. cbn [allprocs] in Hin.
  destruct (procs_of_elem _ _ Hin) as (k & sg & Hk & [j Hj]%list_elem_of_lookup).
  destruct (parsed_place _ _ _ _ _ _ _ _ Hparse Hk Hj) as [Hsi _].
  wp_step. unfold set_conf at 1. wp_step. wp_step. wp_step; [by left|]. rename a into ip.
  set (s3 := s1 <| daemon ::= _ |>). assert (Hh3 : holds_config (c_allprocs s) sgs s3) by (by destruct Hh; split).
  assert (Hv3 : Config (daemon s3) = config_view s3).
  { exact Hv. }
  wp_step. eapply wp_mono; [by apply (set_my_scope_spec _ (c_allprocs s) ip sgs k sg s3)|].
  intros scope s4 (sgs' & Hh4 & Hring & Hv4 & Hmy & Hip4). unfold set_conf. wp_step.
  eapply (holds_loaded (c_allprocs s) sgs sgs' 0 p); try done.
  - apply Hs.
  - by destruct Hh4; split.
  - rec_simpl_in_goal. rewrite Hip4. destruct (pa_ip _ _ _ _ _ _ _ Hparse) as [Hr|(_ & -> & _)]; [|done].
    unfold s3. rec_simpl_in_goal. by rewrite Hip.
  - by eapply parsed_memb.
  - pose proof (pa_identified _ _ _ _ _ _ _ Hparse) as Hid. by rewrite app_nil_r in Hid.
  - apply Forall_lookup. intros k' sg0 Hk0 E. destruct (parsed_addrs _ _ _ _ _ _ Hparse Hk0) as [Hl _].
    by rewrite E in Hl.
  - apply Hmy.
  - apply Hmy.
  - apply Hmy.
Qed.

Lemma init_spec file ips nm s : Conf_Active_IP_Version s = -1 \/ right_ip (Conf_Active_IP_Version s) ->
  wp (refused (too_many file)) (Conf_init file ips nm) (fun _ => loaded) s.
Proof.
  intros Hip. unfold Conf_init. wp_step. wp_step; [by left|]. wp_step. wp_step. apply load_spec.
  split; rec_simpl_in_goal; [by rewrite length_replicate|by rewrite length_replicate| |done].
  apply Forall_replicate. cbn [sl_addrs no_slot]. by rewrite length_replicate.
Qed.

(** ** A reload *)

(** A daemon that is found by its id. *)
Lemma proc_by_id c p : NoDup (map id (allprocs c)) -> p ∈ allprocs c ->
  exists i, Conf_proc_by_id_in_conf c (id p) = Some (i, p).
Proof.
  intros Hnd Hin. unfold Conf_proc_by_id_in_conf.
  destruct (find_index _ _) as [[i q]|] eqn:E.
  - apply find_index_Some in E as (_ & Hl & Hq%Z.eqb_eq & _). exists i. do 2 f_equal.
    apply (NoDup_map_unique id (allprocs c)); [done|by eapply list_elem_of_lookup_2|done|done].
  - apply find_index_None in E. rewrite list.Forall_forall in E. specialize (E p Hin). by rewrite Z.eqb_refl in E.
Qed.
Lemma copy_same c : allprocs c = procs_of (segments c) -> NoDup (map id (allprocs c)) -> Conf_config_copy c = Some c.
Proof.
  intros Hall Hnd. unfold Conf_config_copy.
  assert (mapM (fun sg => sg' ← mapM (fun p => snd <$> Conf_proc_by_id_in_conf c (id p)) (procs sg);
    Some (mk_segment (seg_addrs sg) sg')) (segments c) = Some (segments c)) as ->; [|by destruct c].
  apply mapM_Some, Forall_Forall2_diag, Forall_forall. intros sg Hsg.
  assert (mapM (fun p => snd <$> Conf_proc_by_id_in_conf c (id p)) (procs sg) = Some (procs sg)) as ->; [|by destruct sg].
  apply mapM_Some, Forall_Forall2_diag, Forall_forall. intros p Hp.
  destruct (proc_by_id c p Hnd) as [i ->]; [|done]. rewrite Hall. unfold procs_of.
  apply list_elem_of_In, in_concat. exists (procs sg). split; [|by apply list_elem_of_In].
  by apply in_map, list_elem_of_In.
Qed.

(** The addresses of two segments. *)
Lemma addrs_same_spec me l l' : l <> [] -> addrs_same me l l' = true <-> Forall2 (fun a b => addr_same me a b = true) l l'.
Proof.
  intros Hne. unfold addrs_same. cbn zeta.
  assert (0 < Z.of_nat (length l)) as Hpos by (destruct l; [done|cbn; lia]).
  destruct (Z.eqb_spec (Z.of_nat (length l)) (Z.of_nat (length l'))) as [El|El]; cbn [negb].
  2:{ split; [intros E; bools_to_props; lia|intros H%Forall2_length; lia]. }
  destruct (count_while_zrange (fun i => match l !! Z.to_nat i, l' !! Z.to_nat i with
    | Some a, Some b => addr_same me a b | _, _ => false end) 0 (Z.of_nat (length l) - 1) 0) as (j & Hj & -> & Ht & Hf); [lia|].
  rewrite Z.eqb_eq. split.
  - intros E. apply Forall2_same_length_lookup_2; [lia|]. intros i a b Ha Hb.
    specialize (Ht (Z.of_nat i)). rewrite Nat2Z.id, Ha, Hb in Ht. apply Ht.
    apply lookup_lt_Some in Ha. lia.
  - intros H. destruct (Z_lt_le_dec j (Z.of_nat (length l))) as [Hlt|]; [exfalso|lia].
    specialize (Hf ltac:(lia)). rewrite Z.add_0_l in Hf.
    destruct (lookup_lt_is_Some_2 l (Z.to_nat j)) as [a Ha]; [lia|].
    destruct (Forall2_lookup_l _ _ _ _ _ H Ha) as (b & Hb & E). by rewrite Ha, Hb, E in Hf.
Qed.

(** What [Conf_daemon_changed] compares. *)
Record unchanged (me : bool) (np : proc) (np_seg : segment) (op : proc) (op_seg : segment) : Prop := {
  un_name : name np = name op;
  un_addr : same_addr (proc_addr np) (proc_addr op) = true;
  un_id : id np = id op;
  un_ifc : Forall2 (fun x y => ifc_changed me x y = false) (ifc np) (ifc op);
  un_seg : Forall2 (fun a b => addr_same me a b = true) (seg_addrs np_seg) (seg_addrs op_seg)
}.
Lemma daemon_changed_spec Big np np_seg op op_seg me s : seg_addrs np_seg <> [] ->
  wp (refused Big) (Conf_daemon_changed np np_seg op op_seg me)
    (fun b s' => s' = s /\ (b = false <-> unchanged me np np_seg op op_seg) /\ (me = true -> b = false)) s.
Proof.
  intros Hne. unfold Conf_daemon_changed.
  assert (Hchanged : ~ unchanged me np np_seg op op_seg -> wp (refused Big) (changed me)
    (fun b s' => s' = s /\ (b = false <-> unchanged me np np_seg op op_seg) /\ (me = true -> b = false)) s).
  { intros Hn. unfold changed. destruct me; [wp_step; by left|]. by wp_step. }
  wp_step.
  { apply Hchanged. intros [E1 E2 E3 E4%Forall2_length _]. rewrite E1, String.eqb_refl, E2, E3, Z.eqb_refl, E4, Z.eqb_refl in H.
    done. }
  bools_to_props. wp_step.
  { apply Hchanged. intros [_ _ _ E _]. apply existsb_exists in H3 as ([x y] & Hin & Hxy).
    apply list_elem_of_In in Hin. apply list_elem_of_lookup in Hin as [i Hi].
    apply lookup_zip_with_Some in Hi as (x' & y' & [= <- <-] & Hx & Hy).
    by rewrite (Forall2_lookup_lr _ _ _ _ _ _ E Hx Hy) in Hxy. }
  wp_step.
  { apply Hchanged. intros [_ _ _ _ E]. apply negb_true_iff, Bool.not_true_iff_false in H4. by apply H4, addrs_same_spec. }
  wp_step. split; [done|]. split; [|done]. split; [intros _|done]. apply negb_false_iff in H4.
  split; [by apply String.eqb_eq|done|done| |by apply addrs_same_spec].
  apply Forall2_same_length_lookup_2; [lia|]. intros i x y Hx Hy.
  apply Bool.not_true_iff_false. intros E. apply Bool.not_true_iff_false in H3. apply H3, existsb_exists.
  exists (x, y). split; [|done]. apply list_elem_of_In, list_elem_of_lookup. exists i.
  apply lookup_zip_with_Some. by exists x, y.
Qed.

(** The daemon [np] of [c] is new: [prev] has neither its name nor its id. *)
Definition added (prev : configuration) (np : proc) : Prop :=
  Forall (fun q => name q <> name np /\ id q <> id np) (allprocs prev).
(** It was in [prev] as it is, with its interfaces and the addresses of its segment. *)
Definition kept (c prev : configuration) (np : proc) : Prop := exists op, op ∈ allprocs prev /\
  unchanged false np (segment_at c (seg_index np)) op (segment_at prev (seg_index op)).

Lemma find_index_unique {A B} (f : A -> B) (P : A -> bool) l i x y : NoDup (map f l) ->
  find_index P l = Some (i, x) -> y ∈ l -> f y = f x -> y = x.
Proof.
  intros Hnd H Hy E. apply find_index_Some in H as (_ & Hl & _).
  apply (NoDup_map_unique f l); [done|done|by eapply list_elem_of_lookup_2|done].
Qed.

Lemma check_daemon_spec Big c prev np s : identified (allprocs prev) -> seg_addrs (segment_at c (seg_index np)) <> [] ->
  wp (refused Big) (check_daemon c prev np)
    (fun b s' => s' = s /\ (b = false <-> added prev np \/ kept c prev np)) s.
Proof.
  intros [Hids _ Hnames _] Hne. unfold check_daemon, Conf_proc_by_name_in_conf, Conf_proc_by_id_in_conf.
  destruct (find_index (fun p => String.eqb (name p) (name np)) (allprocs prev)) as [[i op]|] eqn:En;
    destruct (find_index (fun p => id p =? id np) (allprocs prev)) as [[j op2]|] eqn:Ei.
  - assert (Hkept : forall op', op' ∈ allprocs prev -> name np = name op' -> id np = id op' -> op' = op /\ op' = op2).
    { intros op' Hin E1 E2. pose proof En as (_ & _ & F1%String.eqb_eq & _)%find_index_Some.
      pose proof Ei as (_ & _ & F2%Z.eqb_eq & _)%find_index_Some. split.
      - eapply (find_index_unique name); [done|exact En|done|congruence].
      - eapply (find_index_unique id); [done|exact Ei|done|congruence]. }
    assert (Hnew : ~ added prev np).
    { intros Ha. unfold added in Ha. apply find_index_Some in En as (_ & Hl & F1%String.eqb_eq & _).
      by destruct (Forall_lookup_1 _ _ _ _ Ha Hl) as [[] _]. }
    destruct (Z.eqb_spec i j) as [->|Hij].
    + eapply wp_mono; [by apply daemon_changed_spec|]. intros b s' (-> & Hb & _). split; [done|]. rewrite Hb. split.
      * intros Hu. right. exists op. split; [|done]. apply find_index_Some in En as (_ & Hl & _).
        by eapply list_elem_of_lookup_2.
      * intros [?|(op' & Hin & Hu)]; [done|]. destruct (Hkept op' Hin (un_name _ _ _ _ _ Hu) (un_id _ _ _ _ _ Hu)) as [<- _].
        done.
    + wp_step. split; [done|]. split; [done|]. intros [?|(op' & Hin & Hu)]; [done|].
      destruct (Hkept op' Hin (un_name _ _ _ _ _ Hu) (un_id _ _ _ _ _ Hu)) as [-> ->]. exfalso. apply Hij.
      apply find_index_Some in En as (Hi & Hl & _), Ei as (Hj & Hl2 & _).
      assert (Z.to_nat i = Z.to_nat j); [|lia]. eapply (NoDup_lookup (map id (allprocs prev))); [done| |];
        rewrite list_lookup_fmap; [by rewrite Hl|by rewrite Hl2].
  - wp_step. split; [done|]. split; [done|]. apply find_index_None in Ei. rewrite list.Forall_forall in Ei.
    intros [Ha|(op' & Hin & Hu)].
    + apply find_index_Some in En as (_ & Hl & F1%String.eqb_eq & _).
      by destruct (Forall_lookup_1 _ _ _ _ Ha Hl) as [[] _].
    + specialize (Ei op' Hin). by rewrite (un_id _ _ _ _ _ Hu), Z.eqb_refl in Ei.
  - wp_step. split; [done|]. split; [done|]. apply find_index_None in En. rewrite list.Forall_forall in En.
    intros [Ha|(op' & Hin & Hu)].
    + apply find_index_Some in Ei as (_ & Hl & F1%Z.eqb_eq & _).
      by destruct (Forall_lookup_1 _ _ _ _ Ha Hl) as [_ []].
    + specialize (En op' Hin). by rewrite (un_name _ _ _ _ _ Hu), String.eqb_refl in En.
  - wp_step. split; [done|]. split; [intros _; left|done]. apply find_index_None in En, Ei. unfold added.
    rewrite list.Forall_forall in En, Ei |- *. intros q Hq. split.
    + by apply String.eqb_neq, En.
    + by apply Z.eqb_neq, Ei.
Qed.

Lemma check_daemons_spec Big c prev l s : identified (allprocs prev) ->
  Forall (fun np => seg_addrs (segment_at c (seg_index np)) <> []) l ->
  wp (refused Big) (check_daemons c prev l)
    (fun b s' => s' = s /\ (b = false <-> Forall (fun np => added prev np \/ kept c prev np) l)) s.
Proof.
  intros Hid. induction 1 as [|np l Hne _ IH]; cbn [check_daemons]; [by wp_step|].
  wp_step. eapply wp_mono; [by apply check_daemon_spec|]. intros b s' [-> Hb]. destruct b.
  - wp_step. split; [done|]. split; [done|]. intros H%Forall_inv. by apply Hb in H.
  - eapply wp_mono; [exact IH|]. intros b s' [-> Hall]. split; [done|]. rewrite Hall. split.
    + intros H. constructor; [by apply Hb|done].
    + apply Forall_inv_tail.
Qed.

(** The daemon's own entry in its configuration. *)
Lemma loaded_my s i p : loaded s -> Conf_proc_by_id_in_conf (Config (daemon s)) (id (My (daemon s))) = Some (i, p) ->
  name (My (daemon s)) = name p /\ id (My (daemon s)) = id p.
Proof.
  intros [_ _ _ [Hids _ _ _] _ _ (q & Hin & E1 & E2 & _)] H. rewrite E2 in H.
  destruct (proc_by_id _ q Hids Hin) as [j Hj]. rewrite Hj in H. by injection H as _ <-.
Qed.
Lemma loaded_segment s np : loaded s -> np ∈ allprocs (Config (daemon s)) ->
  seg_addrs (segment_at (Config (daemon s)) (seg_index np)) <> [].
Proof.
  intros [_ Hall [_ Hplace] _ Ha _] Hin. rewrite Hall in Hin. destruct (procs_of_elem _ _ Hin) as (k & sg & Hk & Hp).
  rewrite (Hplace k sg np Hk Hp). unfold segment_at. destruct (Z.ltb_spec (Z.of_nat k) 0); [lia|].
  rewrite Nat2Z.id, Hk. by apply (Forall_lookup_1 _ _ _ _ Ha Hk).
Qed.

Lemma reload_spec file ips s : loaded s ->
  wp (refused (too_many file)) (Conf_reload_initiate file ips) (fun b s' =>
    loaded s' /\ name (My (daemon s')) = name (My (daemon s)) /\ id (My (daemon s')) = id (My (daemon s)) /\
    let c := Config (daemon s') in let prev := Config (daemon s) in
    (b = false <-> Forall (fun np => added prev np \/ kept c prev np) (allprocs c))) s.
Proof.
  intros H. unfold Conf_reload_initiate. wp_step. wp_step.
  pose proof (id_ids _ (ld_identified _ H)) as Hnd. rewrite copy_same by (done || apply H).
  wp_step. apply wp_ret. wp_step. wp_step; [by left|]. match goal with E : Conf_proc_by_id_in_conf _ _ = Some ?x |- _ => destruct x as [j op] end.
  destruct (loaded_my _ _ _ H ltac:(eassumption)) as [Eop1 Eop2].
  wp_step. eapply wp_mono; [by apply load_spec, H|]. intros u s1 H1.
  wp_step. wp_step. wp_step. wp_step; [by left|]. match goal with E : Conf_proc_by_id_in_conf (Config (daemon s1)) _ = Some ?x |- _ => destruct x as [i np] end.
  destruct (loaded_my _ _ _ H1 ltac:(eassumption)) as [Enp1 Enp2].
  assert (np ∈ allprocs (Config (daemon s1))) as Hnp.
  { match goal with E : Conf_proc_by_id_in_conf (Config (daemon s1)) _ = _ |- _ =>
      apply find_index_Some in E as (_ & Hl & _) end. by eapply list_elem_of_lookup_2. }
  wp_step. eapply wp_mono; [by apply daemon_changed_spec, loaded_segment|]. intros b s2 (-> & Hb & Hme).
  apply Hb in Hme as [Hname _ Hid _ _]; [|done].
  eapply wp_mono; [apply check_daemons_spec; [apply H|]|].
  - apply list.Forall_forall. intros q Hq. by apply loaded_segment.
  - intros b2 s2 [-> Hall]. split; [done|]. split; [congruence|]. by split; [congruence|].
Qed.

(** The daemon after [Conf_init], [s0], and after any reloads. *)
Inductive loads : load_st -> load_st -> Prop :=
| loads_init file ips nm s s0 : Conf_Active_IP_Version s = -1 -> Conf_init file ips nm s = Ok tt s0 -> loads s0 s0
| loads_reload file ips b s0 s s' : loads s0 s -> Conf_reload_initiate file ips s = Ok b s' -> loads s0 s'.

(** C23. Whatever files are loaded, a daemon that does not exit has a well-formed configuration
    that can be the membership of a ring, in which it is itself, and it has the name and the id it
    was started with. *)
Theorem daemon_keeps_itself s0 s : loads s0 s ->
  loaded s /\ name (My (daemon s)) = name (My (daemon s0)) /\ id (My (daemon s)) = id (My (daemon s0)).
Proof.
  induction 1 as [file ips nm s s0 Hip E|file ips b s0 s s' _ (H & E1 & E2) E].
  - by split; [apply (wp_ok _ _ _ _ _ _ (init_spec file ips nm s (or_introl Hip)) E)|].
  - destruct (wp_ok _ _ _ _ _ _ (reload_spec file ips s H) E) as (H' & E1' & E2' & _). split; [done|].
    split; congruence.
Qed.

(** C24. [Conf_reload_initiate] says that the daemons can stay together exactly if every
    daemon of the new configuration is new, by name and by id, or is in the old one with the same name,
    address, id, interfaces and segment addresses; the daemon itself has not changed, else the process
    ended ([Fatal]), as it does on an error in the file. *)
Theorem reload_parts_unless_unchanged file ips s : loaded s ->
  wp (refused (too_many file)) (Conf_reload_initiate file ips) (fun b s' =>
    let c := Config (daemon s') in let prev := Config (daemon s) in
    loaded s' /\ id (My (daemon s')) = id (My (daemon s)) /\
    (b = false <-> Forall (fun np => added prev np \/ kept c prev np) (allprocs c))) s.
Proof. intros H. eapply wp_mono; [by apply reload_spec|]. intros b s' (? & _ & ? & ?). by split. Qed.
End Reload.

(** ** Reloads *)

Lemma demo_inited_ok : Conf_init file_abc demo_ips None demo_load = Ok tt demo_inited.
Proof.
  destruct (ended_run (Conf_init file_abc demo_ips None) (fun _ => tt) demo_load tt) as ([] & s & E & _);
    [vm_compute; reflexivity|].
  unfold demo_inited. rewrite E. reflexivity.
Qed.
Lemma demo_inited_loads : loads demo_inited demo_inited.
Proof. exact (loads_init file_abc demo_ips None demo_load demo_inited eq_refl demo_inited_ok). Qed.
Lemma demo_inited_loaded : loaded demo_inited.
Proof.
  exact (wp_ok _ _ _ _ _ _ (init_spec demo_family file_abc demo_ips None demo_load (or_introl eq_refl)) demo_inited_ok).
Qed.
(** The same file again, and a file of a daemon more, "d". *)
Definition file_abcd : conf_file := file_abc ++ [SegmentStruct (demo_segment 1103 [demo_host "d" None])].

Lemma daemon_keeps_itself_witness : exists s, Conf_reload_initiate file_abcd demo_ips demo_inited = Ok false s /\
  map name (allprocs (Config (daemon s))) = ["a"; "b"; "c"; "d"] /\ id (My (daemon s)) = 1.
Proof.
  destruct (ended_run (Conf_reload_initiate file_abcd demo_ips) (fun s => map name (allprocs (Config (daemon s))))
    demo_inited ["a"; "b"; "c"; "d"]) as (b & s & E & Hn); [vm_compute; reflexivity|].
  assert (ended_as (Conf_reload_initiate file_abcd demo_ips demo_inited) = Some b) as Hb by (by rewrite E).
  vm_compute in Hb. injection Hb as <-. exists s. split; [done|]. split; [done|].
  destruct (daemon_keeps_itself demo_family demo_inited s) as (_ & _ & ->).
  { eapply loads_reload; [apply demo_inited_loads|exact E]. }
  vm_compute. reflexivity.
Defined.

(** Without "b" the daemons part, since "c" has another id then. *)
Lemma reload_parts_unless_unchanged_witness : exists s, Conf_reload_initiate file_ac demo_ips demo_inited = Ok true s /\
  ~ Forall (fun np => added (Config (daemon demo_inited)) np \/
      kept (Config (daemon s)) (Config (daemon demo_inited)) np) (allprocs (Config (daemon s))).
Proof.
  destruct (ended_run (Conf_reload_initiate file_ac demo_ips) (fun _ => tt) demo_inited tt) as (b & s & E & _);
    [vm_compute; reflexivity|].
  assert (ended_as (Conf_reload_initiate file_ac demo_ips demo_inited) = Some b) as Hb by (by rewrite E).
  vm_compute in Hb. injection Hb as <-. exists s. split; [done|]. intros Hall.
  destruct (wp_ok _ _ _ _ _ _ (reload_parts_unless_unchanged demo_family file_ac demo_ips demo_inited demo_inited_loaded) E)
    as (_ & _ & Hb). by apply Hb in Hall.
Defined.
