(* ===== verification/AccessFiles.v ===== *)
(** * The files of the access control: [ip_init] of auth-ip.c, [pword_init] of auth-pword.c

    A file is its bytes, [None] one that is found nowhere; [fgets] and [sscanf] are those of the
    C library.  A file written in the format is read back, line by line. *)

From stdpp Require Import pretty.
From S2P Require Import Prelude NetTypes Configuration State Message Stdutil SessState Acm ConfigParse.

(** ** The C library *)

(** The lines [fgets(line, 132, fp)] gives: to the newline, or 131 bytes. *)
Definition LINE_LEN : nat := 131.
Fixpoint lines_from (n : nat) (cur l : list Z) : list (list Z) :=
  match l with
  | [] => if bool_decide (cur = []) then [] else [rev cur]
  | c :: l =>
      if (c =? 10) || (n <=? 1)%nat then rev (c :: cur) :: lines_from LINE_LEN [] l
      else lines_from (pred n) (c :: cur) l
  end.
Definition file_lines : list Z -> list (list Z) := lines_from LINE_LEN [].

Definition isspace (c : Z) : bool := (c =? 32) || ((9 <=? c) && (c <=? 13)).
Definition isdigit (c : Z) : bool := (48 <=? c) && (c <=? 57).
Fixpoint skip_space (l : list Z) : list Z :=
  match l with c :: l' => if isspace c then skip_space l' else l | [] => [] end.
Fixpoint scan_digits (acc : Z) (l : list Z) : Z * list Z :=
  match l with
  | c :: l' => if isdigit c then scan_digits (10 * acc + (c - 48)) l' else (acc, l)
  | [] => (acc, [])
  end.
(** [%d] *)
Definition scan_int (l : list Z) : option (Z * list Z) :=
  let l := skip_space l in
  let '(neg, l) := match l with 45 :: l => (true, l) | 43 :: l => (false, l) | _ => (false, l) end in
  match l with
  | c :: _ => if isdigit c then let '(v, l) := scan_digits 0 l in Some (if neg : bool then - v else v, l) else None
  | [] => None
  end.
Fixpoint scan_ints (n : nat) (l : list Z) : list Z * list Z :=
  match n with
  | O => ([], l)
  | S n => match scan_int l with
      | Some (v, l) => let '(vs, l) := scan_ints n l in (v :: vs, l)
      | None => ([], l)
      end
  end.
(** [%32s]: up to [n] bytes that are no space. *)
Fixpoint scan_word (n : nat) (l : list Z) : list Z * list Z :=
  match n, l with
  | S n, c :: l' => if isspace c then ([], l) else let '(w, r) := scan_word n l' in (c :: w, r)
  | _, _ => ([], l)
  end.
Definition scan_string (n : nat) (l : list Z) : option (list Z * list Z) :=
  match scan_word n (skip_space l) with ([], _) => None | (w, r) => Some (w, r) end.

(** [ret = strchr(line, c); *ret = d] *)
Fixpoint replace_first (c d : Z) (l : list Z) : option (list Z) :=
  match l with
  | [] => None
  | x :: l => if x =? c then Some (d :: l) else cons x <$> replace_first c d l
  end.

Section Access.
Context {L : SpuLib} {R : SessLib}.

(** ** spread.access_ip *)

(** The numbers of ["%d%d%d%d/%d"] that are there. *)
Definition scan_address (l : list Z) : list Z :=
  let '(vs, l) := scan_ints 4 l in
  if negb (length vs =? 4)%nat then vs else
  match l with
  | 47 :: l => match scan_int l with Some (p, _) => vs ++ [p] | None => vs end
  | _ => vs
  end.
Definition is_int (v : Z) : bool := (-2 ^ 31 <=? v) && (v <? 2 ^ 31).

Definition ip_line (line : list Z) : M St unit :=
  let vs := scan_address line in
  undef_if (existsb (fun v => negb (is_int v)) vs);;
  match vs with
  | [i1; i2; i3; i4] => insert_ip_rule (u32 (Z.lor (Z.lor (Z.lor (Z.shiftl i1 24) (Z.shiftl i2 16)) (Z.shiftl i3 8)) i4)) 32
  | [i1; i2; i3; i4; prefix] =>
      insert_ip_rule (u32 (Z.lor (Z.lor (Z.lor (Z.shiftl i1 24) (Z.shiftl i2 16)) (Z.shiftl i3 8)) i4)) prefix
  | _ => fatal
  end.

(** A line without three dots is the last one that is looked at; the alarm "incomplete line" of the
    level SPLOG_ERROR, which does not end the process, is only printed. *)
Fixpoint ip_lines (ls : list (list Z)) : M St unit :=
  match ls with
  | [] => mret tt
  | line :: ls =>
      let line := cstr line in
      if default 0 (line !! O) =? 35 then ip_lines ls else
      if bool_decide (take 4 line = str_bytes "unix") then insert_ip_rule 0 32;; ip_lines ls else
      if bool_decide (take 5 line = str_bytes "local") then
        insert_ip_rule (u32 (Z.shiftl 127 24)) 8;; ip_lines ls else
      match l ← replace_first 46 32 line; l ← replace_first 46 32 l; replace_first 46 32 l with
      | None => mret tt
      | Some line => ip_line line;; ip_lines ls
      end
  end.

Definition ip_init (file : option (list Z)) : M St unit :=
  ok ← Acm_auth_add_method (str_bytes "IP") IP_ops; fatal_if (negb ok);;
  match file with
  | None => gset (fun x => x <| IP_File_Loaded := false |>)
  | Some bytes => ip_lines (file_lines bytes);; gset (fun x => x <| IP_File_Loaded := true |>)
  end.

(** ** spread.access_pword *)

Fixpoint pword_lines (ls : list (list Z)) : M St unit :=
  match ls with
  | [] => mret tt
  | line :: ls =>
      let line := cstr line in
      if default 0 (line !! O) =? 35 then pword_lines ls else
      match replace_first 58 32 line with
      | None => mret tt
      | Some line =>
          '(username, r) ← or_fail Fatal (scan_string (Z.to_nat MAX_PWORD_USERNAME) line);
          '(password, _) ← or_fail Fatal (scan_string (Z.to_nat MAX_PWORD_CRYPTPASSWORD) r);
          insert_user username password;; pword_lines ls
      end
  end.

Definition pword_init (file : option (list Z)) : M St unit :=
  ok ← Acm_auth_add_method (str_bytes "PWORD") PWORD_ops; fatal_if (negb ok);;
  bytes ← or_fail Fatal file;
  pword_lines (file_lines bytes).
End Access.
