(* ===== verification/AccessProps.v ===== *)
(** * What the files of the access control mean *)

From stdpp Require Import pretty.
From S2P Require Import Prelude NetTypes Configuration State Network SessionLayer Delivery Send Message Stdutil SessState.
From S2P Require Import Acm ConfigParse Demo GroupsDemo AuthProps AccessFiles.

(** ** Lines *)

Lemma lines_from_line cur l rest : 10 ∉ l -> (length cur + length l < LINE_LEN)%nat ->
  lines_from (LINE_LEN - length cur) cur (l ++ 10 :: rest) = (rev cur ++ l ++ [10]) :: file_lines rest.
Proof.
  revert cur. induction l as [|c l IH]; intros cur Hn Hl; [done|]. cbn [app lines_from].
  apply not_elem_of_cons in Hn as [Hc Hn]. cbn [length] in Hl.
  destruct (Z.eqb_spec c 10) as [->|_]; [done|]. destruct (Nat.leb_spec (LINE_LEN - length cur) 1); [lia|]. cbn [orb].
  replace (pred (LINE_LEN - length cur)) with (LINE_LEN - length (c :: cur))%nat by (cbn [length]; lia).
  rewrite IH by (done || cbn [length]; lia). cbn [rev]. by rewrite <-app_assoc.
Qed.
Lemma file_lines_line l rest : 10 ∉ l -> (length l < LINE_LEN)%nat ->
  file_lines (l ++ 10 :: rest) = (l ++ [10]) :: file_lines rest.
Proof. intros Hn Hl. by apply (lines_from_line [] l rest). Qed.

Lemma cstr_id l : 0 ∉ l -> cstr l = l.
Proof.
  induction l as [|c l IH]; [done|]. intros [Hc Hl]%not_elem_of_cons. cbn.
  destruct (Z.eqb_spec c 0); [done|]. by rewrite IH.
Qed.

Lemma replace_first_at c d l rest : c ∉ l -> replace_first c d (l ++ c :: rest) = Some (l ++ d :: rest).
Proof.
  induction l as [|x l IH]; intros Hl; cbn [app replace_first]; [by rewrite Z.eqb_refl|].
  apply not_elem_of_cons in Hl as [Hx Hl]. destruct (Z.eqb_spec x c); [done|]. by rewrite IH.
Qed.

(** ** Numbers *)

Definition digits (n : Z) : list Z := str_bytes (decimal n).
Definition number (l : list Z) : Z := (scan_digits 0 l).1.

Lemma scan_digits_app ds rest acc : Forall (fun c => isdigit c = true) ds ->
  match rest with [] => True | c :: _ => isdigit c = false end ->
  scan_digits acc (ds ++ rest) = ((scan_digits acc ds).1, rest).
Proof.
  intros Hds Hr. revert acc. induction Hds as [|c ds Hc _ IH]; intros acc; cbn [app scan_digits].
  - destruct rest as [|c rest]; [done|]. cbn. by rewrite Hr.
  - rewrite Hc. apply IH.
Qed.

(** The numbers of a byte, and the lengths of a prefix. *)
Lemma digits_small : Forall (fun n => Forall (fun c => isdigit c = true) (digits n) /\ number (digits n) = n /\
  (0 < length (digits n) <= 3)%nat) (zrange 0 255).
Proof.
  apply list.Forall_forall. intros n Hn.
  assert (forallb (fun n => forallb isdigit (digits n) && (number (digits n) =? n) &&
    (0 <? Z.of_nat (length (digits n))) && (Z.of_nat (length (digits n)) <=? 3)) (zrange 0 255) = true) as H by (vm_compute; reflexivity).
  rewrite forallb_forall in H. specialize (H n ltac:(by apply list_elem_of_In)). bools_to_props.
  rewrite forallb_forall in *. split; [|lia]. apply list.Forall_forall. intros c Hc. by apply H, list_elem_of_In.
Qed.
Definition byte (n : Z) : Prop := 0 <= n <= 255.
Lemma digits_ok n : byte n -> Forall (fun c => isdigit c = true) (digits n) /\ number (digits n) = n /\
  (0 < length (digits n) <= 3)%nat.
Proof.
  intros Hn. pose proof digits_small as H. rewrite list.Forall_forall in H. apply H.
  apply elem_of_zrange. unfold byte in Hn. lia.
Qed.

Lemma isdigit_range c : isdigit c = true -> 48 <= c <= 57.
Proof. unfold isdigit. intros. bools_to_props. lia. Qed.
Lemma digit_bytes n c : byte n -> c ∈ digits n -> 48 <= c <= 57.
Proof.
  intros Hn Hc. destruct (digits_ok n Hn) as [H _]. rewrite list.Forall_forall in H. by apply isdigit_range, H.
Qed.

Lemma scan_int_digits n rest : byte n -> match rest with [] => True | c :: _ => isdigit c = false end ->
  scan_int (digits n ++ rest) = Some (n, rest).
Proof.
  intros Hn Hr. destruct (digits_ok n Hn) as (Hd & En & Hl). unfold scan_int.
  destruct (digits n) as [|c ds] eqn:E; [cbn in Hl; lia|]. pose proof (Forall_inv Hd) as Hc. cbn beta in Hc.
  pose proof (isdigit_range c Hc) as Hrange.
  assert (skip_space ((c :: ds) ++ rest) = c :: ds ++ rest) as ->.
  { cbn. unfold isspace. destruct (Z.eqb_spec c 32); [lia|]. destruct (Z.leb_spec 9 c), (Z.leb_spec c 13); try lia; done. }
  assert (Hm : forall A (f g : list Z -> A) h, match c :: ds ++ rest with 45 :: l => f l | 43 :: l => g l | _ => h end = h).
  { intros A f g h. destruct c as [|p|p]; try lia. do 6 (destruct p as [p|p|]; try lia; try done). }
  rewrite Hm, Hc. change (c :: ds ++ rest) with ((c :: ds) ++ rest). rewrite scan_digits_app by done.
  unfold number in En. by rewrite En.
Qed.
Lemma scan_int_space n rest : byte n -> match rest with [] => True | c :: _ => isdigit c = false end ->
  scan_int (32 :: digits n ++ rest) = Some (n, rest).
Proof. intros Hn Hr. by rewrite <-(scan_int_digits n rest Hn Hr). Qed.

(** ** spread.access_ip *)

Inductive ip_item :=
| Comment (text : list Z)
| Unix
| Local
| Host (a b c d : Z)
| Network (a b c d prefix : Z).
Definition dotted (a b c d : Z) : list Z :=
  digits a ++ 46 :: digits b ++ 46 :: digits c ++ 46 :: digits d.
Definition item_text (x : ip_item) : list Z :=
  match x with
  | Comment text => 35 :: text
  | Unix => str_bytes "unix"
  | Local => str_bytes "localhost"
  | Host a b c d => dotted a b c d
  | Network a b c d p => dotted a b c d ++ 47 :: digits p
  end.
Definition item_ok (x : ip_item) : Prop :=
  match x with
  | Comment text => 10 ∉ text /\ (length text < 130)%nat
  | Unix | Local => True
  | Host a b c d => byte a /\ byte b /\ byte c /\ byte d
  | Network a b c d p => byte a /\ byte b /\ byte c /\ byte d /\ 0 < p <= 32
  end.
Lemma prefix_byte p : 0 < p <= 32 -> byte p.
Proof. unfold byte. lia. Qed.
Definition ip_number (a b c d : Z) : Z := a * 2 ^ 24 + b * 2 ^ 16 + c * 2 ^ 8 + d.
Definition item_rules (x : ip_item) : list (Z * Z) :=
  match x with
  | Comment _ => []
  | Unix => [(0, 32)]
  | Local => [(ip_number 127 0 0 0, 8)]
  | Host a b c d => [(ip_number a b c d, 32)]
  | Network a b c d p => [(ip_number a b c d, p)]
  end.
Definition ip_text (items : list ip_item) : list Z := concat (map (fun x => item_text x ++ [10]) items).

Lemma ip_number_bits a b c d : byte a -> byte b -> byte c -> byte d ->
  u32 (Z.lor (Z.lor (Z.lor (Z.shiftl a 24) (Z.shiftl b 16)) (Z.shiftl c 8)) d) = ip_number a b c d.
Proof.
  unfold byte, ip_number. intros Ha Hb Hc Hd.
  replace (Z.shiftl a 24) with (Z.shiftl (Z.shiftl (Z.shiftl a 8) 8) 8) by (by rewrite !Z.shiftl_shiftl by lia).
  replace (Z.shiftl b 16) with (Z.shiftl (Z.shiftl b 8) 8) by (by rewrite Z.shiftl_shiftl by lia).
  rewrite <-!Z.shiftl_lor, (Z.lor_comm (Z.shiftl a 8)), (Z.lor_comm _ c), (Z.lor_comm _ d).
  rewrite !lor_shiftl_add by lia. unfold u32. rewrite Z.mod_small; lia.
Qed.

(** *** The text of an item *)

Definition plain (l : list Z) : Prop := Forall (fun c => 46 <= c <= 122) l.
Lemma digits_plain n : byte n -> plain (digits n) /\ 46 ∉ digits n /\ (length (digits n) <= 3)%nat.
Proof.
  intros Hn. split; [|split; [|by apply digits_ok]].
  - apply list.Forall_forall. intros c Hc. apply (digit_bytes n c Hn) in Hc. lia.
  - intros Hc%(digit_bytes n 46 Hn). lia.
Qed.
Lemma plain_not c l : plain l -> c < 46 -> c ∉ l.
Proof. intros Hl Hc Hin. unfold plain in Hl. rewrite list.Forall_forall in Hl. apply Hl in Hin. lia. Qed.
Lemma dotted_plain a b c d : byte a -> byte b -> byte c -> byte d ->
  plain (dotted a b c d) /\ (length (dotted a b c d) <= 15)%nat.
Proof.
  intros Ha Hb Hc Hd. destruct (digits_plain a Ha) as (Pa & _ & La), (digits_plain b Hb) as (Pb & _ & Lb),
    (digits_plain c Hc) as (Pc & _ & Lc), (digits_plain d Hd) as (Pd & _ & Ld).
  unfold dotted. split.
  - repeat first [apply Forall_app; split | apply Forall_cons; split]; done || lia.
  - repeat (rewrite length_app; cbn [length]). lia.
Qed.
Lemma item_plain x : item_ok x -> (exists text, x = Comment text) \/
  (plain (item_text x) /\ (length (item_text x) <= 20)%nat).
Proof.
  destruct x as [text| | |a b c d|a b c d p]; cbn [item_ok item_text]; intros H; [left; by eexists|right..].
  - change (str_bytes "unix") with [117; 110; 105; 120]. split; [|cbn; lia]. repeat constructor; lia.
  - change (str_bytes "localhost") with [108; 111; 99; 97; 108; 104; 111; 115; 116].
    split; [|cbn; lia]. repeat constructor; lia.
  - destruct H as (Ha & Hb & Hc & Hd). destruct (dotted_plain a b c d) as [H1 H2]; [done..|]. split; [done|lia].
  - destruct H as (Ha & Hb & Hc & Hd & Hp). destruct (dotted_plain a b c d) as [H1 H2]; [done..|].
    destruct (digits_plain p) as (Pp & _ & Lp); [by apply prefix_byte|]. split.
    + apply Forall_app. split; [done|]. apply Forall_cons. split; [lia|done].
    + rewrite length_app. cbn [length]. lia.
Qed.

(** A line of the file is one for the code. *)
Lemma item_line x rest : item_ok x -> file_lines (item_text x ++ 10 :: rest) = (item_text x ++ [10]) :: file_lines rest.
Proof.
  intros Hx. apply file_lines_line; destruct (item_plain x Hx) as [[text ->]|[Hp Hl]]; cbn [item_text item_ok] in *.
  - destruct Hx as [Hx _]. by apply not_elem_of_cons.
  - by apply plain_not; [|lia].
  - destruct Hx as [_ Hx]. cbn. unfold LINE_LEN. lia.
  - unfold LINE_LEN. lia.
Qed.

Lemma replace_dots w x y rest : 46 ∉ w -> 46 ∉ x -> 46 ∉ y ->
  (l ← replace_first 46 32 (w ++ 46 :: x ++ 46 :: y ++ 46 :: rest); l ← replace_first 46 32 l; replace_first 46 32 l) =
  Some (w ++ 32 :: x ++ 32 :: y ++ 32 :: rest).
Proof.
  intros Hw Hx Hy. rewrite replace_first_at by done. cbn [mbind option_bind].
  replace (w ++ 32 :: x ++ 46 :: y ++ 46 :: rest) with ((w ++ 32 :: x) ++ 46 :: y ++ 46 :: rest) by (by rewrite <-app_assoc).
  rewrite replace_first_at by (rewrite elem_of_app, elem_of_cons; intuition lia). cbn [mbind option_bind].
  replace ((w ++ 32 :: x) ++ 32 :: y ++ 46 :: rest) with ((w ++ 32 :: x ++ 32 :: y) ++ 46 :: rest)
    by (by rewrite <-!app_assoc; cbn; rewrite <-!app_assoc).
  rewrite replace_first_at by (rewrite elem_of_app, elem_of_cons, elem_of_app, elem_of_cons; intuition lia).
  f_equal. rewrite <-!app_assoc. cbn. by rewrite <-!app_assoc.
Qed.

Lemma scan_dotted a b c d rest : byte a -> byte b -> byte c -> byte d ->
  match rest with [] => True | x :: _ => isdigit x = false end ->
  scan_ints 4 (digits a ++ 32 :: digits b ++ 32 :: digits c ++ 32 :: digits d ++ rest) = ([a; b; c; d], rest).
Proof.
  intros Ha Hb Hc Hd Hr. cbn [scan_ints]. rewrite scan_int_digits by done. rewrite !scan_int_space by done.
  done.
Qed.


(** *** The lines of the file *)

Section Reading.
Context {L : SpuLib} {R : SessLib}.

(** The text of a network or a host, as the code sees it. *)
Lemma ip_lines_dotted a b c d rest ls : byte a -> byte b -> byte c -> byte d -> 0 ∉ rest ->
  ip_lines ((dotted a b c d ++ rest) :: ls) = (ip_line (digits a ++ 32 :: digits b ++ 32 :: digits c ++ 32 :: digits d ++ rest);; ip_lines ls).
Proof.
  intros Ha Hb Hc Hd Hr. cbn [ip_lines]. rewrite cstr_id.
  2: { rewrite elem_of_app. intros [H|H]; [|done]. revert H. apply plain_not; [by apply dotted_plain|lia]. }
  assert (Hhd : exists h t, dotted a b c d ++ rest = h :: t /\ 48 <= h <= 57).
  { destruct (digits_ok a Ha) as (Hds & _ & Hl). unfold dotted. destruct (digits a) as [|h t] eqn:E; [cbn in Hl; lia|].
    exists h. eexists. split; [reflexivity|]. apply (digit_bytes a); [done|]. rewrite E. apply list_elem_of_here. }
  destruct Hhd as (h & t & E & Hh). rewrite E. 
  replace (default 0 ((h :: t) !! O) =? 35) with false by (change (false = (h =? 35)); lia). cbn match.
  rewrite (bool_decide_eq_false_2 (take 4 _ = _)) by (change (str_bytes "unix") with [117; 110; 105; 120]; cbn [take]; intros E'; injection E' as E' _; lia).
  rewrite (bool_decide_eq_false_2 (take 5 _ = _)) by (change (str_bytes "local") with [108; 111; 99; 97; 108]; cbn [take]; intros E'; injection E' as E' _; lia).
  rewrite <-E. unfold dotted. repeat (rewrite <-app_assoc; cbn [app]).
  pose proof (digits_plain a Ha) as (_ & Na & _). pose proof (digits_plain b Hb) as (_ & Nb & _).
  pose proof (digits_plain c Hc) as (_ & Nc & _). by rewrite replace_dots.
Qed.

Lemma bytes_are_ints l : Forall byte l -> existsb (fun v => negb (is_int v)) l = false.
Proof.
  induction 1 as [|v l Hv _ IH]; [done|]. cbn [existsb]. rewrite IH, orb_false_r. unfold byte, is_int in *.
  destruct (Z.leb_spec (-2 ^ 31) v), (Z.ltb_spec v (2 ^ 31)); try lia.
Qed.

Definition allow (rules : list (Z * Z)) (s : St) : St :=
  with_sess (fun y => y <| Allow_Rules := rev rules ++ Allow_Rules (sess s) |>) s.
Lemma allow_allow l l' s : allow l' (allow l s) = allow (l ++ l') s.
Proof.
  transitivity (with_sess (fun y => y <| Allow_Rules := rev l' ++ rev l ++ Allow_Rules (sess s) |>) s); [done|].
  unfold allow. by rewrite rev_app_distr, <-app_assoc.
Qed.

Lemma allow_nil s : allow [] s = s.
Proof. destruct s as []. unfold allow, with_sess, sess. cbn. match goal with x : sess_state |- _ => by destruct x end. Qed.

Lemma ip_line_numbers vs rule line s : scan_address line = vs -> Forall byte vs ->
  (exists a b c d, rule = (ip_number a b c d, 32) /\ vs = [a; b; c; d]) \/
  (exists a b c d p, rule = (ip_number a b c d, p) /\ vs = [a; b; c; d; p]) ->
  ip_line line s = Ok tt (allow [rule] s).
Proof.
  intros E Hvs H. unfold ip_line. rewrite E, bytes_are_ints by done.
  destruct H as [(a & b & c & d & -> & ->)|(a & b & c & d & p & -> & ->)];
    rewrite !Forall_cons in Hvs; cbn [length]; rewrite ip_number_bits by tauto; reflexivity.
Qed.

Lemma scan_host a b c d : byte a -> byte b -> byte c -> byte d ->
  scan_address (digits a ++ 32 :: digits b ++ 32 :: digits c ++ 32 :: digits d ++ [10]) = [a; b; c; d].
Proof. intros Ha Hb Hc Hd. unfold scan_address. by rewrite scan_dotted. Qed.
Lemma scan_network a b c d p : byte a -> byte b -> byte c -> byte d -> byte p ->
  scan_address (digits a ++ 32 :: digits b ++ 32 :: digits c ++ 32 :: digits d ++ (47 :: digits p) ++ [10]) = [a; b; c; d; p].
Proof.
  intros Ha Hb Hc Hd Hp. unfold scan_address. cbn [app]. rewrite scan_dotted by done. cbn [length negb Nat.eqb].
  by rewrite scan_int_digits.
Qed.

(** A line that holds an item is its rules. *)
Lemma ip_lines_item x ls s : item_ok x ->
  ip_lines ((item_text x ++ [10]) :: ls) s = ip_lines ls (allow (item_rules x) s).
Proof.
  assert (Hnil : allow [] s = s) by apply allow_nil.
  destruct x as [text| | |a b c d|a b c d p]; cbn [item_ok item_text item_rules]; intros H.
  - rewrite Hnil. cbn [app ip_lines cstr]. reflexivity.
  - reflexivity.
  - reflexivity.
  - destruct H as (Ha & Hb & Hc & Hd). rewrite ip_lines_dotted by (try done; set_solver).
    unfold mbind, M_bind. rewrite (ip_line_numbers [a; b; c; d] (ip_number a b c d, 32)).
    { done. } { by apply scan_host. } { rewrite !list.Forall_cons, list.Forall_nil. tauto. } { left. by exists a, b, c, d. }
  - destruct H as (Ha & Hb & Hc & Hd & Hp%prefix_byte). rewrite <-app_assoc, ip_lines_dotted.
    2-5: done. 2: { rewrite elem_of_app. intros [H|H]; [|set_solver]. revert H. apply plain_not; [|lia].
      apply Forall_cons. split; [lia|]. by apply digits_plain. }
    unfold mbind, M_bind. rewrite (ip_line_numbers [a; b; c; d; p] (ip_number a b c d, p)).
    { done. } { by apply scan_network. } { rewrite !list.Forall_cons, list.Forall_nil. tauto. } { right. by exists a, b, c, d, p. }
Qed.

(** The items, and what ends the reading. *)
Lemma ip_lines_items items rest s : Forall item_ok items -> rest = [] \/ (exists r, rest = 10 :: r) ->
  ip_lines (file_lines (ip_text items ++ rest)) s = Ok tt (allow (concat (map item_rules items)) s).
Proof.
  intros Hi Hr. revert s. induction Hi as [|x items Hx _ IH]; intros s.
  - cbn [map concat]. rewrite allow_nil. destruct Hr as [->|[r ->]]; [done|].
    change (ip_text [] ++ 10 :: r) with ([] ++ 10 :: r). rewrite (file_lines_line [] r); [done|apply not_elem_of_nil|unfold LINE_LEN; cbn; lia].
  - unfold ip_text in *. cbn [map concat]. rewrite <-!app_assoc. cbn [app]. rewrite item_line, ip_lines_item by done.
    rewrite IH. by rewrite allow_allow.
Qed.

(** *** Who is admitted *)

(** "unix" means the clients of the Unix domain socket, who have no address, and no client that
    has one.  (The code asks the rules only for clients that have one: it admits neither.) *)
Definition item_admits (ip : Z) (x : ip_item) : Prop :=
  match x with
  | Comment _ | Unix => False
  | Local => ip / 2 ^ 24 = 127
  | Host a b c d => ip = ip_number a b c d
  | Network a b c d p => in_network ip (ip_number a b c d, p)
  end.
Lemma host_network ip n : in_network ip (n, 32) <-> ip = n.
Proof. unfold in_network. cbn [fst snd]. rewrite !Z.div_1_r, Z.mod_1_r. intuition congruence. Qed.
Lemma item_rules_admit ip x : ip <> 0 -> Exists (in_network ip) (item_rules x) <-> item_admits ip x.
Proof.
  intros Hip.
  destruct x; cbn [item_rules item_admits]; rewrite ?Exists_cons, ?Exists_nil, ?host_network; [tauto|tauto| |tauto..].
  unfold in_network. cbn [fst snd]. change (ip_number 127 0 0 0 / 2 ^ (32 - 8)) with 127.
  change (ip_number 127 0 0 0 mod 2 ^ (32 - 8)) with 0. change (2 ^ (32 - 8)) with (2 ^ 24).
  split; [intros [[H _]|[]]; by symmetry|intros H; left; split; [by symmetry|done]].
Qed.
Lemma item_rules_ok x : item_ok x -> Forall rule_ok (item_rules x).
Proof. destruct x; cbn [item_ok item_rules]; repeat constructor; unfold rule_ok; cbn [snd]; lia. Qed.
Lemma items_admit ip items : ip <> 0 ->
  Exists (in_network ip) (rev (concat (map item_rules items))) <-> Exists (item_admits ip) items.
Proof.
  intros Hip. transitivity (Exists (in_network ip) (concat (map item_rules items))).
  { rewrite !List.Exists_exists. split; intros (r & Hr & H); exists r; (split; [|done]); by apply in_rev in Hr || apply in_rev. }
  induction items as [|x items IH]; [by rewrite !Exists_nil|].
  cbn [map concat]. by rewrite Exists_app, Exists_cons, IH, item_rules_admit by done.
Qed.
Lemma items_rules_ok items : Forall item_ok items -> Forall rule_ok (rev (concat (map item_rules items))).
Proof.
  intros H. apply List.Forall_rev, List.Forall_concat, List.Forall_map. eapply list.Forall_impl; [exact H|]. apply item_rules_ok.
Qed.

Lemma ip_init_state items rest s : Forall item_ok items -> rest = [] \/ (exists r, rest = 10 :: r) ->
  Z.of_nat (length (Auth_Methods (sess s))) < MAX_AUTH_METHODS ->
  wp total (ip_init (Some (ip_text items ++ rest))) (fun _ s' => IP_File_Loaded (sess s') = true /\
    Auth_Methods (sess s') = Auth_Methods (sess s) ++ [mk_auth_info (str_bytes "IP") false false IP_ops] /\
    Allow_Rules (sess s') = rev (concat (map item_rules items)) ++ Allow_Rules (sess s)) s.
Proof.
  intros Hi Hr Hm. unfold ip_init, Acm_auth_add_method. wp_step. wp_step. g_step.
  destruct (Z.eqb_spec (Z.of_nat (length (Auth_Methods (sess s)))) MAX_AUTH_METHODS); [lia|].
  wp_step. g_step. wp_step. wp_step. wp_step; [done|]. wp_step.
  eapply wp_returns; [by apply ip_lines_items|]. g_step. done.
Qed.
End Reading.

(** C28. A file of networks, hosts, "localhost", "unix" and comments, each on a line of its own, is read as what
    it says of the clients that have an IPv4 address (not 0.0.0.0, as which "unix" is entered): [ip_init]
    registers the method IP, and from then on such a client is allowed exactly when its address is in one of the
    networks of the file (or of the rules from before).  A line "unix" allows none of them.  An empty line ends
    the file: what follows it is not looked at; the code only reports the line. *)
Theorem ip_init_reads {L : SpuLib} {R : SessLib} (items : list ip_item) (rest : list Z) (client_ip : Z) (s : St) :
  Forall item_ok items -> rest = [] \/ (exists r, rest = 10 :: r) ->
  Z.of_nat (length (Auth_Methods (sess s))) < MAX_AUTH_METHODS ->
  Forall rule_ok (Allow_Rules (sess s)) -> 0 < client_ip < 2 ^ 32 ->
  wp total (ip_init (Some (ip_text items ++ rest));; rules ← gget Allow_Rules; ip_allowed client_ip rules)
    (fun allowed s' => IP_File_Loaded (sess s') = true /\
      Auth_Methods (sess s') = Auth_Methods (sess s) ++ [mk_auth_info (str_bytes "IP") false false IP_ops] /\
      (allowed = true <-> Exists (item_admits client_ip) items \/ Exists (in_network client_ip) (Allow_Rules (sess s)))) s.
Proof.
  intros Hi Hr Hm Ho Hip. wp_step. eapply wp_mono; [by apply ip_init_state|].
  intros u s1 (Hl & Ha & Er). wp_step. g_step. eapply wp_mono.
  - apply ip_allowed_networks; [lia|]. rewrite Er. apply Forall_app. split; [by apply items_rules_ok|done].
  - cbn beta. intros r s2 [-> H]. rewrite H, Er, Exists_app, items_admit by lia. done.
Qed.

(** The network 10.1.2.0/24 and the local host; a rule after an empty line is not read. *)
Definition demo_items : list ip_item := [Comment (str_bytes " who may connect"); Unix; Local; Network 10 1 2 0 24].
Example demo_items_text : ip_text demo_items =
  str_bytes "# who may connect" ++ [10] ++ str_bytes "unix" ++ [10] ++ str_bytes "localhost" ++ [10] ++ str_bytes "10.1.2.0/24" ++ [10].
Proof. vm_compute. reflexivity. Qed.
Definition demo_rest : list Z := 10 :: str_bytes "10.1.3.0/24".
Definition no_methods (s : St) : St := with_sess (fun y => y <| Auth_Methods := [] |> <| Allow_Rules := [] |>) s.

Lemma ip_init_reads_witness : exists allowed s',
  (ip_init (Some (ip_text demo_items ++ demo_rest));; rules ← gget Allow_Rules; ip_allowed 0x0a010207 rules)
    (no_methods demo_groups) = Ok allowed s' /\ allowed = true.
Proof.
  assert (Hi : Forall item_ok demo_items).
  { repeat constructor; unfold byte; try lia; try (vm_compute; lia). vm_compute. intros H. by repeat (inversion H as [|? ? ? H']; clear H; rename H' into H). }
  assert (Hm : Z.of_nat (length (Auth_Methods (sess (no_methods demo_groups)))) < MAX_AUTH_METHODS) by (vm_compute; reflexivity).
  assert (Ho : Forall rule_ok (Allow_Rules (sess (no_methods demo_groups)))) by constructor.
  assert (Hip : 0 < 0x0a010207 < 2 ^ 32) by lia.
  destruct (wp_total_ex _ _ _ (ip_init_reads demo_items demo_rest 0x0a010207 (no_methods demo_groups) Hi
    (or_intror (ex_intro _ (str_bytes "10.1.3.0/24") eq_refl)) Hm Ho Hip)) as (r & s' & E & _ & _ & H).
  exists r, s'. split; [exact E|]. apply H. left. do 3 right. left. vm_compute. split; reflexivity.
Defined.
