(* ===== verification/Monitor.v ===== *)
(** * The monitor: [monitor.c]

    The program [spmonitor]: an operator types commands, and the monitor sends the daemons
    partitions, flow control windows, status queries and requests to reload.  The build without
    threads is modelled: one loop of events handles the standard input and the two timers.  What
    is printed, and with it [Report_message], is not. *)

From S2P Require Import Prelude NetTypes Configuration State Message Stdutil SessState Acm.
From S2P Require Import ConfigState ConfigParse ConfigLoad AccessFiles.

(** Functions queued in the event system, and the descriptors it watches. *)
Inductive mon_event := Send_partition_event | Send_status_query_event.
#[export] Instance mon_event_eq_dec : EqDecision mon_event.
Proof. solve_decision. Defined.
Inductive mon_fd := User_command_fd | Report_message_fd.

(** What the monitor asks for. *)
Inductive mon_call (addr : Type) :=
| mon_send (d : datagram) (a : addr)
| mon_queue (e : mon_event) (t : sp_time)
| mon_dequeue (e : mon_event)
| mon_attach_fd (f : mon_fd) (p : priority)
| mon_start (c : start_call addr).
Arguments mon_send {addr}. Arguments mon_queue {addr}. Arguments mon_dequeue {addr}.
Arguments mon_attach_fd {addr}. Arguments mon_start {addr}.

(** What the command line says. *)
Record mon_options := mk_mon_options {
  opt_My_name : option string; opt_Config_file : string;
  opt_My_port : Z; opt_Send_status_timeout : sp_time }.

Section State.
Context {L : SpuLib} {R : SessLib} {C : ConfLib}.

(** The file-scope variables.  [mon_conf] are those of configuration.c, of which [Cn] and [My]
    are copies; [stdin] is what the successive [fgets(str, 70, stdin)] will give. *)
Record mon_st := mk_mon_st {
  mon_conf : load_st;
  options : mon_options;
  Pack : packet_header;
  mon_Partition : list Z;
  Work_partition : list Z;
  Fc_buf : list (Z * Z);
  Work_fc_buf : list (Z * Z);
  Status_vector : list Z;
  Status_active : bool;
  Partition_active : bool;
  stdin : list (list Z);
  mon_calls : list (mon_call spu_addr)
}.
Definition eta_mon_st (m : mon_st) := mk_mon_st (mon_conf m) (options m) (Pack m) (mon_Partition m)
  (Work_partition m) (Fc_buf m) (Work_fc_buf m) (Status_vector m) (Status_active m)
  (Partition_active m) (stdin m) (mon_calls m).
#[export] Instance set_mon_conf : Setter mon_conf := ltac:(make_setter eta_mon_st).
#[export] Instance set_options : Setter options := ltac:(make_setter eta_mon_st).
#[export] Instance set_Pack : Setter Pack := ltac:(make_setter eta_mon_st).
#[export] Instance set_mon_Partition : Setter mon_Partition := ltac:(make_setter eta_mon_st).
#[export] Instance set_Work_partition : Setter Work_partition := ltac:(make_setter eta_mon_st).
#[export] Instance set_Fc_buf : Setter Fc_buf := ltac:(make_setter eta_mon_st).
#[export] Instance set_Work_fc_buf : Setter Work_fc_buf := ltac:(make_setter eta_mon_st).
#[export] Instance set_Status_vector : Setter Status_vector := ltac:(make_setter eta_mon_st).
#[export] Instance set_Status_active : Setter Status_active := ltac:(make_setter eta_mon_st).
#[export] Instance set_Partition_active : Setter Partition_active := ltac:(make_setter eta_mon_st).
#[export] Instance set_stdin : Setter stdin := ltac:(make_setter eta_mon_st).
#[export] Instance set_mon_calls : Setter mon_calls := ltac:(make_setter eta_mon_st).

Abbreviation P := (M mon_st).

Definition Cn (m : mon_st) : configuration := Config (daemon (mon_conf m)).
Definition mon_My (m : mon_st) : proc := My (daemon (mon_conf m)).
Definition mon_do (c : mon_call spu_addr) : P unit := modify (fun m => m <| mon_calls ::= fun l => l ++ [c] |>).
Definition on_conf {A} (a : M load_st A) : P A := fun m =>
  match a (mon_conf m) with Ok x c => Ok x (m <| mon_conf := c |>) | Fail e => Fail e end.

(** [a[i] = x] and writing the first [n] entries of an array. *)
Definition put {A} (l : list A) (i : Z) (x : A) : P (list A) := or_fail Undefined (arr_set l i x).
Definition put_first {A} (n : Z) (new old : list A) : P (list A) :=
  undef_if (Z.of_nat (length old) <? n);;
  mret (take (Z.to_nat n) new ++ drop (Z.to_nat n) old).

(** The two nested loops, over the segments and the daemons of each. *)
Definition for_procs (body : Z -> proc -> P unit) : P unit :=
  cn ← gets Cn;
  for_each (procs_of (segments cn)) (fun q =>
    '(proc_index, p) ← or_fail Undefined (Conf_proc_by_id_in_conf cn (id q));
    body proc_index p).

(** ** What is typed *)

(** What [sscanf(str, "%d", &temp)] finds: 1, -1 or 0. *)
Inductive scanned := Number (v : Z) | Blank | No_number.
Definition sscanf_d (str : list Z) : scanned :=
  match skip_space (cstr str) with
  | [] => Blank
  | _ => match scan_int (cstr str) with Some (v, _) => Number v | None => No_number end
  end.

(** Lines are read to one with a number, or a blank one where [blank] says what it stands for; a
    line that is not accepted leaves an entry that is written again.  The end of the input is an
    [exit]. *)
Fixpoint read_number (blank : option Z) (ls : list (list Z)) : option (Z * list (list Z)) :=
  match ls with
  | [] => None
  | str :: ls =>
      match sscanf_d str, blank with
      | Number v, _ => Some (v, ls)
      | Blank, Some d => Some (d, ls)
      | _, _ => read_number blank ls
      end
  end.
Definition ask_number (blank : option Z) : P Z :=
  ls ← gets stdin;
  '(temp, ls) ← or_fail Fatal (read_number blank ls);
  undef_if (negb (is_int temp));;
  modify (fun m => m <| stdin := ls |>);;
  mret (i16 temp).

(** Names of daemons, to an empty line: [all] and [none] set every entry, a name its own.  [%s]
    writes to an array of [MAX_PROC_NAME]. *)
Definition choose (cn : configuration) (yes no : Z) (w : list Z) (vec : list Z) : P (list Z) :=
  let n := Conf_num_procs cn in
  if str_eqb w (str_bytes "all") then put_first n (replicate (Z.to_nat n) yes) vec
  else if str_eqb w (str_bytes "none") then put_first n (replicate (Z.to_nat n) no) vec
  else match find_index (fun p => str_eqb (str_bytes (name p)) w) (allprocs cn) with
       | Some (proc_index, _) => put vec proc_index yes
       | None => mret vec
       end.
Fixpoint read_names (cn : configuration) (yes no : Z) (ls : list (list Z)) (vec : list Z) : P (list Z) :=
  match ls with
  | [] => fatal
  | str :: ls =>
      modify (fun m => m <| stdin := ls |>);;
      if default 0 (str !! O) =? 10 then mret vec else
      match scan_string (length str) (cstr str) with
      | None => read_names cn yes no ls vec
      | Some (w, _) =>
          undef_if (MAX_PROC_NAME <=? Z.of_nat (length w));;
          vec ← choose cn yes no w vec;
          read_names cn yes no ls vec
      end
  end.
Definition ask_names (yes no : Z) (vec : list Z) : P (list Z) :=
  cn ← gets Cn; ls ← gets stdin; read_names cn yes no ls vec.

(** ** What is sent *)

Definition bytes16s (l : list Z) : list Z := concat (map bytes16 l).
Definition fc_bytes (l : list (Z * Z)) : list Z := concat (map (fun x => bytes16 x.1 ++ bytes16 x.2) l).
Definition sizeof_partition : Z := 2 * MAX_PROCS_RING.
Definition sizeof_fc_buf : Z := 4 * MAX_PROCS_RING.

Definition set_pack (t len : Z) : P unit :=
  modify (fun m => m <| Pack ::= fun h => h <| p_type := Set_endian t |> <| p_data_len := len |> |>).
Definition send_to (body : list Z) (p : proc) : P unit :=
  h ← gets Pack; mon_do (mon_send (Packet h body) (proc_addr p)).
Definition send_twice (body : list Z) (p : proc) : P unit := send_to body p;; send_to body p.

Definition Define_partition : P unit :=
  for_procs (fun proc_index p =>
    temp ← ask_number None;
    l ← gets Work_partition; l ← put l proc_index temp;
    modify (fun m => m <| Work_partition := l |>)).

Definition Send_partition_timeout : sp_time := mk_sp_time 25 0.
Definition Send_partition : P unit :=
  set_pack PARTITION_TYPE sizeof_partition;;
  part ← gets mon_Partition;
  for_procs (fun _ p => send_twice (bytes16s part) p);;
  mon_do (mon_queue Send_partition_event Send_partition_timeout).

(** The entries of a daemon, and at [Conf_num_procs] the window of all. *)
Definition set_fc (i : Z) (f : Z * Z -> Z * Z) : P unit :=
  l ← gets Work_fc_buf;
  x ← or_fail Undefined (arr_get l i);
  l ← put l i (f x);
  modify (fun m => m <| Work_fc_buf := l |>).
Definition Define_flow_control : P unit :=
  cn ← gets Cn;
  temp ← ask_number (Some (-1)); set_fc (Conf_num_procs cn) (fun x => (temp, x.2));;
  for_procs (fun proc_index p =>
    temp ← ask_number (Some (-1)); set_fc proc_index (fun x => (temp, x.2));;
    acc ← gets (fun m => conf_AcceleratedRing (daemon (mon_conf m)));
    when acc (temp ← ask_number (Some (-1)); set_fc proc_index (fun x => (x.1, temp)))).

Definition Send_flow_control : P unit :=
  set_pack FC_TYPE sizeof_fc_buf;;
  fc ← gets Fc_buf;
  for_procs (fun _ p => send_twice (fc_bytes fc) p).

Definition Send_status_query : P unit :=
  set_pack STATUS_TYPE 0;;
  for_procs (fun proc_index p =>
    v ← gets Status_vector; x ← or_fail Undefined (arr_get v proc_index);
    when (truth x) (send_to [] p));;
  t ← gets (fun m => opt_Send_status_timeout (options m));
  mon_do (mon_queue Send_status_query_event t).

Definition Activate_status : P unit :=
  vec ← gets Status_vector; vec ← ask_names 1 0 vec;
  modify (fun m => m <| Status_vector := vec |>);;
  mon_do (mon_dequeue Send_status_query_event);;
  cn ← gets Cn;
  let active := existsb truth (take (Z.to_nat (Conf_num_procs cn)) vec) in
  modify (fun m => m <| Status_active := active |>);;
  when active Send_status_query.

(** Those that are not to end keep their partitions in the array that is sent. *)
Definition Kill_spreads : P unit :=
  vec ← ask_names (-1) 0 (replicate (Z.to_nat MAX_PROCS_RING) 0);
  cn ← gets Cn; part ← gets mon_Partition;
  kill ← put_first (Conf_num_procs cn) (zip_with (fun k x => if k =? -1 then k else x) vec part) vec;
  set_pack PARTITION_TYPE sizeof_partition;;
  for_procs (fun proc_index p =>
    x ← or_fail Undefined (arr_get kill proc_index);
    when (x =? -1) (send_twice (bytes16s kill) p)).

(** ** Commands *)

(** [file] and [ips] are the file and the addresses of the machine as they are when they are
    read. *)
Definition read_configuration (file : conf_file) (ips : list spu_addr) : P unit :=
  o ← gets options;
  on_conf (Conf_init file ips (opt_My_name o));;
  modify (fun m => m <| Pack ::= fun h => h <| p_conf_hash := hash_code (Cn m) |>
    <| p_transmiter_id := id (mon_My m) |> <| p_proc_id := id (mon_My m) |> <| p_seq := opt_My_port o |> |>).

Definition zeros {A} (x : A) (l : list A) : P (list A) :=
  cn ← gets Cn; let n := Conf_num_procs cn in put_first n (replicate (Z.to_nat n) x) l.

Definition Reload_Conf (file : conf_file) (ips : list spu_addr) : P unit :=
  set_pack RELOAD_TYPE 0;;
  for_procs (fun _ p => send_twice [] p);;
  read_configuration file ips;;
  m ← gets (fun m => m);
  part ← zeros 0 (mon_Partition m); work ← zeros 0 (Work_partition m);
  fc ← zeros (0, 0) (Fc_buf m); wfc ← zeros (0, 0) (Work_fc_buf m);
  vec ← zeros 0 (Status_vector m);
  modify (fun m => m <| mon_Partition := part |> <| Work_partition := work |> <| Fc_buf := fc |>
    <| Work_fc_buf := wfc |> <| Status_vector := vec |> <| Partition_active := false |>);;
  mon_do (mon_dequeue Send_partition_event);;
  modify (fun m => m <| Status_active := false |>);;
  mon_do (mon_dequeue Send_status_query_event).

(** The commands of [User_command], by the first character of the line. *)
Definition Use_partition : P unit :=
  cn ← gets Cn; part ← gets mon_Partition; work ← gets Work_partition;
  part ← put_first (Conf_num_procs cn) work part;
  modify (fun m => m <| mon_Partition := part |> <| Partition_active := true |>);;
  Send_partition.
Definition Cancel_partition : P unit :=
  part ← gets mon_Partition; part ← zeros 0 part;
  work ← gets Work_partition; work ← zeros 0 work;
  modify (fun m => m <| mon_Partition := part |> <| Work_partition := work |> <| Partition_active := false |>);;
  Send_partition;;
  mon_do (mon_dequeue Send_partition_event).
Definition Use_flow_control : P unit :=
  cn ← gets Cn; fc ← gets Fc_buf; work ← gets Work_fc_buf;
  fc ← put_first (Conf_num_procs cn + 1) work fc;
  modify (fun m => m <| Fc_buf := fc |>);;
  Send_flow_control.

(** [Print_flow_control] reads the window of all. *)
Definition Print_flow_control (fc : list (Z * Z)) : P unit :=
  cn ← gets Cn;
  _ ← or_fail Undefined (arr_get fc (Conf_num_procs cn));
  for_procs (fun proc_index _ => _ ← or_fail Undefined (arr_get fc proc_index); mret tt).
Definition Print_partition (part : list Z) : P unit :=
  for_procs (fun proc_index _ => _ ← or_fail Undefined (arr_get part proc_index); mret tt).

Definition User_command (file : conf_file) (ips : list spu_addr) : P unit :=
  ls ← gets stdin;
  '(command, ls) ← or_fail Fatal (match ls with [] => None | l :: ls => Some (l, ls) end);
  modify (fun m => m <| stdin := ls |>);;
  let c := default 0 (command !! O) in
  if c =? 48 then Activate_status
  else if c =? 49 then Define_partition;; l ← gets Work_partition; Print_partition l
  else if c =? 50 then Use_partition
  else if c =? 51 then l ← gets mon_Partition; Print_partition l
  else if c =? 52 then Cancel_partition
  else if c =? 53 then Define_flow_control;; l ← gets Work_fc_buf; Print_flow_control l
  else if c =? 54 then Use_flow_control
  else if c =? 55 then l ← gets Fc_buf; Print_flow_control l
  else if c =? 56 then Kill_spreads
  else if c =? 114 then Reload_Conf file ips
  else if (c =? 57) || (c =? 113) then fatal
  else mret tt.

(** What [E_handle_events] calls: the command line is ready, or a timer is due. *)
Inductive mon_input := Typed (file : conf_file) (ips : list spu_addr) | Due (e : mon_event).
Definition handle_input (i : mon_input) : P unit :=
  match i with
  | Typed file ips => User_command file ips
  | Due Send_partition_event => Send_partition
  | Due Send_status_query_event => Send_status_query
  end.
End State.

(** ** The command line *)

(** The digits of a number in a base, and [strtol(s, &end, 0)] of a string that it reads to its
    end: [None] otherwise, or where the number does not fit a [long]. *)
Definition digit_of (c : Z) : Z :=
  if isdigit c then c - 48
  else if (97 <=? c) && (c <=? 102) then c - 87
  else if (65 <=? c) && (c <=? 70) then c - 55 else 99.
Definition number_of (base : Z) (l : list Z) : option Z :=
  match l with
  | [] => None
  | _ => if forallb (fun c => digit_of c <? base) l
         then Some (fold_left (fun v c => base * v + digit_of c) l 0) else None
  end.
Definition strtol (s : list Z) : option Z :=
  let l := skip_space s in
  let '(neg, l) := match l with 45 :: l => (true, l) | 43 :: l => (false, l) | _ => (false, l) end in
  v ← match l with
      | 48 :: x :: ((_ :: _) as l') => if (x =? 120) || (x =? 88) then number_of 16 l' else number_of 8 l
      | 48 :: _ => number_of 8 l
      | _ => number_of 10 l
      end;
  let v := if neg : bool then - v else v in
  if (- 2 ^ 63 <=? v) && (v <? 2 ^ 63) then Some v else None.

(** [None] is an exit with the help. *)
Fixpoint monitor_args (o : mon_options) (argv : list string) : option mon_options :=
  match argv with
  | [] => Some o
  | [_] => None
  | a :: v :: argv =>
      if String.eqb a "-p" then
        tmp ← strtol (str_bytes v);
        if (tmp <? 0) || (65535 <? tmp) then None else
        monitor_args (mk_mon_options (opt_My_name o) (opt_Config_file o) tmp (opt_Send_status_timeout o)) argv
      else if String.eqb a "-n" then
        if MAX_PROC_NAME - 1 <? Z.of_nat (String.length v) then None else
        monitor_args (mk_mon_options (Some v) (opt_Config_file o) (opt_My_port o) (opt_Send_status_timeout o)) argv
      else if String.eqb a "-t" then
        tmp ← strtol (str_bytes v);
        if tmp <=? 0 then None else
        monitor_args (mk_mon_options (opt_My_name o) (opt_Config_file o) (opt_My_port o) (mk_sp_time tmp 0)) argv
      else if String.eqb a "-c" then
        if 79 <? Z.of_nat (String.length v) then None else
        monitor_args (mk_mon_options (opt_My_name o) v (opt_My_port o) (opt_Send_status_timeout o)) argv
      else None
  end.
Definition monitor_Usage (argv : list string) : option mon_options :=
  monitor_args (mk_mon_options None "spread.conf" 6543 (mk_sp_time 10 0)) argv.

Section Main.
Context {L : SpuLib} {R : SessLib} {C : ConfLib}.

(** Up to [E_handle_events]; [file_at] is the configuration file of a name. *)
Definition monitor_main (file_at : string -> conf_file) (ips : list spu_addr) (argv : list string) : M mon_st unit :=
  o ← or_fail Fatal (monitor_Usage argv);
  modify (fun m => m <| options := o |>);;
  read_configuration (file_at (opt_Config_file o)) ips;;
  part ← gets mon_Partition; part ← zeros 0 part;
  modify (fun m => m <| mon_Partition := part |>);;
  vec ← gets Status_vector; vec ← zeros 0 vec;
  modify (fun m => m <| Status_vector := vec |>);;
  my ← gets mon_My;
  mon_do (mon_start (DL_init_channel_gen (mk_channel_flags true true false)
    (spu_addr_ip_set_port (proc_addr my) (opt_My_port o))));;
  mon_do (mon_start E_init);;
  mon_do (mon_attach_fd User_command_fd LOW_PRIORITY);;
  mon_do (mon_attach_fd Report_message_fd HIGH_PRIORITY).
End Main.
