(* ===== verification/MonitorProps.v ===== *)
(** * Runs of the monitor

    What each command of monitor.c sends and leaves behind, and what holds of the arrays, the
    header and the timers in every run. *)

From S2P Require Import Prelude NetTypes Configuration State Network NetFacts FlowControl.
From S2P Require Import Message Stdutil SessState Acm ConfigState ConfigParse ConfigLoad ConfigDaemon ConfigProps ConfigReload.
From S2P Require Import Demo GroupsDemo ConfigDemo AccessFiles Monitor.

(** ** Lists *)

Lemma find_index_in {A B} (f : A -> B) (P : A -> bool) pre x post :
  NoDup (map f (pre ++ x :: post)) -> (forall y, P y = true <-> f y = f x) ->
  find_index P (pre ++ x :: post) = Some (Z.of_nat (length pre), x).
Proof.
  intros Hnd HP. rewrite find_index_app_r.
  - cbn. assert (P x = true) as -> by by apply HP. by rewrite Z.add_0_l.
  - apply Forall_forall. intros y Hy. apply Bool.not_true_iff_false. intros E%HP.
    rewrite map_app in Hnd. apply NoDup_app in Hnd as (_ & Hnd & _).
    apply (Hnd (f y)); [by apply list_elem_of_fmap_2|]. rewrite E. left.
Qed.
Lemma suffix_cons_l {A} (x : A) l l' : suffix (x :: l) l' -> suffix l l'.
Proof. intros [k ->]. exists (k ++ [x]). by rewrite <-app_assoc. Qed.

Lemma str_eqb_spec (a b : list Z) : str_eqb a b = true <-> a = b.
Proof. apply bool_decide_eq_true. Qed.
Lemma str_bytes_inj a b : str_bytes a = str_bytes b -> a = b.
Proof.
  unfold str_bytes. intros H. rewrite <-(String.string_of_list_ascii_of_string a), <-(String.string_of_list_ascii_of_string b).
  f_equal. revert H. generalize (String.list_ascii_of_string b). induction (String.list_ascii_of_string a) as [|x l IH];
    intros [|y l'] H; try done. injection H as Hx%Nat2Z.inj H. f_equal; [|by apply IH].
  by rewrite <-(Ascii.ascii_nat_embedding x), Hx, Ascii.ascii_nat_embedding.
Qed.

(** ** The state *)

Section Monitor.
Context {L : SpuLib} {R : SessLib} {C : ConfLib}.
Context (Hfamily : forall a, spu_addr_family a <> -1).
Implicit Types (m : mon_st) (p : proc).

(** The last thing said of a timer. *)
Definition queued (e : mon_event) (l : list (mon_call spu_addr)) : bool :=
  fold_left (fun b c => match c with
    | mon_queue e' _ => if decide (e' = e) then true else b
    | mon_dequeue e' => if decide (e' = e) then false else b
    | _ => b end) l false.
Lemma queued_app e l l' : queued e (l ++ l') = fold_left (fun b c => match c with
    | mon_queue e' _ => if decide (e' = e) then true else b
    | mon_dequeue e' => if decide (e' = e) then false else b
    | _ => b end) l' (queued e l).
Proof. apply fold_left_app. Qed.
Definition is_send (c : mon_call spu_addr) : Prop := match c with mon_send _ _ => True | _ => False end.
Lemma queued_sends e l l' : Forall is_send l' -> queued e (l ++ l') = queued e l.
Proof.
  intros H. rewrite queued_app. revert H. generalize (queued e l). induction l' as [|c l' IH]; intros b H; [done|].
  apply Forall_cons in H as [Hc H]. cbn. destruct c; try done. by apply IH.
Qed.

(** What holds between commands: the arrays have their sizes, the header names the monitor and
    its configuration. *)
Record mon_ok m : Prop := {
  mo_loaded : loaded (mon_conf m);
  mo_part : Z.of_nat (length (mon_Partition m)) = MAX_PROCS_RING;
  mo_work : Z.of_nat (length (Work_partition m)) = MAX_PROCS_RING;
  mo_fc : Z.of_nat (length (Fc_buf m)) = MAX_PROCS_RING;
  mo_wfc : Z.of_nat (length (Work_fc_buf m)) = MAX_PROCS_RING;
  mo_vec : Z.of_nat (length (Status_vector m)) = MAX_PROCS_RING;
  mo_hash : p_conf_hash (Pack m) = hash_code (Cn m);
  mo_from : p_transmiter_id (Pack m) = id (mon_My m) /\ p_proc_id (Pack m) = id (mon_My m);
  mo_part_i16 : Forall is_i16 (mon_Partition m);
  mo_work_i16 : Forall is_i16 (Work_partition m)
}.
(** A timer is queued exactly if what it sends is active. *)
Definition timers_ok m : Prop :=
  queued Send_partition_event (mon_calls m) = Partition_active m /\
  queued Send_status_query_event (mon_calls m) = Status_active m.

Lemma loaded_count c : loaded c ->
  Conf_num_procs (Config (daemon c)) = Z.of_nat (length (allprocs (Config (daemon c)))).
Proof. intros H. by rewrite Conf_num_procs_length, <-(ld_all _ H). Qed.

(** The loops over the daemons: each, with its place among all. *)
Lemma wp_for_procs E body (I : list proc -> mon_st -> Prop) m : loaded (mon_conf m) -> I [] m ->
  (forall pre p post m', allprocs (Cn m) = pre ++ p :: post -> I pre m' ->
    wp E (body (Z.of_nat (length pre)) p) (fun _ => I (pre ++ [p])) m') ->
  wp E (for_procs body) (fun _ => I (allprocs (Cn m))) m.
Proof.
  intros Hl H0 Hb. unfold for_procs. wp_step. wp_step. unfold Cn in *. rewrite <-(ld_all _ Hl).
  set (l := allprocs _) in *. pose proof (id_ids _ (ld_identified _ Hl)) as Hnd. fold l in Hnd.
  enough (forall post pre m', l = pre ++ post -> I pre m' -> wp E (for_each post (fun q =>
    '(i, p) ← or_fail Undefined (Conf_proc_by_id_in_conf (Config (daemon (mon_conf m))) (id q)); body i p)) (fun _ => I l) m')
    as H by by apply (H l []).
  induction post as [|p post IH]; intros pre m' El Hm'.
  - rewrite app_nil_r in El. subst pre. by apply wp_ret.
  - assert (Conf_proc_by_id_in_conf (Config (daemon (mon_conf m))) (id p) = Some (Z.of_nat (length pre), p)) as Hp.
    { unfold Conf_proc_by_id_in_conf. fold l. rewrite El. apply (find_index_in id); [by rewrite <-El|].
      intros y. apply Z.eqb_eq. }
    cbn [for_each]. wp_step. wp_step. rewrite Hp. apply wp_ret.
    eapply wp_mono; [by eapply Hb|]. intros u m2 H2. apply (IH (pre ++ [p])); [by rewrite <-app_assoc|done].
Qed.

(** ** What is sent *)

Definition more (l : list (mon_call spu_addr)) m : mon_st := m <| mon_calls ::= fun l0 => l0 ++ l |>.
Lemma more_nil m : more [] m = m.
Proof. unfold more, set_field, set_mon_calls. cbn. rewrite app_nil_r. by destruct m. Qed.
Lemma more_more l l' m : more l' (more l m) = more (l ++ l') m.
Proof. unfold more, set_field, set_mon_calls. cbn. by rewrite <-app_assoc. Qed.
Lemma more_none {A} (l : list A) m : more (concat (imap (fun _ _ => []) l)) m = m.
Proof.
  replace (concat _) with (@nil (mon_call spu_addr)); [apply more_nil|]. by induction l.
Qed.
Lemma wp_mon_do E c m : wp E (mon_do c) (fun _ m' => m' = more [c] m) m.
Proof. unfold mon_do. by wp_step. Qed.

(** A loop that only asks for things. *)
Lemma wp_asking E body (f : Z -> proc -> list (mon_call spu_addr)) m : loaded (mon_conf m) ->
  (forall (i : nat) p l, allprocs (Cn m) !! i = Some p ->
    wp E (body (Z.of_nat i) p) (fun _ m' => m' = more (f (Z.of_nat i) p) (more l m)) (more l m)) ->
  wp E (for_procs body)
    (fun _ m' => m' = more (concat (imap (fun i p => f (Z.of_nat i) p) (allprocs (Cn m)))) m) m.
Proof.
  intros Hl Hb. apply (wp_for_procs E body (fun pre m' => m' = more (concat (imap (fun i p => f (Z.of_nat i) p) pre)) m));
    [done|by rewrite more_nil|].
  intros pre p post m' Hpre ->. eapply wp_mono; [apply Hb|].
  - rewrite Hpre, lookup_app_r, Nat.sub_diag; [done|lia].
  - intros u m2 ->. rewrite more_more, imap_app, concat_app. cbn. by rewrite Nat.add_0_r, app_nil_r.
Qed.

Definition pack_with (t len : Z) (h : packet_header) : packet_header := h <| p_type := Set_endian t |> <| p_data_len := len |>.
Definition packed (t len : Z) m : mon_st := m <| Pack ::= pack_with t len |>.
Definition twice (d : datagram) p : list (mon_call spu_addr) := [mon_send d (proc_addr p); mon_send d (proc_addr p)].
Definition to_all (d : datagram) m : list (mon_call spu_addr) := concat (imap (fun _ => twice d) (allprocs (Cn m))).

Lemma wp_send_to E body p m : wp E (send_to body p) (fun _ m' => m' = more [mon_send (Packet (Pack m) body) (proc_addr p)] m) m.
Proof. unfold send_to. wp_step. wp_step. apply wp_mon_do. Qed.
Lemma wp_send_twice E body p m : wp E (send_twice body p) (fun _ m' => m' = more (twice (Packet (Pack m) body) p) m) m.
Proof.
  unfold send_twice. wp_step. eapply wp_mono; [apply wp_send_to|]. intros u m1 ->.
  eapply wp_mono; [apply wp_send_to|]. intros u2 m2 ->. by rewrite more_more.
Qed.

Lemma wp_set_pack E t len (Q : unit -> mon_st -> Prop) m : Q tt (packed t len m) -> wp E (set_pack t len) Q m.
Proof. intros H. unfold set_pack. by wp_step. Qed.
Lemma Send_partition_spec E m : loaded (mon_conf m) -> wp E Send_partition (fun _ m' => m' =
  more (to_all (Packet (pack_with PARTITION_TYPE sizeof_partition (Pack m)) (bytes16s (mon_Partition m))) m ++
        [mon_queue Send_partition_event Send_partition_timeout]) (packed PARTITION_TYPE sizeof_partition m)) m.
Proof.
  intros Hl. unfold Send_partition. wp_step. apply wp_set_pack.
  wp_step. wp_step. wp_step.
  eapply wp_mono; [apply (wp_asking _ _ (fun _ => twice (Packet (Pack (packed PARTITION_TYPE sizeof_partition m)) (bytes16s (mon_Partition m))))); [done|]|].
  - intros i p l _. eapply wp_mono; [apply wp_send_twice|]. by intros u m' ->.
  - intros u m1 ->. eapply wp_mono; [apply wp_mon_do|]. intros u2 m2 ->. by rewrite more_more.
Qed.

Lemma Send_flow_control_spec E m : loaded (mon_conf m) -> wp E Send_flow_control (fun _ m' => m' =
  more (to_all (Packet (pack_with FC_TYPE sizeof_fc_buf (Pack m)) (fc_bytes (Fc_buf m))) m) (packed FC_TYPE sizeof_fc_buf m)) m.
Proof.
  intros Hl. unfold Send_flow_control. wp_step. apply wp_set_pack.
  wp_step. wp_step.
  eapply wp_mono; [apply (wp_asking _ _ (fun _ => twice (Packet (Pack (packed FC_TYPE sizeof_fc_buf m)) (fc_bytes (Fc_buf m))))); [done|]|].
  - intros i p l _. eapply wp_mono; [apply wp_send_twice|]. by intros u m' ->.
  - by intros u m' ->.
Qed.

Lemma in_array {A} (l : list A) m (i : nat) p : loaded (mon_conf m) -> Z.of_nat (length l) = MAX_PROCS_RING ->
  allprocs (Cn m) !! i = Some p -> is_Some (l !! i).
Proof.
  intros Hl Hlen Hi%lookup_lt_Some. pose proof (ld_count _ Hl) as Hc. rewrite (loaded_count _ Hl) in Hc.
  apply lookup_lt_is_Some_2. unfold Cn in Hi. lia.
Qed.
Lemma wp_entry {A} E (l : list A) m (i : nat) p (Q : A -> mon_st -> Prop) m' : loaded (mon_conf m) ->
  Z.of_nat (length l) = MAX_PROCS_RING -> allprocs (Cn m) !! i = Some p ->
  (forall x, l !! i = Some x -> Q x m') -> wp E (or_fail Undefined (arr_get l (Z.of_nat i))) Q m'.
Proof.
  intros Hl Hlen Hi HQ. destruct (in_array _ _ _ _ Hl Hlen Hi) as [x Hx].
  rewrite arr_get_lookup, Hx. apply wp_ret. by apply HQ.
Qed.

Definition asked_for m (i : Z) (l : list (mon_call spu_addr)) : list (mon_call spu_addr) :=
  if truth (default 0 (Status_vector m !! Z.to_nat i)) then l else [].
Definition status_calls m : list (mon_call spu_addr) :=
  concat (imap (fun i p => asked_for m (Z.of_nat i) [mon_send (Packet (pack_with STATUS_TYPE 0 (Pack m)) []) (proc_addr p)])
    (allprocs (Cn m))).
Lemma Send_status_query_spec E m : mon_ok m -> wp E Send_status_query (fun _ m' => m' =
  more (status_calls m ++ [mon_queue Send_status_query_event (opt_Send_status_timeout (options m))]) (packed STATUS_TYPE 0 m)) m.
Proof.
  intros Hm. unfold Send_status_query. wp_step. apply wp_set_pack. wp_step.
  eapply wp_mono; [apply (wp_asking _ _ (fun i p => asked_for m i [mon_send (Packet (Pack (packed STATUS_TYPE 0 m)) []) (proc_addr p)]));
    [apply Hm|]|].
  - intros i p l Hi. wp_step. wp_step. wp_step. eapply wp_entry; [apply Hm|apply Hm|exact Hi|]. intros x Hx.
    assert (default 0 (Status_vector m !! i) = x) as Ex by by rewrite (Hx : Status_vector m !! i = Some x).
    unfold asked_for. rewrite Nat2Z.id, Ex. apply wp_when; intros ->.
    + eapply wp_mono; [apply wp_send_to|]. by intros u m' ->.
    + by rewrite more_nil.
  - intros u m1 ->. wp_step. wp_step. eapply wp_mono; [apply wp_mon_do|]. intros u2 m2 ->. by rewrite more_more.
Qed.

Lemma sends_twice d l : Forall is_send (concat (imap (fun _ => twice d) l)).
Proof.
  apply Forall_concat, Forall_forall. intros x (i & p & -> & _)%elem_of_lookup_imap. by repeat constructor.
Qed.
Lemma status_sends m : Forall is_send (status_calls m).
Proof.
  apply Forall_concat, Forall_forall. intros x (i & p & -> & _)%elem_of_lookup_imap.
  unfold asked_for. destruct (truth _); by repeat constructor.
Qed.

(** ** What is typed *)

(** A number that is an [int], a name within its array. *)
Definition line_fits (str : list Z) : bool :=
  match scan_int (cstr str) with Some (v, _) => is_int v | None => true end &&
  match scan_string (length str) (cstr str) with Some (w, _) => Z.of_nat (length w) <? MAX_PROC_NAME | None => true end.
Definition lines_fit (ls : list (list Z)) : bool := forallb line_fits ls.
Lemma lines_fit_suffix ls ls' : suffix ls' ls -> lines_fit ls' = false -> lines_fit ls = false.
Proof. intros [k ->] H. unfold lines_fit in *. rewrite forallb_app, H. apply andb_false_r. Qed.

(** The names up to the empty line, and what they mean: a set of names. *)
Fixpoint typed_names (ls : list (list Z)) : option (list (list Z) * list (list Z)) :=
  match ls with
  | [] => None
  | str :: ls =>
      if default 0 (str !! O) =? 10 then Some ([], ls) else
      match scan_string (length str) (cstr str) with
      | None => typed_names ls
      | Some (w, _) => '(ws, rest) ← typed_names ls; Some (w :: ws, rest)
      end
  end.
Definition chosen_by (c : list Z -> bool) (w : list Z) : list Z -> bool :=
  if str_eqb w (str_bytes "all") then fun _ => true
  else if str_eqb w (str_bytes "none") then fun _ => false
  else fun nm => c nm || str_eqb nm w.
Definition chosen (ws : list (list Z)) : list Z -> bool := fold_left chosen_by ws (fun _ => false).

Lemma typed_names_suffix ls ws rest : typed_names ls = Some (ws, rest) -> suffix rest ls.
Proof.
  revert ws rest. induction ls as [|str ls IH]; intros ws rest; [done|]. cbn [typed_names].
  destruct (_ =? 10); [intros [= _ <-]; by apply suffix_cons_r|].
  destruct (scan_string _ _) as [[w r]|]; [|intros H; by eapply suffix_cons_r, IH].
  destruct (typed_names ls) as [[ws' rest']|]; [|done]. intros [= _ <-]. by eapply suffix_cons_r, IH.
Qed.

Section Choose.
Context (cn : configuration) (yes no : Z) (Hid : identified (allprocs cn)).
Context (Hn : Conf_num_procs cn = Z.of_nat (length (allprocs cn))).

(** The array stands for a set of names. *)
Definition marks (c : list Z -> bool) (vec : list Z) : Prop :=
  forall (i : nat) p, allprocs cn !! i = Some p -> vec !! i = Some (if c (str_bytes (name p)) then yes else no).

Lemma marks_same (c : list Z -> bool) (x : Z) vec : (length (allprocs cn) <= length vec)%nat ->
  (forall nm : list Z, (if c nm then yes else no) = x) ->
  marks c (take (length (allprocs cn)) (replicate (length (allprocs cn)) x) ++ drop (length (allprocs cn)) vec).
Proof.
  intros Hl Hc i p Hi%lookup_lt_Some. rewrite take_ge by by rewrite length_replicate.
  rewrite lookup_app_l by by rewrite length_replicate. rewrite lookup_replicate_2 by done. by rewrite Hc.
Qed.
Lemma length_filled (x : Z) vec : (length (allprocs cn) <= length vec)%nat ->
  length (take (length (allprocs cn)) (replicate (length (allprocs cn)) x) ++ drop (length (allprocs cn)) vec) = length vec.
Proof. intros Hl. rewrite length_app, length_take, length_replicate, length_drop. lia. Qed.

Lemma choose_spec E w vec m : (length (allprocs cn) <= length vec)%nat ->
  wp E (choose cn yes no w vec) (fun vec' m' => m' = m /\ length vec' = length vec /\
    forall c, marks c vec -> marks (chosen_by c w) vec') m.
Proof.
  intros Hl. unfold choose. rewrite Hn, Nat2Z.id. unfold chosen_by. apply wp_if; intros E1.
  { unfold put_first. wp_step. wp_step; [bools_to_props; lia|]. wp_step. rewrite Nat2Z.id, E1.
    split; [done|]. split; [by apply length_filled|]. intros c _. by apply marks_same. }
  rewrite E1. apply wp_if; intros E2.
  { unfold put_first. wp_step. wp_step; [bools_to_props; lia|]. wp_step. rewrite Nat2Z.id, E2.
    split; [done|]. split; [by apply length_filled|]. intros c _. by apply marks_same. }
  rewrite E2. destruct (find_index _ (allprocs cn)) as [[i q]|] eqn:Ei.
  - apply find_index_Some in Ei as (Hr & Hq & Hw%str_eqb_spec & _). unfold put. wp_step.
    { exfalso. unfold arr_set in H. destruct (_ || _) eqn:Ed in H; [bools_to_props; lia|done]. }
    assert (a = <[Z.to_nat i := yes]> vec) as ->.
    { unfold arr_set in H. destruct (_ || _) in H; [done|]. by injection H as <-. }
    split; [done|]. split; [by rewrite length_insert|]. intros c Hc j p Hj. destruct (decide (j = Z.to_nat i)) as [->|Hne].
    + rewrite list_lookup_insert_eq by lia. rewrite Hq in Hj. injection Hj as <-.
      by rewrite (proj2 (str_eqb_spec _ _) Hw), orb_true_r.
    + rewrite list_lookup_insert_ne by done. rewrite (Hc _ _ Hj).
      replace (str_eqb (str_bytes (name p)) w) with false; [by rewrite orb_false_r|].
      symmetry. apply Bool.not_true_iff_false. intros Ew%str_eqb_spec. apply Hne.
      rewrite <-Ew in Hw. apply str_bytes_inj in Hw.
      eapply (NoDup_lookup (map name (allprocs cn))); [apply (id_names _ Hid)|by rewrite list_lookup_fmap, Hj|].
      rewrite list_lookup_fmap, Hq. cbn. by rewrite Hw.
  - wp_step. split; [done|]. split; [done|]. intros c Hc j p Hj. rewrite (Hc _ _ Hj).
    apply find_index_None in Ei. pose proof (proj1 (Forall_lookup _ _) Ei _ _ Hj) as Ef. cbn beta in Ef.
    by rewrite Ef, orb_false_r.
Qed.

Lemma read_names_spec (E : failure -> Prop) ls : forall vec m, E Fatal -> (lines_fit ls = false -> E Undefined) ->
  (length (allprocs cn) <= length vec)%nat ->
  wp E (read_names cn yes no ls vec) (fun vec' m' => exists ws rest, typed_names ls = Some (ws, rest) /\
    m' = m <| stdin := rest |> /\ length vec' = length vec /\
    forall c, marks c vec -> marks (fold_left chosen_by ws c) vec') m.
Proof.
  induction ls as [|str ls IH]; intros vec m HF HU Hl; cbn [read_names typed_names]; [by wp_step|].
  assert (lines_fit ls = false -> E Undefined) as HU'.
  { intros Hf. apply HU. eapply lines_fit_suffix; [|exact Hf]. by apply suffix_cons_r. }
  wp_step. wp_step. apply wp_if; intros E1; rewrite E1.
  { wp_step. exists [], ls. by split_and!. }
  destruct (scan_string (length str) (cstr str)) as [[w r]|] eqn:Ew.
  2:{ eapply wp_mono; [by apply IH|]. intros vec' m' (ws & rest & -> & -> & H). exists ws, rest.
      split; [done|]. split; [by destruct m|done]. }
  wp_step. wp_step.
  { apply HU. cbn. unfold line_fits at 1. rewrite Ew.
    replace (Z.of_nat (length w) <? MAX_PROC_NAME) with false by (bools_to_props; symmetry; apply Z.ltb_ge; lia).
    by rewrite andb_false_r. }
  wp_step. eapply wp_mono; [by apply choose_spec|]. intros vec1 m1 (-> & Hl1 & Hm1).
  eapply wp_mono; [apply IH; [done|done|by rewrite Hl1]|]. intros vec' m' (ws & rest & -> & -> & Hl' & Hm').
  exists (w :: ws), rest. split; [done|]. split; [by destruct m|]. split; [by rewrite Hl'|].
  intros c Hc. by apply Hm', Hm1.
Qed.
End Choose.

(** Numbers, one for each daemon. *)
Fixpoint typed_numbers (n : nat) (ls : list (list Z)) : option (list Z * list (list Z)) :=
  match n with
  | O => Some ([], ls)
  | S n => '(v, ls) ← read_number None ls; '(vs, ls) ← typed_numbers n ls; Some (v :: vs, ls)
  end.
Lemma typed_numbers_snoc n ls vs rest v rest' : typed_numbers n ls = Some (vs, rest) ->
  read_number None rest = Some (v, rest') -> typed_numbers (n + 1) ls = Some (vs ++ [v], rest').
Proof.
  revert ls vs. induction n as [|n IH]; intros ls vs H Hv; cbn in *.
  { injection H as <- <-. by rewrite Hv. }
  destruct (read_number None ls) as [[v1 ls1]|]; [cbn in *|done].
  destruct (typed_numbers n ls1) as [[vs1 ls2]|] eqn:E; [|done]. injection H as <- <-.
  by rewrite (IH _ _ E Hv).
Qed.
Lemma typed_numbers_length n ls vs rest : typed_numbers n ls = Some (vs, rest) -> length vs = n.
Proof.
  revert ls vs. induction n as [|n IH]; intros ls vs H; cbn in *; [by injection H as <- _|].
  destruct (read_number None ls) as [[v1 ls1]|]; [cbn in *|done].
  destruct (typed_numbers n ls1) as [[vs1 ls2]|] eqn:E; [|done]. injection H as <- <-. cbn. by rewrite (IH _ _ E).
Qed.

Lemma read_number_spec blank ls v rest : (forall d, blank = Some d -> is_int d = true) ->
  read_number blank ls = Some (v, rest) -> suffix rest ls /\ (is_int v = false -> lines_fit ls = false).
Proof.
  intros Hb. revert v rest. induction ls as [|str ls IH]; intros v rest; [done|]. cbn [read_number].
  assert (read_number blank ls = Some (v, rest) -> suffix rest (str :: ls) /\ (is_int v = false -> lines_fit (str :: ls) = false)) as Hrec.
  { intros [Hs Hf]%IH. split; [by apply suffix_cons_r|]. intros Hv. eapply lines_fit_suffix; [|by apply Hf]. by apply suffix_cons_r. }
  unfold sscanf_d. destruct (skip_space (cstr str)).
  - destruct blank as [d|]; [|done]. intros [= <- <-]. split; [by apply suffix_cons_r|]. by rewrite Hb.
  - destruct (scan_int (cstr str)) as [[v' r]|] eqn:Ei; [|done]. intros [= <- <-]. split; [by apply suffix_cons_r|].
    intros Hv. unfold lines_fit. cbn [forallb]. unfold line_fits. by rewrite Ei, Hv.
Qed.

Section Typing.
Context (E : failure -> Prop) (HF : E Fatal).

Lemma ask_number_spec blank m : (forall d, blank = Some d -> is_int d = true) ->
  (lines_fit (stdin m) = false -> E Undefined) ->
  wp E (ask_number blank) (fun x m' => exists v rest, read_number blank (stdin m) = Some (v, rest) /\
    suffix rest (stdin m) /\ x = i16 v /\ m' = m <| stdin := rest |>) m.
Proof.
  intros Hb HU. unfold ask_number. wp_step. wp_step. wp_step. wp_step; [done|]. destruct a as [v rest].
  destruct (read_number_spec _ _ _ _ Hb H) as [Hs Hf]. wp_step. wp_step.
  { apply HU, Hf. by apply negb_true_iff. }
  wp_step. wp_step. wp_step. by exists v, rest.
Qed.

Lemma wp_put {A} (l : list A) (i : nat) (x : A) (Q : list A -> mon_st -> Prop) m : (i < length l)%nat ->
  Q (<[i := x]> l) m -> wp E (put l (Z.of_nat i) x) Q m.
Proof.
  intros Hi HQ. unfold put, arr_set. assert ((Z.of_nat i <? 0) || (Z.of_nat (length l) <=? Z.of_nat i) = false) as ->.
  { apply orb_false_iff. split; [apply Z.ltb_ge|apply Z.leb_gt]; lia. }
  rewrite Nat2Z.id. by apply wp_ret.
Qed.
Lemma wp_put_first {A} (n : nat) (new old : list A) (Q : list A -> mon_st -> Prop) m : (n <= length old)%nat ->
  Q (take n new ++ drop n old) m -> wp E (put_first (Z.of_nat n) new old) Q m.
Proof. intros Hn HQ. unfold put_first. wp_step. wp_step; [bools_to_props; lia|]. wp_step. by rewrite Nat2Z.id. Qed.

Lemma Define_partition_spec m : mon_ok m -> (lines_fit (stdin m) = false -> E Undefined) ->
  wp E Define_partition (fun _ m' => exists vs rest, typed_numbers (length (allprocs (Cn m))) (stdin m) = Some (vs, rest) /\
    suffix rest (stdin m) /\
    m' = m <| Work_partition := written_over (map i16 vs) (Work_partition m) |> <| stdin := rest |>) m.
Proof.
  intros Hm HU. unfold Define_partition.
  apply (wp_for_procs _ _ (fun pre m' => exists vs rest, typed_numbers (length pre) (stdin m) = Some (vs, rest) /\
    suffix rest (stdin m) /\ m' = m <| Work_partition := written_over (map i16 vs) (Work_partition m) |> <| stdin := rest |>)).
  - apply Hm.
  - exists [], (stdin m). split; [done|]. split; [done|]. by destruct m.
  - intros pre p post m' Hpre (vs & rest & Hvs & Hs & ->). pose proof (typed_numbers_length _ _ _ _ Hvs) as Hlen.
    wp_step. eapply wp_mono; [apply ask_number_spec; [done|]|].
    { intros Hf. apply HU. by eapply lines_fit_suffix. }
    intros x m1 (v & rest' & Hv & Hs' & -> & ->). rec_simpl_in Hv. rec_simpl_in Hs'. wp_step. wp_step. rec_simpl_in_goal. wp_step.
    assert (length pre < length (Work_partition m))%nat as Hroom.
    { destruct (in_array (Work_partition m) m (length pre) p) as [x Hx]; [apply Hm|apply Hm| |by eapply lookup_lt_Some].
      by rewrite Hpre, lookup_app_r, Nat.sub_diag. }
    rewrite <-Hlen, <-(length_map i16 vs) in Hroom |- *. apply wp_put; [rewrite length_written; lia|].
    wp_step. exists (vs ++ [v]), rest'. rewrite length_map in *. split; [|split].
    + rewrite length_app. cbn [length]. by eapply typed_numbers_snoc.
    + by trans rest.
    + rewrite map_app. cbn [map]. rewrite <-written_snoc by (by rewrite length_map).
      by rewrite length_map.
Qed.

(** Flow control: the array keeps its size. *)
Definition fc_typed m m' : Prop := exists l rest, length l = length (Work_fc_buf m) /\ suffix rest (stdin m) /\
  m' = m <| Work_fc_buf := l |> <| stdin := rest |>.
Lemma fc_typed_refl m : fc_typed m m.
Proof. exists (Work_fc_buf m), (stdin m). split; [done|]. split; [done|]. by destruct m. Qed.
Lemma fc_typed_fit m m' : fc_typed m m' -> lines_fit (stdin m') = false -> lines_fit (stdin m) = false.
Proof. intros (l & rest & _ & Hs & ->). by apply lines_fit_suffix. Qed.
Lemma fc_entry m m' (i : nat) f : fc_typed m m' -> (i < length (Work_fc_buf m))%nat ->
  (lines_fit (stdin m) = false -> E Undefined) ->
  wp E (temp ← ask_number (Some (-1)); set_fc (Z.of_nat i) (f temp)) (fun _ => fc_typed m) m'.
Proof.
  intros Ht Hi HU. wp_step. eapply wp_mono; [apply ask_number_spec; [by intros d [= <-]|]|].
  { intros Hf. by eapply HU, fc_typed_fit. }
  destruct Ht as (l & rest & Hl & Hs & ->). intros x m1 (v & rest' & _ & Hs' & -> & ->). rec_simpl_in Hs'.
  unfold set_fc. wp_step. wp_step. rec_simpl_in_goal. wp_step. destruct (lookup_lt_is_Some_2 l i) as [y Hy]; [lia|].
  rewrite arr_get_lookup, Hy. apply wp_ret. wp_step. apply wp_put; [lia|]. wp_step.
  exists (<[i := f (i16 v) y]> l), rest'. split; [|split; [by trans rest|by destruct m]]. by rewrite length_insert.
Qed.
Lemma wp_assoc {A B D} (a : M mon_st A) (f : A -> M mon_st B) (g : B -> M mon_st D) (Q : D -> mon_st -> Prop) m :
  wp E (x ← (x ← a; f x); g x) Q m -> wp E (x ← a; y ← f x; g y) Q m.
Proof. intros H. eapply wp_eq; [|exact H]. unfold mbind, M_bind. by destruct (a m). Qed.
Lemma Define_flow_control_spec m : mon_ok m ->
  (lines_fit (stdin m) = false \/ Conf_num_procs (Cn m) = MAX_PROCS_RING -> E Undefined) ->
  wp E Define_flow_control (fun _ => fc_typed m) m.
Proof.
  intros Hm HU. pose proof (loaded_count _ (mo_loaded _ Hm)) as Hn. fold (Cn m) in Hn.
  pose proof (ld_count _ (mo_loaded _ Hm)) as Hmax. fold (Cn m) in Hmax. pose proof (mo_wfc _ Hm) as Hwfc.
  unfold Define_flow_control. wp_step. wp_step. destruct (Z.eq_dec (Conf_num_procs (Cn m)) MAX_PROCS_RING) as [Hmx|Hne].
  { assert (E Undefined) as HE by (apply HU; by right). wp_step.
    eapply wp_mono; [apply ask_number_spec; [by intros d [= <-]|done]|].
    intros x m1 (v & rest & _ & _ & -> & ->). wp_step. unfold set_fc. do 4 wp_step; [done|].
    exfalso. rec_simpl_in H. rewrite Hn, arr_get_lookup in H. apply lookup_lt_Some in H. lia. }
  apply wp_assoc. wp_step. rewrite Hn. eapply wp_mono; [apply (fc_entry m m _ (fun temp x => (temp, x.2)));
    [apply fc_typed_refl|lia|intros; apply HU; by left]|].
  intros u m1 H1. assert (Cn m1 = Cn m) as HC by (by destruct H1 as (l & rest & _ & _ & ->)).
  eapply wp_mono; [apply (wp_for_procs _ _ (fun _ => fc_typed m)); [|exact H1|]|by intros].
  { destruct H1 as (l & rest & _ & _ & ->). apply Hm. }
  intros pre p post m2 Hpre H2. rewrite HC in Hpre.
  assert (length pre < length (Work_fc_buf m))%nat by (rewrite Hpre, length_app in Hn; cbn in Hn; lia).
  apply wp_assoc. wp_step. eapply wp_mono; [apply (fc_entry m m2 _ (fun temp x => (temp, x.2))); [done|lia|intros; apply HU; by left]|].
  intros u2 m3 H3. wp_step. wp_step. wp_step; [|done].
  apply (fc_entry m m3 _ (fun temp x => (x.1, temp))); [done|lia|intros; apply HU; by left].
Qed.
End Typing.

(** ** Commands *)

Ltac mon_same := match goal with H : mon_ok _ |- mon_ok _ => destruct H; split; by rec_simpl_in_goal end.
Lemma ok_more l m : mon_ok m -> mon_ok (more l m).
Proof. intros H. mon_same. Qed.
Lemma ok_packed t len m : mon_ok m -> mon_ok (packed t len m).
Proof. intros H. mon_same. Qed.
Lemma ok_stdin ls m : mon_ok m -> mon_ok (m <| stdin := ls |>).
Proof. intros H. mon_same. Qed.
Lemma ok_Partition_active a m : mon_ok m -> mon_ok (m <| Partition_active := a |>).
Proof. intros H. mon_same. Qed.
Lemma ok_Status_active a m : mon_ok m -> mon_ok (m <| Status_active := a |>).
Proof. intros H. mon_same. Qed.
Lemma ok_Status_vector v m : mon_ok m -> length v = length (Status_vector m) -> mon_ok (m <| Status_vector := v |>).
Proof. intros [] Hl. split; rec_simpl_in_goal; try done. by rewrite Hl. Qed.
Lemma ok_Work_partition v m : mon_ok m -> length v = length (Work_partition m) -> Forall is_i16 v ->
  mon_ok (m <| Work_partition := v |>).
Proof. intros [] Hl Hv. split; rec_simpl_in_goal; try done. by rewrite Hl. Qed.
Lemma ok_mon_Partition v m : mon_ok m -> length v = length (mon_Partition m) -> Forall is_i16 v ->
  mon_ok (m <| mon_Partition := v |>).
Proof. intros [] Hl Hv. split; rec_simpl_in_goal; try done. by rewrite Hl. Qed.
Lemma ok_Fc_buf v m : mon_ok m -> length v = length (Fc_buf m) -> mon_ok (m <| Fc_buf := v |>).
Proof. intros [] Hl. split; rec_simpl_in_goal; try done. by rewrite Hl. Qed.
Lemma ok_Work_fc_buf v m : mon_ok m -> length v = length (Work_fc_buf m) -> mon_ok (m <| Work_fc_buf := v |>).
Proof. intros [] Hl. split; rec_simpl_in_goal; try done. by rewrite Hl. Qed.
Lemma ok_fc_typed m m' : mon_ok m -> fc_typed m m' -> mon_ok m'.
Proof. intros [] (l & rest & Hl & _ & ->). split; rec_simpl_in_goal; try done. by rewrite Hl. Qed.
Hint Resolve ok_more ok_packed ok_stdin : core.

(** Nothing is said of the timers. *)
Definition quiet m m' : Prop := Partition_active m' = Partition_active m /\ Status_active m' = Status_active m /\
  exists l, mon_calls m' = mon_calls m ++ l /\ Forall is_send l.
Lemma timers_quiet m m' : quiet m m' -> timers_ok m -> timers_ok m'.
Proof. intros (Ep & Es & l & El & Hl) [H1 H2]. split; by rewrite El, queued_sends, ?Ep, ?Es. Qed.

Lemma i16_first n new old : Forall is_i16 new -> Forall is_i16 old -> Forall is_i16 (take n new ++ drop n old).
Proof. intros H1 H2. apply Forall_app. split; [by apply Forall_take|by apply Forall_drop]. Qed.
Lemma length_first {A} n (new old : list A) : (n <= length new)%nat -> (n <= length old)%nat ->
  length (take n new ++ drop n old) = length old.
Proof. intros H1 H2. rewrite length_app, length_take, length_drop. lia. Qed.

(** How many daemons there are, against the arrays. *)
Lemma num_procs_room m : mon_ok m -> exists n : nat, Conf_num_procs (Cn m) = Z.of_nat n /\
  n = length (allprocs (Cn m)) /\ Z.of_nat n <= MAX_PROCS_RING.
Proof.
  intros H. exists (length (allprocs (Cn m))). pose proof (ld_count _ (mo_loaded _ H)) as Hc.
  unfold Cn. rewrite <-(loaded_count _ (mo_loaded _ H)). by split_and!.
Qed.

Section Commands.
Context (E : failure -> Prop) (HF : E Fatal).
Implicit Types (file : conf_file) (ips : list spu_addr).

(** What a command may do: the invariant holds again, part of the input is read. *)
Definition command_ok m m' : Prop := mon_ok m' /\ timers_ok m' /\ suffix (stdin m') (stdin m).

Lemma ask_names_spec yes no vec m : mon_ok m -> (lines_fit (stdin m) = false -> E Undefined) ->
  Z.of_nat (length vec) = MAX_PROCS_RING ->
  wp E (ask_names yes no vec) (fun vec' m' => exists ws rest, typed_names (stdin m) = Some (ws, rest) /\
    m' = m <| stdin := rest |> /\ length vec' = length vec /\
    forall c, marks (Cn m) yes no c vec -> marks (Cn m) yes no (fold_left chosen_by ws c) vec') m.
Proof.
  intros Hm HU Hl. pose proof (loaded_count _ (mo_loaded _ Hm)) as Hn. pose proof (ld_count _ (mo_loaded _ Hm)) as Hc.
  unfold ask_names. do 4 wp_step. apply read_names_spec; [apply (ld_identified _ (mo_loaded _ Hm))|exact Hn|exact HF|exact HU|].
  unfold Cn. lia.
Qed.

Lemma Activate_status_spec m : mon_ok m -> timers_ok m -> (lines_fit (stdin m) = false -> E Undefined) ->
  wp E Activate_status (fun _ => command_ok m) m.
Proof.
  intros Hm [Ht _] HU. unfold Activate_status. wp_step. wp_step. wp_step.
  eapply wp_mono; [apply ask_names_spec; [done|done|apply Hm]|].
  intros vec m1 (ws & rest & Hws & -> & Hl & _). pose proof (typed_names_suffix _ _ _ Hws) as Hs.
  wp_step. wp_step. wp_step. eapply wp_mono; [apply wp_mon_do|]. intros u m2 ->. wp_step. wp_step. cbn zeta.
  set (active := existsb truth _). wp_step. wp_step.
  set (m3 := set_field Status_active _ _). assert (mon_ok m3) as Hm3.
  { unfold m3. assert (mon_ok (m <| stdin := rest |> <| Status_vector := vec |>)) as H1.
    { apply ok_Status_vector; [by apply ok_stdin|done]. }
    apply (ok_more [mon_dequeue Send_status_query_event]) in H1. mon_same. }
  assert (queued Send_partition_event (mon_calls m3) = Partition_active m3 /\
    queued Send_status_query_event (mon_calls m3) = false) as [Hp Hq].
  { unfold m3, more. rec_simpl_in_goal. rewrite !queued_app. cbn. by rewrite Ht. }
  assert (Status_active m3 = active) as Ea by done. assert (suffix (stdin m3) (stdin m)) as Hs3 by done.
  clearbody m3 active. apply wp_when; intros ->.
  - eapply wp_mono; [by apply Send_status_query_spec|]. intros u2 m4 ->. split; [by auto|]. split; [|done].
    split; unfold more; rec_simpl_in_goal; rewrite app_assoc, queued_app, queued_sends by apply status_sends; cbn; done.
  - split; [done|]. split; [|done]. split; [done|]. by rewrite Hq, Ea.
Qed.

(** Looking at an array. *)
Lemma Print_partition_spec part m : mon_ok m -> Z.of_nat (length part) = MAX_PROCS_RING ->
  wp E (Print_partition part) (fun _ m' => m' = m) m.
Proof.
  intros Hm Hl. unfold Print_partition. eapply wp_mono; [apply (wp_asking _ _ (fun _ _ => [])); [apply Hm|]|].
  - intros i p l Hi. wp_step. eapply wp_entry; [apply Hm|exact Hl|exact Hi|]. intros x _. wp_step. by rewrite more_nil.
  - intros u m' ->. apply more_none.
Qed.
Lemma quiet_kept m m' : mon_ok m' -> timers_ok m -> quiet m m' -> suffix (stdin m') (stdin m) -> command_ok m m'.
Proof. intros. split; [done|]. split; [by eapply timers_quiet|done]. Qed.
Lemma quiet_same m m' : Partition_active m' = Partition_active m -> Status_active m' = Status_active m ->
  mon_calls m' = mon_calls m -> quiet m m'.
Proof. intros ?? E'. split; [done|]. split; [done|]. exists []. by rewrite app_nil_r. Qed.

Lemma written_i16 vs m : mon_ok m -> (length vs <= length (Work_partition m))%nat ->
  mon_ok (m <| Work_partition := written_over (map i16 vs) (Work_partition m) |>).
Proof.
  intros Hm Hl. apply ok_Work_partition; [done|apply length_written; by rewrite length_map|].
  apply Forall_app. split; [|by apply Forall_drop, Hm]. apply Forall_fmap, Forall_forall. intros. apply i16_range.
Qed.
Lemma typed_room m vs rest : mon_ok m -> typed_numbers (length (allprocs (Cn m))) (stdin m) = Some (vs, rest) ->
  (length vs <= length (Work_partition m))%nat.
Proof.
  intros Hm ->%typed_numbers_length. destruct (num_procs_room m Hm) as (n & _ & -> & Hr).
  pose proof (mo_work _ Hm). lia.
Qed.
Lemma Define_partition_kept m : mon_ok m -> timers_ok m -> (lines_fit (stdin m) = false -> E Undefined) ->
  wp E (Define_partition;; l ← gets Work_partition; Print_partition l) (fun _ => command_ok m) m.
Proof.
  intros Hm Ht HU. wp_step. eapply wp_mono; [by apply Define_partition_spec|]. intros u m1 (vs & rest & Hvs & Hs & ->).
  pose proof (typed_room _ _ _ Hm Hvs) as Hroom. assert (mon_ok (m <| Work_partition := written_over (map i16 vs) (Work_partition m) |>
    <| stdin := rest |>)) as Hok by by apply ok_stdin, written_i16.
  wp_step. wp_step. eapply wp_mono; [apply Print_partition_spec; [done|apply Hok]|]. intros u2 m2 ->.
  apply quiet_kept; [done|done|by apply quiet_same|done].
Qed.

Lemma zeros_spec {A} (x : A) (l : list A) m (Q : list A -> mon_st -> Prop) : mon_ok m -> Z.of_nat (length l) = MAX_PROCS_RING ->
  (forall l', length l' = length l -> (forall P : A -> Prop, P x -> Forall P l -> Forall P l') -> Q l' m) ->
  wp E (zeros x l) Q m.
Proof.
  intros Hm Hl HQ. destruct (num_procs_room m Hm) as (n & Hn & _ & Hr). unfold zeros. wp_step. wp_step. cbn zeta.
  rewrite Hn, Nat2Z.id. apply wp_put_first; [lia|]. apply HQ.
  - apply length_first; [by rewrite length_replicate|lia].
  - intros P Hx HP. apply Forall_app. split; [by apply Forall_take, Forall_replicate|by apply Forall_drop].
Qed.

(** Putting the partition in force: what is sent is the array typed. *)
Definition in_use m : mon_st := m <| mon_Partition := take (length (allprocs (Cn m))) (Work_partition m) ++
  drop (length (allprocs (Cn m))) (mon_Partition m) |> <| Partition_active := true |>.
Definition partition_header m : packet_header := pack_with PARTITION_TYPE sizeof_partition (Pack m).
Definition partition_calls m : list (mon_call spu_addr) :=
  to_all (Packet (partition_header m) (bytes16s (mon_Partition m))) m ++ [mon_queue Send_partition_event Send_partition_timeout].
Definition sent_partition m : mon_st := more (partition_calls m) (packed PARTITION_TYPE sizeof_partition m).

Lemma Use_partition_spec m : mon_ok m -> wp E Use_partition (fun _ m' => m' = sent_partition (in_use m)) m.
Proof.
  intros Hm. destruct (num_procs_room m Hm) as (n & Hn & -> & Hr). unfold Use_partition. do 7 wp_step.
  rewrite Hn. pose proof (mo_part _ Hm). apply wp_put_first; [lia|]. wp_step. wp_step.
  apply Send_partition_spec, Hm.
Qed.
Lemma in_use_ok m : mon_ok m -> mon_ok (in_use m).
Proof.
  intros Hm. destruct (num_procs_room m Hm) as (n & Hn & -> & Hr). pose proof (mo_part _ Hm). pose proof (mo_work _ Hm).
  assert (mon_ok (m <| mon_Partition := take (length (allprocs (Cn m))) (Work_partition m) ++ drop (length (allprocs (Cn m))) (mon_Partition m) |>)) as H1.
  { apply ok_mon_Partition; [done|apply length_first; lia|apply i16_first; apply Hm]. }
  mon_same.
Qed.
Lemma Use_partition_kept m : mon_ok m -> timers_ok m -> wp E Use_partition (fun _ => command_ok m) m.
Proof.
  intros Hm Ht. eapply wp_mono; [by apply Use_partition_spec|]. intros u m' ->.
  split; [apply ok_more, ok_packed; by apply in_use_ok|]. split; [|done].
  destruct Ht as [_ Hs]. unfold sent_partition, partition_calls, more. split; rec_simpl_in_goal;
    rewrite app_assoc, queued_app, queued_sends by apply sends_twice; [done|exact Hs].
Qed.
Lemma Cancel_partition_kept m : mon_ok m -> timers_ok m -> wp E Cancel_partition (fun _ => command_ok m) m.
Proof.
  intros Hm Ht. unfold Cancel_partition. do 3 wp_step. apply zeros_spec; [done|apply Hm|]. intros part Hl1 HP1.
  do 3 wp_step. apply zeros_spec; [done|apply Hm|]. intros work Hl2 HP2. do 3 wp_step.
  set (m1 := set_field Partition_active _ _). assert (mon_ok m1) as Hm1.
  { assert (mon_ok (m <| mon_Partition := part |>)) as H1 by (apply ok_mon_Partition; [done|done|apply HP1; [done|apply Hm]]).
    assert (mon_ok (m <| mon_Partition := part |> <| Work_partition := work |>)) as H2
      by (apply ok_Work_partition; [done|done|apply HP2; [done|apply Hm]]).
    unfold m1. mon_same. }
  eapply wp_mono; [apply Send_partition_spec, Hm1|]. intros u m2 ->. eapply wp_mono; [apply wp_mon_do|]. intros u2 m3 ->.
  split; [by auto|]. split; [|done]. destruct Ht as [_ Hs]. unfold more. split; rec_simpl_in_goal;
    rewrite queued_app, app_assoc, queued_app, queued_sends by apply sends_twice; [done|exact Hs].
Qed.

(** Flow control: with [MAX_PROCS_RING] daemons the window of all is past the array. *)
Lemma Use_flow_control_kept m : mon_ok m -> timers_ok m ->
  (Conf_num_procs (Cn m) = MAX_PROCS_RING -> E Undefined) -> wp E Use_flow_control (fun _ => command_ok m) m.
Proof.
  intros Hm Ht HU. destruct (num_procs_room m Hm) as (n & Hn & _ & Hr). unfold Use_flow_control. do 7 wp_step. rewrite Hn in *.
  pose proof (mo_fc _ Hm). pose proof (mo_wfc _ Hm). destruct (Z.eq_dec (Z.of_nat n) MAX_PROCS_RING) as [Hmx|Hne].
  { unfold put_first. wp_step. wp_step; [by apply HU|]. bools_to_props. lia. }
  replace (Z.of_nat n + 1) with (Z.of_nat (S n)) by lia. apply wp_put_first; [lia|]. wp_step. wp_step.
  set (m1 := set_field Fc_buf _ m). assert (mon_ok m1) as Hm1 by (apply ok_Fc_buf; [done|apply length_first; lia]).
  eapply wp_mono; [apply Send_flow_control_spec, Hm1|]. intros u m2 ->. apply quiet_kept; [by auto|done| |done].
  split; [done|]. split; [done|]. eexists. split; [done|apply sends_twice].
Qed.
Lemma Print_flow_control_spec fc m : mon_ok m -> Z.of_nat (length fc) = MAX_PROCS_RING ->
  (Conf_num_procs (Cn m) = MAX_PROCS_RING -> E Undefined) -> wp E (Print_flow_control fc) (fun _ m' => m' = m) m.
Proof.
  intros Hm Hl HU. destruct (num_procs_room m Hm) as (n & Hn & _ & Hr). unfold Print_flow_control. wp_step. wp_step. rewrite Hn in *. wp_step.
  wp_step. { apply HU. rewrite arr_get_lookup in H. apply lookup_ge_None in H. lia. }
  eapply wp_mono; [apply (wp_asking _ _ (fun _ _ => [])); [apply Hm|]|].
  - intros i p l Hi. wp_step. eapply wp_entry; [apply Hm|exact Hl|exact Hi|]. intros x _. wp_step. by rewrite more_nil.
  - intros u m' ->. apply more_none.
Qed.
Lemma Define_flow_control_kept m : mon_ok m -> timers_ok m ->
  (lines_fit (stdin m) = false \/ Conf_num_procs (Cn m) = MAX_PROCS_RING -> E Undefined) ->
  wp E (Define_flow_control;; l ← gets Work_fc_buf; Print_flow_control l) (fun _ => command_ok m) m.
Proof.
  intros Hm Ht HU. wp_step. eapply wp_mono; [by apply Define_flow_control_spec|]. intros u m1 H1.
  pose proof (ok_fc_typed _ _ Hm H1) as Hm1. destruct H1 as (l & rest & Hl & Hs & ->). wp_step. wp_step.
  eapply wp_mono; [apply Print_flow_control_spec; [done|apply Hm1|]|].
  { intros Hx. apply HU. by right. }
  intros u2 m2 ->. apply quiet_kept; [done|done|by apply quiet_same|done].
Qed.

(** Ending daemons: those chosen, and those whose partition was to end them already. *)
Definition doomed (ws : list (list Z)) m (i : nat) p : bool :=
  chosen ws (str_bytes (name p)) || (default 0 (mon_Partition m !! i) =? -1).
Definition kill_array (ws : list (list Z)) m (kill : list Z) : Prop := forall (i : nat) p, allprocs (Cn m) !! i = Some p ->
  kill !! i = (if chosen ws (str_bytes (name p)) then Some (-1) else mon_Partition m !! i).
Definition kill_calls (ws : list (list Z)) m (kill : list Z) : list (mon_call spu_addr) :=
  concat (imap (fun i p => if doomed ws m i p then twice (Packet (partition_header m) (bytes16s kill)) p else [])
    (allprocs (Cn m))).
Lemma kill_sends ws m kill : Forall is_send (kill_calls ws m kill).
Proof.
  apply Forall_concat, Forall_forall. intros x (i & p & -> & _)%elem_of_lookup_imap.
  destruct (doomed _ _ _ _); by repeat constructor.
Qed.
Lemma Kill_spreads_spec m : mon_ok m -> (lines_fit (stdin m) = false -> E Undefined) ->
  wp E Kill_spreads (fun _ m' => exists ws rest kill, typed_names (stdin m) = Some (ws, rest) /\
    kill_array ws m kill /\ Z.of_nat (length kill) = MAX_PROCS_RING /\
    m' = more (kill_calls ws m kill) (packed PARTITION_TYPE sizeof_partition (m <| stdin := rest |>))) m.
Proof.
  intros Hm HU. pose proof (mo_part _ Hm) as Hp. unfold Kill_spreads. wp_step.
  eapply wp_mono; [apply ask_names_spec; [done|done|by rewrite length_replicate]|].
  intros vec m1 (ws & rest & Hws & -> & Hl & Hmarks). rewrite length_replicate in Hl.
  destruct (num_procs_room m Hm) as (n & Hn & -> & Hr).
  assert (marks (Cn m) (-1) 0 (chosen ws) vec) as Hvec.
  { apply Hmarks. intros i p Hi%lookup_lt_Some. apply lookup_replicate_2. lia. }
  do 5 wp_step. change (Cn (m <| stdin := rest |>)) with (Cn m). rewrite Hn. apply wp_put_first; [lia|].
  change (mon_Partition (m <| stdin := rest |>)) with (mon_Partition m).
  set (kill := _ ++ _). assert (kill_array ws m kill) as Hkill.
  { intros i p Hi. pose proof (lookup_lt_Some _ _ _ Hi). destruct (in_array _ m i p ltac:(apply Hm) Hp Hi) as [x Hx].
    unfold kill. rewrite lookup_app_l by (rewrite length_take, length_zip_with; lia).
    rewrite lookup_take_lt by lia. rewrite lookup_zip_with, (Hvec _ _ Hi), Hx. by destruct (chosen _ _). }
  assert (Z.of_nat (length kill) = MAX_PROCS_RING) as Hlk.
  { unfold kill. rewrite length_first; rewrite ?length_zip_with; lia. }
  clearbody kill. wp_step. apply wp_set_pack. set (m2 := packed _ _ _).
  eapply wp_mono; [apply (wp_asking _ _ (fun i p => if doomed ws m (Z.to_nat i) p then twice (Packet (partition_header m) (bytes16s kill)) p else []));
    [apply Hm|]|].
  - intros i p l Hi. wp_step. eapply wp_entry; [apply Hm|exact Hlk|exact Hi|]. intros x Hx.
    assert (doomed ws m i p = (x =? -1)) as Hd.
    { change (allprocs (Cn m) !! i = Some p) in Hi. rewrite (Hkill _ _ Hi) in Hx. unfold doomed.
      destruct (chosen _ _); [by injection Hx as <-|]. by rewrite Hx. }
    rewrite Nat2Z.id, Hd. apply wp_when; intros ->; [|by rewrite more_nil].
    eapply wp_mono; [apply wp_send_twice|]. by intros u m' ->.
  - intros u m' ->. exists ws, rest, kill. split; [done|]. split; [done|]. split; [done|]. unfold kill_calls.
    f_equal. f_equal. apply imap_ext. intros i p _. by rewrite Nat2Z.id.
Qed.
Lemma Kill_spreads_kept m : mon_ok m -> timers_ok m -> (lines_fit (stdin m) = false -> E Undefined) ->
  wp E Kill_spreads (fun _ => command_ok m) m.
Proof.
  intros Hm Ht HU. eapply wp_mono; [by apply Kill_spreads_spec|]. intros u m' (ws & rest & kill & Hws & _ & _ & ->).
  apply quiet_kept; [by auto|done| |by eapply typed_names_suffix].
  split; [done|]. split; [done|]. eexists. split; [done|apply kill_sends].
Qed.

(** Reading the configuration. *)
Lemma wp_on_conf {A} (a : M load_st A) (Q : A -> mon_st -> Prop) m :
  wp E a (fun x c => Q x (m <| mon_conf := c |>)) (mon_conf m) -> wp E (on_conf a) Q m.
Proof. Transparent wp. unfold wp, on_conf. Opaque wp. by destruct (a (mon_conf m)). Qed.
Definition names_monitor m : Prop := p_conf_hash (Pack m) = hash_code (Cn m) /\
  p_transmiter_id (Pack m) = id (mon_My m) /\ p_proc_id (Pack m) = id (mon_My m).
Lemma read_configuration_spec file ips m :
  Conf_Active_IP_Version (mon_conf m) = -1 \/ right_ip (Conf_Active_IP_Version (mon_conf m)) -> (too_many file -> E Undefined) ->
  wp E (read_configuration file ips) (fun _ m' => exists c h, loaded c /\ m' = m <| mon_conf := c |> <| Pack := h |> /\ names_monitor m') m.
Proof.
  intros Hip HU. unfold read_configuration. do 3 wp_step. apply wp_on_conf.
  eapply wp_mono; [eapply wp_allow; [|apply init_spec; [exact Hfamily|exact Hip]]|].
  - intros e [->|[-> H]]; auto.
  - intros u c Hc. wp_step. exists c. eexists. split; [exact Hc|]. by split.
Qed.

Lemma Reload_Conf_kept file ips m : mon_ok m -> timers_ok m -> (too_many file -> E Undefined) ->
  wp E (Reload_Conf file ips) (fun _ => command_ok m) m.
Proof.
  intros Hm Ht HU. unfold Reload_Conf. wp_step. apply wp_set_pack. wp_step.
  eapply wp_mono; [apply (wp_asking _ _ (fun _ => twice (Packet (Pack (packed RELOAD_TYPE 0 m)) []))); [apply Hm|]|].
  { intros i p l _. eapply wp_mono; [apply wp_send_twice|]. by intros u m' ->. }
  intros u m1 ->. wp_step. eapply wp_mono; [apply read_configuration_spec; [|exact HU]|].
  { apply (lo_ip _ (ld_loadable _ (mo_loaded _ Hm))). }
  intros u2 m2 (c & h & Hc & Em2 & Hname & Hfrom). assert (mon_ok m2) as Hm2.
  { rewrite Em2 in *. destruct Hm. split; by rec_simpl_in_goal. }
  assert (stdin m2 = stdin m) as Hin by by rewrite Em2. clear Em2 Hname Hfrom.
  do 3 wp_step. apply zeros_spec; [done|apply Hm2|]. intros part Hl1 HP1.
  wp_step. apply zeros_spec; [done|apply Hm2|]. intros work Hl2 HP2.
  wp_step. apply zeros_spec; [done|apply Hm2|]. intros fc Hl3 _. wp_step. apply zeros_spec; [done|apply Hm2|]. intros wfc Hl4 _.
  wp_step. apply zeros_spec; [done|apply Hm2|]. intros vec Hl5 _. do 3 wp_step. eapply wp_mono; [apply wp_mon_do|]. intros u3 m3 ->.
  do 2 wp_step. eapply wp_mono; [apply wp_mon_do|]. intros u4 m4 ->.
  split; [|split; [|by rewrite <-Hin]].
  - apply ok_more, ok_Status_active, ok_more, ok_Partition_active, ok_Status_vector, Hl5.
    apply ok_Work_fc_buf, Hl4. apply ok_Fc_buf, Hl3. apply ok_Work_partition; [|exact Hl2|by apply HP2, Hm2].
    by apply ok_mon_Partition; [|done|apply HP1, Hm2].
  - split.
    + change (queued Send_partition_event ((mon_calls m2 ++ [mon_dequeue Send_partition_event]) ++ [mon_dequeue Send_status_query_event]) = false).
      by rewrite !queued_app.
    + change (queued Send_status_query_event ((mon_calls m2 ++ [mon_dequeue Send_partition_event]) ++ [mon_dequeue Send_status_query_event]) = false).
      by rewrite !queued_app.
Qed.

Lemma User_command_kept file ips m : mon_ok m -> timers_ok m ->
  (lines_fit (stdin m) = false \/ Conf_num_procs (Cn m) = MAX_PROCS_RING \/ too_many file -> E Undefined) ->
  wp E (User_command file ips) (fun _ => command_ok m) m.
Proof.
  intros Hm Ht HU. unfold User_command. do 3 wp_step. wp_step; [done|]. destruct a as [command ls]. wp_step. wp_step.
  destruct (stdin m) as [|l0 l1] eqn:Ein; [done|]. injection H as -> ->.
  set (m1 := set_field stdin _ m). assert (mon_ok m1) as Hm1 by by apply ok_stdin. assert (timers_ok m1) as Ht1 by exact Ht.
  assert (lines_fit (stdin m1) = false \/ Conf_num_procs (Cn m1) = MAX_PROCS_RING \/ too_many file -> E Undefined) as HU1.
  { intros [Hf|Hr]; apply HU; [left|by right]. eapply lines_fit_suffix; [|exact Hf]. by apply suffix_cons_r. }
  enough (forall a : M mon_st unit, wp E a (fun _ => command_ok m1) m1 -> wp E a (fun _ => command_ok m) m1) as Hgo.
  2:{ intros a Ha. eapply wp_mono; [exact Ha|]. intros u m' (H1 & H2 & H3). split; [done|]. split; [done|].
      rewrite Ein. by apply suffix_cons_r. }
  cbn zeta. apply Hgo. clear Hgo HU Ein. clearbody m1. clear m Hm Ht. rename m1 into m, Hm1 into Hm, Ht1 into Ht, HU1 into HU.
  assert (lines_fit (stdin m) = false -> E Undefined) as HUf by auto.
  assert (Conf_num_procs (Cn m) = MAX_PROCS_RING -> E Undefined) as HUn by auto.
  assert (command_ok m m) as Hsame by by split_and!.
  repeat (apply wp_if; intros _); try done.
  - by apply Activate_status_spec.
  - by apply Define_partition_kept.
  - by apply Use_partition_kept.
  - wp_step. wp_step. eapply wp_mono; [apply Print_partition_spec; [done|apply Hm]|]. by intros u m' ->.
  - by apply Cancel_partition_kept.
  - apply Define_flow_control_kept; [done|done|]. intros [|]; auto.
  - by apply Use_flow_control_kept.
  - wp_step. wp_step. eapply wp_mono; [apply Print_flow_control_spec; [done|apply Hm|done]|]. by intros u m' ->.
  - by apply Kill_spreads_kept.
  - apply Reload_Conf_kept; auto.
Qed.
End Commands.

(** ** Runs *)

(** A timer is due only if it was queued. *)
Definition possible (i : mon_input) m : Prop :=
  match i with Due e => queued e (mon_calls m) = true | Typed _ _ => True end.
(** How an input can end the monitor: memory outside an array is written only if a number is no [int] or a
    name does not fit, if all [MAX_PROCS_RING] daemons are configured, or by the parser. *)
Definition unsafe (i : mon_input) m (e : failure) : Prop := e = Fatal \/
  (e = Undefined /\ (lines_fit (stdin m) = false \/ Conf_num_procs (Cn m) = MAX_PROCS_RING \/
    match i with Typed file _ => too_many file | Due _ => False end)).

Lemma handle_input_kept i m : mon_ok m -> timers_ok m -> possible i m ->
  wp (unsafe i m) (handle_input i) (fun _ => command_ok m) m.
Proof.
  intros Hm Ht Hi. destruct i as [file ips|[|]]; cbn [handle_input].
  - apply User_command_kept; [by left|done|done|]. intros H. right. split; [done|]. by destruct H as [|[|]]; auto.
  - eapply wp_mono; [apply Send_partition_spec, Hm|]. intros u m' ->. split; [by auto|]. split; [|done].
    destruct Ht as [Hp Hs]. unfold more. split; rec_simpl_in_goal; rewrite app_assoc, queued_app, queued_sends by apply sends_twice;
      [|exact Hs].
    trans true; [done|]. rewrite <-Hi. exact Hp.
  - eapply wp_mono; [by apply Send_status_query_spec|]. intros u m' ->. split; [by auto|]. split; [|done].
    destruct Ht as [Hp Hs]. unfold more. split; rec_simpl_in_goal; rewrite app_assoc, queued_app, queued_sends by apply status_sends;
      [exact Hp|].
    trans true; [done|]. rewrite <-Hi. exact Hs.
Qed.

(** The monitor before [main]: what is typed, and nothing else. *)
Definition no_options : mon_options := mk_mon_options None "" 0 Zero_timeout.
Definition mon_zero (c : load_st) (ls : list (list Z)) : mon_st :=
  let ring {A} (x : A) := replicate (Z.to_nat MAX_PROCS_RING) x in
  mk_mon_st c no_options no_header (ring 0) (ring 0) (ring (0, 0)) (ring (0, 0)) (ring 0) false false ls [].

Lemma monitor_main_ok file_at ips argv c ls : Conf_Active_IP_Version c = -1 ->
  wp partial (monitor_main file_at ips argv) (fun _ m => mon_ok m /\ timers_ok m /\ stdin m = ls) (mon_zero c ls).
Proof.
  intros Hip. unfold monitor_main. wp_step. wp_step; [done|]. do 3 wp_step.
  eapply wp_mono; [apply read_configuration_spec; [done|by left|done]|].
  intros u m (c' & h & Hc & Em & Hh & Hfrom). assert (mon_ok m) as Hm.
  { subst m. split; try done; by apply Forall_replicate. }
  assert (mon_calls m = [] /\ Partition_active m = false /\ Status_active m = false /\ stdin m = ls) as (El & Ep & Es & Ein) by by subst m.
  clear Em Hh Hfrom Hc c' h. do 3 wp_step. apply zeros_spec; [done|apply Hm|]. intros part Hl1 HP. do 5 wp_step.
  set (m1 := set_field mon_Partition _ m). assert (mon_ok m1) as Hm1 by (apply ok_mon_Partition; [done|done|apply HP; [done|apply Hm]]).
  apply zeros_spec; [done|apply Hm1|]. intros vec Hl2 _. do 5 wp_step.
  set (m2 := set_field Status_vector _ m1). assert (mon_ok m2) as Hm2 by by apply ok_Status_vector.
  assert (mon_calls m2 = [] /\ Partition_active m2 = false /\ Status_active m2 = false /\ stdin m2 = ls) as (El2 & Ep2 & Es2 & Ein2) by done.
  clearbody m2. repeat (eapply wp_mono; [apply wp_mon_do|]; intros ? ? ->; try wp_step).
  rewrite !more_more. split; [by apply ok_more|]. split; [|done]. by split; unfold more; rec_simpl_in_goal; rewrite El2, ?Ep2, ?Es2.
Qed.

(** The states between the inputs, of a monitor started with these lines to read. *)
Inductive monitored (c : load_st) (ls : list (list Z)) : mon_st -> Prop :=
| monitor_started file_at ips argv m :
    monitor_main file_at ips argv (mon_zero c ls) = Ok tt m -> monitored c ls m
| monitor_input i m m' : monitored c ls m -> possible i m -> handle_input i m = Ok tt m' -> monitored c ls m'.

Lemma monitored_ok c ls m : Conf_Active_IP_Version c = -1 -> monitored c ls m ->
  mon_ok m /\ timers_ok m /\ suffix (stdin m) ls.
Proof.
  intros Hip. induction 1 as [file_at ips argv m E|i m m' _ (Hm & Ht & Hs) Hi E].
  - destruct (wp_ok _ _ _ _ _ _ (monitor_main_ok file_at ips argv c ls Hip) E) as (Hm & Ht & ->). by split_and!.
  - destruct (wp_ok _ _ _ _ _ _ (handle_input_kept i m Hm Ht Hi) E) as (Hm' & Ht' & Hs').
    split; [done|]. split; [done|]. by trans (stdin m).
Qed.

(** C31. Whatever is typed, and whichever timers fire, the monitor's arrays keep their sizes, its
    header names the configuration it has read and the daemon it takes itself for, and a timer is
    queued exactly if partitions, or status queries, are active; the next input is handled within
    the arrays, unless a line holds a number that is no [int] or a name of [MAX_PROC_NAME] bytes or more,
    or all [MAX_PROCS_RING] daemons are configured, or the parser is given more than it has room for. *)
Theorem monitor_keeps_bounds c ls m i : Conf_Active_IP_Version c = -1 -> monitored c ls m -> possible i m ->
  mon_ok m /\ timers_ok m /\ wp (unsafe i m) (handle_input i) (fun _ m' => mon_ok m' /\ timers_ok m') m.
Proof.
  intros Hip H Hi. destruct (monitored_ok c ls m Hip H) as (Hm & Ht & _). split; [done|]. split; [done|].
  eapply wp_mono; [by apply handle_input_kept|]. by intros u m' (H1 & H2 & _).
Qed.
End Monitor.

(** ** A monitor of three daemons *)

(** The lines that are typed. *)
Definition line (s : string) : list Z := str_bytes s ++ [10].
Definition demo_lines : list (list Z) := map line ["1"; "1"; "x"; "1"; "2"; "2"; "8"; "b"; ""; "6"].
(** Two lines are handled after the start. *)
Lemma two_commands {B} file_at ips argv file c ls (f : mon_st -> B) x :
  f <$> ended ((monitor_main file_at ips argv;; User_command file ips;; User_command file ips) (mon_zero c ls)) = Some x ->
  exists m, monitored c ls m /\ f m = x.
Proof.
  unfold ended, mbind, M_bind. destruct (monitor_main _ _ _ _) as [[] m1|] eqn:E1; [|done].
  destruct (User_command file ips m1) as [[] m2|] eqn:E2; [|done]. destruct (User_command file ips m2) as [[] m3|] eqn:E3; [|done].
  intros [= <-]. exists m3. split; [|done]. apply (monitor_input _ _ (Typed file ips) m2 m3); [|done|exact E3].
  apply (monitor_input _ _ (Typed file ips) m1 m2); [|done|exact E2]. by apply (monitor_started _ _ file_at ips argv).
Qed.

(** The partition is typed, sent, and sent again when the time comes. *)
Definition partition_view (m : mon_st) : list Z * bool := (take 4 (mon_Partition m), queued Send_partition_event (mon_calls m)).
Lemma demo_monitored : exists m, monitored demo_load demo_lines m /\ partition_view m = ([1; 1; 2; 0], true).
Proof. apply (two_commands (fun _ => file_abc) demo_ips ["-p"; "0x1000"] file_abc). vm_compute. reflexivity. Qed.
Lemma monitor_keeps_bounds_witness : exists m, monitored demo_load demo_lines m /\
  take 4 (mon_Partition m) = [1; 1; 2; 0] /\ mon_ok m /\
  wp (unsafe (Due Send_partition_event) m) (handle_input (Due Send_partition_event)) (fun _ m' => mon_ok m' /\ timers_ok m') m.
Proof.
  destruct demo_monitored as (m & H & [= Hp Hq]). exists m.
  destruct (monitor_keeps_bounds demo_family demo_load demo_lines m (Due Send_partition_event) eq_refl H Hq) as (H1 & _ & H2).
  exact (conj H (conj Hp (conj H1 H2))).
Defined.

(** With [MAX_PROCS_RING] daemons the window of all is written past the array. *)
Example window_past_array : put_first (MAX_PROCS_RING + 1) (replicate 128 (0, 0)) (replicate 128 (0, 0)) (mon_zero demo_load []) = Fail Undefined.
Proof. reflexivity. Qed.
(** A name of 20 bytes does not fit. *)
Example name_too_long : line_fits (line "abcdefghijklmnopqrst") = false /\ line_fits (line "abcdefghijklmnopqrs") = true.
Proof. vm_compute. split; reflexivity. Qed.
