(* ===== verification/MonitorNet.v ===== *)
(** * What the daemons make of what the monitor sends

    A partition, or windows, from the operator's lines to the state of a daemon that hears the
    monitor: [Monitor] composed with [Network] and [FlowControl]. *)

From S2P Require Import Prelude NetTypes Configuration State Network NetFacts FlowControl SetsProps.
From S2P Require Import Message Stdutil SessState Acm ConfigState ConfigParse ConfigLoad ConfigDaemon ConfigProps ConfigReload.
From S2P Require Import Demo GroupsDemo ConfigDemo AccessFiles Monitor MonitorProps.

Lemma bytes16s_app l l' : bytes16s (l ++ l') = bytes16s l ++ bytes16s l'.
Proof. unfold bytes16s. by rewrite map_app, concat_app. Qed.
Lemma length_bytes16s l : length (bytes16s l) = (2 * length l)%nat.
Proof.
  induction l as [|x l IH]; [done|]. unfold bytes16s in *. cbn [map concat length].
  rewrite length_app, IH, length_bytes16. lia.
Qed.
Lemma get_bytes16s l (i : nat) x : l !! i = Some x -> get_i16 (bytes16s l) (2 * Z.of_nat i) = i16 x.
Proof.
  intros H. rewrite <-(take_drop_middle _ _ _ H), bytes16s_app.
  change (bytes16s (x :: ?l)) with (bytes16 x ++ bytes16s l). apply get_i16_app.
  rewrite length_bytes16s, length_take. apply lookup_lt_Some in H. lia.
Qed.
(** The array that is read back is the one that was sent. *)
Lemma read_bytes16s l (n : nat) : (n <= length l)%nat -> Forall is_i16 (take n l) ->
  map (fun i => get_i16 (bytes16s l) (2 * i)) (zseq 0 n) = take n l.
Proof.
  induction n as [|n IH]; intros Hn Hi; [done|]. destruct (lookup_lt_is_Some_2 l n) as [x Hx]; [lia|].
  rewrite (take_S_r _ _ _ Hx) in *. apply Forall_app in Hi as [Hi [Hx' _]%Forall_cons].
  replace (S n) with (n + 1)%nat by lia. rewrite zseq_app, map_app, IH by first [lia|done].
  cbn [zseq map]. rewrite (get_bytes16s _ _ _ Hx : get_i16 _ (2 * (0 + Z.of_nat n)) = _). by rewrite i16_id.
Qed.

Lemma fc_bytes_app l l' : fc_bytes (l ++ l') = fc_bytes l ++ fc_bytes l'.
Proof. unfold fc_bytes. by rewrite map_app, concat_app. Qed.
Lemma length_fc_bytes l : length (fc_bytes l) = (4 * length l)%nat.
Proof.
  induction l as [|x l IH]; [done|]. unfold fc_bytes in *. cbn [map concat length].
  rewrite !length_app, IH, !length_bytes16. lia.
Qed.
Lemma get_fc_bytes l (i : nat) x y : l !! i = Some (x, y) ->
  get_i16 (fc_bytes l) (4 * Z.of_nat i) = i16 x /\ get_i16 (fc_bytes l) (4 * Z.of_nat i + 2) = i16 y.
Proof.
  intros H. rewrite <-(take_drop_middle _ _ _ H), fc_bytes_app. pose proof (lookup_lt_Some _ _ _ H).
  replace (fc_bytes ((x, y) :: drop (S i) l)) with (bytes16 x ++ bytes16 y ++ fc_bytes (drop (S i) l))
    by (unfold fc_bytes; cbn; by rewrite <-app_assoc).
  split; [apply get_i16_app; rewrite length_fc_bytes, length_take; lia|].
  rewrite app_assoc. apply get_i16_app. rewrite length_app, length_fc_bytes, length_take, length_bytes16. lia.
Qed.

Section Daemons.
Context {L : SpuLib} {R : SessLib} {C : ConfLib}.
(** A packet has room for a partition. *)
Context (Hpacket : sizeof_packet_header + sizeof_partition <= MAX_PACKET_SIZE).
Implicit Types (m : mon_st) (p : proc) (s : St).

(** A datagram as a daemon receives it from the address [src]. *)
Definition received (fd : Z) (src : spu_addr) (h : packet_header) (body : list Z) : recvd packet_header :=
  mk_recvd fd (sizeof_packet_header + Z.of_nat (length body)) src h body.

(** The daemon [s], the [k]-th of the configuration, hears the monitor: both have read the same
    configuration, which lets a monitor do this, and the datagram comes from the host of the
    daemon that the monitor takes itself for. *)
Record hears s m (fd : Z) (src : spu_addr) (k : nat) : Prop := {
  he_config : Config s = Cn m;
  he_allowed : EnableDangerousMonitor s = true;
  he_settled : Conf_Reload_Singleton_State s = false;
  he_fd : fd ∈ Bcast_channel s;
  he_from : exists j p, Conf_proc_by_id_in_conf (Cn m) (id (mon_My m)) = Some (j, p) /\
    spu_addr_ip_cmp src (proc_addr p) false = 0;
  he_array : Z.of_nat (length (Partition s)) = MAX_PROCS_RING;
  he_index : Partition_my_index s = Z.of_nat k /\ (k < length (allprocs (Cn m)))%nat
}.

(** Is the daemon of this id in the partition of the [k]-th? *)
Definition together (l : list Z) (cn : configuration) (k : nat) (pid : Z) : bool :=
  match Conf_proc_by_id_in_conf cn pid with
  | Some (i, _) => default 0 (l !! k) =? default 0 (l !! Z.to_nat i)
  | None => false
  end.

Definition partitioned (l : list Z) (n : nat) s : St :=
  s <| Partition ::= fun old => take n l ++ drop n old |>
    <| trace ::= fun t => t ++ [E_queue Clear_partition_cb (mk_sp_time 60 0)] |>.
Lemma partition_received l m s fd src k x : mon_ok m -> hears s m fd src k -> Z.of_nat (length l) = MAX_PROCS_RING ->
  Forall is_i16 (take (length (allprocs (Cn m))) l) -> l !! k = Some x ->
  wp (fun e => e = Fatal /\ x = -1) (Net_recv (received fd src (partition_header m) (bytes16s l))) (fun r s' =>
    x <> -1 /\ r.1.1 = 0 /\ s' = partitioned l (length (allprocs (Cn m))) s) s.
Proof.
  intros Hm [HC Hd Hr Hfd (j & pm & Hpm & Hsrc) Ha [Hk Hkn]] Hl Hi16 Hx.
  destruct (num_procs_room m Hm) as (n & Hn & En & Hn128).
  assert (Z.of_nat (length (bytes16s l)) = 256) as Hb by (rewrite length_bytes16s; unfold MAX_PROCS_RING in Hl; lia).
  unfold Net_recv, received. cbn [rc_head rc_bytes rc_fd rc_src rc_body]. rewrite Hb. wp_step. wp_step. wp_step.
  wp_step. { rewrite bool_decide_eq_true_2 in H by done. done. }
  change (Same_endian (p_type (partition_header m))) with true. cbn iota.
  change (p_data_len (partition_header m)) with 256. rewrite Z.eqb_refl.
  change (_ + 256 <? 0) with false. change (_ + 256 <? _) with false.
  cbn [negb]. cbn iota. wp_step. wp_step.
  change (p_conf_hash (partition_header m)) with (p_conf_hash (Pack m)).
  change (p_transmiter_id (partition_header m)) with (p_transmiter_id (Pack m)).
  rewrite HC, (mo_hash _ Hm), Z.eqb_refl. cbn [negb]. destruct (mo_from _ Hm) as [-> _]. rewrite Hpm, Hsrc.
  change (truth 0) with false. change (Is_control (p_type (partition_header m))) with true. cbn iota.
  wp_step. unfold Net_handle_monitor. change (Is_partition (p_type (partition_header m))) with true.
  change (Same_endian (p_type (partition_header m))) with true. change (p_data_len (partition_header m)) with 256.
  cbn [negb]. wp_step. wp_step. rewrite Hd. cbn [negb]. wp_step. wp_step. rewrite HC, Hn. cbn zeta.
  unfold MAX_PROCS_RING in Hn128, Hl, Ha.
  assert ((sizeof_packet_header + 256 <? sizeof_packet_header + Z.of_nat n * 2) || (sizeof_packet_body <? Z.of_nat n * 2) = false) as ->.
  { assert (256 <= sizeof_packet_body) by exact (proj1 (Z.le_add_le_sub_l _ _ _) Hpacket). apply orb_false_iff. split; apply Z.ltb_ge; lia. }
  unfold zrange. replace (Z.to_nat (Z.of_nat n - 1 - 0 + 1)) with n by lia.
  rewrite read_bytes16s by first [lia|by rewrite En]. wp_step. unfold Net_set_partition. wp_step. wp_step.
  rewrite Hr. wp_step. wp_step. rewrite HC, Hn. wp_step. apply wp_undef_if; intros Hu.
  { bools_to_props. rewrite length_take in Hu. lia. }
  clear Hu.
  rewrite Nat2Z.id, take_take, Nat.min_id. unfold write_partition. wp_step. apply wp_undef_if; intros Hu.
  { bools_to_props. rewrite length_take in Hu. unfold MAX_PROCS_RING in Hu. lia. }
  wp_step. wp_step. eapply wp_returns; [reflexivity|]. do 4 wp_step. rec_simpl_in_goal. rewrite Hk.
  assert (arr_get (take n l ++ drop (length (take n l)) (Partition s)) (Z.of_nat k) = Some x) as Hv.
  { rewrite arr_get_lookup, lookup_app_l by (rewrite length_take; lia). rewrite lookup_take_lt by lia. done. }
  rewrite Hv. wp_step. apply wp_ret. wp_step. apply wp_fatal_if; intros Hx1.
  { split; [done|]. by apply Z.eqb_eq. }
  wp_step. wp_step. split; [by apply Z.eqb_neq|]. split; [done|]. unfold partitioned. rewrite <-En.
  rewrite length_take, Nat.min_l by lia. done.
Qed.

Lemma components_after l m s fd src k pid : hears s m fd src k -> (length (allprocs (Cn m)) <= length l)%nat ->
  In_my_component pid (partitioned l (length (allprocs (Cn m))) s) =
    Ok (together l (Cn m) k pid) (partitioned l (length (allprocs (Cn m))) s).
Proof.
  intros [HC _ _ _ _ _ [Hk Hkn]] Hl. unfold In_my_component, together, mbind, M_bind, gets.
  change (Config (partitioned l _ s)) with (Config s). rewrite HC.
  destruct (Conf_proc_by_id_in_conf (Cn m) pid) as [[i p]|] eqn:Ei; [|done].
  apply find_index_Some in Ei as (Hi & _). unfold partitioned. rec_simpl_in_goal. rewrite Hk.
  destruct (lookup_lt_is_Some_2 l k) as [x Hx]; [lia|]. destruct (lookup_lt_is_Some_2 l (Z.to_nat i)) as [y Hy]; [lia|].
  assert (forall j z, (j < length (allprocs (Cn m)))%nat -> l !! j = Some z -> arr_get (take (length (allprocs (Cn m))) l ++
    drop (length (allprocs (Cn m))) (Partition s)) (Z.of_nat j) = Some z) as Hget.
  { intros j z Hj Hz. rewrite arr_get_lookup, lookup_app_l by (rewrite length_take; lia). by rewrite lookup_take_lt by lia. }
  pose proof (Hget (Z.to_nat i) y ltac:(lia) Hy) as Hgi. rewrite Z2Nat.id in Hgi by lia.
  by rewrite (Hget _ _ Hkn Hx), Hgi, Hx, Hy.
Qed.

(** What may end the monitor while it reads lines. *)
Definition unreadable m (e : failure) : Prop := e = Fatal \/ (e = Undefined /\ lines_fit (stdin m) = false).

(** What the [k]-th daemon does with a partition sent to it. *)
Definition obeys (h : packet_header) (l : list Z) m : Prop := forall s fd src k x, hears s m fd src k -> l !! k = Some x ->
  if x =? -1 then Net_recv (received fd src h (bytes16s l)) s = Fail Fatal
  else exists r s', Net_recv (received fd src h (bytes16s l)) s = Ok r s' /\
    trace s' = trace s ++ [E_queue Clear_partition_cb (mk_sp_time 60 0)] /\
    forall pid, In_my_component pid s' = Ok (together l (Cn m) k pid) s'.
Lemma partition_obeyed l m : mon_ok m -> Z.of_nat (length l) = MAX_PROCS_RING ->
  Forall is_i16 (take (length (allprocs (Cn m))) l) -> obeys (partition_header m) l m.
Proof.
  intros Hm Hl Hi s fd src k x Hs Hx. destruct (num_procs_room m Hm) as (n & _ & -> & Hr).
  pose proof (partition_received l m s fd src k x Hm Hs Hl Hi Hx) as Hw. destruct (Z.eqb_spec x (-1)) as [->|Hne].
  - destruct (wp_fails (fun e => e = Fatal /\ -1 = -1) (Net_recv (received fd src (partition_header m) (bytes16s l))) s) as (e & He & [-> _]); [|done].
    eapply wp_mono; [exact Hw|]. by intros r s' [].
  - assert (wp total (Net_recv (received fd src (partition_header m) (bytes16s l))) (fun r s' =>
      s' = partitioned l (length (allprocs (Cn m))) s) s) as (r & s' & E & ->)%wp_total_ex.
    { eapply wp_allow; [|eapply wp_mono; [exact Hw|]]; [by intros e []|by intros r s' (_ & _ & ->)]. }
    exists r, (partitioned l (length (allprocs (Cn m))) s). split; [done|]. split; [done|].
    intros pid. eapply components_after; [done|]. lia.
Qed.

(** C29. A partition that an operator types (command 1) and sends (command 2) is the one in force:
    every daemon is sent it twice, and it is sent again after a time.  A daemon that hears it takes
    a daemon to be in its component exactly if the same number was typed for both, until it clears
    the partition after a minute; a daemon for which a number was typed that is -1 as a 16-bit
    integer (such as 65535) ends. *)
Theorem partition_typed_is_in_force m : mon_ok m ->
  wp (unreadable m) (Define_partition;; Use_partition) (fun _ m' => exists vs rest h l,
    typed_numbers (length (allprocs (Cn m))) (stdin m) = Some (vs, rest) /\
    take (length (allprocs (Cn m))) l = map i16 vs /\
    mon_calls m' = mon_calls m ++ to_all (Packet h (bytes16s l)) m ++ [mon_queue Send_partition_event Send_partition_timeout] /\
    obeys h l m) m.
Proof.
  intros Hm. wp_step. eapply wp_mono; [apply Define_partition_spec; [by left|done|by right]|].
  intros u m1 (vs & rest & Hvs & Hs & ->). pose proof (typed_room _ _ _ Hm Hvs) as Hroom.
  set (m1 := _ <| stdin := rest |>). assert (mon_ok m1) as Hm1 by by apply ok_stdin, written_i16.
  eapply wp_mono; [by apply Use_partition_spec|]. intros u2 m2 ->.
  pose proof (in_use_ok _ Hm1) as Hm2. pose proof (typed_numbers_length _ _ _ _ Hvs) as Hlen.
  exists vs, rest, (partition_header m), (mon_Partition (in_use m1)). split; [done|]. split; [|split; [done|]].
  - unfold in_use, m1. rec_simpl_in_goal. change (Cn _) with (Cn m). unfold written_over.
    rewrite <-Hlen, length_map, take_app_le by (rewrite length_take, length_app, length_map; lia).
    rewrite take_take, Nat.min_id. rewrite <-(length_map i16 vs). apply take_app_length.
  - apply partition_obeyed; [done|apply Hm2|]. apply Forall_take, Hm2.
Qed.

(** C30. The command that terminates daemons sends something only to the daemons that were chosen
    by the names typed, and to those whose partition was -1 already, and each of these that hears
    it ends.  The names mean a set: [all] and [none] are every daemon and no daemon. *)
Theorem kill_ends_only_chosen m : mon_ok m ->
  wp (unreadable m) Kill_spreads (fun _ m' => exists ws rest h l, typed_names (stdin m) = Some (ws, rest) /\
    mon_calls m' = mon_calls m ++
      concat (imap (fun i p => if doomed ws m i p then twice (Packet h (bytes16s l)) p else []) (allprocs (Cn m))) /\
    forall s fd src k p, hears s m fd src k -> allprocs (Cn m) !! k = Some p -> doomed ws m k p = true ->
      Net_recv (received fd src h (bytes16s l)) s = Fail Fatal) m.
Proof.
  intros Hm. eapply wp_mono; [apply Kill_spreads_spec; [by left|done|by right]|].
  intros u m' (ws & rest & kill & Hws & Hkill & Hl & ->). exists ws, rest, (partition_header m), kill.
  split; [done|]. split; [done|]. intros s fd src k p Hs Hp Hd.
  assert (kill !! k = Some (-1)) as Hx.
  { rewrite (Hkill _ _ Hp). unfold doomed in Hd. destruct (chosen _ _); [done|].
    destruct (in_array _ m k p ltac:(apply Hm) (mo_part _ Hm) Hp) as [x Hx]. rewrite Hx in *.
    apply Z.eqb_eq in Hd. cbn in Hd. by rewrite Hd. }
  assert (obeys (partition_header m) kill m) as Ho; [|exact (Ho s fd src k (-1) Hs Hx)].
  apply partition_obeyed; [done|done|]. apply Forall_lookup. intros i x Hi%lookup_take_Some.
  destruct Hi as [Hi Hin]. destruct (lookup_lt_is_Some_2 (allprocs (Cn m)) i Hin) as [q Hq].
  rewrite (Hkill _ _ Hq) in Hi. destruct (chosen _ _); [by injection Hi as <-|].
  by eapply Forall_lookup_1; [apply (mo_part_i16 _ Hm)|].
Qed.

(** -1 leaves a window as it is. *)
Definition new_window (typed old : Z) : Z := if i16 typed =? -1 then old else i16 typed.

(** C32. With fewer than [MAX_PROCS_RING] daemons, the windows that are sent (command 6) are those a daemon
    that allows dangerous monitor commands uses: the window of all is the entry
    after the last daemon, the two others are the daemon's own entry, and -1 keeps a value.  Each
    entry is sent as it is, so with nothing defined before, all windows become 0. *)
Theorem windows_sent_are_used m : mon_ok m -> Conf_num_procs (Cn m) < MAX_PROCS_RING ->
  wp total Use_flow_control (fun _ m' => exists h l,
    take (S (length (allprocs (Cn m)))) l = take (S (length (allprocs (Cn m)))) (Work_fc_buf m) /\
    mon_calls m' = mon_calls m ++ to_all (Packet h (fc_bytes l)) m /\
    forall s k p w y x z, Config s = Cn m -> EnableDangerousMonitor s = true ->
      allprocs (Cn m) !! k = Some p -> id p = id (My s) ->
      l !! length (allprocs (Cn m)) = Some (w, y) -> l !! k = Some (x, z) ->
      exists s', FC_handle_message h (fc_bytes l) s = Ok tt s' /\ Window s' = new_window w (Window s) /\
        Personal_window s' = new_window x (Personal_window s) /\
        Accelerated_window s' = new_window z (Accelerated_window s)) m.
Proof.
  intros Hm Hlt. destruct (num_procs_room m Hm) as (n & Hn & En & Hr). pose proof (mo_fc _ Hm) as Hf. pose proof (mo_wfc _ Hm) as Hw.
  unfold Use_flow_control. do 7 wp_step. rewrite Hn in *. replace (Z.of_nat n + 1) with (Z.of_nat (S n)) by lia.
  apply wp_put_first; [lia|]. wp_step. wp_step. set (l := _ ++ _).
  eapply wp_mono; [apply Send_flow_control_spec, Hm|]. intros u m' ->.
  eexists _, l. split; [|split; [reflexivity|]].
  { unfold l. rewrite <-En, take_app_le, take_take, Nat.min_id by (rewrite length_take; lia). done. }
  intros s k p w y x z HC Hd Hp Hid Hww Hxx.
  assert (Conf_proc_by_id_in_conf (Cn m) (id (My s)) = Some (Z.of_nat k, p)) as Hme.
  { rewrite <-Hid. unfold Conf_proc_by_id_in_conf. rewrite <-(take_drop_middle _ _ _ Hp).
    rewrite (find_index_in id); [|rewrite (take_drop_middle _ _ _ Hp); apply (id_ids _ (ld_identified _ (mo_loaded _ Hm)))|by intros q; apply Z.eqb_eq].
    rewrite length_take_le; [done|]. apply lookup_lt_Some in Hp. lia. }
  assert (0 <= Conf_id_in_conf (Cn m) (id (mon_My m))) as Hmon.
  { destruct (ld_my _ (mo_loaded _ Hm)) as (q & Hq & _ & E & _). unfold mon_My, Cn. rewrite E.
    assert (Conf_id_in_conf (Config (daemon (mon_conf m))) (id q) <> -1).
    { intros Hno%Conf_id_in_conf_spec. apply Hno. unfold ring_of. rewrite <-(ld_all _ (mo_loaded _ Hm)).
      by apply list_elem_of_fmap_2. }
    unfold Conf_id_in_conf in *. destruct (find_index _ _) as [[i sg]|] eqn:Ef; cbn in *; [|done].
    by apply find_index_Some in Ef as [[Hi _] _]. }
  apply get_fc_bytes in Hww as [Gw _]. apply get_fc_bytes in Hxx as [Gx Gz].
  enough (wp total (FC_handle_message (pack_with FC_TYPE sizeof_fc_buf (Pack m)) (fc_bytes l)) (fun r s' => Window s' = new_window w (Window s) /\
    Personal_window s' = new_window x (Personal_window s) /\ Accelerated_window s' = new_window z (Accelerated_window s)) s)
    as ([] & s' & Es & H)%wp_total_ex by eauto.
  unfold FC_handle_message. wp_step. wp_step. rewrite Hd. cbn [negb]. wp_step. wp_step. rewrite HC.
  change (p_proc_id (pack_with FC_TYPE sizeof_fc_buf (Pack m))) with (p_proc_id (Pack m)).
  destruct (mo_from _ Hm) as [_ ->]. replace (_ <? 0) with false by (symmetry; by apply Z.ltb_ge).
  wp_step. wp_step. rewrite Hme. cbn [index_or_minus1]. cbn zeta. wp_step. wp_step; [bools_to_props; lia|].
  change (Same_endian (p_type (pack_with FC_TYPE sizeof_fc_buf (Pack m)))) with true. cbn iota.
  rewrite Hn, En, !Z.mul_0_r, !Z.add_0_r, Z.mul_1_r, Gw, Gx, Gz. unfold new_window, when.
  destruct (i16 w =? -1), (i16 x =? -1), (i16 z =? -1); cbn [negb];
    repeat wp_step; done.
Qed.

(** A monitor that has just read its configuration, and a daemon that listens. *)
Definition just_read (c : load_st) (ls : list (list Z)) : mon_st :=
  (mon_zero c ls) <| Pack := no_header <| p_conf_hash := hash_code (Config (daemon c)) |>
    <| p_transmiter_id := id (My (daemon c)) |> <| p_proc_id := id (My (daemon c)) |> |>.
Lemma just_read_ok c ls : loaded c -> mon_ok (just_read c ls).
Proof. intros H. split; try done; by apply Forall_replicate. Qed.
Lemma just_read_Cn c ls : Cn (just_read c ls) = Config (daemon c).
Proof. done. Qed.
Definition listener (c : load_st) (k : nat) : St := (daemon c) <| EnableDangerousMonitor := true |>
  <| Conf_Reload_Singleton_State := false |> <| Bcast_channel := [4] |>
  <| Partition := replicate 128 0 |> <| Partition_my_index := Z.of_nat k |>.
Lemma listener_same c k ls : Config (listener c k) = Cn (just_read c ls) /\
  EnableDangerousMonitor (listener c k) = true /\ My (listener c k) = My (daemon c).
Proof. done. Qed.
Lemma listener_hears c ls src k j p : Conf_proc_by_id_in_conf (Config (daemon c)) (id (My (daemon c))) = Some (j, p) ->
  spu_addr_ip_cmp src (proc_addr p) false = 0 -> (k < length (allprocs (Config (daemon c))))%nat ->
  hears (listener c k) (just_read c ls) 4 src k.
Proof. intros Hp Hs Hk. split; try done; [by left|by exists j, p]. Qed.
End Daemons.

(** ** Three daemons, "a", "b" and "c", and a monitor on the first *)

Definition demo_src : Z := 65536 * 97.
Definition names_of (c : load_st) : list string := map name (allprocs (Config (daemon c))).
Definition my_addr (c : load_st) : option Z :=
  (fun '(_, p) => proc_addr p / 65536) <$> Conf_proc_by_id_in_conf (Config (daemon c)) (id (My (daemon c))).
Lemma demo_facts : names_of demo_inited = ["a"; "b"; "c"] /\ my_addr demo_inited = Some 97.
Proof. vm_compute. split; reflexivity. Qed.
Lemma runs (a : M mon_st unit) m : (fun _ => tt) <$> ended (a m) = Some tt -> exists m', a m = Ok tt m'.
Proof. destruct (a m) as [[] m'|]; [|done]. by exists m'. Qed.
#[local] Opaque demo_inited.
Lemma demo_packet : sizeof_packet_header + sizeof_partition <= MAX_PACKET_SIZE.
Proof. by vm_compute. Qed.
Lemma demo_count : length (allprocs (Config (daemon demo_inited))) = 3%nat.
Proof.
  destruct demo_facts as [H _]. unfold names_of in H. apply (f_equal length) in H. rewrite length_map in H. exact H.
Qed.
Lemma demo_hears ls k : (k < 3)%nat -> hears (listener demo_inited k) (just_read demo_inited ls) 4 demo_src k.
Proof.
  intros Hk. destruct demo_facts as [_ H]. unfold my_addr in H.
  destruct (Conf_proc_by_id_in_conf (Config (daemon demo_inited)) (id (My (daemon demo_inited)))) as [[j p]|] eqn:E; [|discriminate H].
  injection H as H. apply (listener_hears demo_inited ls demo_src k j p E); [|by rewrite demo_count].
  cbn [spu_addr_ip_cmp demo_lib]. by rewrite H.
Qed.

(** The partition 1, 1, 2: "b" and those of its number are together. *)
Definition demo_typed : list (list Z) := map line ["1"; "one"; "1"; "2"].
Lemma demo_typed_runs : exists m', (Define_partition;; Use_partition) (just_read demo_inited demo_typed) = Ok tt m'.
Proof. apply runs. vm_compute. reflexivity. Qed.
Lemma partition_typed_is_in_force_witness : exists m' h l r s',
  (Define_partition;; Use_partition) (just_read demo_inited demo_typed) = Ok tt m' /\
  take 3 l = [1; 1; 2] /\ Net_recv (received 4 demo_src h (bytes16s l)) (listener demo_inited 1) = Ok r s' /\
  forall pid, In_my_component pid s' = Ok (together l (Config (daemon demo_inited)) 1 pid) s'.
Proof.
  destruct demo_typed_runs as [m' E].
  destruct (wp_ok _ _ _ _ _ _ (partition_typed_is_in_force demo_packet (just_read demo_inited demo_typed)
    (just_read_ok demo_inited demo_typed demo_inited_loaded)) E) as (vs & rest & h & l & Hvs & Hl & _ & Ho).
  rewrite just_read_Cn, demo_count in Hvs, Hl. injection Hvs as <- <-. change (take 3 l = [1; 1; 2]) in Hl.
  assert (l !! 1%nat = Some 1) as Hx.
  { rewrite <-(lookup_take_lt _ 3) by lia. by rewrite Hl. }
  destruct (Ho (listener demo_inited 1) 4 demo_src 1%nat 1 (demo_hears demo_typed 1 ltac:(lia)) Hx) as (r & s' & Er & _ & Hc).
  exists m', h, l, r, s'. exact (conj E (conj Hl (conj Er Hc))).
Defined.

(** "b" is chosen, and ends. *)
Definition demo_kill : list (list Z) := map line ["all"; "none"; "b"; ""].
Lemma demo_kill_runs : exists m', Kill_spreads (just_read demo_inited demo_kill) = Ok tt m'.
Proof. apply runs. vm_compute. reflexivity. Qed.
Lemma demo_named k nm : names_of demo_inited !! k = Some nm ->
  exists p, allprocs (Config (daemon demo_inited)) !! k = Some p /\ name p = nm.
Proof.
  unfold names_of. rewrite list_lookup_fmap. destruct (allprocs (Config (daemon demo_inited)) !! k) as [p|]; [|discriminate].
  intros [= <-]. by exists p.
Qed.
Lemma demo_b : exists p, allprocs (Config (daemon demo_inited)) !! 1%nat = Some p /\ name p = "b".
Proof. apply demo_named. by rewrite (proj1 demo_facts). Qed.
Lemma kill_ends_only_chosen_witness : exists m' h l,
  Kill_spreads (just_read demo_inited demo_kill) = Ok tt m' /\
  Net_recv (received 4 demo_src h (bytes16s l)) (listener demo_inited 1) = Fail Fatal.
Proof.
  destruct demo_kill_runs as [m' E]. destruct demo_b as (p & Hp & Hname).
  destruct (wp_ok _ _ _ _ _ _ (kill_ends_only_chosen demo_packet (just_read demo_inited demo_kill)
    (just_read_ok demo_inited demo_kill demo_inited_loaded)) E) as (ws & rest & h & l & Hws & _ & Ho).
  exists m', h, l. split; [exact E|].
  injection Hws as <- _. apply (Ho (listener demo_inited 1) 4 demo_src 1%nat p (demo_hears demo_kill 1 ltac:(lia)) Hp).
  unfold doomed. rewrite Hname. reflexivity.
Defined.

(** Sent before anything was defined, the windows are 0, and the daemon sends nothing more. *)
Lemma demo_fc_runs : exists m', Use_flow_control (just_read demo_inited []) = Ok tt m'.
Proof. apply runs. vm_compute. reflexivity. Qed.
Definition my_index (c : load_st) : option Z := fst <$> Conf_proc_by_id_in_conf (Config (daemon c)) (id (My (daemon c))).
Lemma demo_index : my_index demo_inited = Some 0.
Proof. vm_compute. reflexivity. Qed.
Lemma demo_a_my : exists p, allprocs (Config (daemon demo_inited)) !! 0%nat = Some p /\ id p = id (My (daemon demo_inited)).
Proof.
  pose proof demo_index as H. unfold my_index in H.
  destruct (Conf_proc_by_id_in_conf (Config (daemon demo_inited)) (id (My (daemon demo_inited)))) as [[j p]|] eqn:E; [|discriminate H].
  injection H as ->. apply find_index_Some in E as (_ & Hp & Hid & _). exists p. split; [exact Hp|by apply Z.eqb_eq].
Qed.
Lemma windows_sent_are_used_witness : exists m' h l s', Use_flow_control (just_read demo_inited []) = Ok tt m' /\
  FC_handle_message h (fc_bytes l) (listener demo_inited 0) = Ok tt s' /\ Window s' = 0 /\ Personal_window s' = 0.
Proof.
  destruct demo_fc_runs as [m' E]. destruct demo_a_my as (p & Hp & Hid).
  assert (Conf_num_procs (Cn (just_read demo_inited [])) < MAX_PROCS_RING) as Hlt.
  { rewrite just_read_Cn, Conf_num_procs_length, <-(ld_all _ demo_inited_loaded), demo_count. reflexivity. }
  destruct (wp_ok _ _ _ _ _ _ (windows_sent_are_used (just_read demo_inited [])
    (just_read_ok demo_inited [] demo_inited_loaded) Hlt) E) as (h & l & Hl & _ & Ho).
  rewrite just_read_Cn, demo_count in Hl. change (take 4 l = [(0, 0); (0, 0); (0, 0); (0, 0)]) in Hl.
  assert (forall i, (i < 4)%nat -> l !! i = Some (0, 0)) as Hi.
  { intros i Hi. rewrite <-(lookup_take_lt _ 4) by lia. rewrite Hl. by do 4 (destruct i as [|i]; [reflexivity|]); lia. }
  destruct (listener_same demo_inited 0 []) as (HC & Hd & HM). rewrite <-HM in Hid.
  destruct (Ho (listener demo_inited 0) 0%nat p 0 0 0 0 HC Hd Hp Hid) as (s' & Es & Hw & Hx & _).
  { rewrite just_read_Cn, demo_count. apply Hi. lia. }
  { apply Hi. lia. }
  exists m', h, l, s'. exact (conj E (conj Es (conj Hw Hx))).
Defined.

(** A window of all, and one of each daemon: the first is still there after a reload. *)
Definition demo_windows : list (list Z) := map line ["7"; "1"; "2"; "3"].
Definition after_reload (m : mon_st) : list (Z * Z) := take 4 (Work_fc_buf m).
Example window_survives_reload : after_reload <$>
    ended ((Define_flow_control;; Reload_Conf file_abc demo_ips) (just_read demo_inited demo_windows)) =
  Some [(0, 0); (0, 0); (0, 0); (7, 0)].
Proof. vm_compute. reflexivity. Qed.
