(* ===== verification/NetInit.v ===== *)
(** * Opening the channels: [Net_init] of network.c

    The channels packets and tokens come in by, one for each interface of the daemon or one for
    all, and for the addresses of its segment; the multicast groups among these are joined.
    The arrays [Bcast_addrs] and [bcast_bound] are one list of pairs here. *)

From S2P Require Import Prelude NetTypes Configuration State Network ConfigState ConfigLoad.

Section NetInit.
Context {L : SpuLib} {X : Ext} {C : ConfLib}.
(** [Conf_get_ignore_multicast_join_errors()] *)
Variable ignore : bool.

Definition MAX_BCAST_CHANNELS : Z := MAX_INTERFACES_PROC + MAX_ADDRS_SEGMENT.

Definition RECV : channel_flags := mk_channel_flags false true false.
Definition RECV_REUSE (reuse : bool) : channel_flags := mk_channel_flags false true reuse.
Definition init_channel (f : channel_flags) (a : spu_addr) : M St Z :=
  ext_call (at_start (DL_init_channel_gen f a)).

(** [Bcast_channel[Num_bcast_channels++] = c], and the same for the tokens. *)
Definition add_bcast_channel (c : Z) : M St unit :=
  l ← gets Bcast_channel;
  undef_if (MAX_BCAST_CHANNELS <=? Z.of_nat (length l));;
  modify (fun s => s <| Bcast_channel := l ++ [c] |>).
Definition add_token_channel (c : Z) : M St unit :=
  l ← gets Token_channel;
  undef_if (MAX_INTERFACES_PROC <=? Z.of_nat (length l));;
  modify (fun s => s <| Token_channel := l ++ [c] |>).

(** An address is taken out: the last one moves into its place. *)
Definition swap_first {A} (l : list A) : list A :=
  match last (tail l) with Some x => x :: removelast (tail l) | None => [] end.

(** The channel [c] joins the multicast groups among the addresses; those before [j] are
    [done].  One that cannot be joined is an error, or is left out. *)
Fixpoint join_groups (fuel : nat) (c : Z) (done rest : list (spu_addr * bool))
  : M St (list (spu_addr * bool)) :=
  match fuel, rest with
  | _, [] => mret done
  | O, _ => fail OutOfFuel
  | S n, (a, b) :: rest' =>
      if negb (spu_addr_ip_is_multicast a) then join_groups n c (done ++ [(a, b)]) rest' else
      my ← gets My;
      ret ← ext_call (at_start (DL_join_multicast_gen c a (proc_addr my)));
      if ret =? 0 then join_groups n c (done ++ [(a, b)]) rest' else
      fatal_if (negb ignore);;
      needed ← gets Bcast_needed;
      fatal_if (truth needed && bool_decide (done ++ swap_first rest = []));;
      join_groups n c done (swap_first rest)
  end.

(** ** No interface is configured: the base port of all *)

Definition any_interface (a : spu_addr) : spu_addr :=
  let a := spu_addr_ip_set_unspecified a in
  if spu_addr_family a =? AF_INET6 then set_scope_id 0 a else a.
Definition bind_all (x : spread_if) : M St unit :=
  my ← gets My;
  fatal_if (negb (Z.of_nat (length (ifc my)) =? 1));;
  fatal_if (negb (same_addr (ifaddr x) (proc_addr my)));;
  let a := any_interface (ifaddr x) in
  c ← init_channel RECV a;
  addrs ← gets Bcast_addrs;
  l ← join_groups (length addrs) c [] (map (fun a => (a, false)) addrs);
  modify (fun s => s <| Bcast_addrs := map fst l |>);;
  add_bcast_channel c;;
  t ← init_channel RECV (spu_addr_ip_set_port a (spu_addr_ip_get_port (proc_addr my) + 1));
  add_token_channel t.

(** ** The interfaces of the daemon *)

Fixpoint mark_first (a : spu_addr) (l : list (spu_addr * bool)) : list (spu_addr * bool) :=
  match l with
  | [] => []
  | (b, m) :: l => if same_addr a b then (b, true) :: l else (b, m) :: mark_first a l
  end.
(** The addresses of the segment an interface receives for, and whether one of them is its own. *)
Definition bind_marks (my : proc) (a : spu_addr) (l : list (spu_addr * bool)) : list (spu_addr * bool) * bool :=
  if spu_addr_ip_is_unspecified a && (spu_addr_family a =? spu_addr_family (proc_addr my))
  then (map (fun '(b, _) => (b, true)) l, false)
  else (mark_first a l, existsb (fun '(b, _) => same_addr a b) l).

Definition bind_interface (x : spread_if) (l : list (spu_addr * bool)) : M St (list (spu_addr * bool)) :=
  my ← gets My;
  fatal_if (Is_IfType_Any (iftype x));;
  if negb (Is_IfType_Daemon (iftype x)) then mret l else
  let a := ifaddr x in
  let if_port := spu_addr_ip_get_port (proc_addr my) in
  fatal_if (negb (if_port =? spu_addr_ip_get_port a));;
  let '(l, own) := bind_marks my a l in
  c ← init_channel (RECV_REUSE (own || spu_addr_ip_is_multicast a)) a;
  l ← join_groups (length l) c [] l;
  add_bcast_channel c;;
  t ← init_channel RECV (spu_addr_ip_set_port a (if_port + 1));
  add_token_channel t;;
  mret l.

(** The addresses no interface was bound for.  The index into [Bcast_channel] advances also
    past the others, whose entry keeps what was in it: [stale]. *)
Fixpoint bind_segment (fuel : nat) (stale : Z) (done rest : list (spu_addr * bool))
  : M St (list (spu_addr * bool)) :=
  match fuel, rest with
  | _, [] => mret done
  | O, _ => fail OutOfFuel
  | S n, (a, b) :: rest' =>
      if b : bool then
        add_bcast_channel stale;; bind_segment n 0 (done ++ [(a, b)]) rest'
      else
      c ← init_channel (RECV_REUSE true) a;
      if negb (spu_addr_ip_is_multicast a) then
        add_bcast_channel c;; bind_segment n 0 (done ++ [(a, b)]) rest'
      else
      my ← gets My;
      ret ← ext_call (at_start (DL_join_multicast_gen c a (proc_addr my)));
      if ret =? 0 then add_bcast_channel c;; bind_segment n 0 (done ++ [(a, b)]) rest' else
      fatal_if (negb ignore);;
      fatal_if (bool_decide (done ++ swap_first rest = []));;
      ext_do (at_start (DL_close_channel c));;
      bind_segment n c done (swap_first rest)
  end.

Definition bind_interfaces : M St unit :=
  my ← gets My;
  addrs ← gets Bcast_addrs;
  l ← for_fold (ifc my) (map (fun a => (a, false)) addrs) bind_interface;
  needed ← gets Bcast_needed;
  l ← (if truth needed then bind_segment (length l) 0 [] l else mret l);
  modify (fun s => s <| Bcast_addrs := map fst l |>).

Definition Net_init : M St unit :=
  Net_signal_conf_reload;;
  my ← gets My;
  addrs ← gets Bcast_addrs;
  fatal_if (existsb (fun a => negb (spu_addr_ip_get_port (proc_addr my) =? spu_addr_ip_get_port a)) addrs);;
  x ← or_fail Fatal (ifc my !! O);
  (if Is_IfType_Any (iftype x) then bind_all x else bind_interfaces);;
  ext_do (at_start (DL_init_channel_gen (mk_channel_flags true true false)
    (spu_addr_ip_set_port (proc_addr my) 0))).
End NetInit.
