(* ===== verification/NetInitProps.v ===== *)
(** * What [Net_init] leaves

    Which address each channel was opened for, within the arrays; the machine of the
    membership and the session layer are not touched. *)

From S2P Require Import Prelude NetTypes Configuration State Network Machine.
From S2P Require Import Demo ConfigState ConfigLoad ConfigDemo NetInit.

Section Trace.
Context {L : SpuLib} {X : Ext}.
Implicit Types s : St.

(** [s'] is [s] after some calls to the outside. *)
Definition called s s' : Prop := exists post, s' = s <| trace := trace s ++ post |>.
Definition later s s' : Prop := exists post, trace s' = trace s ++ post.
Lemma called_refl s : called s s.
Proof. exists []. rewrite app_nil_r. by destruct s. Qed.
Lemma called_trans s1 s2 s3 : called s1 s2 -> called s2 s3 -> called s1 s3.
Proof. intros [p ->] [q ->]. exists (p ++ q). rec_simpl_in_goal. by rewrite app_assoc. Qed.
Lemma later_refl s : later s s.
Proof. exists []. by rewrite app_nil_r. Qed.
Lemma later_trans s1 s2 s3 : later s1 s2 -> later s2 s3 -> later s1 s3.
Proof. intros [p E1] [q E2]. exists (p ++ q). by rewrite E2, E1, app_assoc. Qed.
Lemma called_later s s' : called s s' -> later s s'.
Proof. intros [p ->]. by exists p. Qed.

(** [c] is the channel that was opened at [a]. *)
Definition opened s (f : channel_flags) (a : spu_addr) (c : Z) : Prop := exists tr post,
  trace s = tr ++ [at_start (DL_init_channel_gen f a)] ++ post /\
  c = ext_ret (tr ++ [at_start (DL_init_channel_gen f a)]).
Lemma opened_later s s' f a c : later s s' -> opened s f a c -> opened s' f a c.
Proof.
  intros [p E] (tr & post & Ht & Hc). exists tr, (post ++ p). split; [|done]. rewrite E, Ht.
  by rewrite !app_assoc.
Qed.
Lemma wp_called E (c : call) (Q : Z -> St -> Prop) s : (forall r s', called s s' -> Q r s') -> wp E (ext_call c) Q s.
Proof. intros H. eapply wp_returns; [reflexivity|]. apply H. by exists [c]. Qed.
Lemma wp_called_do E (c : call) (Q : unit -> St -> Prop) s : (forall s', called s s' -> Q tt s') -> wp E (ext_do c) Q s.
Proof. intros H. unfold ext_do. wp_step. apply wp_called. intros r s' Hc. wp_step. by apply H. Qed.
Lemma wp_opened E f a (Q : Z -> St -> Prop) s :
  (forall r s', called s s' -> opened s' f a r -> Q r s') -> wp E (init_channel f a) Q s.
Proof.
  intros H. eapply wp_returns; [reflexivity|]. apply H; [by exists [at_start (DL_init_channel_gen f a)]|].
  exists (trace s), []. by rec_simpl_in_goal.
Qed.
End Trace.

Lemma length_swap_first {A} (x : A) l : length (swap_first (x :: l)) = length l.
Proof.
  unfold swap_first. cbn [tail]. destruct l as [|y l _] using rev_ind; [done|].
  rewrite last_snoc, removelast_last, length_app. cbn. lia.
Qed.

Section Props.
Context {L : SpuLib} {X : Ext} {C : ConfLib}.
Context (ignore : bool).
Implicit Types s : St.

(** ** The groups of a channel *)

Lemma join_groups_spec c fuel : forall done rest s, (length rest <= fuel)%nat ->
  wp may_exit (join_groups ignore fuel c done rest) (fun l s' => called s s' /\
    (length l <= length done + length rest)%nat /\ (ignore = false -> l = done ++ rest)) s.
Proof.
  assert (Hnil : forall (d : list (spu_addr * bool)) s, wp may_exit (mret d) (fun l s' => called s s' /\
    (length l <= length d + length (@nil (spu_addr * bool)))%nat /\ (ignore = false -> l = d ++ [])) s).
  { intros d s. wp_step. rewrite app_nil_r. split; [apply called_refl|]. split; [cbn; lia|done]. }
  induction fuel as [|n IH]; intros done [|[a b] rest] s Hf; cbn [join_groups]; [apply Hnil|cbn in Hf; lia|apply Hnil|].
  assert (Hnext : forall s1, called s s1 -> wp may_exit (join_groups ignore n c (done ++ [(a, b)]) rest)
    (fun l s' => called s s' /\ (length l <= length done + length ((a, b) :: rest))%nat /\
      (ignore = false -> l = done ++ (a, b) :: rest)) s1).
  { intros s1 H1. eapply wp_mono; [apply IH; cbn in Hf; lia|]. intros l s2 (H2 & Hl & Hi).
    split; [by eapply called_trans|]. rewrite length_app in Hl. cbn in *. split; [lia|].
    intros Hig. rewrite (Hi Hig). by rewrite <-app_assoc. }
  wp_step; [apply Hnext, called_refl|].
  wp_step. wp_step. wp_step. apply wp_called. intros ret s1 H1. wp_step; [by apply Hnext|].
  wp_step. wp_step; [done|]. wp_step. wp_step. wp_step. wp_step; [done|].
  eapply wp_mono; [apply IH; rewrite length_swap_first; cbn in Hf; lia|].
  intros l s2 (Hc & Hl & _). split; [by eapply called_trans|]. rewrite length_swap_first in Hl. cbn.
  split; [lia|]. intros Hig. by rewrite Hig in *.
Qed.

(** ** The interfaces *)

(** What the code between two channels leaves alone. *)
Definition fixed s := (My s, Config s, Bcast_needed s, Bcast_addrs s).
Lemma called_fixed s s' : called s s' ->
  fixed s' = fixed s /\ Bcast_channel s' = Bcast_channel s /\ Token_channel s' = Token_channel s.
Proof. by intros [p ->]. Qed.

Definition is_daemon (x : spread_if) : Prop := Is_IfType_Daemon (iftype x) = true.
#[export] Instance is_daemon_dec x : Decision (is_daemon x).
Proof. unfold is_daemon. apply _. Defined.

Definition bound_at s (a : spu_addr) (c : Z) : Prop := exists reuse, opened s (RECV_REUSE reuse) a c.
Definition token_port (my : proc) (a : spu_addr) : spu_addr :=
  spu_addr_ip_set_port a (spu_addr_ip_get_port (proc_addr my) + 1).
(** The addresses of the segment, with those marked that the interfaces [ds] receive for. *)
Definition marks (my : proc) (ds : list spread_if) (addrs : list spu_addr) : list (spu_addr * bool) :=
  foldl (fun l x => (bind_marks my (ifaddr x) l).1) (map (fun a => (a, false)) addrs) ds.

Lemma length_mark_first a l : length (mark_first a l) = length l.
Proof. induction l as [|[b m] l IH]; [done|]. cbn. destruct (same_addr a b); cbn; [done|by rewrite IH]. Qed.
Lemma length_bind_marks my a l : length (bind_marks my a l).1 = length l.
Proof. unfold bind_marks. destruct (_ && _); cbn; [apply length_map|apply length_mark_first]. Qed.
Lemma fst_mark_first a l : map fst (mark_first a l) = map fst l.
Proof. induction l as [|[b m] l IH]; [done|]. cbn. destruct (same_addr a b); cbn; [done|by rewrite IH]. Qed.
Lemma fst_bind_marks my a l : map fst (bind_marks my a l).1 = map fst l.
Proof.
  unfold bind_marks. destruct (_ && _); cbn; [|apply fst_mark_first]. rewrite map_map. by apply map_ext; intros [].
Qed.
Lemma fst_marks my ds addrs : map fst (marks my ds addrs) = addrs.
Proof.
  assert (H : forall l, map fst (foldl (fun l x => (bind_marks my (ifaddr x) l).1) l ds) = map fst l).
  { induction ds as [|x ds IH]; intros l; [done|]. cbn [foldl]. by rewrite IH, fst_bind_marks. }
  unfold marks. rewrite H, map_map. apply map_id.
Qed.

(** After the interfaces [ds]. *)
Record bound_ifs (s0 : St) (ds : list spread_if) (l : list (spu_addr * bool)) s : Prop := {
  bi_later : later s0 s;
  bi_fixed : fixed s = fixed s0;
  bi_length : (length l <= length (Bcast_addrs s0))%nat;
  bi_marks : ignore = false -> l = marks (My s0) ds (Bcast_addrs s0);
  bi_bcast : Forall2 (fun x c => bound_at s (ifaddr x) c) ds (Bcast_channel s);
  bi_token : Forall2 (fun x t => opened s RECV (token_port (My s0) (ifaddr x)) t) ds (Token_channel s)
}.

Lemma bound_later s s' (ds : list spread_if) cs : later s s' ->
  Forall2 (fun x c => bound_at s (ifaddr x) c) ds cs -> Forall2 (fun x c => bound_at s' (ifaddr x) c) ds cs.
Proof.
  intros H Hl. eapply Forall2_impl; [exact Hl|]. cbn beta. intros x c [r Hr]. exists r. by eapply opened_later.
Qed.
Lemma tokens_later s s' my (ds : list spread_if) ts : later s s' ->
  Forall2 (fun x t => opened s RECV (token_port my (ifaddr x)) t) ds ts ->
  Forall2 (fun x t => opened s' RECV (token_port my (ifaddr x)) t) ds ts.
Proof. intros H Hl. eapply Forall2_impl; [exact Hl|]. cbn beta. intros x t. by apply opened_later. Qed.

Lemma bind_interface_spec s0 ds x l s : bound_ifs s0 ds l s -> Z.of_nat (length ds) < MAX_INTERFACES_PROC ->
  wp may_exit (bind_interface ignore x l) (bound_ifs s0 (ds ++ if decide (is_daemon x) then [x] else [])) s.
Proof.
  intros [Hl Hf Hn Hm Hb Ht] Hds. unfold bind_interface.
  assert (EMy : My s = My s0) by (by injection Hf).
  pose proof (Forall2_length _ _ _ Hb) as Lb. pose proof (Forall2_length _ _ _ Ht) as Lt.
  wp_step. wp_step. wp_step. wp_step; [done|]. wp_step.
  { wp_step. rewrite decide_False by (unfold is_daemon; by destruct (Is_IfType_Daemon _)). rewrite app_nil_r. by split. }
  rewrite decide_True by (unfold is_daemon; by destruct (Is_IfType_Daemon _)).
  cbn zeta. wp_step. wp_step; [done|]. rewrite EMy in *.
  pose proof (length_bind_marks (My s0) (ifaddr x) l) as Ln.
  assert (Em : ignore = false -> (bind_marks (My s0) (ifaddr x) l).1 = marks (My s0) (ds ++ [x]) (Bcast_addrs s0)).
  { intros Hi. unfold marks. rewrite foldl_snoc. cbn. by rewrite (Hm Hi). }
  destruct (bind_marks (My s0) (ifaddr x) l) as [l1 own]. cbn [fst] in *.
  wp_step. apply wp_opened. intros c s1 C1 Hc. wp_step.
  eapply wp_mono; [by apply join_groups_spec|]. intros l2 s2 (C2 & Hl2 & Hi2).
  destruct (called_fixed _ _ (called_trans _ _ _ C1 C2)) as (Hf2 & Eb & Et).
  assert (Hs2 : later s s2) by (apply called_later; by eapply called_trans).
  wp_step. unfold add_bcast_channel. wp_step. wp_step. rewrite Eb. wp_step.
  wp_step; [bools_to_props; unfold MAX_BCAST_CHANNELS, MAX_ADDRS_SEGMENT in *; lia|]. wp_step.
  wp_step. apply wp_opened. intros t s3 C3 Htk. destruct (called_fixed _ _ C3) as (Hf3 & Eb3 & Et3).
  rec_simpl_in Hf3. rec_simpl_in Eb3. rec_simpl_in Et3.
  assert (Hs3 : later s2 s3) by (destruct C3 as [post ->]; by exists post).
  wp_step. unfold add_token_channel. wp_step. wp_step. rewrite Et3, Et. wp_step.
  wp_step; [bools_to_props; lia|]. wp_step. wp_step.
  set (s4 := s3 <| Token_channel := _ |>).
  assert (Hs4 : later s2 s4) by (destruct Hs3 as [post E]; by exists post).
  pose proof (later_trans _ _ _ Hs2 Hs4) as Hs.
  split; rec_simpl_in_goal.
  - by eapply later_trans.
  - unfold s4, fixed in *. rec_simpl_in_goal. congruence.
  - cbn in Hl2. lia.
  - intros Hi. rewrite (Hi2 Hi). by apply Em.
  - unfold s4 at 2. rec_simpl_in_goal. rewrite Eb3. apply Forall2_app.
    + by eapply bound_later.
    + constructor; [|constructor]. eexists. eapply opened_later; [|exact Hc].
      eapply later_trans; [by apply called_later|exact Hs4].
  - unfold s4 at 2. rec_simpl_in_goal. apply Forall2_app.
    + by eapply tokens_later.
    + constructor; [|constructor]. eapply opened_later; [|exact Htk].
      exists []. by rewrite app_nil_r.
Qed.
Lemma bind_loop_spec s0 (l : list spread_if) :
  Bcast_channel s0 = [] -> Token_channel s0 = [] -> Z.of_nat (length l) <= MAX_INTERFACES_PROC ->
  wp may_exit (for_fold l (map (fun a => (a, false)) (Bcast_addrs s0)) (bind_interface ignore))
    (fun marked s => bound_ifs s0 (filter is_daemon l) marked s) s0.
Proof.
  intros Eb Et Hl.
  apply (wp_for_fold_split _ _ _ _ (fun pre _ marked s => bound_ifs s0 (filter is_daemon pre) marked s)).
  - split; [apply later_refl|done|by rewrite length_map|done|by rewrite Eb|by rewrite Et].
  - intros pre x post marked s -> H.
    eapply wp_mono; [apply (bind_interface_spec s0 (filter is_daemon pre) x); [done|]|].
    + pose proof (length_filter is_daemon pre). rewrite length_app in Hl. cbn in Hl. lia.
    + intros marked' s'. rewrite filter_app, filter_cons, filter_nil. by destruct (decide (is_daemon x)).
Qed.

(** ** The addresses of the segment *)

Definition extra_at s (ab : spu_addr * bool) (c : Z) : Prop :=
  if ab.2 then c = 0 else opened s (RECV_REUSE true) ab.1 c.
Lemma extras_later s s' l cs : later s s' -> Forall2 (extra_at s) l cs -> Forall2 (extra_at s') l cs.
Proof.
  intros H Hl. eapply Forall2_impl; [exact Hl|]. intros [a []] c; [done|]. by apply opened_later.
Qed.

Definition segment_post (cs : list Z) (seen rest : list (spu_addr * bool)) s (l : list (spu_addr * bool)) s' : Prop :=
  later s s' /\ fixed s' = fixed s /\ Token_channel s' = Token_channel s /\
  (length l <= length seen + length rest)%nat /\
  (ignore = false -> l = seen ++ rest /\
    exists es, Bcast_channel s' = cs ++ es /\ Forall2 (extra_at s') rest es).

(** One entry is written. *)
Lemma segment_step s s1 (ab : spu_addr * bool) seen rest cs c l s' :
  later s s1 -> fixed s1 = fixed s -> Token_channel s1 = Token_channel s ->
  (ignore = false -> extra_at s1 ab c) ->
  segment_post (cs ++ [c]) (seen ++ [ab]) rest s1 l s' -> segment_post cs seen (ab :: rest) s l s'.
Proof.
  intros Hl Hf Ht Hab (Hl' & Hf' & Ht' & Hn & Hi). split; [by eapply later_trans|].
  split; [congruence|]. split; [congruence|]. rewrite length_app in Hn. cbn in *. split; [lia|].
  intros Hig. destruct (Hi Hig) as (-> & es & E & Hes). split; [by rewrite <-app_assoc|].
  exists (c :: es). split; [by rewrite E, <-app_assoc|]. constructor; [|done].
  specialize (Hab Hig). destruct ab as [a []]; [done|]. by eapply opened_later.
Qed.

Lemma bind_segment_spec fuel : forall stale seen rest cs s, (length rest <= fuel)%nat ->
  Bcast_channel s = cs -> Z.of_nat (length cs + length rest) <= MAX_BCAST_CHANNELS ->
  (ignore = false -> stale = 0) ->
  wp may_exit (bind_segment ignore fuel stale seen rest) (segment_post cs seen rest s) s.
Proof.
  assert (Hnil : forall l cs s, Bcast_channel s = cs ->
    wp may_exit (mret l) (segment_post cs l [] s) s).
  { intros l cs s E. wp_step. split; [apply later_refl|]. split; [done|]. split; [done|]. split; [cbn; lia|].
    intros _. rewrite app_nil_r. split; [done|]. exists []. by rewrite app_nil_r. }
  induction fuel as [|n IH]; intros stale seen [|[a b] rest] cs s Hn Ecs Hroom Hst; cbn [bind_segment];
    [by apply Hnil|cbn in Hn; lia|by apply Hnil|].
  assert (Hadd : forall c s1, later s s1 -> fixed s1 = fixed s -> Token_channel s1 = Token_channel s ->
    Bcast_channel s1 = cs -> (ignore = false -> extra_at s1 (a, b) c) ->
    wp may_exit (add_bcast_channel c;; bind_segment ignore n 0 (seen ++ [(a, b)]) rest)
      (segment_post cs seen ((a, b) :: rest) s) s1).
  { intros c s1 Hl Hf Ht Eb Hc. wp_step. unfold add_bcast_channel. wp_step. wp_step. rewrite Eb. wp_step.
    wp_step; [bools_to_props; cbn in Hroom; lia|]. wp_step.
    set (s2 := s1 <| Bcast_channel := _ |>).
    assert (H12 : later s1 s2) by (exists []; by rewrite app_nil_r).
    eapply wp_mono; [apply (IH 0 (seen ++ [(a, b)]) rest (cs ++ [c]) s2)|].
    - cbn in Hn. lia.
    - done.
    - rewrite length_app. cbn in *. lia.
    - done.
    - intros l s' Hp. eapply segment_step; [| | |exact Hc|]; [exact Hl|exact Hf|exact Ht|].
      destruct Hp as (Q1 & Q2 & Q3 & Q4). split; [exact (later_trans _ _ _ H12 Q1)|]. split; [exact Q2|]. by split. }
  destruct b; [by apply Hadd; [apply later_refl|..|intros Hi; by apply Hst]|].
  wp_step. apply wp_opened. intros c s1 C1 Oc. destruct (called_fixed _ _ C1) as (F1 & B1 & T1).
  apply wp_if; intros _.
  { apply Hadd; [by apply called_later|done|done|congruence|done]. }
  wp_step. wp_step. wp_step. apply wp_called. intros ret s2 C2.
  pose proof (called_trans _ _ _ C1 C2) as C12. destruct (called_fixed _ _ C12) as (F2 & B2 & T2).
  apply wp_if; intros _.
  { apply Hadd; [by apply called_later|done|done|congruence|]. intros _. cbn.
    eapply opened_later; [apply called_later, C2|exact Oc]. }
  wp_step. wp_step; [done|]. wp_step. wp_step; [done|]. wp_step. unfold ext_do. wp_step. apply wp_called.
  intros r s3 C3. wp_step. pose proof (called_trans _ _ _ C12 C3) as C13.
  destruct (called_fixed _ _ C13) as (F3 & B3 & T3).
  eapply wp_mono; [apply (IH c seen (swap_first ((a, false) :: rest)) cs s3)|].
  - rewrite length_swap_first. cbn in Hn. lia.
  - congruence.
  - rewrite length_swap_first. cbn in Hroom. lia.
  - intros Hi. by rewrite Hi in *.
  - intros l s' (Q1 & Q2 & Q3 & Q4 & _). rewrite length_swap_first in Q4.
    split; [eapply later_trans; [apply called_later, C13|exact Q1]|]. split; [congruence|]. split; [congruence|].
    split; [cbn; lia|]. intros Hi. by rewrite Hi in *.
Qed.

(** ** [Net_init] *)

Lemma bind_all_spec x s : Bcast_channel s = [] -> Token_channel s = [] ->
  wp may_exit (bind_all ignore x) (fun _ s' =>
    exists c t, Bcast_channel s' = [c] /\ Token_channel s' = [t] /\
      opened s' RECV (any_interface (ifaddr x)) c /\
      opened s' RECV (token_port (My s) (any_interface (ifaddr x))) t /\
      ifc (My s) = [default x (ifc (My s) !! O)] /\
      (length (Bcast_addrs s') <= length (Bcast_addrs s))%nat /\
      (ignore = false -> Bcast_addrs s' = Bcast_addrs s)) s.
Proof.
  intros Eb Et. unfold bind_all. wp_step. wp_step. wp_step. wp_step; [done|]. wp_step. wp_step; [done|]. cbn zeta.
  wp_step. apply wp_opened. intros c s1 C1 Oc. wp_step. wp_step. wp_step.
  eapply wp_mono; [apply join_groups_spec; by rewrite length_map|]. intros l s2 (C2 & Hl & Hi).
  destruct (called_fixed _ _ C1) as ([= E1 E2 E3 E4] & B1 & T1).
  destruct (called_fixed _ _ C2) as (F2 & B2 & T2).
  wp_step. wp_step. wp_step. unfold add_bcast_channel. wp_step. wp_step. wp_step. wp_step.
  { rec_simpl_in H1. rewrite B2, B1, Eb in H1. done. }
  wp_step. rec_simpl_in_goal. rewrite B2, B1, Eb. set (s3 := _ <| Bcast_channel := _ |>).
  wp_step. apply wp_opened. intros t s4 C4 Ot. destruct (called_fixed _ _ C4) as (F4 & B4 & T4).
  assert (Et4 : Token_channel s4 = []) by (rewrite T4; unfold s3; rec_simpl_in_goal; congruence).
  unfold add_token_channel. wp_step. wp_step. wp_step. rewrite Et4. wp_step; [done|]. wp_step.
  set (s5 := s4 <| Token_channel := _ |>). exists c, t.
  assert (H45 : later s4 s5) by (exists []; by rewrite app_nil_r).
  assert (H15 : later s1 s5).
  { eapply later_trans; [apply called_later, C2|]. eapply later_trans; [|exact H45].
    destruct C4 as [p ->]. by exists p. }
  split; [exact B4|]. split; [done|]. split; [exact (opened_later _ _ _ _ _ H15 Oc)|].
  split; [exact (opened_later _ _ _ _ _ H45 Ot)|].
  split.
  { destruct (ifc (My s)) as [|y [|z r]]; [done|done|]. bools_to_props. cbn [length] in *. lia. }
  injection F4 as _ _ _ E4'. change (Bcast_addrs s5) with (Bcast_addrs s4). rewrite E4'. unfold s3. rec_simpl_in_goal.
  rewrite length_map. rewrite length_map in Hl. cbn in Hl. split; [rewrite <-E4; lia|]. intros Hig.
  rewrite (Hi Hig). cbn. rewrite map_map. rewrite <-E4. apply map_id.
Qed.

Lemma bind_interfaces_spec s : Bcast_channel s = [] -> Token_channel s = [] ->
  Z.of_nat (length (ifc (My s))) <= MAX_INTERFACES_PROC -> Z.of_nat (length (Bcast_addrs s)) <= MAX_ADDRS_SEGMENT ->
  wp may_exit (bind_interfaces ignore) (fun _ s' =>
    let ds := filter is_daemon (ifc (My s)) in
    (length (Bcast_addrs s') <= length (Bcast_addrs s))%nat /\
    Forall2 (fun x t => opened s' RECV (token_port (My s) (ifaddr x)) t) ds (Token_channel s') /\
    (ignore = false -> Bcast_addrs s' = Bcast_addrs s /\
      exists cs es, Bcast_channel s' = cs ++ es /\ Forall2 (fun x c => bound_at s' (ifaddr x) c) ds cs /\
      Forall2 (extra_at s') (if truth (Bcast_needed s) then marks (My s) ds (Bcast_addrs s) else []) es)) s.
Proof.
  intros Eb Et Hifs Haddrs. unfold bind_interfaces. wp_step. wp_step. wp_step. wp_step.
  wp_step. eapply wp_mono; [by apply bind_loop_spec|]. intros l s1 [Hl Hf Hn Hm Hb Ht].
  injection Hf as E1 E2 E3 E4. set (ds := filter is_daemon (ifc (My s))) in *.
  assert (Lds : (length ds <= length (ifc (My s)))%nat) by apply length_filter.
  wp_step. wp_step. wp_step.
  assert (Hend : forall l' s2, (truth (Bcast_needed s) = true /\ segment_post (Bcast_channel s1) [] l s1 l' s2) \/
      (truth (Bcast_needed s) = false /\ l' = l /\ s2 = s1) ->
    wp may_exit (modify (fun s => s <| Bcast_addrs := map fst l' |>)) (fun _ s' =>
      (length (Bcast_addrs s') <= length (Bcast_addrs s))%nat /\
      Forall2 (fun x t => opened s' RECV (token_port (My s) (ifaddr x)) t) ds (Token_channel s') /\
      (ignore = false -> Bcast_addrs s' = Bcast_addrs s /\
        exists cs es, Bcast_channel s' = cs ++ es /\ Forall2 (fun x c => bound_at s' (ifaddr x) c) ds cs /\
        Forall2 (extra_at s') (if truth (Bcast_needed s) then marks (My s) ds (Bcast_addrs s) else []) es)) s2).
  { intros l' s2 H2. wp_step. set (s3 := s2 <| Bcast_addrs := map fst l' |>).
    change (Bcast_addrs s3) with (map fst l'). rewrite length_map.
    change (Token_channel s3) with (Token_channel s2). change (Bcast_channel s3) with (Bcast_channel s2).
    assert (H23 : later s2 s3) by (exists []; by rewrite app_nil_r).
    destruct H2 as [[Hyes (Q1 & Q2 & Q3 & Q4 & Q5)]|(Hno & -> & ->)].
    - pose proof (later_trans _ _ _ Q1 H23) as H13. cbn in Q4. split; [lia|].
      split; [rewrite Q3; exact (tokens_later _ _ _ _ _ H13 Ht)|]. intros Hi. destruct (Q5 Hi) as (-> & es & E & Hes). cbn [app].
      rewrite (Hm Hi) in *. split; [apply fst_marks|]. exists (Bcast_channel s1), es. split; [exact E|].
      split; [exact (bound_later _ _ _ _ H13 Hb)|]. rewrite Hyes. exact (extras_later _ _ _ _ H23 Hes).
    - split; [lia|]. split; [exact (tokens_later _ _ _ _ _ H23 Ht)|]. intros Hi. rewrite (Hm Hi) in *.
      split; [apply fst_marks|]. exists (Bcast_channel s1), []. rewrite app_nil_r. split; [done|].
      split; [exact (bound_later _ _ _ _ H23 Hb)|]. by rewrite Hno. }
  rewrite E3. apply wp_if; intros Hneed; [|wp_step; apply Hend; by right].
  eapply wp_mono; [apply (bind_segment_spec (length l) 0 [] l (Bcast_channel s1) s1); try done|].
  - pose proof (Forall2_length _ _ _ Hb). unfold MAX_BCAST_CHANNELS. lia.
  - intros l' s2 H2. apply Hend. by left.
Qed.

Lemma signal_spec s : Conf_num_procs (Config s) <= MAX_PROCS_RING ->
  wp may_exit Net_signal_conf_reload (fun _ s' =>
    let seg := segment_at (Config s) (seg_index (My s)) in
    My s' = My s /\ Config s' = Config s /\ Bcast_channel s' = Bcast_channel s /\ Token_channel s' = Token_channel s /\
    Z.of_nat (length (ifc (My s))) <= MAX_INTERFACES_PROC /\
    Z.of_nat (length (seg_addrs seg)) <= MAX_ADDRS_SEGMENT /\
    Bcast_addrs s' = seg_addrs seg /\ Bcast_needed s' = if 1 <? num_procs seg then 1 else 0) s.
Proof.
  intros Hn. unfold Net_signal_conf_reload, Net_clear_partition, write_partition.
  do 11 wp_step. rec_simpl_in_goal. rewrite length_replicate. wp_step. wp_step.
  { bools_to_props. unfold MAX_PROCS_RING in *. lia. }
  wp_step. wp_step. wp_step; [done|]. wp_step. wp_step; [done|]. wp_step. wp_step. wp_step. wp_step.
  wp_step; [done|]. bools_to_props. cbn zeta. rec_simpl_in_goal. unfold MAX_INTERFACES_PROC. repeat split; lia.
Qed.

(** What was opened. *)
Definition channels s s' : Prop :=
  let my := My s in
  let seg := segment_at (Config s) (seg_index my) in
  let ds := filter is_daemon (ifc my) in
  exists x, ifc my !! O = Some x /\
  if Is_IfType_Any (iftype x) then
    ifc my = [x] /\ exists c t, Bcast_channel s' = [c] /\ opened s' RECV (any_interface (ifaddr x)) c /\
      Token_channel s' = [t] /\ opened s' RECV (token_port my (any_interface (ifaddr x))) t
  else exists cs es, Bcast_channel s' = cs ++ es /\
    Forall2 (fun x c => bound_at s' (ifaddr x) c) ds cs /\
    Forall2 (fun x t => opened s' RECV (token_port my (ifaddr x)) t) ds (Token_channel s') /\
    Forall2 (extra_at s') (if 1 <? num_procs seg then marks my ds (seg_addrs seg) else []) es.

Lemma channels_called s s1 s2 : called s1 s2 -> channels s s1 -> channels s s2.
Proof.
  intros H. pose proof (called_later _ _ H) as Hl. destruct (called_fixed _ _ H) as (_ & Eb & Et). unfold channels.
  rewrite Eb, Et. cbn zeta. intros (x & Hx & Hc). exists x. split; [done|]. destruct (Is_IfType_Any _).
  - destruct Hc as (E & c & t & E1 & O1 & E2 & O2). split; [done|]. exists c, t.
    split; [done|]. split; [by eapply opened_later|]. split; [done|by eapply opened_later].
  - destruct Hc as (cs & es & E & H1 & H2 & H3). exists cs, es. split; [done|].
    split; [by eapply bound_later|]. split; [by eapply tokens_later|by eapply extras_later].
Qed.

Lemma Net_init_spec s : Bcast_channel s = [] -> Token_channel s = [] -> Conf_num_procs (Config s) <= MAX_PROCS_RING ->
  wp may_exit (Net_init ignore) (fun _ s' => ignore = false ->
    Bcast_addrs s' = seg_addrs (segment_at (Config s) (seg_index (My s))) /\ channels s s') s.
Proof.
  intros Eb Et Hn. unfold Net_init. wp_step. eapply wp_mono; [by apply signal_spec|].
  intros u s1 (EM & EC & Eb1 & Et1 & Hifs & Has & Ea & Ed). cbn zeta in *. rewrite <-EM in *.
  wp_step. wp_step. wp_step. wp_step. wp_step. wp_step; [done|]. wp_step. wp_step; [done|]. rename a into x.
  assert (Hend : forall s2, (ignore = false -> Bcast_addrs s2 = Bcast_addrs s1 /\ channels s1 s2) ->
    wp may_exit (ext_do (at_start (DL_init_channel_gen (mk_channel_flags true true false)
      (spu_addr_ip_set_port (proc_addr (My s1)) 0)))) (fun _ s' => ignore = false ->
      Bcast_addrs s' = seg_addrs (segment_at (Config s) (seg_index (My s1))) /\ channels s s') s2).
  { intros s2 H2. apply wp_called_do. intros s3 C3 Hi. destruct (H2 Hi) as [E2 Hc].
    destruct (called_fixed _ _ C3) as ([= _ _ _ E3] & _ & _). split; [congruence|].
    apply (channels_called _ _ _ C3). unfold channels in *. by rewrite <-EM, <-EC. }
  wp_step. apply wp_if; intros Hany.
  - eapply wp_mono; [apply (bind_all_spec x); congruence|].
    intros u2 s2 (c & t & E1 & E2 & O1 & O2 & E3 & _ & E4). apply Hend. intros Hi. split; [by apply E4|].
    exists x. split; [done|]. rewrite Hany, E3. rewrite H0. split; [done|]. by exists c, t.
  - eapply wp_mono; [apply bind_interfaces_spec; congruence|]. intros u2 s2 (_ & Ht & Hi). apply Hend.
    intros Hig. destruct (Hi Hig) as (E1 & cs & es & E2 & H2 & H3). split; [done|]. exists x. split; [done|].
    rewrite Hany. exists cs, es. split; [done|]. split; [done|]. split; [done|]. rewrite EC, <-Ea.
    rewrite Ed in H3. by destruct (1 <? _).
Qed.
(** What is known once the first part has returned. *)
Lemma wp_first {A B} E (m : M St A) (f : A -> M St B) (Q : B -> St -> Prop) (P : Prop) s :
  wp E m (fun _ _ => P) s -> wp E (m ≫= f) Q s -> wp E (m ≫= f) (fun b s' => Q b s' /\ P) s.
Proof.
  Transparent wp. unfold wp, mbind, M_bind. Opaque wp. destruct (m s) as [a s1|]; [|done].
  intros HP. by destruct (f a s1).
Qed.
Lemma Net_init_interfaces s : Bcast_channel s = [] -> Token_channel s = [] -> Conf_num_procs (Config s) <= MAX_PROCS_RING ->
  wp may_exit (Net_init ignore) (fun _ _ => Z.of_nat (length (ifc (My s))) <= MAX_INTERFACES_PROC) s.
Proof.
  intros Eb Et Hn. eapply wp_mono; [eapply (wp_first _ _ _ _ (Z.of_nat (length (ifc (My s))) <= MAX_INTERFACES_PROC));
    [|by apply Net_init_spec]|by intros u s' [_ H]].
  eapply wp_mono; [by apply signal_spec|]. intros u s1 (EM & _ & _ & _ & Hifs & _). exact Hifs.
Qed.
End Props.

(** C27. [Net_init] stays within its arrays, or ends the process.  With IgnoreMulticastJoinErrors
    off, which is the default, it opens, for every interface of the daemon that is of the kind
    DAEMON, a channel at its address for packets and one at the next port for tokens; without
    interfaces, one of each at the port of all.  If the segment has other daemons and there are
    interfaces, the addresses of the segment follow - but where an interface already receives for
    such an address, the index advances without a channel, and the entry stays 0, which is the
    descriptor of the standard input; in a segment of one daemon nothing further is opened.  With the
    option on, a group that cannot be joined is taken out of the addresses: of that case only the
    bounds are shown. *)
Theorem Net_init_channels {L : SpuLib} {X : Ext} {C : ConfLib} (ignore : bool) (s : St) :
  Bcast_channel s = [] -> Token_channel s = [] -> Conf_num_procs (Config s) <= MAX_PROCS_RING ->
  wp may_exit (Net_init ignore) (fun _ s' => ignore = false ->
    Bcast_addrs s' = seg_addrs (segment_at (Config s) (seg_index (My s))) /\ channels s s') s.
Proof. intros Eb Et Hn. by apply Net_init_spec. Qed.

(** ** A daemon that receives on every address *)

#[local] Instance net_ext : Ext := {|
  ext_ret (tr : list (call_ (@spu_addr demo_lib))) := match last tr with
    | Some (at_start (DL_join_multicast_gen _ _ _)) => 0 | _ => 10 + Z.of_nat (length tr) end;
  sess_state := unit |}.
Definition net_start (l : list spread_if) : St :=
  (demo_with tt demo_conf (demo_a <| ifc := l |>)) <| Bcast_channel := [] |> <| Token_channel := [] |>.
Definition channels_of (s : St) : list Z * list Z := (Bcast_channel s, Token_channel s).
(** The address "any", and the one the daemon has. *)
Definition at_any : spread_if := mk_spread_if IFTYPE_DAEMON 4803.
Definition at_own : spread_if := mk_spread_if IFTYPE_DAEMON (demo_addr 1).

Example own_channels : channels_of <$> ended (Net_init false (net_start [at_own])) = Some ([11; 13], [12]).
Proof. vm_compute. reflexivity. Qed.
(** The standard input is received from. *)
Example any_channels : channels_of <$> ended (Net_init false (net_start [at_any])) = Some ([11; 0], [12]).
Proof. vm_compute. reflexivity. Qed.

Lemma Net_init_channels_witness : exists s', Net_init false (net_start [at_any]) = Ok tt s' /\
  Bcast_channel s' = [11; 0] /\ channels (net_start [at_any]) s'.
Proof.
  assert (E : channels_of <$> ended (Net_init false (net_start [at_any])) = Some ([11; 0], [12])) by (vm_compute; reflexivity).
  assert (Hn : Conf_num_procs (Config (net_start [at_any])) <= MAX_PROCS_RING) by (vm_compute; discriminate).
  pose proof (Net_init_channels false (net_start [at_any]) eq_refl eq_refl Hn) as H.
  destruct (Net_init false (net_start [at_any])) as [[] s'|] eqn:Er; [|discriminate].
  injection E as Eb _. exists s'. split; [done|]. split; [done|]. exact (proj2 (wp_ok _ _ _ _ _ _ H Er eq_refl)).
Defined.
