(* ===== verification/Spread.v ===== *)
(** * The start of the daemon: [Sess_init] of session.c, spread.c and [Stat_init] of status.c

    The sockets clients connect to, the command line, and [main] up to the loop of the events. *)

From S2P Require Import Prelude NetTypes Configuration State Network SessionLayer Delivery Send Protocol.
From S2P Require Import Stdutil Message SessState Sessions Acm SessAuth GroupsHandle SessionC ConfigState.
From S2P Require Import ConfigParse ConfigLoad AccessFiles NetInit.

(** * The start and the end of the sessions: [Sess_init] and [Sess_fini] of session.c

    The protocol is started from here, on the channels [Net_init] opens; then the sockets clients
    connect to are opened, one for each interface that is for clients and one in the file
    system, and the groups begin. *)

Definition IFTYPE_CLIENT : Z := 0x2.
Definition Is_IfType_Client (t : Z) : bool := truth (Z.land t IFTYPE_CLIENT).

Section SessInit.
Context {L : SpuLib} {R : SessLib} {U : Stdutil} {C : ConfLib}.
(** [Conf_get_ignore_multicast_join_errors()] and [Conf_get_port_reuse_type()] *)
Variables (ignore : bool) (reuse : port_reuse).

Definition AF_UNIX : Z := 1.

Definition Sess_activate_port_reuse (mbox : Z) : M St unit :=
  ret ← ext_call (setsockopt mbox SO_REUSEADDR 1); fatal_if (negb (ret =? 0)).

(** The port clients connect to: that of the daemon's address. *)
Definition Sess_port (s : St) : Z := spu_addr_ip_get_port (proc_addr (My s)).

(** [Accept_inet_mbox[Accept_inet_mbox_num++] = mbox] *)
Definition add_accept_inet (mbox : Z) : M St unit :=
  l ← gget Accept_inet_mbox;
  undef_if (MAX_INTERFACES_PROC <=? Z.of_nat (length l));;
  gset (fun x => x <| Accept_inet_mbox := l ++ [mbox] |>).

Definition accept_interface (x : spread_if) : M St unit :=
  if negb (Is_IfType_Client (iftype x) || Is_IfType_Any (iftype x)) then mret tt else
  let a := ifaddr x in
  port ← gets Sess_port;
  fatal_if (negb (port =? spu_addr_ip_get_port a));;
  mbox ← ext_call (at_start (socket (spu_addr_family a)));
  fatal_if (mbox =? -1);;
  when (match reuse with PORT_REUSE_ON => true | _ => false end) (Sess_activate_port_reuse mbox);;
  when (negb (Is_IfType_Any (iftype x)) && match reuse with PORT_REUSE_AUTO => true | _ => false end)
    (Sess_activate_port_reuse mbox);;
  ret ← ext_call (at_start (bind_inet mbox
    (if Is_IfType_Any (iftype x) then spu_addr_ip_set_unspecified a else a)));
  fatal_if (negb (ret =? 0));;
  ret ← ext_call (at_start (listen mbox 25));
  fatal_if (negb (ret =? 0));;
  add_accept_inet mbox.

Definition accept_unix : M St unit :=
  mbox ← ext_call (at_start (socket AF_UNIX));
  fatal_if (mbox =? -1);;
  port ← gets Sess_port;
  ext_do (at_start (unlink_unix port));;
  ret ← ext_call (at_start (bind_unix mbox port));
  fatal_if (negb (ret =? 0));;
  ext_do (at_start (chmod_unix port));;
  ret ← ext_call (at_start (listen mbox 5));
  fatal_if (ret <? 0);;
  gset (fun x => x <| Accept_unix_mbox := mbox |>).

Definition Sess_init : M St unit :=
  Sess_init_sessions;;
  gset (fun x => x <| Num_sessions := 0 |> <| gs_num_sessions := 0 |> <| gs_message_delivered := 0 |>
    <| Session_threshold := LOW_PRIORITY |> <| Protocol_threshold := LOW_PRIORITY |>);;
  Prot_init_down_queues;;
  Prot_set_down_queue NORMAL_DOWNQUEUE;;
  Prot_init (Net_init ignore);;
  gset (fun x => x <| Accept_inet_mbox := [] |>);;
  my ← gets My;
  for_each (ifc my) accept_interface;;
  accept_unix;;
  Sess_attach_accept;;
  G_init.

Definition Sess_fini : M St unit :=
  mbox ← gget Accept_unix_mbox;
  ext_do (close mbox);;
  port ← gets Sess_port;
  ext_do (at_start (unlink_unix port)).
End SessInit.

(** ** The command line *)

Record command_line := mk_command_line { My_name : option string; Config_file : string; Log : bool }.

(** [memcpy( My_name_buf, v, strlen( v ) )]: the end of a longer name stays. *)
Definition overwrite (v buf : string) : string :=
  String.append v (String.substring (String.length v) (String.length buf - String.length v) buf).

(** [None] is an exit with the help, or on a name that is too long. *)
Fixpoint read_args (My_name_buf : string) (u : command_line) (argv : list string) : option command_line :=
  match argv with
  | [] => Some u
  | [_] => None
  | a :: v :: argv =>
      if String.prefix "-n" a then
        if MAX_PROC_NAME - 1 <? Z.of_nat (String.length v) then None else
        let buf := overwrite v My_name_buf in
        read_args buf (mk_command_line (Some buf) (Config_file u) (Log u)) argv
      else if String.prefix "-c" a then
        if 512 <=? Z.of_nat (String.length v) then None else
        read_args My_name_buf (mk_command_line (My_name u) v (Log u)) argv
      else if String.prefix "-l" a then
        if String.eqb v "y" then read_args My_name_buf (mk_command_line (My_name u) (Config_file u) true) argv
        else if String.eqb v "n" then read_args My_name_buf (mk_command_line (My_name u) (Config_file u) false) argv
        else None
      else None
  end.
Definition Usage (argv : list string) : option command_line :=
  read_args "" (mk_command_line None "spread.conf" false) argv.

Definition SP_RUNTIME_DIR : string := "/var/run/spread".
Definition SP_USER : string := "spread".
Definition SP_GROUP : string := "spread".

Section Main.
Context {L : SpuLib} {R : SessLib} {U : Stdutil} {C : ConfLib}.
(** The files: the configuration of a name, spread.access_ip; the addresses of the machine;
    [stdhcode_oaat] of the bytes of a time and of an id. *)
Variables (conf_file_at : string -> conf_file) (access_ip : option (list Z)) (ips : list spu_addr).
Variables (hash_of_time hash_of_id : Z -> Z).
Abbreviation P := (M load_st).

Definition Conf_get_runtime_dir (s : load_st) : string := default SP_RUNTIME_DIR (RuntimeDir s).
Definition Conf_get_user (s : load_st) : string := default SP_USER (User s).
Definition Conf_get_group (s : load_st) : string := default SP_GROUP (Group s).

(** [Report_channel] and the variables of the report are not part of the state. *)
Definition Stat_init : M St unit :=
  my ← gets My;
  _ ← ext_call E_get_time;
  ext_do (at_start (DL_init_channel_gen (mk_channel_flags true true false)
    (spu_addr_ip_set_port (proc_addr my) 0))).

Definition seed_rand : M St unit :=
  t ← ext_call E_get_time;
  my ← gets My;
  ext_do (at_start (set_rand (Z.lxor (i32 (hash_of_time t)) (i32 (hash_of_id (id my)))))).

(** A root process looks at the directory of the Unix socket. *)
Definition check_socket_dir : M St unit :=
  euid ← ext_call (at_start geteuid);
  when (euid =? 0) (r ← ext_call (at_start stat_socket_dir); fatal_if (negb (r =? 0))).

(** [user], [group] and [dir] are those of the configuration. *)
Definition drop_privileges (user group dir : string) : M St unit :=
  euid ← ext_call (at_start geteuid);
  when (euid =? 0) (
    gid ← ext_call (at_start (getgrnam group)); fatal_if (gid <? 0);;
    uid ← ext_call (at_start (getpwnam user)); fatal_if (uid <? 0);;
    r ← ext_call (at_start (chdir dir)); fatal_if (r <? 0);;
    r ← ext_call (at_start (chroot dir)); fatal_if (r <? 0);;
    r ← ext_call (at_start (setgroups gid)); fatal_if (r <? 0);;
    r ← ext_call (at_start (setgid gid)); fatal_if (r <? 0);;
    r ← ext_call (at_start (setuid uid)); fatal_if (r <? 0)).

(** Up to [E_handle_events].  [MaxSessionMessages] of configuration.c has a place in both
    states: the sessions read the one of theirs. *)
Definition main (argv : list string) : P unit :=
  u ← or_fail Fatal (Usage argv);
  on_daemon (null_init;; ip_init access_ip;; permit_init;; Acm_init);;
  Conf_init (conf_file_at (Config_file u)) ips (My_name u);;
  s ← gets (fun s => s);
  on_daemon (
    gset (fun x => x <| MaxSessionMessages := conf_MaxSessionMessages s |>);;
    ext_do (at_start E_init);;
    seed_rand;;
    check_socket_dir;;
    Sess_init (IgnoreMulticastJoinErrors s) (SocketPortReuse s);;
    Stat_init;;
    drop_privileges (Conf_get_user s) (Conf_get_group s) (Conf_get_runtime_dir s);;
    when (Log u) (ext_do (at_start Log_init))).
End Main.
