(* ===== verification/StartProps.v ===== *)
(** * The start of a daemon

    [Prot_init] on the channels [Net_init] opens, and [Sess_init]. *)

From S2P Require Import Prelude NetTypes Configuration State Network FlowControl SessionLayer Ring Delivery.
From S2P Require Import MembSets TokenLoss Membership Send Token Protocol Machine.
From S2P Require Import MachineProps MachineRuns SetsProps Stdutil Message SessState Sessions SessAuth Groups.
From S2P Require Import GroupsHandle SessTable TableRuns ConfigState ConfigLoad ConfigReload NetInit NetInitProps Spread.

Section Start.
Context {L : SpuLib} {X : Ext} {C : ConfLib}.
Context (ignore : bool).
Implicit Types s : St.

(** What opening the channels leaves alone. *)
Definition kept s := (mach_of s, (Config s, My s), Sess s, (Potential_reps s, F_members s, Commit_set s)).

Lemma kept_at_start c : frame kept (ext_call (at_start c)).
Proof. intros s a s' [= _ <-]. unfold kept, mach_of, armed. rec_simpl_in_goal. by rewrite foldl_app. Qed.
Lemma kept_at_start_do c : frame kept (ext_do (at_start c)).
Proof. unfold ext_do. apply frame_bind; [apply kept_at_start|]. intros. apply frame_ret. Qed.
Hint Resolve kept_at_start kept_at_start_do : frame.

Lemma join_groups_kept n c d r : frame kept (join_groups ignore n c d r).
Proof.
  revert d r. induction n as [|n IH]; intros d [|[a b] r]; cbn [join_groups]; solve_frame.
Qed.
Lemma bind_segment_kept n x d r : frame kept (bind_segment ignore n x d r).
Proof.
  revert x d r. induction n as [|n IH]; intros x d [|[a []] r]; cbn [bind_segment]; unfold add_bcast_channel, init_channel; solve_frame.
Qed.
Hint Resolve join_groups_kept bind_segment_kept : frame.
Lemma Net_init_kept : frame kept (Net_init ignore).
Proof.
  unfold Net_init, Net_signal_conf_reload, bind_all, bind_interfaces, bind_interface, add_bcast_channel, add_token_channel,
    init_channel, Net_clear_partition, write_partition. solve_frame.
Qed.
(** What [MachineRuns] assumes of opening the channels. *)
Lemma Net_init_mach : frame mach_of (Net_init ignore).
Proof. intros s a s' E. pose proof (Net_init_kept s a s' E) as [= E1 E2 E3]. unfold mach_of. congruence. Qed.

(** ** The daemon alone *)

(** The configuration is that of a ring, and the daemon is in it. *)
Record ring_ok s : Prop := {
  ri_all : allprocs (Config s) = procs_of (segments (Config s));
  ri_memb : wf_memb (Config s);
  ri_ids : NoDup (map id (allprocs (Config s)));
  ri_count : Conf_num_procs (Config s) <= MAX_PROCS_RING;
  ri_my : exists p, p ∈ allprocs (Config s) /\ id (My s) = id p /\ seg_index (My s) = seg_index p
}.
Lemma ring_ok_same s s' : Config s' = Config s -> My s' = My s -> ring_ok s -> ring_ok s'.
Proof. intros E1 E2 []. split; by rewrite ?E1, ?E2. Qed.

(** A configuration of which only the segments' addresses are left, and the daemon [p]. *)
Definition emptied (l : list segment) : list segment := map (fun sg => sg <| procs := [] |>) l.
Lemma emptied_procs l : procs_of (emptied l) = [].
Proof. unfold procs_of, emptied. by induction l. Qed.
Lemma clear_all c memb : length (segments memb) = length (segments c) ->
  segments (clear_segments (Conf_num_segments c) memb) = emptied (segments memb).
Proof.
  intros E. unfold clear_segments, Conf_num_segments. rec_simpl_in_goal.
  rewrite Nat2Z.id, take_ge, drop_ge by lia. apply app_nil_r.
Qed.
Lemma cleared_procs c memb k : length (segments memb) = length (segments c) ->
  procs (segment_at (clear_segments (Conf_num_segments c) memb) k) = [].
Proof.
  intros E. unfold segment_at. rewrite clear_all by done. unfold emptied. destruct (k <? 0); [done|].
  rewrite list_lookup_fmap. by destruct (segments memb !! _).
Qed.

Lemma my_entry s : ring_ok s -> exists p i b addrs pre post af, Conf_proc_by_id_in_conf (Config s) (id (My s)) = Some (i, p) /\
  id p = id (My s) /\ seg_index p = seg_index (My s) /\
  segments (Config s) = b ++ mk_segment addrs (pre ++ p :: post) :: af /\ seg_index p = Z.of_nat (length b).
Proof.
  intros [Ha Hm Hi _ (p & Hp & E1 & E2)]. rewrite Ha in Hp. destruct (member_split _ _ Hp) as (b & ad & pr & po & af & Hs).
  pose proof (wf_placed _ b ad pr p po af Hm Hs) as HP. rewrite <-Ha in Hp.
  destruct (proc_by_id _ p Hi Hp) as [i Hl]. exists p, i, b, ad, pr, po, af. rewrite E1.
  split; [done|]. split; [done|]. split; [done|]. split; [done|]. apply HP.
Qed.

(** What [append_to] does for the daemon itself, in segments of the same number. *)
Lemma append_me memb s : ring_ok s -> length (segments memb) = length (segments (Config s)) ->
  (forall k, procs (segment_at memb k) = []) ->
  wp total (append_to memb (seg_index (My s)) (id (My s))) (fun m s' => s' = s /\
    exists p i b sg af, Conf_proc_by_id_in_conf (Config s) (id (My s)) = Some (i, p) /\ id p = id (My s) /\
    seg_index p = seg_index (My s) /\ seg_index p = Z.of_nat (length b) /\
    segments memb = b ++ sg :: af /\ segments m = b ++ sg <| procs := [p] |> :: af) s.
Proof.
  intros Hok Hl Hne. destruct (my_entry s Hok) as (p & i & b & ad & pre & post & af & Hp & E1 & E2 & Hs & Hb).
  rewrite Hs, length_app in Hl. cbn [length] in Hl.
  destruct (nth_split (segments memb) (mk_segment [] []) (n := length b)) as (b' & af' & Em & Eb); [lia|].
  set (sg := nth (length b) (segments memb) (mk_segment [] [])) in *.
  pose proof (segment_at_lookup memb (length b) sg ltac:(by rewrite Em, <-Eb; apply list_lookup_middle)) as Hsg.
  unfold append_to. wp_step. wp_step. unfold Conf_append_id_to_seg. rewrite Hp. cbn [mbind option_bind].
  rewrite <-E2, Hb, Hsg. pose proof (Hne (Z.of_nat (length b))) as Hn. rewrite Hsg in Hn.
  wp_step. wp_step; [unfold num_procs, MAX_PROCS_SEGMENT in *; rec_simpl_in H; rewrite Hn in H; discriminate|].
  wp_step. rewrite arr_set_nth by (rewrite Em, length_app; cbn; lia). wp_step; [done|]. injection H0 as <-.
  wp_step. split; [done|]. exists p, i, b', sg, af'. rewrite Eb. split_and!; try done. rec_simpl_in_goal.
  rewrite Em at 1. rewrite Nat2Z.id, insert_app_r_alt by lia. rewrite Eb, Nat.sub_diag. destruct sg as [a l]. cbn in Hn. by subst l.
Qed.

(** A membership of the daemon alone. *)
Definition alone_in s (memb : configuration) : Prop := length (segments memb) = length (segments (Config s)) /\
  exists p b ad af, segments memb = b ++ mk_segment ad [p] :: af /\ procs_of b = [] /\ procs_of af = [] /\
    id p = id (My s) /\ seg_index p = seg_index (My s) /\ seg_index p = Z.of_nat (length b).
Lemma alone_in_same s s' memb : Config s' = Config s -> My s' = My s -> alone_in s memb -> alone_in s' memb.
Proof. intros E1 E2. unfold alone_in. by rewrite E1, E2. Qed.

Lemma append_alone memb s : ring_ok s -> length (segments memb) = length (segments (Config s)) ->
  wp total (append_to (clear_segments (Conf_num_segments (Config s)) memb) (seg_index (My s)) (id (My s)))
    (fun m s' => s' = s /\ alone_in s m) s.
Proof.
  intros Hok Hl. eapply wp_mono; [apply append_me; [done| |]|].
  - rewrite clear_all by done. unfold emptied. by rewrite length_map.
  - intros k. by apply cleared_procs.
  - cbn beta. intros m s' (-> & p & i & b & sg & af & _ & E1 & E2 & Eb & Ec & Em). split; [done|].
    rewrite clear_all in Ec by done. pose proof (emptied_procs (segments memb)) as Hp. rewrite Ec in Hp.
    rewrite procs_of_app in Hp. apply app_eq_nil in Hp as [Hb Hp]. unfold procs_of in Hp. cbn in Hp.
    apply app_eq_nil in Hp as [_ Haf]. split.
    { rewrite Em, <-Hl, <-(length_map (fun sg => sg <| procs := [] |>) (segments memb)). fold (emptied (segments memb)).
      rewrite Ec, !length_app. done. }
    exists p, b, (seg_addrs sg), af. split; [by rewrite Em; destruct sg|]. by split_and!.
Qed.

Lemma alone_spec memb s : ring_ok s -> length (segments memb) = length (segments (Config s)) ->
  wp total (alone memb) (fun m s' => s' = s /\ alone_in s m) s.
Proof. intros Hok Hl. unfold alone. do 4 wp_step. by apply append_alone. Qed.

Lemma set_alone memb s : alone_in s memb -> wp total (Net_set_membership memb) (fun _ _ => True) s.
Proof.
  intros (Hl & p & b & ad & af & Hs & Hb & Ha & E1 & E2 & E3).
  assert (HP : Configuration.placed p memb b [] [] af ad).
  { split; [done..|]. unfold ring_of. rewrite Hs, procs_of_app, Hb. unfold procs_of in *. cbn. rewrite Ha. cbn.
    apply NoDup_singleton. }
  eapply wp_mono; [apply (set_membership_result _ _ _ _ _ _ _ HP); [done|done|]|done].
  unfold Conf_num_segments. by rewrite Hl.
Qed.

(** ** The first loss of the token *)

Definition room (r : reps_info) : Prop := Z.of_nat (length (reps r)) = MAX_REPS /\ 0 <= num_reps r <= MAX_REPS.
Definition others s := (Config s, My s, F_members s, Membership s, Reg_membership s).

Lemma insert_potential_room rep s : rep_type rep = POTENTIAL_REP -> room (Potential_reps s) ->
  wp may_exit (insert_potential rep) (fun _ s' => room (Potential_reps s') /\ others s' = others s) s.
Proof.
  intros Ht [Hl Hn]. unfold insert_potential. do 4 wp_step. apply wp_bind, wp_pure_code. unfold Insert_rep. rewrite Ht.
  rewrite Z.eqb_refl. wp_step. wp_step; [done|]. destruct a as [i p]. wp_step. wp_step. destruct (existsb _ _).
  - wp_step. wp_step. split; [|done]. rec_simpl_in_goal. split; rec_simpl_in_goal; [|done].
    rewrite length_app, length_drop. pose proof (length_first_n (num_reps (Potential_reps s)) (reps (Potential_reps s)) ltac:(lia)). unfold live_reps. lia.
  - wp_step; [by wp_step; wp_step|]. bools_to_props. wp_step. unfold aset. rewrite arr_set_nth by lia.
    wp_step; [done|]. wp_step. wp_step. split; [|done]. injection H1 as <-. split; rec_simpl_in_goal; [by rewrite length_insert|lia].
Qed.

Lemma loss_in_op s : State s = OP -> room (Potential_reps s) ->
  wp may_exit (loss_by_state OP) (fun _ s' => others s' = others s) s.
Proof.
  intros Hst Hroom. unfold loss_by_state, clear_potential, segments_to_potential, segment_rep.
  wp_step. wp_step. wp_step. wp_step. wp_step. wp_step. wp_step. wp_step.
  eapply wp_mono; [apply (wp_for_each _ _ _ (fun s' => room (Potential_reps s') /\ others s' = others s))|].
  - split; [|done]. destruct Hroom. split; rec_simpl_in_goal; [done|lia].
  - intros i s1 _ [H1 E1]. destruct (i =? _); [by wp_step|]. wp_step.
    apply (wp_mono _ _ (fun _ s2 => s2 = s1)).
    { destruct (procs _); [|by wp_step]. wp_step. wp_step. by wp_step. }
    intros pid s2 ->. eapply wp_mono; [by apply insert_potential_room|]. intros u s3 [H3 E3]. split; [done|congruence].
  - by intros u s1 [_ H].
Qed.

(** Calls that are made, and nothing else. *)
Lemma others_dequeue e s : wp may_exit (e_dequeue e) (fun _ s' => others s' = others s) s.
Proof. by apply wp_e_dequeue. Qed.
Lemma others_modify f s : (forall s, others (f s) = others s) -> wp may_exit (modify f) (fun _ s' => others s' = others s) s.
Proof. intros H. by wp_step. Qed.
Lemma others_threshold t s : legal_threshold t = true ->
  wp may_exit (Prot_set_delivery_threshold t) (fun _ s' => others s' = others s) s.
Proof.
  intros Ht. unfold Prot_set_delivery_threshold, when.
  repeat first [wp_step; [congruence|] | wp_step; intros | apply wp_ext_do; intros | apply wp_e_dequeue; intros]; done.
Qed.
Ltac others_step := wp_step; eapply wp_mono;
  [first [apply others_dequeue | by apply others_threshold | by apply others_modify]|];
  let u := fresh in let s1 := fresh "s" in let E := fresh "E" in intros u s1 E.

(** The daemon that loses the token of the membership it starts with. *)
Lemma first_loss s : ring_ok s -> State s = OP -> alone_in s (Membership s) -> alone_in s (Reg_membership s) ->
  room (Potential_reps s) -> (0 < length (members (F_members s)))%nat ->
  wp may_exit Memb_token_loss (fun _ s' => alone_in s' (Reg_membership s')) s.
Proof.
  intros Hok Hst Hm Hr Hroom Hmem. unfold Memb_token_loss, clear_last_token.
  wp_step. wp_step. wp_step. rewrite Hst. eapply wp_mono; [by apply loss_in_op|]. intros u s1 E1.
  do 9 others_step.
  match goal with |- wp _ _ _ ?x => assert (others x = others s) as Ex by congruence; revert Ex; generalize x end.
  clear -Hok Hm Hr Hmem. intros s1 [= EC EM EF Em ER].
  assert (alone_in s1 (Reg_membership s1)) as Hr1 by (rewrite ER; by apply (alone_in_same s)).
  wp_step. wp_step. wp_step. eapply wp_mono; [apply wp_total_exit, alone_spec|].
  - by apply (ring_ok_same s).
  - rewrite Em, EC. apply Hm.
  - cbn beta. intros memb s2 [-> _]. wp_step. wp_step. unfold Shift_to_seg, shift_state, set_member.
    do 8 wp_step. rewrite arr_set_nth by (change (0 <= 0 < Z.of_nat (length (members (F_members s1)))); rewrite EF; lia). wp_step; [done|]. wp_step. wp_step. wp_step. wp_step.
    apply wp_ext_do. intros tr. apply wp_e_queue. intros tr2.
    exact (alone_in_same s1 _ (Reg_membership s1) eq_refl eq_refl Hr1).
Qed.

(** ** [Memb_init] and [Prot_init] *)

(** The arrays of the membership, at their lengths. *)
Record arrays_ok s : Prop := {
  ao_members : (0 < length (members (F_members s)))%nat;
  ao_commit : (0 < length (members (Commit_set s)))%nat;
  ao_reps : room (Potential_reps s)
}.
Definition before s := (State s, Config s, My s, (F_members s, Commit_set s, Potential_reps s)).

Lemma network_kind_before : frame before init_network_kind.
Proof. unfold init_network_kind. solve_frame. Qed.
Lemma timeouts_before s : wp may_exit init_timeouts (fun _ s' => before s' = before s) s.
Proof. unfold init_timeouts, set_timeouts. do 5 wp_step; [by wp_step|]. wp_step. wp_step; [done|]. wp_step. wp_step. by wp_step. Qed.
Lemma network_kind_total s : wp total init_network_kind (fun _ s' => before s' = before s) s.
Proof.
  apply (frame_wp_conj before); [apply network_kind_before|]. unfold init_network_kind, when.
  do 6 wp_step. match goal with |- wp _ (if ?c then _ else _) _ _ => destruct c end; by wp_step.
Qed.
Lemma shift_to_op_spec s : wp total Shift_to_op
  (fun _ s' => State s' = OP /\ before s' = (OP, Config s, My s, (F_members s, Commit_set s, Potential_reps s))) s.
Proof.
  unfold Shift_to_op, shift_state, when. do 4 wp_step. match goal with |- wp _ (if ?c then _ else _) _ _ => destruct c end; [by apply wp_ext_do|by wp_step].
Qed.

Lemma init_membership_spec s : ring_ok s -> (0 < length (members (Commit_set s)))%nat ->
  wp total init_membership (fun _ s' => (State s', Config s', My s', F_members s', Potential_reps s') =
    (State s, Config s, My s, F_members s, Potential_reps s) /\
    alone_in s (Membership s') /\ Reg_membership s' = Membership s') s.
Proof.
  intros Hok Hc. unfold init_membership. do 5 wp_step.
  eapply wp_mono; [by apply append_alone|]. cbn beta. intros memb s1 [-> Hm]. do 4 wp_step.
  unfold set_member. wp_step. wp_step.
  rewrite arr_set_nth by (change (0 <= 0 < Z.of_nat (length (members (Commit_set s)))); lia). wp_step; [done|].
  wp_step. wp_step. split; [done|]. by split.
Qed.

Lemma Memb_init_spec s : ring_ok s -> arrays_ok s ->
  wp may_exit Memb_init (fun _ s' => alone_in s' (Reg_membership s')) s.
Proof.
  intros Hok [Hm Hc Hr]. unfold Memb_init. wp_step. eapply wp_mono; [apply wp_total_exit, shift_to_op_spec|].
  intros u s1 [E1 B1]. wp_step.
  eapply (wp_mono _ _ (fun _ s' => before s' = before s1)); [by wp_step|]. intros u2 s2 B2.
  wp_step. eapply wp_mono; [apply wp_total_exit, network_kind_total|]. intros u3 s3 B3.
  wp_step. eapply wp_mono; [apply timeouts_before|]. intros u4 s4 B4.
  assert (before s4 = (OP, Config s, My s, (F_members s, Commit_set s, Potential_reps s))) as [= ES EC EM EF Ec EP] by congruence.
  assert (Hok4 : ring_ok s4) by by apply (ring_ok_same s).
  wp_step. eapply wp_mono; [apply wp_total_exit, init_membership_spec; [done|by rewrite Ec]|].
  intros u5 s5 ([= E51 E52 E53 E54 E55] & Ha & ER).
  assert (Ha5 : alone_in s5 (Membership s5)) by by apply (alone_in_same s4).
  apply first_loss; [by apply (ring_ok_same s4)|congruence|done|by rewrite ER|by rewrite E55, EP|by rewrite E54, EF].
Qed.

(** What the protocol needs to start. *)
Record ready s : Prop := {
  re_ring : ring_ok s;
  re_arrays : arrays_ok s;
  re_bcast : Bcast_channel s = [];
  re_token : Token_channel s = []
}.

(** The configuration, and the session layer, which is not called. *)
Definition upper s := (Config s, My s, Sess s).
Lemma token_loss_upper : frame upper Memb_token_loss.
Proof.
  unfold Memb_token_loss, loss_by_state, clear_potential, segments_to_potential, f_reps_to_potential, insert_potential,
    segment_rep, Backoff_membership, update_packet, Prot_set_delivery_threshold, clear_last_token, alone, append_to,
    Shift_to_seg, shift_state, set_member.
  solve_frame.
Qed.
Hint Resolve token_loss_upper : frame.
Lemma Memb_init_upper : frame upper Memb_init.
Proof.
  unfold Memb_init, Shift_to_op, shift_state, init_network_kind, init_timeouts, set_timeouts, init_membership, append_to, set_member.
  solve_frame.
Qed.

Definition base s := (Config s, My s, (Potential_reps s, F_members s, Commit_set s)).
Lemma attach_base s : wp may_exit attach_channels (fun _ s' => base s' = base s) s.
Proof.
  unfold attach_channels. wp_step. wp_step. wp_step.
  eapply wp_mono; [apply (wp_for_each _ _ _ (fun s' => base s' = base s)); [done|]|].
  { intros fd s1 _ E. by apply wp_ext_do. }
  intros u s1 E1. wp_step. wp_step. wp_step.
  eapply wp_mono; [apply (wp_for_each _ _ _ (fun s' => base s' = base s)); [done|]|].
  { intros fd s2 _ E. by apply wp_ext_do. }
  intros u2 s2 E2. by wp_step.
Qed.

Lemma Prot_init_spec s : ready s ->
  wp may_exit (Prot_init (Net_init ignore)) (fun _ s' => Z.of_nat (length (ifc (My s'))) <= MAX_INTERFACES_PROC) s.
Proof.
  intros [Hok [Hm Hc Hr] Hb Ht]. unfold Prot_init. wp_step.
  eapply (wp_mono _ _ (fun _ s' => base s' = base s /\ Bcast_channel s' = [] /\ Token_channel s' = []));
    [unfold init_variables; wp_step; by split_and!|].
  intros u s1 (K1 & Hb1 & Ht1). wp_step. assert (Config s1 = Config s) as EC1 by by injection K1.
  assert (My s1 = My s) as EM1 by by injection K1.
  eapply (frame_wp_conj kept); [apply Net_init_kept|].
  eapply wp_mono; [apply Net_init_interfaces; [done|done|rewrite EC1; apply Hok]|].
  intros u2 s2 Hifs K2. wp_step. eapply wp_mono; [apply attach_base|]. intros u3 s3 K3. wp_step.
  eapply (wp_mono _ _ (fun _ s' => base s' = base s3)); [unfold FC_init; wp_step; wp_step; by wp_step|].
  intros u4 s4 K4. assert (base s4 = base s) as [= EC EM EP EF Ec].
  { rewrite K4, K3, <-K1. unfold base. by injection K2 as _ _ _ -> -> _ -> -> ->. }
  wp_step. eapply (frame_wp_conj upper); [apply Memb_init_upper|].
  eapply wp_mono; [apply Memb_init_spec; [by apply (ring_ok_same s)|]|].
  { split; [by rewrite EF|by rewrite Ec|by rewrite EP]. }
  intros u5 s5 H5 [= E51 E52 _]. wp_step. wp_step.
  eapply (frame_wp_conj upper); [unfold Net_set_membership; solve_frame|].
  eapply wp_mono; [by apply wp_total_exit, set_alone|]. intros u6 s6 _ [= _ E6 _]. by rewrite E6, E52, EM, <-EM1.
Qed.

Lemma Prot_init_upper : frame upper (Prot_init (Net_init ignore)).
Proof.
  unfold Prot_init, init_variables, attach_channels, FC_init, Net_set_membership. 
  apply frame_bind; [solve_frame|]. intros _.
  apply frame_bind; [apply (frame_compose kept (fun x => (snd (fst (fst x)), snd (fst x)))), Net_init_kept|]. intros _.
  pose proof Memb_init_upper. solve_frame.
Qed.
End Start.

(** * What [Sess_init] leaves

    The protocol as [Prot_init] starts it, an empty table of sessions, groups that are in the state
    GOP, and a socket for every interface that is for clients. *)

Section SessInit.
Context {L : SpuLib} {R : SessLib} {U : Stdutil} {C : ConfLib}.
Context (ignore : bool) (reuse : port_reuse).
Implicit Types s : St.

(** ** What was asked for *)

Definition did s (c : call) (r : Z) : Prop := exists tr post, trace s = tr ++ [c] ++ post /\ r = returns (tr ++ [c]).
Lemma did_later s s' c r : later s s' -> did s c r -> did s' c r.
Proof.
  intros [p E] (tr & post & Ht & Hc). exists tr, (post ++ p). split; [|done]. rewrite E, Ht. by rewrite !app_assoc.
Qed.
Lemma wp_did E c (Q : Z -> St -> Prop) s :
  (forall r s', called s s' -> did s' c r -> Q r s') -> wp E (ext_call c) Q s.
Proof.
  intros H. eapply wp_returns; [reflexivity|]. apply H; [by exists [c]|]. exists (trace s), []. by rec_simpl_in_goal.
Qed.
Lemma wp_did_do E c (Q : unit -> St -> Prop) s :
  (forall r s', called s s' -> did s' c r -> Q tt s') -> wp E (ext_do c) Q s.
Proof. intros H. unfold ext_do. wp_step. apply wp_did. intros r s' H1 H2. wp_step. by eapply H. Qed.

(** ** The sockets of the clients *)

Definition for_clients (x : spread_if) : Prop := Is_IfType_Client (iftype x) || Is_IfType_Any (iftype x) = true.
#[global] Instance for_clients_dec x : Decision (for_clients x).
Proof. unfold for_clients. apply _. Defined.
Definition client_addr (x : spread_if) : spu_addr :=
  if Is_IfType_Any (iftype x) then spu_addr_ip_set_unspecified (ifaddr x) else ifaddr x.
(** [fd] is a socket that is bound and listened on. *)
Definition listens s (x : spread_if) (fd : Z) : Prop :=
  did s (at_start (socket (spu_addr_family (ifaddr x)))) fd /\ fd <> -1 /\
  did s (at_start (bind_inet fd (client_addr x))) 0 /\ did s (at_start (listen fd 25)) 0.
Lemma listens_later s s' x fd : later s s' -> listens s x fd -> listens s' x fd.
Proof. intros H (H1 & H2 & H3 & H4). split_and!; try done; by eapply did_later. Qed.

Lemma wp_ran {S A} E (m : M S A) (Q : A -> S -> Prop) (s : S) :
  wp E m (fun a (t : S) => m s = Ok a t -> Q a t) s -> wp E m Q s.
Proof. Transparent wp. unfold wp. destruct (m s); auto. Opaque wp. Qed.

(** What the sockets leave alone. *)
Definition tables (x : sess_st) := (Num_sessions x, Sessions x, Sessions_sorted x, Sessions_hash x, Sessions_free x).
Lemma table_same x x' : tables x' = tables x -> table_ok x -> table_ok x'.
Proof.
  intros [= E1 E2 E3 E4 E5] []. unfold name_of, mbox_of, session_at, chain in *.
  split; unfold name_of, mbox_of, session_at, chain; by rewrite ?E1, ?E2, ?E3, ?E4, ?E5.
Qed.
Lemma empty_table_ok x : Num_sessions x = 0 -> Sessions_sorted x = [] -> Sessions_hash x = ∅ ->
  Sessions_free x = rev (zrange 0 (MAX_SESSIONS - 1)) -> table_ok x.
Proof.
  intros E1 E2 E3 E4. split; rewrite ?E1, ?E2; [constructor..| |done| |constructor].
  - rewrite E4. symmetry. apply (Permutation_rev (zrange 0 (MAX_SESSIONS - 1))).
  - intros h. unfold chain. rewrite E3, lookup_empty. split; [constructor|]. intros j. cbn. rewrite elem_of_nil. tauto.
Qed.
Definition below s := (mach_of s, (Config s, My s), tables (sess s)).
Lemma below_call c : (forall t, arm t c = t) -> frame below (ext_call c).
Proof.
  intros H s a s' [= _ <-]. unfold below, mach_of, armed. rec_simpl_in_goal. rewrite foldl_app. cbn [foldl]. by rewrite H.
Qed.
Lemma below_do c : (forall t, arm t c = t) -> frame below (ext_do c).
Proof. intros H. unfold ext_do. apply frame_bind; [by apply below_call|]. intros. apply frame_ret. Qed.
Hint Extern 1 (frame below (ext_call _)) => apply below_call; by intros [] : frame.
Hint Extern 1 (frame below (ext_do _)) => apply below_do; by intros [] : frame.
Hint Extern 1 (frame below (e_dequeue _)) => apply below_do; by intros [] : frame.
Hint Extern 1 (frame below (gget _)) => apply frame_gets : frame.
Hint Extern 1 (frame below (gset _)) => apply frame_modify; reflexivity : frame.

Lemma interface_below x : frame below (accept_interface reuse x).
Proof. unfold accept_interface, Sess_activate_port_reuse, add_accept_inet. solve_frame. Qed.
Lemma unix_below : frame below accept_unix.
Proof. unfold accept_unix. solve_frame. Qed.
Lemma attach_below : frame below Sess_attach_accept.
Proof. unfold Sess_attach_accept. solve_frame. Qed.
Lemma G_init_below : frame below G_init.
Proof. unfold G_init, copy_active_conf, G_shift_to_GOP, set_gstate, Prot_set_delivery_threshold. solve_frame. Qed.

Hint Resolve called_refl : core.
Lemma activate_called fd s :
  wp may_exit (Sess_activate_port_reuse fd) (fun _ s' => called s s') s.
Proof. unfold Sess_activate_port_reuse. wp_step. apply wp_did. intros r s1 H1 _. by wp_step; [done|]. Qed.

Definition accepted_for s (ds : list spread_if) : Prop := Forall2 (listens s) ds (Accept_inet_mbox (sess s)).
Lemma accepted_later s s' ds : called s s' -> accepted_for s ds -> accepted_for s' ds.
Proof.
  intros H. unfold accepted_for. assert (Accept_inet_mbox (sess s') = Accept_inet_mbox (sess s)) as -> by (by destruct H as [p ->]).
  intros Hl. eapply Forall2_impl; [exact Hl|]. intros x fd. by apply listens_later, called_later.
Qed.
Lemma interface_spec x ds s : accepted_for s ds -> Z.of_nat (length ds) < MAX_INTERFACES_PROC ->
  wp may_exit (accept_interface reuse x) (fun _ s' => accepted_for s' (ds ++ filter for_clients [x])) s.
Proof.
  intros H Hl. unfold accept_interface. destruct (Is_IfType_Client (iftype x) || Is_IfType_Any (iftype x)) eqn:Ec; cbn [negb].
  2:{ wp_step. rewrite filter_cons_False, filter_nil, app_nil_r; [done|]. unfold for_clients. by rewrite Ec. }
  rewrite filter_cons_True, filter_nil by done.
  do 3 wp_step. wp_step; [done|]. wp_step. apply wp_did. intros fd s1 C1 D1. wp_step. wp_step; [done|]. bools_to_props.
  wp_step. eapply (wp_mono _ _ (fun _ s' => called s1 s')).
  { unfold when. destruct reuse; [by wp_step| |by wp_step]. apply activate_called. }
  intros u s2 C2. wp_step. eapply (wp_mono _ _ (fun _ s' => called s2 s')).
  { unfold when. destruct (_ && _); [apply activate_called|by wp_step]. }
  intros u2 s3 C3. wp_step. apply wp_did. intros r s4 C4 D4. wp_step. wp_step; [done|]. bools_to_props. subst r.
  wp_step. apply wp_did. intros r s5 C5 D5. wp_step. wp_step; [done|]. bools_to_props. subst r.
  assert (C15 : called s1 s5) by eauto using called_trans.
  assert (accepted_for s5 ds) as Ha by (apply (accepted_later s); [by eapply called_trans|done]).
  assert (listens s5 x fd) as Hx.
  { split_and!; [by apply (did_later s1); [apply called_later|]|done| |done].
    by apply (did_later s4); [apply called_later|]. }
  unfold add_accept_inet. wp_step. g_step. wp_step. wp_step.
  { bools_to_props. pose proof (Forall2_length _ _ _ Ha). lia. }
  g_step. unfold accepted_for, sess, with_sess. rec_simpl_in_goal. apply Forall2_app; [|constructor; [|constructor]].
  - eapply Forall2_impl; [exact Ha|]. intros y c. apply listens_later. by exists []; rewrite app_nil_r.
  - eapply listens_later; [|exact Hx]. by exists []; rewrite app_nil_r.
Qed.

Lemma interfaces_spec l s : Accept_inet_mbox (sess s) = [] -> Z.of_nat (length l) <= MAX_INTERFACES_PROC ->
  wp may_exit (for_each l (accept_interface reuse)) (fun _ s' => accepted_for s' (filter for_clients l)) s.
Proof.
  intros E Hl. assert (forall post ds s, accepted_for s ds -> Z.of_nat (length ds + length post) <= MAX_INTERFACES_PROC ->
    wp may_exit (for_each post (accept_interface reuse)) (fun _ s' => accepted_for s' (ds ++ filter for_clients post)) s) as H.
  { clear. induction post as [|x post IH]; intros ds s H Hl.
    - cbn [for_each]. wp_step. by rewrite filter_nil, app_nil_r.
    - cbn [for_each length] in *. wp_step. eapply wp_mono; [apply interface_spec; [done|lia]|]. cbn beta. intros u s1 H1.
      replace (filter for_clients (x :: post)) with (filter for_clients [x] ++ filter for_clients post)
        by (by rewrite <-filter_app).
      rewrite app_assoc. apply IH; [done|]. rewrite length_app. pose proof (length_filter for_clients [x]). cbn in *. lia. }
  apply (H l [] s); [|done]. unfold accepted_for. rewrite E. constructor.
Qed.

(** ** The socket in the file system, and what follows *)

(** The sockets are there and stay. *)
Definition sockets s := (Accept_inet_mbox (sess s), Accept_unix_mbox (sess s), My s).
Definition grows s s' : Prop := later s s' /\ sockets s' = sockets s.
Lemma grows_trans s1 s2 s3 : grows s1 s2 -> grows s2 s3 -> grows s1 s3.
Proof. intros [H1 E1] [H2 E2]. split; [by eapply later_trans|congruence]. Qed.
Lemma called_grows s s' : called s s' -> grows s s'.
Proof. intros Hc. split; [by apply called_later|]. by destruct Hc as [p ->]. Qed.
Lemma accepted_grows s s' ds : grows s s' -> accepted_for s ds -> accepted_for s' ds.
Proof.
  intros [Hl [= E _ _]] Ha. unfold accepted_for in *. rewrite E. eapply Forall2_impl; [exact Ha|]. intros x fd. by apply listens_later.
Qed.

Definition unix_socket s : Prop := exists r, did s (at_start (bind_unix (Accept_unix_mbox (sess s)) (Sess_port s))) 0 /\
  did s (at_start (listen (Accept_unix_mbox (sess s)) 5)) r /\ 0 <= r.
Lemma accept_unix_spec ds s : accepted_for s ds ->
  wp may_exit accept_unix (fun _ s' => accepted_for s' ds /\ unix_socket s') s.
Proof.
  intros Ha. unfold accept_unix. wp_step. apply wp_did. intros fd s1 C1 D1. wp_step. wp_step; [done|]. wp_step. wp_step.
  wp_step. apply wp_did_do. intros r2 s2 C2 D2. wp_step. apply wp_did. intros r3 s3 C3 D3. wp_step. wp_step; [done|].
  wp_step. apply wp_did_do. intros r4 s4 C4 D4. wp_step. apply wp_did. intros r5 s5 C5 D5. wp_step. wp_step; [done|].
  bools_to_props. subst r3. g_step. assert (called s s5) as C05 by eauto 6 using called_trans.
  assert (Sess_port s1 = Sess_port s5) as Ep.
  { assert (called s1 s5) as [p ->] by eauto 6 using called_trans. done. }
  split.
  - pose proof (accepted_later _ _ _ C05 Ha) as H5. unfold accepted_for, sess, with_sess in *. rec_simpl_in_goal.
    eapply Forall2_impl; [exact H5|]. intros x c. apply listens_later. by exists []; rewrite app_nil_r.
  - exists r5. unfold unix_socket, sess, with_sess. rec_simpl_in_goal.
    assert (Hs : forall c r, did s5 c r -> did (s5 <| Sess ::= (fun x => x <| Accept_unix_mbox := fd |>) |>) c r).
    { intros c r. apply did_later. by exists []; rewrite app_nil_r. }
    split_and!; [|by apply Hs|done]. apply Hs. change (Sess_port _) with (Sess_port s5). rewrite <-Ep.
    apply (did_later s3); [apply called_later; eauto using called_trans|done].
Qed.
Lemma unix_grows s s' : grows s s' -> unix_socket s -> unix_socket s'.
Proof.
  intros [Hl [= _ E1 E2]] (r & H1 & H2 & H3). unfold unix_socket, Sess_port in *. rewrite E1, E2. exists r.
  split_and!; [by apply (did_later s)..|done].
Qed.

(** A connection to the socket is accepted. *)
Definition attached s (is_unix : bool) (fd : Z) : Prop := exists r, did s (E_attach_fd fd (Sess_accept_fd is_unix) LOW_PRIORITY) r.
Lemma attached_later s s' b fd : later s s' -> attached s b fd -> attached s' b fd.
Proof. intros H [r Hr]. exists r. by apply (did_later s). Qed.
Definition all_attached s : Prop :=
  Forall (attached s false) (Accept_inet_mbox (sess s)) /\ attached s true (Accept_unix_mbox (sess s)).
Lemma all_attached_grows s s' : grows s s' -> all_attached s -> all_attached s'.
Proof.
  intros [Hl [= E1 E2 _]] [H1 H2]. unfold all_attached. rewrite E1, E2. split; [|by apply (attached_later s)].
  eapply list.Forall_impl; [exact H1|]. intros fd. by apply attached_later.
Qed.

Lemma attach_spec s : wp may_exit Sess_attach_accept (fun _ s' => grows s s' /\ all_attached s') s.
Proof.
  unfold Sess_attach_accept. wp_step. g_step. wp_step.
  eapply wp_mono; [apply (wp_for_each_prefix _ _ _ (fun pre s' => called s s' /\ Forall (attached s' false) pre)); [done|]|].
  - intros pre fd s1 _ [C1 H1]. wp_step. apply wp_did_do. intros r2 s2 C2 D2. apply wp_did_do. intros r3 s3 C3 D3.
    split; [eauto using called_trans|]. apply Forall_app. split; [|constructor; [by exists r3|constructor]].
    eapply list.Forall_impl; [exact H1|]. intros c. apply attached_later, called_later. eauto using called_trans.
  - cbn beta. intros u s1 [C1 H1]. wp_step. g_step. apply wp_did_do. intros r2 s2 C2 D2.
    assert (C12 : called s s2) by eauto using called_trans. pose proof (called_grows _ _ C12) as G12. split; [done|].
    pose proof (called_grows _ _ C2) as [Hl [= E1 E2 _]]. destruct G12 as [_ [= E3 E4 _]]. split.
    + rewrite E3. eapply list.Forall_impl; [exact H1|]. intros c. by apply attached_later.
    + exists r2. by rewrite E2.
Qed.

(** The groups at the start. *)
Definition no_groups s : Prop := Gstate (sess s) = GOP /\ GroupsList (sess s) = [] /\ Num_groups (sess s) = 0 /\
  Cn_active (sess s) = Config s /\ MySyncedSet (sess s) = [id (My s)].
Lemma when_called E b c s0 s : called s0 s -> wp E (when b (ext_do c)) (fun _ s' => called s0 s') s.
Proof.
  intros H. unfold when. destruct b; [|by wp_step]. apply wp_called_do. intros. by eapply called_trans.
Qed.
Lemma threshold_called t s : legal_threshold t = true ->
  wp may_exit (Prot_set_delivery_threshold t) (fun _ s' => called (s <| Prot_delivery_threshold := t |>) s') s.
Proof.
  intros Ht. unfold Prot_set_delivery_threshold, e_dequeue. wp_step. wp_step. wp_step. wp_step; [done|]. wp_step. wp_step.
  destruct (_ <? _); [|destruct (_ <? _); [|by wp_step]];
    (wp_step; eapply wp_mono; [by apply when_called|]; intros u s1 H1; by apply when_called).
Qed.
Lemma G_init_spec s : ring_ok s -> wp may_exit G_init (fun _ s' => grows s s' /\ no_groups s') s.
Proof.
  intros Hok. unfold G_init, copy_active_conf, G_shift_to_GOP, set_gstate. wp_step. wp_step. wp_step. g_step.
  wp_step. wp_step. wp_step. wp_step.
  assert (Ec : Conf_config_copy (Config s) = Some (Config s)) by (apply copy_same; apply Hok).
  change (Config (with_sess _ s)) with (Config s). rewrite Ec. wp_step; [done|]. injection H as <-. g_step.
  wp_step. wp_step. g_step. wp_step.
  eapply wp_mono; [by apply threshold_called|]. intros u s1 [post ->]. split; [|by split_and!]. split; [by exists post|done].
Qed.
End SessInit.

(** ** The start of the sessions *)

Section Start.
Context {L : SpuLib} {R : SessLib} {U : Stdutil} {C : ConfLib}.

(** [Sess_init] starts the daemon, or ends the process: the protocol is as [Prot_init]
    starts it on the channels of [Net_init]; the table of sessions is well-formed and empty; for every
    interface for clients there is, in their order, a socket that is bound to its address - or, for
    the kind ANY, to any - and one in the file system at the daemon's port; connections to
    them are accepted; and the groups are in the state GOP with the active configuration and without a group. *)
Lemma Sess_init_starts (ignore : bool) (reuse : port_reuse) (s : St) : ready s -> armed s = no_timers ->
  wp may_exit (Sess_init ignore reuse) (fun _ s' =>
    (exists s1, MachineRuns.started (Net_init ignore) s1 /\ mach_of s' = mach_of s1) /\
    (Config s', My s') = (Config s, My s) /\
    table_ok (sess s') /\ Sessions_sorted (sess s') = [] /\
    Forall2 (listens s') (filter for_clients (ifc (My s))) (Accept_inet_mbox (sess s')) /\ unix_socket s' /\
    all_attached s' /\ no_groups s') s.
Proof.
  intros Hr Ha. unfold Sess_init, Sess_init_sessions, Prot_init_down_queues, Prot_set_down_queue.
  wp_step. g_step. wp_step. g_step. wp_step. wp_step. wp_step. wp_step.
  match goal with |- wp _ _ _ ?x => set (s0 := x) end.
  assert (ready s0) as Hr0 by (destruct Hr as [[] [] ? ?]; by split; [split|split|..]).
  assert (armed s0 = no_timers) as Ha0 by exact Ha.
  assert (upper s0 = (Config s, My s, sess s0)) as Hu0 by done.
  assert (table_ok (sess s0) /\ Sessions_sorted (sess s0) = []) as Ht0.
  { split; [|done]. by apply empty_table_ok. }
  clearbody s0. wp_step.
  eapply (frame_wp_conj upper); [apply Prot_init_upper|]. apply wp_ran.
  eapply wp_mono; [by apply Prot_init_spec|]. intros u s1 Hifs Erun Eu. rewrite Hu0 in Eu. injection Eu as EC EM ES.
  assert (Hstart : exists s1', MachineRuns.started (Net_init ignore) s1' /\ mach_of s1 = mach_of s1').
  { exists s1. split; [|done]. exists s0. destruct u. by split. }
  wp_step. g_step. wp_step. wp_step.
  match goal with |- wp _ _ _ ?x => set (s2 := x) end.
  assert (below s2 = below s1) as B2 by done. assert (Accept_inet_mbox (sess s2) = []) as E2 by done.
  assert (My s2 = My s1) as EM2 by done. clearbody s2. rewrite EM2.
  wp_step. eapply (frame_wp_conj below); [apply frame_for_each; intros x; apply interface_below|].
  eapply wp_mono; [by apply interfaces_spec|]. intros u3 s3 A3 B3.
  wp_step. eapply (frame_wp_conj below); [apply unix_below|].
  eapply wp_mono; [exact (accept_unix_spec _ _ A3)|]. intros u4 s4 [A4 U4] B4.
  wp_step. eapply (frame_wp_conj below); [apply attach_below|].
  eapply wp_mono; [apply attach_spec|]. intros u5 s5 [G5 T5] B5.
  eapply (frame_wp_conj below); [apply G_init_below|].
  assert (below s5 = below s1) as B by (rewrite B5, B4, B3; exact B2).
  eapply wp_mono; [apply G_init_spec|].
  { injection B as _ _ _ EC5 EM5 _. apply (ring_ok_same s); [congruence..|apply Hr]. }
  intros u6 s6 [G6 N6] B6. rewrite B in B6. unfold below in B6. injection B6 as E61 E62 E63 EC6 EM6 T61 T62 T63 T64 T65.
  assert (tables (sess s6) = tables (sess s0)) as Ht6.
  { unfold tables. rewrite T61, T62, T63, T64, T65. unfold sess. by rewrite ES. }
  assert (grows s4 s6) as G46 by (by eapply grows_trans).
  split; [|split; [congruence|split; [|split; [|split; [|split; [|split]]]]]].
  - destruct Hstart as (s1' & Hs & Em). exists s1'. split; [done|]. rewrite <-Em. unfold mach_of. congruence.
  - apply (table_same (sess s0)); [exact Ht6|apply Ht0].
  - injection Ht6 as _ _ E _ _. rewrite E. apply Ht0.
  - rewrite <-EM. by apply (accepted_grows s4).
  - by apply (unix_grows s4).
  - by apply (all_attached_grows s5).
  - done.
Qed.
End Start.
