(* ===== verification/SpreadProps.v ===== *)
(** * A daemon that was started

    [main] from the command line to the event loop: the configuration is loaded, the access
    file read, protocol, sessions and groups begin, and a process of root has given up its rights. *)

From S2P Require Import Prelude NetTypes Configuration State Network FlowControl SessionLayer Demo Ring.
From S2P Require Import Delivery MembSets TokenLoss Membership Send Token Protocol Machine.
From S2P Require Import Machine MachineProps MachineRuns Stdutil Message SessState Sessions Acm SessAuth.
From S2P Require Import Groups GroupsHandle GroupsDemo AuthProps SessTable ConfigState ConfigParse ConfigLoad ConfigDemo.
From S2P Require Import ConfigDaemon ConfigProps ConfigReload AccessFiles AccessProps NetInit NetInitProps StartProps Spread.
From S2P Require Import StartProps Spread.

Section Load.
Context {L : SpuLib} {R : SessLib} {C : ConfLib}.

(** ** What loading a configuration leaves alone *)

Definition outer (d : St) := (trace d, (Bcast_channel d, Token_channel d), (F_members d, Commit_set d, Potential_reps d),
  (Allow_Rules (sess d), IP_File_Loaded (sess d))).
Definition outside (s : load_st) := outer (daemon s).

Lemma outside_on_daemon {A} (m : M St A) : frame outer m -> frame outside (on_daemon m).
Proof.
  intros H s a s' E. unfold on_daemon in E. destruct (m (daemon s)) as [a' d|] eqn:Em; [|done].
  injection E as _ <-. exact (H _ _ _ Em).
Qed.
Lemma outer_set_method f nm : frame outer (set_method f nm).
Proof. unfold set_method, gget, gset. solve_frame. Qed.
Lemma outer_set_policy nm : frame outer (Acm_acp_set_policy nm).
Proof. unfold Acm_acp_set_policy, gget, gset. solve_frame. Qed.
Hint Resolve outside_on_daemon outer_set_method outer_set_policy : frame.
Lemma outside_set_conf f : (forall d, outer (f d) = outer d) -> frame outside (set_conf f).
Proof. intros H. apply frame_modify. intros s. apply H. Qed.
Hint Extern 1 (frame outside (set_conf _)) => apply outside_set_conf; reflexivity : frame.

Lemma param_outside p : frame outside (param_action p).
Proof.
  unfold param_action, auth_methods_param, Conf_set_dangerous_monitor_state, Conf_set_port_reuse_type, Conf_set_runtime_dir,
    Conf_set_user, Conf_set_group, set_param_if_valid, Conf_set_max_session_messages, Conf_set_active_ip_version, Conf_set_window,
    Conf_set_personal_window, Conf_set_accelerated_ring_flag, Conf_set_accelerated_ring, Conf_set_accelerated_window,
    Conf_set_timeout, Conf_set_wide_area_network_flag, Conf_set_wide_area_network, Conf_set_exclude_seg_addrs_from_hash,
    Conf_set_ignore_multicast_join_errors, Acm_auth_set_enabled, Acm_auth_set_required, Acm_auth_set_disabled.
  solve_frame.
Qed.
Hint Resolve param_outside : frame.

Lemma get_proc_outside i : frame outside (get_proc i).
Proof. unfold get_proc. solve_frame. Qed.
Lemma update_proc_outside i f : frame outside (update_proc i f).
Proof. unfold update_proc, get_proc. solve_frame. Qed.
Lemma get_slot_outside i : frame outside (get_slot i).
Proof. unfold get_slot. solve_frame. Qed.
Lemma update_slot_outside i f : frame outside (update_slot i f).
Proof. unfold update_slot, get_slot. solve_frame. Qed.
Hint Resolve get_proc_outside update_proc_outside get_slot_outside update_slot_outside : frame.

Lemma interface_outside x : frame outside (Interfaceparam x).
Proof. unfold Interfaceparam. solve_frame. Qed.
Lemma segment_address_outside k port j : frame outside (segment_address k port j).
Proof. unfold segment_address. solve_frame. Qed.
Lemma segment_daemon_outside port i : frame outside (segment_daemon port i).
Proof. unfold segment_daemon. solve_frame. Qed.
Lemma publish_outside : frame outside publish.
Proof. unfold publish. solve_frame. Qed.
Hint Resolve interface_outside segment_address_outside segment_daemon_outside publish_outside : frame.

Lemma struct_outside x : frame outside (struct_action x).
Proof.
  unfold struct_action, segment_action, Daemonparam, Daemonname, set_daemon_name_and_addr, daemon_addr, Daemonvid,
    Interfaceparam, Daemoninterfaces, Daemonparam_end, Daemonparam_id, Daemonparam_interfaces, Daemonparam_places,
    SegmentAddresses, set_ports, segment_daemon, segment_port, SegmentStruct_end, Conf_set_active_ip_version.
  solve_frame.
Qed.
Hint Resolve struct_outside : frame.

Lemma Conf_init_outside file ips nm : frame outside (Conf_init file ips nm).
Proof.
  unfold Conf_init, Conf_load_conf_file, parser_init, yyparse, Config_action, append_conf_string, set_my_scope. solve_frame.
Qed.
End Load.

(** ** The rights of root *)

Section Rights.
Context {L : SpuLib} {R : SessLib}.

Lemma wp_traced E (c : call) (Q : Z -> St -> Prop) (s : St) :
  Q (returns (trace s ++ [c])) (s <| trace := trace s ++ [c] |>) -> wp E (ext_call c) Q s.
Proof. intros H. by eapply wp_returns. Qed.

Lemma wp_traced_on E (c : call) (Q : Z -> St -> Prop) (s : St) l :
  Q (returns (trace s ++ (l ++ [c]))) (s <| trace := trace s ++ (l ++ [c]) |>) ->
  wp E (ext_call c) Q (s <| trace := trace s ++ l |>).
Proof. intros H. eapply wp_returns; [reflexivity|]. by rewrite app_assoc in H. Qed.

(** The calls by which root leaves its rights, for the ids of the configured names. *)
Definition rights_given_up (user group dir : string) (gid uid : Z) : list call :=
  map at_start [geteuid; getgrnam group; getpwnam user; chdir dir; chroot dir; setgroups gid; setgid gid; setuid uid].
(** The last calls of [d]: the process is not root's, or it gave up the rights; each of the calls succeeded. *)
Definition unprivileged (user group dir : string) (d : St) : Prop := exists tr post, Forall (fun c => c = at_start Log_init) post /\
  (returns (tr ++ [at_start geteuid]) <> 0 /\ trace d = tr ++ [at_start geteuid] ++ post \/
   returns (tr ++ [at_start geteuid]) = 0 /\ exists gid uid, let calls := rights_given_up user group dir gid uid in
     trace d = tr ++ calls ++ post /\ gid = returns (tr ++ take 2 calls) /\ uid = returns (tr ++ take 3 calls) /\
     forall n, (2 <= n <= 8)%nat -> 0 <= returns (tr ++ take n calls)).

Lemma drop_privileges_spec user group dir s :
  wp may_exit (drop_privileges user group dir) (fun _ s' => called s s' /\ unprivileged user group dir s') s.
Proof.
  unfold drop_privileges. wp_step. apply wp_traced. unfold when.
  apply wp_if; intros E; bools_to_props.
  2:{ wp_step. split; [by exists [at_start geteuid]|]. exists (trace s), []. split; [constructor|]. left. by rewrite app_nil_r. }
  do 6 (wp_step; apply wp_traced_on; cbn [app]; wp_step; wp_step; [done|]; bools_to_props).
  wp_step. apply wp_traced_on. cbn [app]. wp_step; [done|]. bools_to_props.
  split; [by eexists|]. exists (trace s), []. split; [constructor|]. right. split; [done|].
  eexists _, _. cbn zeta. rewrite app_nil_r. split; [reflexivity|]. split; [done|]. split; [done|].
  intros n Hn. do 9 (destruct n as [|n]; [try lia; done|]). lia.
Qed.
End Rights.

(** ** [main] *)

Section Main.
Context {L : SpuLib} {R : SessLib} {U : Stdutil} {C : ConfLib}.
Context (conf_file_at : string -> conf_file) (access_ip : option (list Z)) (ips : list spu_addr).
Context (hash_of_time hash_of_id : Z -> Z).

(** The variables as the process finds them. *)
Record fresh (s : load_st) : Prop := {
  fr_ip : Conf_Active_IP_Version s = -1;
  fr_trace : trace (daemon s) = [];
  fr_bcast : Bcast_channel (daemon s) = [];
  fr_token : Token_channel (daemon s) = [];
  fr_arrays : arrays_ok (daemon s);
  fr_methods : Auth_Methods (sess (daemon s)) = [];
  fr_rules : Allow_Rules (sess (daemon s)) = []
}.
(** The file of the access control holds these items, or there is none. *)
Definition access_file (items : list ip_item) : Prop :=
  match access_ip with
  | None => items = []
  | Some b => exists rest, b = ip_text items ++ rest /\ Forall item_ok items /\ (rest = [] \/ exists r, rest = 10 :: r)
  end.

Definition rules_of (d : St) := (Allow_Rules (sess d), IP_File_Loaded (sess d)).
Lemma rules_keep {A} (m : M St A) d : frame rules_of m -> wp may_exit m (fun _ _ => True) d ->
  wp may_exit m (fun _ d' => rules_of d' = rules_of d) d.
Proof. intros Hf Hm. eapply (frame_wp_conj rules_of); [done|]. by eapply wp_mono; [exact Hm|]. Qed.

Lemma permit_keeps d : wp may_exit permit_init (fun _ d' => rules_of d' = rules_of d) d.
Proof.
  unfold permit_init, Acm_acp_add_method. wp_step. wp_step. g_step. wp_step; [wp_step; by wp_step|].
  wp_step. g_step. wp_step. by wp_step.
Qed.
Lemma Acm_init_keeps d : wp may_exit Acm_init (fun _ d' => rules_of d' = rules_of d) d.
Proof.
  apply rules_keep; [unfold Acm_init, Acm_auth_set_enabled, set_method, Acm_acp_set_policy, gget, gset; solve_frame|].
  unfold Acm_init. wp_step. eapply wp_mono; [apply set_method_returns|]. intros b d1 _.
  wp_step. eapply wp_mono; [apply set_policy_returns|]. intros ok d2 _. by wp_step.
Qed.

Lemma access_spec items d : access_file items -> Auth_Methods (sess d) = [] -> Allow_Rules (sess d) = [] ->
  wp may_exit (null_init;; ip_init access_ip;; permit_init;; Acm_init) (fun _ d' =>
    rules_of d' = (rev (concat (map item_rules items)), bool_decide (is_Some access_ip))) d.
Proof.
  intros Hf Ha Hr. wp_step.
  apply (wp_mono _ _ (fun _ d1 => Allow_Rules (sess d1) = [] /\ Z.of_nat (length (Auth_Methods (sess d1))) < MAX_AUTH_METHODS)).
  { unfold null_init, Acm_auth_add_method. wp_step. wp_step. g_step. rewrite Ha. cbn [length app].
    wp_step; [wp_step; by wp_step|]. wp_step. g_step. wp_step. by wp_step. }
  intros u d1 [Hr1 Hl1]. wp_step.
  apply (wp_mono _ _ (fun _ d2 => rules_of d2 = (rev (concat (map item_rules items)), bool_decide (is_Some access_ip)))).
  { unfold access_file in Hf. destruct access_ip as [b|].
    - destruct Hf as (rest & -> & Hi & Hrest). eapply wp_mono; [by apply wp_total_exit, ip_init_state|].
      cbn beta. intros u2 d2 (E1 & _ & E2). unfold rules_of. by rewrite E1, E2, Hr1, app_nil_r.
    - subst items. unfold ip_init, Acm_auth_add_method. wp_step. wp_step. g_step.
      wp_step; [bools_to_props; lia|]. wp_step. g_step. wp_step. wp_step. wp_step; [done|]. g_step.
      unfold rules_of, sess, with_sess in *. rec_simpl_in_goal. by rewrite Hr1. }
  intros u2 d2 E2. wp_step. eapply wp_mono; [apply permit_keeps|]. intros u3 d3 E3.
  eapply wp_mono; [apply Acm_init_keeps|]. intros u4 d4 E4. congruence.
Qed.

(** Before [Sess_init]. *)
Definition early (d : St) := (armed d, (Config d, My d), (Bcast_channel d, Token_channel d),
  (F_members d, Commit_set d, Potential_reps d), rules_of d).
Lemma early_ready d d' : early d' = early d -> ready d -> ready d'.
Proof.
  intros [= _ EC EM EB ET EF Ec EP _ _] [Hr [] ? ?]. split; [by apply (ring_ok_same d)| |congruence|congruence].
  split; congruence.
Qed.
Lemma early_call c : (forall t, arm t c = t) -> frame early (ext_call c).
Proof.
  intros H s a s' [= _ <-]. unfold early, armed. rec_simpl_in_goal. rewrite foldl_app. cbn [foldl]. by rewrite H.
Qed.
Lemma early_do c : (forall t, arm t c = t) -> frame early (ext_do c).
Proof. intros H. unfold ext_do. apply frame_bind; [by apply early_call|]. intros. apply frame_ret. Qed.
Hint Extern 1 (frame early (ext_call _)) => apply early_call; by intros [] : frame.
Hint Extern 1 (frame early (ext_do _)) => apply early_do; by intros [] : frame.

Lemma seed_early d : wp may_exit (seed_rand hash_of_time hash_of_id) (fun _ d' => early d' = early d) d.
Proof.
  apply (frame_wp_conj early); [unfold seed_rand; solve_frame|]. unfold seed_rand. wp_step. apply wp_called. intros r d1 _.
  wp_step. wp_step. apply wp_called_do. by intros.
Qed.
Lemma check_early d : wp may_exit check_socket_dir (fun _ d' => early d' = early d) d.
Proof.
  apply (frame_wp_conj early); [unfold check_socket_dir; solve_frame|]. unfold check_socket_dir, when. wp_step.
  apply wp_called. intros r d1 _. apply wp_if; intros _; [|by wp_step]. wp_step. apply wp_called. intros r2 d2 _. by wp_step.
Qed.
Lemma Sess_init_rules ignore reuse : frame rules_of (Sess_init ignore reuse).
Proof.
  assert (frame rules_of (Prot_init (Net_init ignore))) as HP.
  { intros s a s' E. pose proof (Prot_init_upper ignore s a s' E) as [= _ _ H]. unfold rules_of, sess. by rewrite H. }
  unfold Sess_init, Sess_init_sessions, Prot_init_down_queues, Prot_set_down_queue, accept_interface, accept_unix,
    Sess_attach_accept, G_init, copy_active_conf, G_shift_to_GOP, set_gstate, Prot_set_delivery_threshold,
    Sess_activate_port_reuse, add_accept_inet, gget, gset. solve_frame.
Qed.

(** ** The daemon that runs *)

(** Protocol, sessions and groups of a daemon that is about to handle its first event. *)
Record running (ignore : bool) (d : St) : Prop := {
  ru_protocol : exists d1, MachineRuns.started (Net_init ignore) d1 /\ mach_of d = mach_of d1;
  ru_table : table_ok (sess d) /\ Sessions_sorted (sess d) = [];
  ru_clients : Forall2 (listens d) (filter for_clients (ifc (My d))) (Accept_inet_mbox (sess d));
  ru_unix : unix_socket d;
  ru_attached : all_attached d;
  ru_groups : no_groups d
}.
Lemma running_called ignore d d' : called d d' -> mach_of d' = mach_of d -> running ignore d -> running ignore d'.
Proof.
  intros Hc Em [H1 H2 H3 H4 H5 H6]. pose proof (called_grows _ _ Hc) as G. split.
  - destruct H1 as (d1 & Hs & E). exists d1. split; [done|congruence].
  - by destruct Hc as [p ->].
  - assert (My d' = My d) as -> by by destruct Hc as [p ->]. by apply (accepted_grows d).
  - by apply (unix_grows d).
  - by apply (all_attached_grows d).
  - by destruct Hc as [p ->].
Qed.
Lemma unprivileged_log user group dir d : unprivileged user group dir d ->
  unprivileged user group dir (d <| trace := trace d ++ [at_start Log_init] |>).
Proof.
  intros (tr & post & Hp & H). exists tr, (post ++ [at_start Log_init]). split.
  { apply Forall_app. split; [done|by constructor]. }
  rec_simpl_in_goal. destruct H as [[E ->]|(E & gid & uid & -> & H)]; [left|right]; (split; [done|]).
  - by rewrite <-!app_assoc.
  - exists gid, uid. split; [by rewrite <-!app_assoc|done].
Qed.

Lemma Sess_init_running ignore reuse d : ready d -> armed d = no_timers ->
  wp may_exit (Sess_init ignore reuse) (fun _ d' =>
    running ignore d' /\ Config d' = Config d /\ My d' = My d /\ rules_of d' = rules_of d) d.
Proof.
  intros Hr Ha. eapply (frame_wp_conj rules_of); [apply Sess_init_rules|].
  eapply wp_mono; [by apply Sess_init_starts|]. cbn beta.
  intros u d' (H1 & [= EC EM] & H2 & H3 & H4 & H5 & H6 & H7) Er. split_and!; [|done..]. rewrite <-EM in H4. by split.
Qed.

(** From the report channel on, the daemon only makes calls. *)
Lemma Stat_init_called d : wp may_exit Stat_init (fun _ d' => called d d' /\ mach_of d' = mach_of d) d.
Proof.
  eapply (frame_wp_conj mach_of); [unfold Stat_init; solve_frame|]. unfold Stat_init. wp_step. wp_step. wp_step.
  apply wp_called. intros r d1 C1. apply wp_called_do. intros d2 C2 E. split; [by eapply called_trans|done].
Qed.
Lemma rights_mach user group dir : frame mach_of (drop_privileges user group dir).
Proof. unfold drop_privileges. solve_frame. Qed.

Lemma wp_on_daemon {A} E (m : M St A) (Q : A -> load_st -> Prop) s :
  wp E m (fun a d => Q a (s <| daemon := d |>)) (daemon s) -> wp E (on_daemon m) Q s.
Proof. Transparent wp. unfold wp, on_daemon. by destruct (m (daemon s)). Opaque wp. Qed.
Lemma loaded_daemon s d : Config d = Config (daemon s) -> My d = My (daemon s) -> loaded s -> loaded (s <| daemon := d |>).
Proof.
  intros EC EM [Hl H1 H2 H3 H4 H5 H6]. split; rec_simpl_in_goal; rewrite ?EC, ?EM; try done. by destruct Hl.
Qed.
Lemma loaded_ready s : loaded s -> arrays_ok (daemon s) -> Bcast_channel (daemon s) = [] -> Token_channel (daemon s) = [] ->
  ready (daemon s).
Proof.
  intros H Ha Hb Ht. split; [|done..]. split; [apply H|apply H|apply (ld_identified _ H)|apply H|].
  destruct (ld_my _ H) as (p & Hp & _ & E1 & E2). by exists p.
Qed.

(** The end of [main], on the variables of the daemon. *)
Lemma main_daemon ignore reuse n user group dir (log : bool) d : ready d -> armed d = no_timers ->
  wp may_exit (
    gset (fun x => x <| MaxSessionMessages := n |>);; ext_do (at_start E_init);; seed_rand hash_of_time hash_of_id;;
    check_socket_dir;; Sess_init ignore reuse;; Stat_init;; drop_privileges user group dir;; when log (ext_do (at_start Log_init)))
    (fun _ d' => running ignore d' /\ unprivileged user group dir d' /\
      Config d' = Config d /\ My d' = My d /\ rules_of d' = rules_of d) d.
Proof.
  intros Hr Ha. wp_step. g_step.
  match goal with |- wp _ _ _ ?x => assert (early x = early d) as E1 by done; generalize x, E1 end. intros d1 Ed1.
  wp_step. eapply (frame_wp_conj early); [solve_frame|]. apply wp_called_do. intros d2 _ Ed2.
  wp_step. eapply wp_mono; [apply seed_early|]. intros u3 d3 Ed3. wp_step. eapply wp_mono; [apply check_early|]. intros u4 d4 Ed4.
  assert (early d4 = early d) as Ed by congruence.
  wp_step. eapply wp_mono; [apply Sess_init_running; [by apply (early_ready d)|injection Ed; congruence]|].
  intros u5 d5 (Hrun & EC & EM & ER). injection Ed as _ EC4 EM4 _ _ _ _ _ ER1 ER2.
  wp_step. eapply wp_mono; [apply Stat_init_called|]. intros u6 d6 [C6 M6].
  wp_step. eapply (frame_wp_conj mach_of); [apply rights_mach|]. eapply wp_mono; [apply drop_privileges_spec|].
  intros u7 d7 [C7 Hu] M7. assert (called d5 d7) as C57 by by eapply called_trans.
  assert (Hrun7 : running ignore d7) by (apply (running_called ignore d5); [done|congruence|done]).
  assert (Hend : Config d7 = Config d /\ My d7 = My d /\ rules_of d7 = rules_of d).
  { destruct C57 as [p ->]. rec_simpl_in_goal. split; [congruence|]. split; [congruence|].
    change (rules_of d5 = rules_of d). rewrite ER. unfold rules_of. congruence. }
  unfold when. destruct log; [|by wp_step]. eapply (frame_wp_conj mach_of); [solve_frame|].
  unfold ext_do. wp_step. apply wp_traced. wp_step. intros M8.
  split; [by apply (running_called ignore d7); [by eexists|..]|]. split; [by apply unprivileged_log|exact Hend].
Qed.

(** The configuration file the command line names is larger than the arrays. *)
Definition too_large (argv : list string) : Prop :=
  match Usage argv with Some u => too_many (conf_file_at (Config_file u)) | None => False end.

Context (Hfamily : forall a, spu_addr_family a <> -1).
Definition still (d : St) := (trace d, (Bcast_channel d, Token_channel d), (F_members d, Commit_set d, Potential_reps d)).
Lemma still_insert n p : frame still (insert_ip_rule n p).
Proof. unfold insert_ip_rule, gset. solve_frame. Qed.
Hint Resolve still_insert : frame.
Lemma still_lines ls : frame still (ip_lines ls).
Proof. induction ls as [|l ls IH]; cbn [ip_lines]; unfold ip_line; solve_frame. Qed.
Hint Resolve still_lines : frame.
Lemma access_still : frame still (null_init;; ip_init access_ip;; permit_init;; Acm_init).
Proof.
  unfold null_init, ip_init, permit_init, Acm_init, Acm_auth_add_method, Acm_acp_add_method, Acm_auth_set_enabled,
    set_method, Acm_acp_set_policy, gget, gset. solve_frame.
Qed.
Lemma wp_exit_refused {S A} Big (m : M S A) Q (s : S) : wp may_exit m Q s -> wp (refused Big) m Q s.
Proof. Transparent wp. unfold wp, may_exit, refused. destruct (m s); [done|]. intros ->. by left. Opaque wp. Qed.

Lemma main_spec argv items s : fresh s -> access_file items ->
  wp (refused (too_large argv)) (main conf_file_at access_ip ips hash_of_time hash_of_id argv) (fun _ s' =>
    loaded s' /\ running (IgnoreMulticastJoinErrors s') (daemon s') /\
    unprivileged (Conf_get_user s') (Conf_get_group s') (Conf_get_runtime_dir s') (daemon s') /\
    rules_of (daemon s') = (rev (concat (map item_rules items)), bool_decide (is_Some access_ip))) s.
Proof.
  intros Hf Hitems. unfold main, too_large. wp_step. wp_step; [by left|]. rename a into u. rewrite H.
  destruct Hf as [Hip Htr Hb Ht Hm Hau Hru].
  wp_step. apply wp_on_daemon. eapply (frame_wp_conj still); [apply access_still|].
  eapply wp_mono; [apply wp_exit_refused, (access_spec items); done|]. intros u2 d1 Er1 Ed1.
  set (s1 := s <| daemon := d1 |>). wp_step. eapply (frame_wp_conj outside); [apply Conf_init_outside|].
  eapply wp_mono; [by apply init_spec; [|left]|]. intros u3 s2 Hl [= Etr Eb Et EF Ec EP Er2 Er3].
  injection Ed1 as Etr1 Eb1 Et1 EF1 Ec1 EP1. injection Er1 as Er4 Er5.
  assert (ready (daemon s2)) as Hr2.
  { apply loaded_ready; [done| |rewrite Eb; exact (eq_trans Eb1 Hb)|rewrite Et; exact (eq_trans Et1 Ht)].
    destruct Hm. split; [by rewrite EF; cbn; rewrite EF1|by rewrite Ec; cbn; rewrite Ec1|by rewrite EP; cbn; rewrite EP1]. }
  wp_step. wp_step. apply wp_on_daemon. eapply wp_mono; [apply wp_exit_refused, main_daemon; [done|]|].
  { unfold armed. rewrite Etr. cbn. by rewrite Etr1, Htr. }
  intros u4 d4 (H1 & H2 & EC & EM & ER). split; [by apply loaded_daemon|]. split; [exact H1|]. split; [exact H2|].
  rec_simpl_in_goal. rewrite ER. unfold rules_of. rewrite Er2, Er3. unfold s1. rec_simpl_in_goal. by rewrite Er4, Er5.
Qed.
End Main.

(** ** What [main] promises *)

(** C19. [main] brings the daemon to its event loop or ends the process (on an error, or past the
    arrays when the file of the configuration is larger than they are): the configuration is well-formed and the
    daemon is in it; the clients that are allowed are those of the access file; the protocol is as
    [Prot_init] starts it - so that what holds in all reachable states holds from here on -, the
    table of sessions well-formed and empty, a socket open for every interface for
    clients and accepted from, and the groups in the state GOP. *)
Theorem main_starts {L : SpuLib} {R : SessLib} {U : Stdutil} {C : ConfLib}
    (conf_file_at : string -> conf_file) (access_ip : option (list Z)) (ips : list spu_addr)
    (hash_of_time hash_of_id : Z -> Z) (argv : list string) (items : list ip_item) (s : load_st) :
  (forall a, spu_addr_family a <> -1) -> fresh s -> access_file access_ip items ->
  wp (refused (too_large conf_file_at argv)) (main conf_file_at access_ip ips hash_of_time hash_of_id argv) (fun _ s' =>
    loaded s' /\ running (IgnoreMulticastJoinErrors s') (daemon s') /\
    Allow_Rules (sess (daemon s')) = rev (concat (map item_rules items))) s.
Proof.
  intros Hf Hs Ha. eapply wp_mono; [by apply main_spec|]. cbn beta. intros u s' (H1 & H2 & _ & E).
  split; [done|]. split; [done|]. by injection E.
Qed.

(** C20. A process of root does not handle an event with its rights: the last calls of [main], but
    for the start of the log, leave them for the user, the group and the directory of the configuration, in
    the order that works - groups before user, the directory changed to before it is the root -, and
    each of them succeeded. *)
Theorem root_gives_up_rights {L : SpuLib} {R : SessLib} {U : Stdutil} {C : ConfLib}
    (conf_file_at : string -> conf_file) (access_ip : option (list Z)) (ips : list spu_addr)
    (hash_of_time hash_of_id : Z -> Z) (argv : list string) (items : list ip_item) (s : load_st) :
  (forall a, spu_addr_family a <> -1) -> fresh s -> access_file access_ip items ->
  wp (refused (too_large conf_file_at argv)) (main conf_file_at access_ip ips hash_of_time hash_of_id argv) (fun _ s' =>
    unprivileged (Conf_get_user s') (Conf_get_group s') (Conf_get_runtime_dir s') (daemon s')) s.
Proof. intros Hf Hs Ha. eapply wp_mono; [by apply main_spec|]. by intros u s' (_ & _ & H & _). Qed.

(** * A daemon that starts

    The configuration [file_ac] and an access file, on a machine where every call succeeds; the
    process is root's. *)

Definition start_lib : @SessLib demo_lib := {|
  returns tr := match last tr with
    | Some (at_start (socket _)) | Some (at_start (DL_init_channel_gen _ _)) => 10 + Z.of_nat (length tr)
    | Some (at_start (getgrnam _)) => 50 | Some (at_start (getpwnam _)) => 60
    | _ => 0 end;
  received _ := []; accepted _ := None; crypt p salt := salt ++ p; MAX_SESSIONS := 100 |}.
#[local] Existing Instance start_lib | 0.
#[local] Existing Instance session_ext | 0.

Definition start_sess : sess_st := demo_sess <| Auth_Methods := [] |> <| ACP_Methods := [] |> <| Allow_Rules := [] |>.
Definition start_load : @load_st demo_lib (@session_ext _ start_lib) := {|
  daemon := (demo_with (X := @session_ext _ start_lib) start_sess demo_conf demo_a) <| Bcast_channel := [] |> <| Token_channel := [] |>
    <| trace := [] |>;
  c_hash_code := 0; c_num_segments := 0; c_num_total_procs := 0; c_allprocs := []; c_segments := [];
  n_procs := 0; segment_procs := 0; segment_addrs := 0; n_segments := 0; procs_interfaces := 0;
  authentication_configured := false; ConfStringRep := ""; SocketPortReuse := PORT_REUSE_AUTO;
  RuntimeDir := None; User := None; Group := None; conf_MaxSessionMessages := 1000;
  ExcludeSegAddrsFromHash := false; IgnoreMulticastJoinErrors := false; Conf_MyName := None;
  Conf_Active_IP_Version := -1 |}.

Definition start_main := main (R := start_lib) (fun _ => file_ac) (Some (ip_text demo_items ++ demo_rest)) demo_ips
  (fun t => t) (fun i => i) ["-n"; "a"; "-l"; "y"]%string.

Definition start_view (s : @load_st demo_lib (@session_ext _ start_lib)) :=
  (Accept_inet_mbox (sess (daemon s)), Accept_unix_mbox (sess (daemon s)), Bcast_channel (daemon s), Token_channel (daemon s),
   Allow_Rules (sess (daemon s)), length (trace (daemon s))).
(** One socket for clients, one in the file system; a channel each for packets and for tokens. *)
Definition start_seen := ([31], 34, [16], [18], [(0x0a010200, 24); (0x7f000000, 8); (0, 32)], 44%nat).
Example start_runs : start_view <$> ended (start_main start_load) = Some start_seen.
Proof. vm_compute. reflexivity. Qed.

Lemma start_fresh : fresh start_load.
Proof.
  split; [reflexivity..| |reflexivity|reflexivity].
  split; [vm_compute; lia|vm_compute; lia|]. split; [reflexivity|]. vm_compute. split; congruence.
Qed.
Lemma demo_items_ok : Forall item_ok demo_items.
Proof.
  repeat constructor; unfold byte; try lia; try (vm_compute; lia). vm_compute. intros H.
  by repeat (inversion H as [|? ? ? H']; clear H; rename H' into H).
Qed.
Lemma start_access : access_file (Some (ip_text demo_items ++ demo_rest)) demo_items.
Proof. exists demo_rest. split; [reflexivity|]. split; [exact demo_items_ok|]. right. by eexists. Qed.

Lemma main_starts_witness : exists s', start_main start_load = Ok tt s' /\ loaded s' /\ running (IgnoreMulticastJoinErrors s') (daemon s') /\
  Accept_inet_mbox (sess (daemon s')) = [31].
Proof.
  pose proof start_runs as Ev.
  pose proof (main_starts (R := start_lib) (fun _ => file_ac) (Some (ip_text demo_items ++ demo_rest)) demo_ips
    (fun t => t) (fun i => i) ["-n"; "a"; "-l"; "y"]%string demo_items start_load demo_family start_fresh start_access) as H.
  change (wp (refused (too_large (fun _ => file_ac) ["-n"; "a"; "-l"; "y"]%string)) start_main (fun _ s' =>
    loaded s' /\ running (IgnoreMulticastJoinErrors s') (daemon s') /\
    Allow_Rules (sess (daemon s')) = rev (concat (map item_rules demo_items))) start_load) in H.
  destruct (start_main start_load) as [[] s'|] eqn:E; [|discriminate Ev].
  exists s'. pose proof (wp_ok _ _ _ _ _ _ H E) as (H1 & H2 & _).
  split; [reflexivity|]. split; [exact H1|]. split; [exact H2|]. clear -Ev.
  cbn [fmap option_fmap option_map ended] in Ev. unfold start_view, start_seen in Ev. injection Ev as Ev _. exact Ev.
Defined.

(** The last calls, from the [geteuid]. *)
Definition last_calls (s : @load_st demo_lib (@session_ext _ start_lib)) := drop 35 (trace (daemon s)).
Example start_last_calls : last_calls <$> ended (start_main start_load) =
  Some (rights_given_up (L := demo_lib) SP_USER SP_GROUP SP_RUNTIME_DIR 50 60 ++ [at_start Log_init]).
Proof. vm_compute. reflexivity. Qed.

Lemma root_gives_up_rights_witness : exists s', start_main start_load = Ok tt s' /\
  last_calls s' = rights_given_up (L := demo_lib) SP_USER SP_GROUP SP_RUNTIME_DIR 50 60 ++ [at_start Log_init] /\
  unprivileged (Conf_get_user s') (Conf_get_group s') (Conf_get_runtime_dir s') (daemon s').
Proof.
  pose proof start_last_calls as Ev.
  pose proof (root_gives_up_rights (R := start_lib) (fun _ => file_ac) (Some (ip_text demo_items ++ demo_rest)) demo_ips
    (fun t => t) (fun i => i) ["-n"; "a"; "-l"; "y"]%string demo_items start_load demo_family start_fresh start_access) as H.
  change (wp (refused (too_large (fun _ => file_ac) ["-n"; "a"; "-l"; "y"]%string)) start_main (fun _ s' =>
    unprivileged (Conf_get_user s') (Conf_get_group s') (Conf_get_runtime_dir s') (daemon s')) start_load) in H.
  destruct (start_main start_load) as [[] s'|] eqn:E; [|discriminate Ev].
  exists s'. split; [reflexivity|]. split; [|exact (wp_ok _ _ _ _ _ _ H E)]. clear -Ev.
  cbn [fmap option_fmap option_map ended] in Ev. injection Ev as Ev. exact Ev.
Defined.
